(** * Ingestion core of the Brain repository: watcher, email parser, staging

    A shallow embedding of [src/ingestion/watcher.js] and of the email parser
    ([parseEmail], [saveAttachments]), and the properties the specification
    states about them.
    The second half adds the extractors, the life cycle of the watcher
    ([startWatcher], [restartWatcher], [getWatcher]) and the routes of the
    server that call it, with further properties of all of them.

    Conventions of the embedding.
    - A JavaScript string is a [string]: a sequence of character codes below
      256.  Whitespace ([\s], [trim]) and line terminators are the ones with
      such a code.
    - A value that may be [undefined]/[null] is an [option]; JavaScript
      truthiness of an optional string is [truthy].
    - A function that may throw returns a [result]; [Throw] carries the
      message of the error.  A computation that contains a loop is given a
      bound on its iterations and returns an [outcome], which can also be
      [OutOfFuel].
    - One run of the asynchronous [add] handler is modelled as one atomic
      state transformer on the [World]: interleavings of two runs at their
      [await] points are outside the model.
    - The clock is read anew for each record that needs the time; the
      reading taken for the record of id [id] is [nowISO id].
    - The file system refuses a name of more than 255 bytes, a path of more
      than 4095 bytes and a path with a NUL character, as Linux does. *)

From Stdlib Require Import ZArith Ascii String List Lia.
From stdpp Require Import gmap strings list pretty.

Open Scope string_scope.
Open Scope list_scope.

(* ===================================================================== *)
(** ** Strings *)
(* ===================================================================== *)

Module Str.

Definition code (c : ascii) : nat := nat_of_ascii c.

Definition eqc (a b : ascii) : bool := bool_decide (a = b).

Definition lowerChar (c : ascii) : ascii :=
  if ((65 <=? code c) && (code c <=? 90))%nat then ascii_of_nat (code c + 32) else c.

(** [String.prototype.toLowerCase], on the letters A-Z. *)
Fixpoint toLowerCase (s : string) : string :=
  match s with
  | "" => ""
  | String c r => String (lowerChar c) (toLowerCase r)
  end.

(** [\s] of a regular expression, which is also what [trim] removes:
    TAB, LF, VT, FF, CR, space and the no-break space. *)
Definition isSpace (c : ascii) : bool :=
  (((9 <=? code c) && (code c <=? 13)) || (code c =? 32) || (code c =? 160))%nat.

(** Line terminators, which [.] of a regular expression does not match. *)
Definition isLineTerminator (c : ascii) : bool :=
  ((code c =? 10) || (code c =? 13))%nat.

Fixpoint trimStart (s : string) : string :=
  match s with
  | "" => ""
  | String c r => if isSpace c then trimStart r else s
  end.

Definition trimEnd (s : string) : string :=
  String.rev (trimStart (String.rev s)).

Definition trim (s : string) : string := trimEnd (trimStart s).

Definition isEmpty (s : string) : bool :=
  match s with "" => true | _ => false end.

Definition eqb (a b : string) : bool := bool_decide (a = b).

(** [Array.prototype.includes] on an array of strings. *)
Definition includes (x : string) (l : list string) : bool :=
  bool_decide (x ∈ l).

(** [String.prototype.split] with a one-character separator. *)
Fixpoint split (sep : ascii) (s : string) : list string :=
  match s with
  | "" => [""]
  | String c r =>
      if eqc c sep then "" :: split sep r
      else match split sep r with
           | h :: t => String c h :: t
           | [] => [String c ""]
           end
  end.

(** [Array.prototype.join]. *)
Fixpoint join (sep : string) (l : list string) : string :=
  match l with
  | [] => ""
  | [x] => x
  | x :: r => x +:+ sep +:+ join sep r
  end.

(** [s.substring(0, n)]. *)
Fixpoint take (n : nat) (s : string) : string :=
  match n, s with
  | S k, String c r => String c (take k r)
  | _, _ => ""
  end.

Fixpoint all (f : ascii -> bool) (s : string) : bool :=
  match s with
  | "" => true
  | String c r => f c && all f r
  end.

Fixpoint map (f : ascii -> ascii) (s : string) : string :=
  match s with
  | "" => ""
  | String c r => String (f c) (map f r)
  end.

Definition startsWith (p s : string) : bool := String.prefix p s.

(** [String.prototype.repeat] on a string of one character. *)
Fixpoint repeat (c : ascii) (n : nat) : string :=
  match n with
  | O => ""
  | S k => String c (repeat c k)
  end.

(** The last character of [s], if it has one. *)
Fixpoint lastChar (s : string) : option ascii :=
  match s with
  | "" => None
  | String c "" => Some c
  | String _ r => lastChar r
  end.

End Str.

(** JavaScript truthiness of a value that is a string or [undefined]. *)
Definition truthy (v : option string) : bool :=
  match v with
  | Some s => negb (Str.isEmpty s)
  | None => false
  end.

(** [a || b] on such values, where [b] is a string. *)
Definition orElse (a : option string) (b : string) : string :=
  match a with
  | Some s => if Str.isEmpty s then b else s
  | None => b
  end.

(* ===================================================================== *)
(** ** Regular expressions

    The fragment of JavaScript regular expressions the sources use, with
    the backtracking semantics of the language: alternatives are tried in
    order, [*] and [+] are greedy, [*?] is lazy.  Repetition is only ever
    applied to a character class in the sources, so [Star] and [LazyStar]
    take a class. *)
(* ===================================================================== *)

Module Regex.

Inductive t : Type :=
| Chr (c : ascii)                  (* a literal character *)
| Set_ (f : ascii -> bool)         (* a character class *)
| Seq (r1 r2 : t)
| Alt (r1 r2 : t)
| Star (f : ascii -> bool)         (* [c*], greedy *)
| LazyStar (f : ascii -> bool)     (* [c*?] *)
| Bol                              (* [^] *)
| Eol.                             (* [$] *)

(** A literal string. *)
Fixpoint Lit (s : string) (k : t) : t :=
  match s with
  | "" => k
  | String c r => Seq (Chr c) (Lit r k)
  end.

Definition Eps : t := Star (fun _ => false).
Definition Plus (f : ascii -> bool) : t := Seq (Set_ f) (Star f).
Definition Dot : ascii -> bool := fun c => negb (Str.isLineTerminator c).
Definition OneOf (s : string) : ascii -> bool :=
  fun c => negb (Str.all (fun d => negb (Str.eqc c d)) s).
Definition NoneOf (s : string) : ascii -> bool := fun c => negb (OneOf s c).
Definition AnyChar : ascii -> bool := fun _ => true.

Section Match.
(** The [i] flag. *)
Variable ignoreCase : bool.

Definition sameChar (a c : ascii) : bool :=
  if ignoreCase then Str.eqc (Str.lowerChar a) (Str.lowerChar c)
  else Str.eqc a c.

(** [run r atStart s k]: match [r] at the front of [s], then continue
    with [k] on what is left; [atStart] tells whether [s] is the whole
    input.  The result is the input left after the whole match. *)
Fixpoint run (r : t) (atStart : bool) (s : string)
    (k : bool -> string -> option string) : option string :=
  match r with
  | Chr c =>
      match s with
      | String a rest => if sameChar a c then k false rest else None
      | "" => None
      end
  | Set_ f =>
      match s with
      | String a rest => if f a then k false rest else None
      | "" => None
      end
  | Seq r1 r2 => run r1 atStart s (fun b s' => run r2 b s' k)
  | Alt r1 r2 =>
      match run r1 atStart s k with
      | Some x => Some x
      | None => run r2 atStart s k
      end
  | Star f =>
      (fix go (b : bool) (s : string) : option string :=
         match s with
         | String a rest =>
             if f a then
               match go false rest with
               | Some x => Some x
               | None => k b s
               end
             else k b s
         | "" => k b s
         end) atStart s
  | LazyStar f =>
      (fix go (b : bool) (s : string) : option string :=
         match k b s with
         | Some x => Some x
         | None =>
             match s with
             | String a rest => if f a then go false rest else None
             | "" => None
             end
         end) atStart s
  | Bol => if atStart then k atStart s else None
  | Eol => if Str.isEmpty s then k atStart s else None
  end.

(** The match of [r] that starts exactly here, if any. *)
Definition matchHere (r : t) (atStart : bool) (s : string) : option string :=
  run r atStart s (fun _ rest => Some rest).

Fixpoint testFrom (r : t) (atStart : bool) (s : string) : bool :=
  match matchHere r atStart s with
  | Some _ => true
  | None =>
      match s with
      | String _ rest => testFrom r false rest
      | "" => false
      end
  end.

(** [r.test(s)]. *)
Definition test (r : t) (s : string) : bool := testFrom r true s.

(** [s.replace(r, rep)] with the [g] flag: [skip] counts the characters
    of the current match still to be dropped. *)
Fixpoint replaceFrom (r : t) (rep : string) (skip : nat) (atStart : bool)
    (s : string) : string :=
  match skip with
  | S n =>
      match s with
      | String _ rest => replaceFrom r rep n false rest
      | "" => ""
      end
  | O =>
      match matchHere r atStart s with
      | Some remaining =>
          match String.length s - String.length remaining, s with
          | S n, String _ rest => rep +:+ replaceFrom r rep n false rest
          | O, String c rest => rep +:+ String c (replaceFrom r rep 0 false rest)
          | _, "" => rep
          end
      | None =>
          match s with
          | String c rest => String c (replaceFrom r rep 0 false rest)
          | "" => ""
          end
      end
  end.

Definition replaceAll (r : t) (rep : string) (s : string) : string :=
  replaceFrom r rep 0 true s.

End Match.

End Regex.

(* ===================================================================== *)
(** ** Node's [path] module (POSIX flavour) *)
(* ===================================================================== *)

Module Path.

Definition sep : ascii := "/"%char.

Definition nonEmpty (s : string) : bool := negb (Str.isEmpty s).

(** [path.basename(p)]: the last component, trailing separators dropped. *)
Definition basename (p : string) : string :=
  default "" (last (filter (fun s => nonEmpty s = true) (Str.split sep p))).

Definition endsWith (suffix s : string) : bool :=
  Str.startsWith (String.rev suffix) (String.rev s).

(** [path.basename(p, suffix)]. *)
Definition basenameExt (p suffix : string) : string :=
  if Str.isEmpty suffix || (String.length p <? String.length suffix)%nat then basename p
  else if Str.eqb suffix p then ""
  else
    let b := basename p in
    if endsWith suffix b && negb (Str.eqb suffix b)
    then Str.take (String.length b - String.length suffix) b
    else b.

(** The part of [s] from its last dot on, when it has a dot. *)
Fixpoint fromLastDot (s : string) : option string :=
  match s with
  | "" => None
  | String c r =>
      match fromLastDot r with
      | Some e => Some e
      | None => if Str.eqc c "."%char then Some s else None
      end
  end.

(** [path.extname(p)]: from the last dot of the basename on; empty when
    there is no dot, when the only dot is the first character, and for
    [..]. *)
Definition extname (p : string) : string :=
  match basename p with
  | "" => ""
  | String _ r as b =>
      if Str.eqb b ".." then "" else default "" (fromLastDot r)
  end.

Fixpoint dropWhile (f : ascii -> bool) (s : string) : string :=
  match s with
  | "" => ""
  | String c r => if f c then dropWhile f r else s
  end.

Definition isSep (c : ascii) : bool := Str.eqc c sep.

(** [path.dirname(p)]. *)
Definition dirname (p : string) : string :=
  match p with
  | "" => "."
  | String c0 rest =>
      let hasRoot := isSep c0 in
      let r := dropWhile (fun c => negb (isSep c)) (dropWhile isSep (String.rev rest)) in
      match r with
      | "" => if hasRoot then "/" else "."
      | String _ pre =>
          if hasRoot && Str.isEmpty pre then "//"
          else String c0 (String.rev pre)
      end
  end.

(** One step of [normalizeString]: the components kept so far, last one
    first, and the next component. *)
Definition step (allowAboveRoot : bool) (stk : list string) (seg : string)
    : list string :=
  if Str.isEmpty seg || Str.eqb seg "." then stk
  else if Str.eqb seg ".." then
    match stk with
    | h :: t =>
        if Str.eqb h ".."
        then (if allowAboveRoot then ".." :: stk else stk)
        else t
    | [] => if allowAboveRoot then [".."] else []
    end
  else seg :: stk.

Definition isAbsolute (p : string) : bool :=
  match p with String c _ => isSep c | "" => false end.

Definition hasTrailingSep (p : string) : bool :=
  match Str.lastChar p with Some c => isSep c | None => false end.

(** The components of [p] after resolving [.] and [..], last one first. *)
Definition components (p : string) : list string :=
  fold_left (step (negb (isAbsolute p))) (Str.split sep p) [].

(** [path.normalize(p)]. *)
Definition normalize (p : string) : string :=
  if Str.isEmpty p then "."
  else
    let body := Str.join "/" (rev (components p)) in
    if Str.isEmpty body then
      (if isAbsolute p then "/" else if hasTrailingSep p then "./" else ".")
    else
      let body := if hasTrailingSep p then body +:+ "/" else body in
      if isAbsolute p then "/" +:+ body else body.

(** [path.join(a, b)]. *)
Definition join (a b : string) : string :=
  match filter (fun s => nonEmpty s = true) [a; b] with
  | [] => "."
  | parts => normalize (Str.join "/" parts)
  end.

End Path.

(* ===================================================================== *)
(** ** [watcher.js]: constants and the ignore filter *)
(* ===================================================================== *)

Definition SUPPORTED_EXTENSIONS : list string :=
  [".txt"; ".md"; ".json"; ".srt"; ".pdf"; ".docx"; ".eml"].

Definition ATTACHMENT_EXTENSIONS : list string :=
  [".pdf"; ".docx"; ".txt"; ".md"; ".csv"].

Definition backslash : ascii := ascii_of_nat 92.
Definition doubleQuote : ascii := ascii_of_nat 34.

Import Regex.

Definition IGNORED_PATTERNS : list Regex.t :=
  [ Seq (Alt Bol (Set_ (fun c => Str.eqc c "/" || Str.eqc c backslash)))
        (Seq (Chr ".") (Set_ Dot));           (* /(^|[\/\\])\../  dotfiles *)
    Lit ".tmp" Eol;                           (* /\.tmp$/ *)
    Lit ".gsheet" Eol;                        (* /\.gsheet$/ *)
    Lit ".gdoc" Eol;                          (* /\.gdoc$/ *)
    Lit "~$" (Star Dot);                      (* /~\$.*/  Office temp files *)
    Lit ".crdownload" Eol;                    (* /\.crdownload$/ *)
    Lit ".part" Eol ].                        (* /\.part$/ *)

Definition shouldIgnore (filepath : string) : bool :=
  let filename := Path.basename filepath in
  existsb (fun pattern => Regex.test false pattern filename
                          || Regex.test false pattern filepath)
          IGNORED_PATTERNS.

(* ===================================================================== *)
(** ** The email parser: [parseEmail] *)
(* ===================================================================== *)

(** An attachment as [mailparser] reports it. *)
Record MailAttachment := {
  ma_filename : option string;
  ma_contentType : string;
  ma_contentDisposition : option string;
  ma_size : Z;
  ma_content : string
}.

(** What [simpleParser] returns, as far as [parseEmail] reads it.
    [pm_from] is [parsed.from?.text]; [pm_date] is the date already
    rendered by [toISOString].  [pm_text] is [parsed.text]: the plain-text
    part of the message or, when the message has none, the plain text
    that mailparser itself derives from the HTML part ([parseEmail] calls
    [simpleParser] without options, so this derivation is on). *)
Record ParsedMail := {
  pm_text : option string;
  pm_html : option string;
  pm_from : option string;
  pm_to : option string;
  pm_cc : option string;
  pm_subject : option string;
  pm_date : option string;
  pm_messageId : option string;
  pm_inReplyTo : option string;
  pm_attachments : option (list MailAttachment)
}.

(** A retained attachment: [{ filename, contentType, size, content }]. *)
Record Attachment := {
  att_filename : option string;
  att_contentType : string;
  att_size : Z;
  att_content : string
}.

Record Email := {
  email_filepath : string;
  email_filename : string;
  email_from : string;
  email_to : list string;
  email_cc : list string;
  email_subject : string;
  email_date : option string;
  email_messageId : option string;
  email_inReplyTo : option string;
  email_bodyText : string;
  email_fullContent : string;
  email_attachments : list Attachment;
  email_hasAttachments : bool
}.

Definition LF : string := String (ascii_of_nat 10) "".

(** The chain of [replace] calls that turns the HTML part into text. *)
Definition stripHtml (html : string) : string :=
  let s := html in
  let s := replaceAll true                   (* /<style[^>]*>[\s\S]*?<\/style>/gi *)
             (Lit "<style" (Seq (Star (NoneOf ">")) (Seq (Chr ">")
                (Seq (LazyStar AnyChar) (Lit "</style>" Eps))))) "" s in
  let s := replaceAll true                   (* /<script[^>]*>[\s\S]*?<\/script>/gi *)
             (Lit "<script" (Seq (Star (NoneOf ">")) (Seq (Chr ">")
                (Seq (LazyStar AnyChar) (Lit "</script>" Eps))))) "" s in
  let s := replaceAll false                  (* /<[^>]+>/g *)
             (Seq (Chr "<") (Seq (Plus (NoneOf ">")) (Chr ">"))) " " s in
  let s := replaceAll false (Lit "&nbsp;" Eps) " " s in
  let s := replaceAll false (Lit "&amp;" Eps) "&" s in
  let s := replaceAll false (Lit "&lt;" Eps) "<" s in
  let s := replaceAll false (Lit "&gt;" Eps) ">" s in
  let s := replaceAll false (Lit "&quot;" Eps) (String doubleQuote "") s in
  let s := replaceAll false (Lit "&#39;" Eps) "'" s in
  let s := replaceAll false (Plus Str.isSpace) " " s in    (* /\s+/g *)
  Str.trim s.

(** [bodyText]: the plain-text part when it is truthy, else the stripped
    HTML part when that is truthy, else empty. *)
Definition bodyTextOf (parsed : ParsedMail) : string :=
  if truthy (pm_text parsed) then Str.trim (default "" (pm_text parsed))
  else if truthy (pm_html parsed) then stripHtml (default "" (pm_html parsed))
  else "".

(** [(x || '').split(',').map(s => s.trim()).filter(Boolean)]. *)
Definition addressList (x : option string) : list string :=
  filter (fun s => Path.nonEmpty s = true)
         (map Str.trim (Str.split "," (orElse x ""))).

(** [array.filter(Boolean)] on an array of strings and [null]s. *)
Definition filterBoolean (l : list (option string)) : list string :=
  omap (fun x => if truthy x then x else None) l.

Definition headerBlockOf (from : string) (to cc : list string) (subject : string)
    (date : option string) : string :=
  Str.join LF (filterBoolean
    [ Some ("From: " +:+ from);
      Some ("To: " +:+ Str.join ", " to);
      (if (0 <? List.length cc)%nat then Some ("CC: " +:+ Str.join ", " cc) else None);
      Some ("Subject: " +:+ subject);
      Some ("Date: " +:+ match date with Some d => d | None => "Unknown" end);
      Some "---";
      Some "" ]).

Definition isInline (att : MailAttachment) : bool :=
  bool_decide (ma_contentDisposition att = Some "inline").

(** The predicate of the [filter] over [parsed.attachments]. *)
Definition keepAttachment (att : MailAttachment) : bool :=
  if isInline att && (ma_size att <? 10240)%Z then false
  else if negb (truthy (ma_filename att)) then false
  else true.

Definition retainedAttachments (parsed : ParsedMail) : list Attachment :=
  map (fun att => {| att_filename := ma_filename att;
                     att_contentType := ma_contentType att;
                     att_size := ma_size att;
                     att_content := ma_content att |})
      (filter (fun att => keepAttachment att = true)
              (default [] (pm_attachments parsed))).

(** The object [parseEmail] returns once [simpleParser] has produced
    [parsed]. *)
Definition emailOf (filepath : string) (parsed : ParsedMail) : Email :=
  let bodyText := bodyTextOf parsed in
  let from := orElse (pm_from parsed) "Unknown Sender" in
  let to := addressList (pm_to parsed) in
  let cc := addressList (pm_cc parsed) in
  let subject := orElse (pm_subject parsed) "(No Subject)" in
  let date := pm_date parsed in
  let headerBlock := headerBlockOf from to cc subject date in
  let attachments := retainedAttachments parsed in
  {| email_filepath := filepath;
     email_filename := Path.basename filepath;
     email_from := from;
     email_to := to;
     email_cc := cc;
     email_subject := subject;
     email_date := date;
     email_messageId := pm_messageId parsed;
     email_inReplyTo := pm_inReplyTo parsed;
     email_bodyText := bodyText;
     email_fullContent := headerBlock +:+ bodyText;
     email_attachments := attachments;
     email_hasAttachments := (0 <? List.length attachments)%nat |}.

Definition sampleMail : ParsedMail :=
  {| pm_text := None;
     pm_html := Some "<html><STYLE type=x>p{}</style><p>a  &amp;lt; b</p><script>x<y</script>Tom&#39;s&nbsp;<b>bold</b>text</html>";
     pm_from := Some "Ann <ann@x.org>";
     pm_to := Some "bob@x.org, , cy@x.org ";
     pm_cc := None;
     pm_subject := Some "Q3 Renewal";
     pm_date := Some "2024-05-01T10:00:00.000Z";
     pm_messageId := None;
     pm_inReplyTo := None;
     pm_attachments := None |}.

(* ===================================================================== *)
(** ** Outcomes of fallible code *)
(* ===================================================================== *)

Inductive result (A : Type) : Type :=
| Ok (a : A)               (* normal completion *)
| Throw (message : string). (* an exception *)

Arguments Ok {A} a.
Arguments Throw {A} message.

Inductive outcome (A : Type) : Type :=
| Return (a : A)           (* normal completion *)
| Raise (message : string) (* an exception *)
| OutOfFuel.               (* the bound on loop iterations was reached *)

Arguments Return {A} a.
Arguments Raise {A} message.
Arguments OutOfFuel {A}.

Definition liftResult {A} (r : result A) : outcome A :=
  match r with
  | Ok a => Return a
  | Throw e => Raise e
  end.

(* ===================================================================== *)
(** ** Node's [fs] module

    A file system is a finite map from resolved paths to nodes.  A path
    string is resolved lexically, as [path.normalize] does: whether it is
    absolute, and its components after [.] and [..] are resolved, last
    component first.  Relative paths are relative to one fixed working
    directory; there are no symbolic links.  The root, the working directory
    and the directories above the working directory always exist.
    Names are limited as on Linux: a component holds at most 255 bytes
    ([NAME_MAX]) and a path at most 4095 ([PATH_MAX]) in UTF-8, and a path
    holds no NUL character.  On a path beyond these limits [stat] fails, so
    nothing exists there, and every call that is given the path throws. *)
(* ===================================================================== *)

Module FS.

Inductive node : Type :=
| File (content : string)
| Dir.

Global Instance node_eq_dec : EqDecision node.
Proof. solve_decision. Defined.

Abbreviation key := (bool * list string)%type.

Abbreviation t := (gmap key node).

Definition resolve (p : string) : key :=
  (Path.isAbsolute p, Path.components p).

Definition isDotDot (s : string) : bool := Str.eqb s "..".

(** The length of the UTF-8 encoding of [s]: a character code below 128
    takes one byte, the others two. *)
Fixpoint byteLength (s : string) : nat :=
  match s with
  | "" => 0
  | String c r => (if (Str.code c <? 128)%nat then 1 else 2) + byteLength r
  end.

Definition noNul (s : string) : bool :=
  Str.all (fun c => negb (Str.code c =? 0)%nat) s.

(** A name a directory can hold. *)
Definition nameOk (name : string) : bool :=
  (byteLength name <=? 255)%nat && noNul name.

(** A path the file system accepts. *)
Definition acceptable (p : string) : bool :=
  noNul p && (byteLength p <=? 4095)%nat && forallb nameOk (Path.components p).

(** The error of a call that is given a path that is not [acceptable]. *)
Definition refusal (p : string) : string :=
  if noNul p then "ENAMETOOLONG" else "ERR_INVALID_ARG_VALUE".

(** The node stored at a resolved path, without looking at its parents. *)
Definition nodeAt (fs : t) (abs : bool) (stk : list string) : option node :=
  if forallb isDotDot stk then Some Dir else fs !! (abs, stk).

(** Path resolution: every proper prefix must be a directory. *)
Fixpoint stat (fs : t) (abs : bool) (stk : list string) : option node :=
  match stk with
  | [] => Some Dir
  | _ :: parent =>
      match stat fs abs parent with
      | Some Dir => nodeAt fs abs stk
      | _ => None
      end
  end.

Definition statPath (fs : t) (p : string) : option node :=
  if negb (acceptable p) then None
  else if Str.isEmpty p then None
  else
    match stat fs (Path.isAbsolute p) (Path.components p) with
    | Some (File c) => if Path.hasTrailingSep p then None else Some (File c)
    | r => r
    end.

(** [fs.existsSync(p)]. *)
Definition existsSync (fs : t) (p : string) : bool :=
  match statPath fs p with Some _ => true | None => false end.

(** [fs.readFileSync(p)]. *)
Definition readFileSync (fs : t) (p : string) : result string :=
  if negb (acceptable p) then Throw (refusal p)
  else
    match statPath fs p with
    | Some (File c) => Ok c
    | Some Dir => Throw "EISDIR"
    | None => Throw "ENOENT"
    end.

Fixpoint mkdirs (fs : t) (abs : bool) (stk : list string) : result t :=
  match stk with
  | [] => Ok fs
  | _ :: parent =>
      match mkdirs fs abs parent with
      | Ok fs1 =>
          match nodeAt fs1 abs stk with
          | Some Dir => Ok fs1
          | Some (File _) => Throw "EEXIST"
          | None => Ok (<[(abs, stk) := Dir]> fs1)
          end
      | e => e
      end
  end.

(** [fs.mkdirSync(p, { recursive: true })]. *)
Definition mkdirSync (fs : t) (p : string) : result t :=
  if negb (acceptable p) then Throw (refusal p)
  else if Str.isEmpty p then Throw "ENOENT"
  else mkdirs fs (Path.isAbsolute p) (Path.components p).

(** [fs.writeFileSync(p, content)]: the file system must accept [p], the
    parent must be a directory and [p] must not be one. *)
Definition writeFileSync (fs : t) (p : string) (content : string) : result t :=
  if negb (acceptable p) then Throw (refusal p)
  else if Str.isEmpty p || Path.hasTrailingSep p then Throw "ENOENT"
  else
    match Path.components p with
    | [] => Throw "EISDIR"
    | (_ :: parent) as stk =>
        match stat fs (Path.isAbsolute p) parent with
        | Some Dir =>
            match nodeAt fs (Path.isAbsolute p) stk with
            | Some Dir => Throw "EISDIR"
            | _ => Ok (<[(Path.isAbsolute p, stk) := File content]> fs)
            end
        | Some (File _) => Throw "ENOTDIR"
        | None => Throw "ENOENT"
        end
    end.

(** [fs.readdirSync(p)]: the names directly inside directory [p]. *)
Definition readdirSync (fs : t) (p : string) : result (list string) :=
  if negb (acceptable p) then Throw (refusal p)
  else
    match statPath fs p with
    | Some Dir =>
        Ok (omap (fun k : key =>
                    match k with
                    | (abs, name :: parent) =>
                        if nameOk name
                           && bool_decide (abs = Path.isAbsolute p
                                           /\ parent = Path.components p)
                        then Some name else None
                    | _ => None
                    end)
                 (map fst (map_to_list fs)))
    | Some (File _) => Throw "ENOTDIR"
    | None => Throw "ENOENT"
    end.

End FS.

Definition sampleFs : FS.t :=
  list_to_map
    [ ((true, ["w"]), FS.Dir);
      ((true, ["a.txt"; "w"]), FS.File "Hello world");
      ((true, ["sub"; "w"]), FS.Dir);
      ((true, ["b.txt"; "sub"; "w"]), FS.File "   ") ].

(* ===================================================================== *)
(** ** The email parser: [saveAttachments] *)
(* ===================================================================== *)

(** An element of the array [saveAttachments] returns. *)
Record SavedFile := {
  saved_filename : string;
  saved_filepath : string;
  saved_contentType : string;
  saved_size : Z
}.

(** The characters of the class in the sanitizing expression: slash,
    backslash, colon, star, question mark, double quote, angle brackets and
    bar. *)
Definition reservedChars : string := "/\:*?" +:+ String doubleQuote "<>|".

(** [att.filename.replace(<reserved>, _).substring(0, 200)]. *)
Definition safeNameOf (filename : string) : string :=
  Str.take 200 (replaceAll false (Set_ (OneOf reservedChars)) "_" filename).

(** The name tried when the counter is [counter]:
    [`${base}_${counter}${ext}`]. *)
Definition numbered (safeName : string) (counter : nat) : string :=
  let ext := Path.extname safeName in
  let base := Path.basenameExt safeName ext in
  base +:+ "_" +:+ pretty counter +:+ ext.

(** The [while (fs.existsSync(finalPath))] loop; [None] when it is still
    running after [fuel] tests. *)
Fixpoint whileExists (fuel : nat) (fs : FS.t) (outputDir safeName : string)
    (finalPath : string) (counter : nat) : option string :=
  match fuel with
  | O => None
  | S fuel' =>
      if FS.existsSync fs finalPath then
        whileExists fuel' fs outputDir safeName
          (Path.join outputDir (numbered safeName counter)) (S counter)
      else Some finalPath
  end.

(** The body of [for (const att of attachments)], from the file system and
    the [saved] array reached so far. *)
Fixpoint saveEach (fuel : nat) (attachments : list Attachment) (outputDir : string)
    (fs : FS.t) (saved : list SavedFile) : outcome (list SavedFile) * FS.t :=
  match attachments with
  | [] => (Return saved, fs)
  | att :: rest =>
      match att_filename att with
      | None => (Raise "TypeError", fs)
      | Some filename =>
          let safeName := safeNameOf filename in
          let filepath := Path.join outputDir safeName in
          match whileExists fuel fs outputDir safeName filepath 1 with
          | None => (OutOfFuel, fs)
          | Some finalPath =>
              match FS.writeFileSync fs finalPath (att_content att) with
              | Ok fs' =>
                  saveEach fuel rest outputDir fs'
                    (saved ++ [{| saved_filename := Path.basename finalPath;
                                  saved_filepath := finalPath;
                                  saved_contentType := att_contentType att;
                                  saved_size := att_size att |}])
              | Throw e => (Raise e, fs)
              end
          end
      end
  end.

Definition saveAttachments (fuel : nat) (attachments : list Attachment)
    (outputDir : string) (fs : FS.t) : outcome (list SavedFile) * FS.t :=
  match (if negb (FS.existsSync fs outputDir) then FS.mkdirSync fs outputDir
         else Ok fs) with
  | Ok fs1 => saveEach fuel attachments outputDir fs1 []
  | Throw e => (Raise e, fs)
  end.

Definition twoSameName : list Attachment :=
  [ {| att_filename := Some "notes.txt"; att_contentType := "text/plain";
       att_size := 5; att_content := "first" |};
    {| att_filename := Some "notes.txt"; att_contentType := "text/plain";
       att_size := 6; att_content := "second" |};
    {| att_filename := Some "../up/..\x?.md"; att_contentType := "text/markdown";
       att_size := 1; att_content := "m" |};
    {| att_filename := Some ".."; att_contentType := "text/plain";
       att_size := 1; att_content := "d" |} ].

(* ===================================================================== *)
(** ** The store, the collaborators and the world *)
(* ===================================================================== *)

(** The record [createTranscript] receives. *)
Record Transcript := {
  t_filename : string;
  t_filepath : string;
  t_rawContent : string;
  t_durationMinutes : option Z;
  t_callDate : option string;
  t_context : option string
}.

(** Modelled from the spec: the store of [db/queries.js], which is not among
    the sources.  The spec gives its interface, [exists(filepath) -> bool]
    and [create(record) -> id], with the filepath as the sole identity of a
    record.  The store is the list of the records created so far, and the id
    of a record is its position.  [createTranscript] appends: nothing below
    relies on the store rejecting a second record for one filepath. *)
Abbreviation Store := (list Transcript).

Definition transcriptExists (db : Store) (filepath : string) : bool :=
  existsb (fun r => Str.eqb (t_filepath r) filepath) db.

Definition createTranscript (db : Store) (r : Transcript) : nat * Store :=
  (List.length db, db ++ [r]).

(** What [parseTranscript] returns. *)
Record ParsedTranscript := {
  parsed_filename : string;
  parsed_rawContent : string;
  parsed_durationMinutes : option Z;
  parsed_callDate : option string;
  parsed_context : option string
}.

(** What [parseFilenameMetadata] returns. *)
Record FilenameMeta := {
  meta_date : option string;
  meta_callType : option string
}.

(** The collaborators whose code is outside the sources: the transcript and
    filename parsers of [parser.js], the libraries behind the PDF and DOCX
    extractors and behind [simpleParser], and the clock.  The sources read
    the clock only while they build the argument of a [createTranscript]
    call, anew for each record that needs the time: [nowISO id] is the
    reading taken for the record that gets the id [id]. *)
Record Env := {
  parseTranscript : FS.t -> string -> result ParsedTranscript;
  parseFilenameMetadata : string -> FilenameMeta;
  extractPdfText : FS.t -> string -> result string;
  extractDocxText : FS.t -> string -> result string;
  simpleParser : string -> result ParsedMail;
  nowISO : nat -> string                (* [new Date().toISOString()] *)
}.

(** The [options] of [startWatcher]: whether the callbacks are given, and
    [processImmediately]. *)
Record Options := {
  onNewFile : bool;
  onError : bool;
  processImmediately : bool
}.

(** The lines written by [console.log] and [console.error]. *)
Inductive LogEntry : Type :=
| SkippingUnsupportedFile (filepath : string)
| SkippingIgnoredFile (filepath : string)
| AlreadyProcessed (filepath : string)
| NewTranscriptDetected (filepath : string)
| EmptyEmailContent (filepath : string)
| EmailIngested (id : nat) (subject from : string)
| SkippingUnsupportedAttachment (filename contentType : string)
| AttachmentAlreadyProcessed (filename : string)
| EmptyAttachmentContent (filename : string)
| AttachmentIngested (id : nat) (filename : string)
| FailedToProcessAttachment (filename message : string)
| EmailParsingFailed (filepath message : string)
| EmptyContent (filepath : string)
| PdfDocxTranscriptSaved (id : nat)
| TextExtractionFailed (filepath message : string)
| TranscriptSaved (id : nat)
| QueuingForProcessing (id : nat)
| ErrorProcessingFile (filepath message : string)
| Imported (file : string)
| FailedToImport (file message : string).

(** Everything a run of the handler can read or change. *)
Record World := {
  fs : FS.t;
  db : Store;
  console : list LogEntry;
  queued : list nat;                    (* calls of [processTranscript] *)
  newFiles : list (nat * string);       (* calls of [onNewFile] *)
  errors : list (string * string)       (* calls of [onError] *)
}.

(** The state and exception monad of the handler. *)
Definition M (A : Type) : Type := World -> outcome A * World.

Definition ret {A} (a : A) : M A := fun w => (Return a, w).

Definition bind {A B} (m : M A) (k : A -> M B) : M B :=
  fun w =>
    match m w with
    | (Return a, w') => k a w'
    | (Raise e, w') => (Raise e, w')
    | (OutOfFuel, w') => (OutOfFuel, w')
    end.

Definition throw {A} (e : string) : M A := fun w => (Raise e, w).

(** [try { m } catch (err) { handler(err.message) }]. *)
Definition tryCatch {A} (m : M A) (handler : string -> M A) : M A :=
  fun w =>
    match m w with
    | (Raise e, w') => handler e w'
    | r => r
    end.

Declare Scope monad_scope.
Delimit Scope monad_scope with M.
Notation "'let*' x ':=' m 'in' k" := (bind m (fun x => k))
  (at level 10, x name, m at level 100, k at level 200) : monad_scope.
Notation "m '>>' k" := (bind m (fun _ => k))
  (at level 100, k at level 200, right associativity) : monad_scope.

(** Lift a computation that only reads the file system. *)
Definition readFs {A} (f : FS.t -> result A) : M A :=
  fun w => (liftResult (f (fs w)), w).

Definition setFs (fs' : FS.t) (w : World) : World :=
  {| fs := fs'; db := db w; console := console w; queued := queued w;
     newFiles := newFiles w; errors := errors w |}.

Definition consoleLog (e : LogEntry) : M unit :=
  fun w => (Return tt, {| fs := fs w; db := db w; console := console w ++ [e];
                      queued := queued w; newFiles := newFiles w;
                      errors := errors w |}).

Definition existsM (filepath : string) : M bool :=
  fun w => (Return (transcriptExists (db w) filepath), w).

Definition createM (r : Transcript) : M nat :=
  fun w =>
    let '(id, db') := createTranscript (db w) r in
    (Return id, {| fs := fs w; db := db'; console := console w; queued := queued w;
               newFiles := newFiles w; errors := errors w |}).

(** [processTranscript(id).catch(...)]: the analysis is started and not
    awaited. *)
Definition processTranscript (id : nat) : M unit :=
  fun w => (Return tt, {| fs := fs w; db := db w; console := console w;
                      queued := queued w ++ [id]; newFiles := newFiles w;
                      errors := errors w |}).

Definition callOnNewFile (id : nat) (filepath : string) : M unit :=
  fun w => (Return tt, {| fs := fs w; db := db w; console := console w;
                      queued := queued w; newFiles := newFiles w ++ [(id, filepath)];
                      errors := errors w |}).

Definition callOnError (message filepath : string) : M unit :=
  fun w => (Return tt, {| fs := fs w; db := db w; console := console w;
                      queued := queued w; newFiles := newFiles w;
                      errors := errors w ++ [(message, filepath)] |}).

Definition when (b : bool) (m : M unit) : M unit := if b then m else ret tt.

(** [for (const x of l) { body(x) }]. *)
Fixpoint forEach {A} (l : list A) (body : A -> M unit) : M unit :=
  match l with
  | [] => ret tt
  | x :: rest => bind (body x) (fun _ => forEach rest body)
  end.

(** [!text || text.trim().length === 0]. *)
Definition isBlank (text : string) : bool :=
  Str.isEmpty text || (String.length (Str.trim text) =? 0)%nat.

(** [a || b] where [b] may be [undefined] too. *)
Definition orElseOpt (a b : option string) : option string :=
  if truthy a then a else b.

(* ===================================================================== *)
(** ** [watcher.js]: the [add] handler of [startWatcher], [importFolder] *)
(* ===================================================================== *)

Section Watcher.

Variable env : Env.
Variable opts : Options.
(** The bound on the iterations of one [while] loop of
    [saveAttachments]. *)
Variable fuel : nat.

Open Scope monad_scope.

(** [parseEmail(filepath)]. *)
Definition parseEmail (filepath : string) : M Email :=
  let* raw := readFs (fun fs => FS.readFileSync fs filepath) in
  let* parsed := (fun w => (liftResult (simpleParser env raw), w)) in
  ret (emailOf filepath parsed).

Definition saveAttachmentsM (attachments : list Attachment) (outputDir : string)
    : M (list SavedFile) :=
  fun w =>
    let '(r, fs') := saveAttachments fuel attachments outputDir (fs w) in
    (r, setFs fs' w).

(** [new Date().toISOString()], in the argument of the [createTranscript]
    call that follows: the id of the record to come is the length of the
    store. *)
Definition newDateISO : M string :=
  fun w => (Return (nowISO env (List.length (db w))), w).

(** [email.date ? email.date.toISOString() : new Date().toISOString()]. *)
Definition emailCallDate (email : Email) : M string :=
  match email_date email with
  | Some d => ret d
  | None => newDateISO
  end.

Definition attachmentHeader (email : Email) (att : SavedFile) : string :=
  Str.join LF
    [ "[Attachment from email]";
      "Email Subject: " +:+ email_subject email;
      "Email From: " +:+ email_from email;
      "Email Date: " +:+ match email_date email with Some d => d | None => "Unknown" end;
      "Attachment: " +:+ saved_filename att +:+ " (" +:+ saved_contentType att +:+ ")";
      "---";
      "" ].

Definition attachmentContext (email : Email) (att : SavedFile) : string :=
  "Attachment: " +:+ saved_filename att +:+ " (from " +:+ String doubleQuote ""
    +:+ email_subject email +:+ String doubleQuote "" +:+ ")".

(** The body of [for (const att of savedFiles)]. *)
Definition processAttachment (email : Email) (att : SavedFile) : M unit :=
  let attExt := Str.toLowerCase (Path.extname (saved_filename att)) in
  if negb (Str.includes attExt ATTACHMENT_EXTENSIONS) then
    consoleLog (SkippingUnsupportedAttachment (saved_filename att) (saved_contentType att))
  else
    let* seen := existsM (saved_filepath att) in
    if seen then consoleLog (AttachmentAlreadyProcessed (saved_filename att))
    else
      tryCatch
        (let* attachmentText :=
           (if Str.eqb attExt ".pdf" then
              readFs (fun fs => extractPdfText env fs (saved_filepath att))
            else if Str.eqb attExt ".docx" then
              readFs (fun fs => extractDocxText env fs (saved_filepath att))
            else readFs (fun fs => FS.readFileSync fs (saved_filepath att))) in
         if isBlank attachmentText then
           consoleLog (EmptyAttachmentContent (saved_filename att))
         else
           let* callDate := emailCallDate email in
           let* attTranscriptId :=
             createM {| t_filename := saved_filename att;
                        t_filepath := saved_filepath att;
                        t_rawContent := attachmentHeader email att +:+ attachmentText;
                        t_durationMinutes := None;
                        t_callDate := Some callDate;
                        t_context := Some (attachmentContext email att) |} in
           consoleLog (AttachmentIngested attTranscriptId (saved_filename att)) >>
           when (processImmediately opts) (processTranscript attTranscriptId) >>
           when (onNewFile opts) (callOnNewFile attTranscriptId (saved_filepath att)))
        (fun message =>
           consoleLog (FailedToProcessAttachment (saved_filename att) message)).

(** The [.eml] branch. *)
Definition processEmail (filepath : string) : M unit :=
  tryCatch
    (let* email := parseEmail filepath in
     if isBlank (email_fullContent email) then
       consoleLog (EmptyEmailContent filepath)
     else
       let emailContext := "Email: " +:+ email_subject email in
       let* callDate := emailCallDate email in
       let* emailTranscriptId :=
         createM {| t_filename := email_filename email;
                    t_filepath := filepath;
                    t_rawContent := email_fullContent email;
                    t_durationMinutes := None;
                    t_callDate := Some callDate;
                    t_context := Some emailContext |} in
       consoleLog (EmailIngested emailTranscriptId (email_subject email) (email_from email)) >>
       when (processImmediately opts) (processTranscript emailTranscriptId) >>
       when (onNewFile opts) (callOnNewFile emailTranscriptId filepath) >>
       if email_hasAttachments email then
         let attachDir := Path.join (Path.dirname filepath) ".prism-attachments" in
         let* savedFiles := saveAttachmentsM (email_attachments email) attachDir in
         forEach savedFiles (processAttachment email)
       else ret tt)
    (fun message =>
       consoleLog (EmailParsingFailed filepath message) >>
       when (onError opts) (callOnError message filepath)).

(** The [.pdf] / [.docx] branch. *)
Definition processPdfDocx (ext filepath : string) : M unit :=
  tryCatch
    (let* extractedText :=
       (if Str.eqb ext ".pdf" then readFs (fun fs => extractPdfText env fs filepath)
        else readFs (fun fs => extractDocxText env fs filepath)) in
     if isBlank extractedText then consoleLog (EmptyContent filepath)
     else
       let filename := Path.basename filepath in
       let filenameMeta := parseFilenameMetadata env filename in
       (* [filenameMeta.date || new Date().toISOString()] *)
       let* callDate :=
         (if truthy (meta_date filenameMeta)
          then ret (default "" (meta_date filenameMeta))
          else newDateISO) in
       let* transcriptId :=
         createM {| t_filename := filename;
                    t_filepath := filepath;
                    t_rawContent := extractedText;
                    t_durationMinutes := None;
                    t_callDate := Some callDate;
                    t_context := Some (orElse (meta_callType filenameMeta)
                                              ("Watched file: " +:+ filename)) |} in
       consoleLog (PdfDocxTranscriptSaved transcriptId) >>
       when (processImmediately opts) (processTranscript transcriptId) >>
       when (onNewFile opts) (callOnNewFile transcriptId filepath))
    (fun message =>
       consoleLog (TextExtractionFailed filepath message) >>
       when (onError opts) (callOnError message filepath)).

(** The [parseTranscript] path for txt/md/json/srt. *)
Definition processText (filepath : string) : M unit :=
  tryCatch
    (let* parsed := readFs (fun fs => parseTranscript env fs filepath) in
     let filenameMeta := parseFilenameMetadata env (parsed_filename parsed) in
     let* transcriptId :=
       createM {| t_filename := parsed_filename parsed;
                  t_filepath := filepath;
                  t_rawContent := parsed_rawContent parsed;
                  t_durationMinutes := parsed_durationMinutes parsed;
                  t_callDate := orElseOpt (meta_date filenameMeta) (parsed_callDate parsed);
                  t_context := orElseOpt (meta_callType filenameMeta) (parsed_context parsed) |} in
     consoleLog (TranscriptSaved transcriptId) >>
     when (processImmediately opts)
          (consoleLog (QueuingForProcessing transcriptId) >>
           processTranscript transcriptId) >>
     when (onNewFile opts) (callOnNewFile transcriptId filepath))
    (fun message =>
       consoleLog (ErrorProcessingFile filepath message) >>
       when (onError opts) (callOnError message filepath)).

(** The handler of the watcher's [add] event. *)
Definition onAdd (filepath : string) : M unit :=
  let ext := Str.toLowerCase (Path.extname filepath) in
  if negb (Str.includes ext SUPPORTED_EXTENSIONS) then
    consoleLog (SkippingUnsupportedFile filepath)
  else if shouldIgnore filepath then
    consoleLog (SkippingIgnoredFile filepath)
  else
    let* seen := existsM filepath in
    if seen then consoleLog (AlreadyProcessed filepath)
    else
      consoleLog (NewTranscriptDetected filepath) >>
      if Str.eqb ext ".eml" then processEmail filepath
      else if Str.eqb ext ".pdf" || Str.eqb ext ".docx" then processPdfDocx ext filepath
      else processText filepath.

(** An element of the array [importFolder] returns. *)
Record ImportResult := {
  ir_transcriptId : option nat;
  ir_filepath : string;
  ir_success : bool;
  ir_error : option string
}.

(** The body of [for (const file of files)] in [importFolder]; it returns
    what it pushes on [results]. *)
Definition importFile (folderPath file : string) : M (list ImportResult) :=
  let filepath := Path.join folderPath file in
  let ext := Str.toLowerCase (Path.extname file) in
  if negb (Str.includes ext SUPPORTED_EXTENSIONS) then ret []
  else if shouldIgnore filepath then ret []
  else
    let* seen := existsM filepath in
    if seen then ret []
    else
      tryCatch
        (let* parsed := readFs (fun fs => parseTranscript env fs filepath) in
         let filenameMeta := parseFilenameMetadata env (parsed_filename parsed) in
         let* transcriptId :=
           createM {| t_filename := parsed_filename parsed;
                      t_filepath := filepath;
                      t_rawContent := parsed_rawContent parsed;
                      t_durationMinutes := parsed_durationMinutes parsed;
                      t_callDate := orElseOpt (meta_date filenameMeta) (parsed_callDate parsed);
                      t_context := orElseOpt (meta_callType filenameMeta) (parsed_context parsed) |} in
         consoleLog (Imported file) >>
         ret [{| ir_transcriptId := Some transcriptId; ir_filepath := filepath;
                 ir_success := true; ir_error := None |}])
        (fun message =>
           consoleLog (FailedToImport file message) >>
           ret [{| ir_transcriptId := None; ir_filepath := filepath;
                   ir_success := false; ir_error := Some message |}]).

Fixpoint importFiles (folderPath : string) (files : list string)
    : M (list ImportResult) :=
  match files with
  | [] => ret []
  | file :: rest =>
      let* r := importFile folderPath file in
      let* rs := importFiles folderPath rest in
      ret (r ++ rs)
  end.

Definition importFolder (folderPath : string) : M (list ImportResult) :=
  let* files := readFs (fun fs => FS.readdirSync fs folderPath) in
  importFiles folderPath files.

End Watcher.

(* ===================================================================== *)
(** ** A concrete environment, for the examples *)
(* ===================================================================== *)

(** Modelled from the spec: the transcript parser of [parser.js], which is
    not among the sources.  For the plain-text family the spec says: "read
    as text, pass through a lightweight transcript-shape parser that
    recovers a raw content string and, when the format encodes it, a
    duration-in-minutes and a call-date/context hint".  Here the raw content
    is the text of the file, the filename is the basename of the path, and
    the content encodes neither duration nor hints. *)
Definition plainParseTranscript (fs : FS.t) (filepath : string)
    : result ParsedTranscript :=
  match FS.readFileSync fs filepath with
  | Ok text =>
      Ok {| parsed_filename := Path.basename filepath;
            parsed_rawContent := text;
            parsed_durationMinutes := None;
            parsed_callDate := None;
            parsed_context := None |}
  | Throw e => Throw e
  end.

Definition isDigit (c : ascii) : bool :=
  ((48 <=? Str.code c) && (Str.code c <=? 57))%nat.

(** Modelled from the spec: the filename parser of [parser.js], "a pure
    function over the filename string" that "recognizes known naming
    conventions (e.g., embedded dates, call-type keywords)".  This one
    recognizes a leading date [YYYY-MM-DD] and nothing else. *)
Definition leadingDateMetadata (filename : string) : FilenameMeta :=
  let d := Str.take 10 filename in
  let ok :=
    match d with
    | String y1 (String y2 (String y3 (String y4 (String h1 (String m1
        (String m2 (String h2 (String d1 (String d2 "")))))))))  =>
        isDigit y1 && isDigit y2 && isDigit y3 && isDigit y4 && Str.eqc h1 "-"
        && isDigit m1 && isDigit m2 && Str.eqc h2 "-" && isDigit d1 && isDigit d2
    | _ => false
    end in
  {| meta_date := if ok then Some d else None; meta_callType := None |}.

(** A transcript parser whose content hint is a fixed call date. *)
Definition datedParseTranscript (callDate : string) (fs : FS.t) (filepath : string)
    : result ParsedTranscript :=
  match plainParseTranscript fs filepath with
  | Ok p =>
      Ok {| parsed_filename := parsed_filename p;
            parsed_rawContent := parsed_rawContent p;
            parsed_durationMinutes := None;
            parsed_callDate := Some callDate;
            parsed_context := Some "Discovery call" |}
  | r => r
  end.

Definition q3Mail : ParsedMail :=
  {| pm_text := Some "Please find the contract attached.";
     pm_html := None;
     pm_from := Some "Ann <ann@x.org>";
     pm_to := Some "bob@x.org";
     pm_cc := None;
     pm_subject := Some "Q3 Renewal";
     pm_date := Some "2024-05-01T10:00:00.000Z";
     pm_messageId := None;
     pm_inReplyTo := None;
     pm_attachments :=
       Some [ {| ma_filename := Some "contract.pdf";
                 ma_contentType := "application/pdf";
                 ma_contentDisposition := Some "attachment";
                 ma_size := 20; ma_content := "Contract terms" |};
              {| ma_filename := Some "logo.png";
                 ma_contentType := "image/png";
                 ma_contentDisposition := Some "inline";
                 ma_size := 900; ma_content := "png" |} ] |}.

(** A clock that advances by one second from one reading to the next,
    for the first ten. *)
Definition sampleClock (id : nat) : string :=
  "2026-01-01T00:00:0" +:+ pretty id +:+ ".000Z".

(** An environment in which a PDF or DOCX file holds its own text and
    every [.eml] file parses to [mail]. *)
Definition sampleEnv (mail : ParsedMail) : Env :=
  {| parseTranscript := plainParseTranscript;
     parseFilenameMetadata := leadingDateMetadata;
     extractPdfText := FS.readFileSync;
     extractDocxText := FS.readFileSync;
     simpleParser := fun _ => Ok mail;
     nowISO := sampleClock |}.

Definition allOptions : Options :=
  {| onNewFile := true; onError := true; processImmediately := true |}.

Definition emptyWorld (files : FS.t) : World :=
  {| fs := files; db := []; console := []; queued := []; newFiles := [];
     errors := [] |}.

Definition mailFs : FS.t :=
  list_to_map
    [ ((true, ["w"]), FS.Dir);
      ((true, ["q3.eml"; "w"]), FS.File "raw message");
      ((true, ["2024-03-05 kickoff.txt"; "w"]), FS.File "Hello world");
      ((true, ["blank.txt"; "w"]), FS.File "   ");
      ((true, ["blank.pdf"; "w"]), FS.File "   ") ].

(** The world a computation leaves. *)
Definition exec {A} (m : M A) (w : World) : World := snd (m w).

(* ===================================================================== *)
(** ** Notions used to state the properties *)
(* ===================================================================== *)

(** *** Paths *)

(** A string without a path separator. *)
Definition sepFree (s : string) : Prop :=
  Str.all (fun c => negb (Path.isSep c)) s = true.

(** A proper name of a directory entry: not empty, no separator, and
    neither [.] nor [..]. *)
Definition regularName (s : string) : Prop :=
  sepFree s /\ s <> "" /\ s <> "." /\ s <> "..".

(** A component that [path.normalize] keeps. *)
Definition cleanSeg (s : string) : Prop := sepFree s /\ s <> "" /\ s <> ".".

(** The shape of resolved components, last one first: [..] only at the
    root end, and only in a relative path. *)
Fixpoint clean (allow : bool) (stk : list string) : Prop :=
  match stk with
  | [] => True
  | s :: t =>
      cleanSeg s /\ clean allow t
      /\ (s = ".." -> allow = true /\ Forall (fun x => x = "..") t)
  end.

Definition allDotDot (stk : list string) : Prop := Forall (fun x => x = "..") stk.

(** *** Staging *)

(** The name tried after [k] collisions, and the path it gives. *)
Definition entryName (safeName : string) (k : nat) : string :=
  match k with
  | O => safeName
  | S _ => numbered safeName k
  end.

Definition candidate (outputDir safeName : string) (k : nat) : string :=
  Path.join outputDir (entryName safeName k).

(** The attachment has a filename, and the paths the loop of
    [saveAttachments] can reach for it in [fuel] tests are paths the file
    system accepts. *)
Definition stageable (fuel : nat) (outputDir : string) (att : Attachment) : bool :=
  match att_filename att with
  | Some filename =>
      forallb (fun k => FS.acceptable (candidate outputDir (safeNameOf filename) k))
              (seq 0 fuel)
  | None => false
  end.

(** Everything that resolved in [fs] resolves to the same node in [fs']. *)
Definition preserves (fs fs' : FS.t) : Prop :=
  forall q x, FS.statPath fs q = Some x -> FS.statPath fs' q = Some x.

(** How one attachment was staged: under which name, and with what
    content. *)
Definition stagedAs (outputDir : string) (fs' : FS.t) (att : Attachment) (s : SavedFile)
    : Prop :=
  exists filename k,
    att_filename att = Some filename
    /\ saved_filepath s = candidate outputDir (safeNameOf filename) k
    /\ saved_filename s = entryName (safeNameOf filename) k
    /\ regularName (entryName (safeNameOf filename) k)
    /\ (forall j, j < k ->
          FS.existsSync fs' (candidate outputDir (safeNameOf filename) j) = true)
    /\ FS.resolve (saved_filepath s)
       = (Path.isAbsolute outputDir,
          entryName (safeNameOf filename) k :: Path.components outputDir)
    /\ saved_contentType s = att_contentType att
    /\ saved_size s = att_size att
    /\ FS.readFileSync fs' (saved_filepath s) = Ok (att_content att).

(** A file written directly inside [outputDir]. *)
Definition entryOf (outputDir : string) (fs' : FS.t) (key : FS.key) : Prop :=
  exists entry content,
    regularName entry
    /\ key = (Path.isAbsolute outputDir, entry :: Path.components outputDir)
    /\ fs' !! key = Some (FS.File content).

(** A directory made by [mkdirSync]: the staging directory or one of its
    ancestors. *)
Definition createdDir (outputDir : string) (fs' : FS.t) (key : FS.key) : Prop :=
  fs' !! key = Some FS.Dir
  /\ exists pre, Path.components outputDir = pre ++ snd key
  /\ fst key = Path.isAbsolute outputDir.

(** *** The store and the handler *)

(** The world after one more console line. *)
Definition logged (w : World) (e : LogEntry) : World :=
  {| fs := fs w; db := db w; console := console w ++ [e]; queued := queued w;
     newFiles := newFiles w; errors := errors w |}.

(** The store only grows, and a record is only added for a filepath that
    has none yet. *)
Inductive grows : Store -> Store -> Prop :=
| grows_refl (s : Store) : grows s s
| grows_step (s s' : Store) (t : Transcript) :
    grows s s' -> transcriptExists s' (t_filepath t) = false ->
    grows s (s' ++ [t]).

(** The number of records of the store for one filepath. *)
Definition countPath (filepath : string) (s : Store) : nat :=
  List.length (filter (fun r => t_filepath r = filepath) s).

(** The record the text branch creates from what the parser returns. *)
Definition textRecord (env : Env) (filepath : string) (parsed : ParsedTranscript)
    : Transcript :=
  let filenameMeta := parseFilenameMetadata env (parsed_filename parsed) in
  {| t_filename := parsed_filename parsed;
     t_filepath := filepath;
     t_rawContent := parsed_rawContent parsed;
     t_durationMinutes := parsed_durationMinutes parsed;
     t_callDate := orElseOpt (meta_date filenameMeta) (parsed_callDate parsed);
     t_context := orElseOpt (meta_callType filenameMeta) (parsed_context parsed) |}.

(** The extractor the PDF and DOCX branch calls. *)
Definition extractFor (env : Env) (ext : string) : FS.t -> string -> result string :=
  if Str.eqb ext ".pdf" then extractPdfText env else extractDocxText env.

(** The record the PDF and DOCX branch creates from the extracted text,
    when it is the record of id [id]. *)
Definition pdfDocxRecord (env : Env) (id : nat) (filepath extractedText : string)
    : Transcript :=
  let filename := Path.basename filepath in
  let filenameMeta := parseFilenameMetadata env filename in
  {| t_filename := filename;
     t_filepath := filepath;
     t_rawContent := extractedText;
     t_durationMinutes := None;
     t_callDate := Some (orElse (meta_date filenameMeta) (nowISO env id));
     t_context := Some (orElse (meta_callType filenameMeta)
                               ("Watched file: " +:+ filename)) |}.

(** The call date of the record of id [id] made for an email or for one of
    its attachments: the date of the email or, when it has none, the time
    at which the record is made. *)
Definition emailDateAt (env : Env) (id : nat) (email : Email) : string :=
  match email_date email with
  | Some d => d
  | None => nowISO env id
  end.

(** The record of id [id] created for one staged attachment whose text is
    [text]. *)
Definition attachmentRecord (env : Env) (id : nat) (email : Email) (att : SavedFile)
    (text : string) : Transcript :=
  {| t_filename := saved_filename att;
     t_filepath := saved_filepath att;
     t_rawContent := attachmentHeader email att +:+ text;
     t_durationMinutes := None;
     t_callDate := Some (emailDateAt env id email);
     t_context := Some (attachmentContext email att) |}.

(** The record of id [id] created for the body of an email. *)
Definition emailRecord (env : Env) (id : nat) (filepath : string) (email : Email)
    : Transcript :=
  {| t_filename := email_filename email;
     t_filepath := filepath;
     t_rawContent := email_fullContent email;
     t_durationMinutes := None;
     t_callDate := Some (emailDateAt env id email);
     t_context := Some ("Email: " +:+ email_subject email) |}.

Definition fromAttachment (env : Env) (email : Email) (savedFiles : list SavedFile)
    (t : Transcript) : Prop :=
  exists att text id,
    att ∈ savedFiles /\ isBlank text = false
    /\ t = attachmentRecord env id email att text.

(** The lower-cased extension the handler dispatches on. *)
Definition extOf (filepath : string) : string :=
  Str.toLowerCase (Path.extname filepath).

(** The branch the handler takes once the existence check is passed. *)
Definition branchOf (env : Env) (opts : Options) (fuel : nat) (filepath : string)
    : M unit :=
  if Str.eqb (extOf filepath) ".eml" then processEmail env opts fuel filepath
  else if Str.eqb (extOf filepath) ".pdf" || Str.eqb (extOf filepath) ".docx"
       then processPdfDocx env opts (extOf filepath) filepath
       else processText env opts filepath.

(** Whether [importFolder] considers a directory entry at all. *)
Definition wouldImport (folderPath file : string) : bool :=
  Str.includes (Str.toLowerCase (Path.extname file)) SUPPORTED_EXTENSIONS
  && negb (shouldIgnore (Path.join folderPath file)).

(** A directory entry a scan has nothing left to do for. *)
Definition settled (env : Env) (folderPath : string) (files : FS.t) (s : Store)
    (file : string) : Prop :=
  wouldImport folderPath file = false
  \/ transcriptExists s (Path.join folderPath file) = true
  \/ exists e, parseTranscript env files (Path.join folderPath file) = Throw e.

(** *** The statements of the specification *)

Definition quote : string := String doubleQuote "".

(** The context string of an attachment document as the specification
    gives it, for the attachment name [name] and the subject [subject]. *)
Definition contextAsStated (name subject : string) : string :=
  "Attachment: " +:+ name +:+ " (from " +:+ quote +:+ subject +:+ quote +:+ ")".

(** The provenance header as the specification describes it: the subject,
    sender and date of the parent email and the name of the attachment,
    line by line. *)
Definition headerAsStated (subject from date name contentType : string) : string :=
  "[Attachment from email]" +:+ LF
  +:+ "Email Subject: " +:+ subject +:+ LF
  +:+ "Email From: " +:+ from +:+ LF
  +:+ "Email Date: " +:+ date +:+ LF
  +:+ "Attachment: " +:+ name +:+ " (" +:+ contentType +:+ ")" +:+ LF
  +:+ "---" +:+ LF.

(** The six filenames the specification lists as ignored. *)
Definition ignoredExamples : list string :=
  [".DS_Store"; "report.tmp"; "budget.gsheet"; "~$draft.docx"; "movie.crdownload";
   "file.part"].

(** The HTML fallback as the specification words it: style and script
    blocks and tags stripped, the common entities decoded, and nothing
    else. *)
Definition htmlTextAsStated (html : string) : string :=
  let s := html in
  let s := replaceAll true
             (Lit "<style" (Seq (Star (NoneOf ">")) (Seq (Chr ">")
                (Seq (LazyStar AnyChar) (Lit "</style>" Eps))))) "" s in
  let s := replaceAll true
             (Lit "<script" (Seq (Star (NoneOf ">")) (Seq (Chr ">")
                (Seq (LazyStar AnyChar) (Lit "</script>" Eps))))) "" s in
  let s := replaceAll false (Seq (Chr "<") (Seq (Plus (NoneOf ">")) (Chr ">"))) "" s in
  let s := replaceAll false (Lit "&nbsp;" Eps) " " s in
  let s := replaceAll false (Lit "&amp;" Eps) "&" s in
  let s := replaceAll false (Lit "&lt;" Eps) "<" s in
  let s := replaceAll false (Lit "&gt;" Eps) ">" s in
  let s := replaceAll false (Lit "&quot;" Eps) quote s in
  replaceAll false (Lit "&#39;" Eps) "'" s.

(** What [simpleParser] reports for a message that has an HTML part and no
    plain-text part: the HTML part as [html] and, as [text], the plain text
    it derives from that part.  [render] stands for the derivation, which
    is mailparser's own. *)
Definition reportsHtmlOnly (render : string -> string) (html : string)
    (parsed : ParsedMail) : Prop :=
  pm_html parsed = Some html /\ pm_text parsed = Some (render html).

(** The HTML clause of the statement about the body text, as the
    specification has it, for a derivation [render]: the body text of a
    message without a plain-text part is its HTML part with the blocks and
    tags stripped and the entities decoded. *)
Definition htmlBodyAsStated (render : string -> string) : Prop :=
  forall (filepath : string) (parsed : ParsedMail) (html : string),
    reportsHtmlOnly render html parsed ->
    html <> "" ->
    email_bodyText (emailOf filepath parsed) = htmlTextAsStated html.

(** A message whose only part is the HTML of one paragraph, as
    [simpleParser] reports it when it derives [text] from it. *)
Definition htmlOnlyMail (text : string) : ParsedMail :=
  {| pm_text := Some text;
     pm_html := Some "<p> Hello </p>";
     pm_from := None; pm_to := None; pm_cc := None; pm_subject := None;
     pm_date := None; pm_messageId := None; pm_inReplyTo := None;
     pm_attachments := None |}.

(** Text without the characters that start a tag or an entity. *)
Definition markupFree (s : string) : bool :=
  Str.all (fun c => negb (Str.eqc c "<") && negb (Str.eqc c "&")) s.

(** Text in which whitespace only occurs as a single space that is
    followed by a character that is not whitespace, if by any. *)
Fixpoint singleSpaced (s : string) : bool :=
  match s with
  | "" => true
  | String c r =>
      (if Str.isSpace c
       then Str.eqc c " "
            && match r with String d _ => negb (Str.isSpace d) | "" => true end
       else true)
      && singleSpaced r
  end.

(** Exclusion of an attachment as the specification words it: an inline
    element under the size threshold, or no filename. *)
Definition excludedAsStated (att : MailAttachment) : Prop :=
  (ma_contentDisposition att = Some "inline" /\ (ma_size att < 10240)%Z)
  \/ truthy (ma_filename att) = false.

#[global] Instance excludedAsStated_dec (att : MailAttachment) :
  Decision (excludedAsStated att).
Proof. unfold excludedAsStated. apply _. Defined.

(** The fields [parseEmail] copies from a retained attachment. *)
Definition retain (att : MailAttachment) : Attachment :=
  {| att_filename := ma_filename att;
     att_contentType := ma_contentType att;
     att_size := ma_size att;
     att_content := ma_content att |}.

(** An email with two attachments of the same name. *)
Definition twinMail : ParsedMail :=
  {| pm_text := Some "Two files."; pm_html := None;
     pm_from := Some "Ann <ann@x.org>"; pm_to := Some "bob@x.org"; pm_cc := None;
     pm_subject := Some "Notes"; pm_date := None;
     pm_messageId := None; pm_inReplyTo := None;
     pm_attachments :=
       Some [ {| ma_filename := Some "notes.txt"; ma_contentType := "text/plain";
                 ma_contentDisposition := Some "attachment";
                 ma_size := 5; ma_content := "first" |};
              {| ma_filename := Some "notes.txt"; ma_contentType := "text/plain";
                 ma_contentDisposition := Some "attachment";
                 ma_size := 6; ma_content := "second" |} ] |}.

(** An environment in which the content of a text file suggests the call
    date 2020-01-01. *)
Definition datedEnv : Env :=
  {| parseTranscript := datedParseTranscript "2020-01-01";
     parseFilenameMetadata := leadingDateMetadata;
     extractPdfText := FS.readFileSync;
     extractDocxText := FS.readFileSync;
     simpleParser := fun _ => Ok q3Mail;
     nowISO := sampleClock |}.

Definition kickoffRecord : Transcript :=
  {| t_filename := "2024-03-05 kickoff.txt";
     t_filepath := "/w/2024-03-05 kickoff.txt";
     t_rawContent := "Hello world";
     t_durationMinutes := None;
     t_callDate := Some "2024-03-05";
     t_context := Some "Discovery call" |}.

(* ===================================================================== *)
(** ** [watcher.js]: starting and restarting the watcher

    [chokidar] is outside the sources: a call of [chokidar.watch] and a
    call of [close()] on a watcher are recorded, and a watcher is known by
    the position of the call that made it.  [close()] is asynchronous and
    is not awaited: what is recorded is that it was called. *)
(* ===================================================================== *)

(** The lines the life-cycle functions and the server write about the
    watchers. *)
Inductive LifecycleLine : Type :=
| CreatedWatchFolder (watchFolder : string)
| WatchingForTranscripts (watchFolder : string)
| RestartingWatcher (newFolder : string)
| EmailWatcherActive (emailFolder : string).

(** A call [chokidar.watch(watchFolder, ...)], with the options the
    handlers of the new watcher close over. *)
Record Watch := {
  watch_folder : string;
  watch_options : Options
}.

Record Runtime := {
  rt_fs : FS.t;
  rt_console : list LifecycleLine;
  rt_watches : list Watch;               (* calls of [chokidar.watch] *)
  rt_closed : list nat;                  (* calls of [close()], by watcher *)
  currentWatcher : option nat            (* the module-level variable *)
}.

(** The [options] argument of [startWatcher], in which
    [processImmediately] may be left out. *)
Record StartOptions := {
  given_onNewFile : bool;
  given_onError : bool;
  given_processImmediately : option bool
}.

(** [const { onNewFile, onError, processImmediately = true } = options]. *)
Definition optionsOf (options : StartOptions) : Options :=
  {| onNewFile := given_onNewFile options;
     onError := given_onError options;
     processImmediately := default true (given_processImmediately options) |}.

(** [if (!fs.existsSync(folder)) fs.mkdirSync(folder, { recursive: true })]. *)
Definition ensureFolder (files : FS.t) (folder : string) : result FS.t :=
  if negb (FS.existsSync files folder) then FS.mkdirSync files folder else Ok files.

Definition startWatcher (watchFolder : string) (options : StartOptions) (rt : Runtime)
    : result nat * Runtime :=
  match ensureFolder (rt_fs rt) watchFolder with
  | Throw e => (Throw e, rt)
  | Ok files =>
      let created :=
        if negb (FS.existsSync (rt_fs rt) watchFolder)
        then [CreatedWatchFolder watchFolder] else [] in
      let watcher := List.length (rt_watches rt) in
      (Ok watcher,
       {| rt_fs := files;
          rt_console := rt_console rt ++ created ++ [WatchingForTranscripts watchFolder];
          rt_watches := rt_watches rt
                        ++ [{| watch_folder := watchFolder;
                               watch_options := optionsOf options |}];
          rt_closed := rt_closed rt;
          currentWatcher := Some watcher |})
  end.

(** [watcher.close()], not awaited. *)
Definition closeWatcher (watcher : nat) (rt : Runtime) : Runtime :=
  {| rt_fs := rt_fs rt; rt_console := rt_console rt; rt_watches := rt_watches rt;
     rt_closed := rt_closed rt ++ [watcher]; currentWatcher := currentWatcher rt |}.

Definition restartWatcher (newFolder : string) (options : StartOptions) (rt : Runtime)
    : result nat * Runtime :=
  let rt1 := {| rt_fs := rt_fs rt;
                rt_console := rt_console rt ++ [RestartingWatcher newFolder];
                rt_watches := rt_watches rt; rt_closed := rt_closed rt;
                currentWatcher := currentWatcher rt |} in
  let rt2 := match currentWatcher rt1 with
             | Some watcher => closeWatcher watcher rt1
             | None => rt1
             end in
  startWatcher newFolder options rt2.

Definition getWatcher (rt : Runtime) : option nat := currentWatcher rt.

(** The runtime before any watcher. *)
Definition freshRuntime (files : FS.t) : Runtime :=
  {| rt_fs := files; rt_console := []; rt_watches := []; rt_closed := [];
     currentWatcher := None |}.

(** A sequence of calls of [restartWatcher]; a call that throws leaves the
    runtime it reached. *)
Definition restartAll (calls : list (string * StartOptions)) (rt : Runtime) : Runtime :=
  fold_left (fun rt call => snd (restartWatcher (fst call) (snd call) rt)) calls rt.

(** A watcher that was made and on which [close()] was not called. *)
Definition isOpen (rt : Runtime) (watcher : nat) : Prop :=
  watcher < List.length (rt_watches rt) /\ watcher ∉ rt_closed rt.

(* ===================================================================== *)
(** ** The server: the callers of [startWatcher] and [restartWatcher] *)
(* ===================================================================== *)

(** The state of the server module, as far as the watchers go:
    the constants [WATCH_FOLDER] and [EMAIL_FOLDER], the variable
    [process.env.EMAIL_FOLDER], the constant [watcher] and the variable
    [emailWatcher]. *)
Record Server := {
  runtime : Runtime;
  WATCH_FOLDER : string;
  EMAIL_FOLDER : string;
  env_EMAIL_FOLDER : option string;
  watcher : nat;
  emailWatcher : option nat
}.

(** The options the server gives to every watcher:
    [{ processImmediately: false, onNewFile: ... }]. *)
Definition serverOptions : StartOptions :=
  {| given_onNewFile := true; given_onError := false;
     given_processImmediately := Some false |}.

Definition withFiles (files : FS.t) (rt : Runtime) : Runtime :=
  {| rt_fs := files; rt_console := rt_console rt; rt_watches := rt_watches rt;
     rt_closed := rt_closed rt; currentWatcher := currentWatcher rt |}.

(** The module body, from the two constants to the email watcher.
    [envWatch] and [envEmail] are [process.env.WATCH_FOLDER] and
    [process.env.EMAIL_FOLDER] at load time. *)
Definition boot (envWatch envEmail : option string) (rt : Runtime) : result Server :=
  let WATCH_FOLDER := orElse envWatch "./transcripts" in
  let EMAIL_FOLDER := orElse envEmail "" in
  match ensureFolder (rt_fs rt) WATCH_FOLDER with
  | Throw e => Throw e
  | Ok files =>
      match startWatcher WATCH_FOLDER serverOptions (withFiles files rt) with
      | (Throw e, _) => Throw e
      | (Ok watcher, rt1) =>
          if negb (Str.isEmpty EMAIL_FOLDER) && negb (Str.eqb (Str.trim EMAIL_FOLDER) "")
          then
            match ensureFolder (rt_fs rt1) EMAIL_FOLDER with
            | Throw e => Throw e
            | Ok files2 =>
                match startWatcher EMAIL_FOLDER serverOptions (withFiles files2 rt1) with
                | (Throw e, _) => Throw e
                | (Ok emailWatcher, rt2) =>
                    Ok {| runtime :=
                            {| rt_fs := rt_fs rt2;
                               rt_console := rt_console rt2
                                             ++ [EmailWatcherActive EMAIL_FOLDER];
                               rt_watches := rt_watches rt2;
                               rt_closed := rt_closed rt2;
                               currentWatcher := currentWatcher rt2 |};
                          WATCH_FOLDER := WATCH_FOLDER;
                          EMAIL_FOLDER := EMAIL_FOLDER;
                          env_EMAIL_FOLDER := envEmail;
                          watcher := watcher;
                          emailWatcher := Some emailWatcher |}
                end
            end
          else
            Ok {| runtime := rt1;
                  WATCH_FOLDER := WATCH_FOLDER;
                  EMAIL_FOLDER := EMAIL_FOLDER;
                  env_EMAIL_FOLDER := envEmail;
                  watcher := watcher;
                  emailWatcher := None |}
      end
  end.

(** What a route of [/api/config] answers. *)
Inductive Response : Type :=
| BadRequest (error : string)                (* status 400 *)
| ServerError (error : string)               (* status 500 *)
| WatchFolderIs (watchFolder : string)       (* [{ watchFolder }] *)
| WatchFolderSet (watchFolder : string)      (* [{ success: true, watchFolder }] *)
| EmailFolderIs (emailFolder : string)       (* [{ emailFolder }] *)
| EmailFolderSet (emailFolder : string).     (* [{ success: true, emailFolder }] *)

Definition withRuntime (rt : Runtime) (s : Server) : Server :=
  {| runtime := rt; WATCH_FOLDER := WATCH_FOLDER s; EMAIL_FOLDER := EMAIL_FOLDER s;
     env_EMAIL_FOLDER := env_EMAIL_FOLDER s; watcher := watcher s;
     emailWatcher := emailWatcher s |}.

(** [GET /api/config/watch-folder]. *)
Definition getWatchFolder (s : Server) : Response := WatchFolderIs (WATCH_FOLDER s).

(** [PUT /api/config/watch-folder]; [body] is [req.body.watchFolder]. *)
Definition putWatchFolder (body : option string) (s : Server) : Response * Server :=
  if negb (truthy body) then (BadRequest "watchFolder is required", s)
  else
    let newFolder := default "" body in
    if negb (FS.existsSync (rt_fs (runtime s)) newFolder)
    then (BadRequest "Folder does not exist", s)
    else
      match restartWatcher newFolder serverOptions (runtime s) with
      | (Ok _, rt) => (WatchFolderSet newFolder, withRuntime rt s)
      | (Throw e, rt) => (ServerError e, withRuntime rt s)
      end.

(** [GET /api/config/email-folder]. *)
Definition getEmailFolder (s : Server) : Response :=
  EmailFolderIs (orElse (env_EMAIL_FOLDER s) (EMAIL_FOLDER s)).

(** [PUT /api/config/email-folder]; [body] is [req.body.emailFolder]. *)
Definition putEmailFolder (body : option string) (s : Server) : Response * Server :=
  if negb (truthy body) then (BadRequest "emailFolder is required", s)
  else
    let newFolder := default "" body in
    if negb (FS.existsSync (rt_fs (runtime s)) newFolder)
    then (BadRequest "Folder does not exist", s)
    else
      let rt1 := match emailWatcher s with
                 | Some w => closeWatcher w (runtime s)
                 | None => runtime s
                 end in
      match startWatcher newFolder serverOptions rt1 with
      | (Ok w, rt) =>
          (EmailFolderSet newFolder,
           {| runtime := rt; WATCH_FOLDER := WATCH_FOLDER s;
              EMAIL_FOLDER := EMAIL_FOLDER s;
              env_EMAIL_FOLDER := Some newFolder;
              watcher := watcher s;
              emailWatcher := Some w |})
      | (Throw e, rt) => (ServerError e, withRuntime rt s)
      end.

(** A request that changes a folder. *)
Inductive ConfigRequest : Type :=
| PutWatchFolder (body : option string)
| PutEmailFolder (body : option string).

Definition serve (s : Server) (r : ConfigRequest) : Server :=
  match r with
  | PutWatchFolder body => snd (putWatchFolder body s)
  | PutEmailFolder body => snd (putEmailFolder body s)
  end.

(** The runtime is well kept: the watchers it names were made, and an
    open watcher is the current one. *)
Definition wellKept (rt : Runtime) : Prop :=
  (forall w, currentWatcher rt = Some w -> w < List.length (rt_watches rt))
  /\ (forall w, w ∈ rt_closed rt -> w < List.length (rt_watches rt))
  /\ (forall w, isOpen rt w -> currentWatcher rt = Some w).

(* ===================================================================== *)
(** ** [extractors.js]

    The libraries [pdf-parse] and [mammoth] are outside the sources: what
    their calls return for a given buffer or file is a parameter. *)
(* ===================================================================== *)

Module Extractors.

(** [pdf-parse]: what [load()] and [getText()] do on a parser made from a
    buffer; [getText] gives the text of each page. *)
Record PdfLibrary := {
  load : string -> result unit;
  getText : string -> result (list string)
}.

(** The calls made on the parser object. *)
Inductive ParserCall : Type := CallLoad | CallGetText | CallDestroy.

(** [extractPdfText(filePath)], with the calls it makes on the parser.
    The [finally] block runs [parser.destroy()] however the [try] block
    ends. *)
Definition extractPdfText (lib : PdfLibrary) (files : FS.t) (filePath : string)
    : result string * list ParserCall :=
  match FS.readFileSync files filePath with
  | Throw e => (Throw e, [])
  | Ok buffer =>
      let '(r, calls) :=
        match load lib buffer with
        | Throw e => (Throw e, [CallLoad])
        | Ok _ =>
            match getText lib buffer with
            | Throw e => (Throw e, [CallLoad; CallGetText])
            | Ok pages => (Ok (Str.join LF pages), [CallLoad; CallGetText])
            end
        end in
      (r, calls ++ [CallDestroy])
  end.

(** [mammoth.extractRawText({ path })], the [value] of its result. *)
Definition extractDocxText (extractRawText : FS.t -> string -> result string)
    (files : FS.t) (filePath : string) : result string :=
  extractRawText files filePath.

End Extractors.

(** The environment in which the two extractors are the ones of
    [extractors.js] over given libraries. *)
Definition withExtractors (lib : Extractors.PdfLibrary)
    (extractRawText : FS.t -> string -> result string) (env : Env) : Env :=
  {| parseTranscript := parseTranscript env;
     parseFilenameMetadata := parseFilenameMetadata env;
     extractPdfText := fun files filePath => fst (Extractors.extractPdfText lib files filePath);
     extractDocxText := Extractors.extractDocxText extractRawText;
     simpleParser := simpleParser env;
     nowISO := nowISO env |}.

(* ===================================================================== *)
(** ** Notions used to state the further properties *)
(* ===================================================================== *)

(** *** What one run of the handler may do *)

(** A computation that keeps the relation [R] between the world it starts
    in and the world it leaves, however it ends. *)
Definition respects (R : World -> World -> Prop) {A} (m : M A) : Prop :=
  forall w, R w (exec m w).

(** [w'] only adds to [w]: records at the end of the store, lines at the
    end of the console, and entries of the file system beside the ones that
    were there. *)
Definition extends (w w' : World) : Prop :=
  (exists created, db w' = db w ++ created)
  /\ (exists lines, console w' = console w ++ lines)
  /\ preserves (fs w) (fs w').

(** A computation that never ends with an exception. *)
Definition neverRaises {A} (m : M A) : Prop :=
  forall w e, fst (m w) <> Raise e.

(** [path.join(path.dirname(filepath), '.prism-attachments')]. *)
Definition attachDirOf (filepath : string) : string :=
  Path.join (Path.dirname filepath) ".prism-attachments".

(** A number of iterations that is enough for every [while] loop of
    [saveAttachments] when the handler stages the attachments of the email
    at [filepath]; nothing is staged when the email cannot be read or
    parsed. *)
Definition stagingBound (env : Env) (filepath : string) (w : World) : nat :=
  match FS.readFileSync (fs w) filepath with
  | Ok raw =>
      match simpleParser env raw with
      | Ok parsed =>
          size (fs w) + List.length (Path.components (attachDirOf filepath))
          + List.length (retainedAttachments parsed) + 2
      | Throw _ => 0
      end
  | Throw _ => 0
  end.

(** A computation whose loops never reach their bound. *)
Definition neverOutOfFuel {A} (m : M A) : Prop :=
  forall w, fst (m w) <> OutOfFuel.

(** The step of the handler that reads the file, for the branch the
    extension selects. *)
Definition readStep (env : Env) (filepath : string) (files : FS.t) : result unit :=
  if Str.eqb (extOf filepath) ".eml" then
    match FS.readFileSync files filepath with
    | Ok raw => match simpleParser env raw with Ok _ => Ok tt | Throw e => Throw e end
    | Throw e => Throw e
    end
  else if Str.eqb (extOf filepath) ".pdf" || Str.eqb (extOf filepath) ".docx" then
    match extractFor env (extOf filepath) files filepath with
    | Ok _ => Ok tt
    | Throw e => Throw e
    end
  else
    match parseTranscript env files filepath with Ok _ => Ok tt | Throw e => Throw e end.

(** The first step of the branch the handler takes for [filepath] succeeds
    and gives something to record: the email is read and parsed, the text
    of the PDF or DOCX file is extracted and is not blank, the transcript is
    parsed. *)
Definition recordable (env : Env) (filepath : string) (files : FS.t) : bool :=
  if Str.eqb (extOf filepath) ".eml" then
    match FS.readFileSync files filepath with
    | Ok raw => match simpleParser env raw with Ok _ => true | Throw _ => false end
    | Throw _ => false
    end
  else if Str.eqb (extOf filepath) ".pdf" || Str.eqb (extOf filepath) ".docx" then
    match extractFor env (extOf filepath) files filepath with
    | Ok text => negb (isBlank text)
    | Throw _ => false
    end
  else
    match parseTranscript env files filepath with Ok _ => true | Throw _ => false end.

(** The line the [catch] block of that branch writes. *)
Definition failureLine (filepath message : string) : LogEntry :=
  if Str.eqb (extOf filepath) ".eml" then EmailParsingFailed filepath message
  else if Str.eqb (extOf filepath) ".pdf" || Str.eqb (extOf filepath) ".docx"
       then TextExtractionFailed filepath message
       else ErrorProcessingFile filepath message.

(** The text of a staged attachment, by the extension of its name. *)
Definition attachmentTextOf (env : Env) (att : SavedFile) (files : FS.t) : result string :=
  let attExt := Str.toLowerCase (Path.extname (saved_filename att)) in
  if Str.eqb attExt ".pdf" then extractPdfText env files (saved_filepath att)
  else if Str.eqb attExt ".docx" then extractDocxText env files (saved_filepath att)
  else FS.readFileSync files (saved_filepath att).

(** The record one pass of the loop over the staged files adds to the
    store, if any: the staged file must have an extension of the
    attachment list and no record yet, and its text must be extracted and
    not blank. *)
Definition attachmentRecordOf (env : Env) (email : Email) (files : FS.t)
    (store : Store) (att : SavedFile) : option Transcript :=
  if negb (Str.includes (Str.toLowerCase (Path.extname (saved_filename att)))
                        ATTACHMENT_EXTENSIONS)
  then None
  else if transcriptExists store (saved_filepath att) then None
  else
    match attachmentTextOf env att files with
    | Ok text =>
        if isBlank text then None
        else Some (attachmentRecord env (List.length store) email att text)
    | Throw _ => None
    end.

(** The records the whole loop adds, in order. *)
Fixpoint attachmentRecords (env : Env) (email : Email) (files : FS.t)
    (store : Store) (savedFiles : list SavedFile) : list Transcript :=
  match savedFiles with
  | [] => []
  | att :: rest =>
      match attachmentRecordOf env email files store att with
      | Some r => r :: attachmentRecords env email files (store ++ [r]) rest
      | None => attachmentRecords env email files store rest
      end
  end.

(** The records the handler adds to [store] for the attachments of an
    email, after the record of the body: those of the files that
    [saveAttachments] returns, and none when the email has no attachment or
    the staging does not return. *)
Definition stagedRecords (env : Env) (fuel : nat) (filepath : string) (email : Email)
    (files : FS.t) (store : Store) : list Transcript :=
  if email_hasAttachments email then
    match saveAttachments fuel (email_attachments email) (attachDirOf filepath) files with
    | (Return savedFiles, files') => attachmentRecords env email files' store savedFiles
    | _ => []
    end
  else [].

(** The ids [createTranscript] gives to the records [created] when they are
    added, in order, to the store [before]. *)
Definition newIds (before : Store) (created : list Transcript) : list nat :=
  seq (List.length before) (List.length created).

(** Between [w] and [w']: the records added to the store are the only ones
    handed to [processTranscript] and to [onNewFile], once each and in
    order, the first when [processImmediately] is set and the second when
    the callback is given. *)
Definition dispatched (opts : Options) (w w' : World) : Prop :=
  exists created,
    db w' = db w ++ created
    /\ queued w'
       = queued w ++ (if processImmediately opts then newIds (db w) created else [])
    /\ newFiles w'
       = newFiles w
         ++ (if onNewFile opts
             then combine (newIds (db w) created) (map t_filepath created)
             else []).

(** An email without text, HTML, headers or attachments. *)
Definition bareMail : ParsedMail :=
  {| pm_text := None; pm_html := None; pm_from := None; pm_to := None; pm_cc := None;
     pm_subject := None; pm_date := None; pm_messageId := None; pm_inReplyTo := None;
     pm_attachments := None |}.

(** A folder in which [.prism-attachments] is a regular file. *)
Definition blockedFs : FS.t :=
  list_to_map
    [ ((true, ["w"]), FS.Dir);
      ((true, ["q3.eml"; "w"]), FS.File "raw message");
      ((true, [".prism-attachments"; "w"]), FS.File "not a directory") ].

(** What [importFolder] reports against what it did: between [w] and [w'],
    the ids of the successful results are the ids of the records added, in
    order, with their filepaths; a failed result has no id and carries the
    message; and nothing but the store and the console changed. *)
Definition importedAs (w w' : World) (results : list ImportResult) : Prop :=
  exists created,
    db w' = db w ++ created
    /\ omap ir_transcriptId results = newIds (db w) created
    /\ map ir_filepath (filter (fun r => ir_success r = true) results)
       = map t_filepath created
    /\ Forall (fun r => ir_success r = false ->
                        ir_transcriptId r = None /\ is_Some (ir_error r)) results
    /\ fs w' = fs w /\ queued w' = queued w /\ newFiles w' = newFiles w
    /\ errors w' = errors w.

(** A string without a dot. *)
Definition dotFree (s : string) : Prop :=
  Str.all (fun c => negb (Str.eqc c ".")) s = true.

(** Nothing to trim at the front. *)
Definition headOk (s : string) : Prop :=
  match s with "" => True | String c _ => Str.isSpace c = false end.

(** The strings the ignore patterns match, read off the patterns: a dot
    followed by a character that is not a line terminator, at the start or
    after a slash or backslash; one of five endings; [~$] anywhere. *)
Definition ignoredShape (x : string) : Prop :=
  (exists c rest, Dot c = true /\ x = String "." (String c rest))
  \/ (exists pre s c rest,
        (s = "/"%char \/ s = backslash) /\ Dot c = true
        /\ x = pre +:+ String s (String "." (String c rest)))
  \/ (exists pre suffix,
        suffix ∈ [".tmp"; ".gsheet"; ".gdoc"; ".crdownload"; ".part"]
        /\ x = pre +:+ suffix)
  \/ (exists pre rest, x = pre +:+ "~$" +:+ rest).

(** A string of whitespace only. *)
Definition whitespaceOnly (s : string) : Prop := Str.all Str.isSpace s = true.

(** A PDF library for which every buffer is a document of two pages, the
    second one empty. *)
Definition twoPages : Extractors.PdfLibrary :=
  {| Extractors.load := fun _ => Ok tt;
     Extractors.getText := fun buffer => Ok [buffer; ""] |}.

(* ===================================================================== *)
(** * Properties *)
(* ===================================================================== *)

(** ** The model on concrete inputs *)

Example basename_ex :
  map Path.basename ["/w/a.eml"; "a//"; "/"; ""; "x"; "a/b/"] = ["a.eml"; "a"; ""; ""; "x"; "b"].
Proof. reflexivity. Qed.

Example extname_ex :
  map Path.extname [".bashrc"; "a.b.c"; ".."; "..."; ".a.b"; "a."; "x/y.TXT"; "noext"; "d.v/"]
  = [""; ".c"; ""; "."; ".b"; "."; ".TXT"; ""; ".v"].
Proof. reflexivity. Qed.

Example dirname_ex :
  map Path.dirname ["a/b"; "/a"; "a"; "a/b/"; "/a/b"; "//a"; "a//b"; "/"; ""]
  = ["a"; "/"; "."; "a"; "/a"; "//"; "a/"; "/"; "."].
Proof. reflexivity. Qed.

Example normalize_ex :
  map Path.normalize ["a/./b/../c"; "/../a"; "../../a/.."; "a/"; "./"; "//a//b/"; "a/.."; "/a/.."]
  = ["a/c"; "/a"; "../.."; "a/"; "./"; "/a/b/"; "."; "/"].
Proof. reflexivity. Qed.

Example join_ex :
  map (fun '(a, b) => Path.join a b)
      [("/w", ".prism-attachments"); ("/w/d", ".."); ("", ""); ("a", ""); ("", "b"); ("a/", "."); (".", "x")]
  = ["/w/.prism-attachments"; "/w"; "."; "a"; "b"; "a"; "x"].
Proof. reflexivity. Qed.

Example basenameExt_ex :
  map (fun '(a, b) => Path.basenameExt a b)
      [("a.txt", ".txt"); ("a.txt", ""); (".txt", ".txt"); ("x/.txt", ".txt"); ("a.txt", ".md")]
  = ["a"; "a.txt"; ""; ".txt"; "a.txt"].
Proof. reflexivity. Qed.

Example shouldIgnore_ex :
  map shouldIgnore
      [".DS_Store"; "report.tmp"; "budget.gsheet"; "~$draft.docx"; "movie.crdownload";
       "file.part"; "/w/notes.txt"; "/w/.git/x.txt"; "/w/a.tmp.txt"; "/w/part"; "."; "a.gdoc"]
  = [true; true; true; true; true; true; false; true; false; false; false; true].
Proof. reflexivity. Qed.

Example stripHtml_ex :
  email_bodyText (emailOf "/w/m.eml" sampleMail) = "a < b Tom's bold text".
Proof. vm_compute. reflexivity. Qed.

Example fullContent_ex :
  email_fullContent (emailOf "/w/m.eml" sampleMail)
  = "From: Ann <ann@x.org>" +:+ LF +:+ "To: bob@x.org, cy@x.org" +:+ LF
    +:+ "Subject: Q3 Renewal" +:+ LF +:+ "Date: 2024-05-01T10:00:00.000Z" +:+ LF
    +:+ "---" +:+ "a < b Tom's bold text".
Proof. vm_compute. reflexivity. Qed.

Example fs_ex :
  (FS.existsSync sampleFs "/w/a.txt", FS.existsSync sampleFs "/w/sub/../a.txt",
   FS.existsSync sampleFs "/w/a.txt/", FS.existsSync sampleFs "/w/a.txt/x",
   FS.existsSync sampleFs "/w/sub/", FS.existsSync sampleFs "..",
   FS.readFileSync sampleFs "/w/sub/b.txt", FS.existsSync sampleFs "")
  = (true, true, false, false, true, true, Ok "   ", false).
Proof. vm_compute. reflexivity. Qed.

Example fs_mkdir_ex :
  (match FS.mkdirSync sampleFs "/w/x/.prism-attachments" with
   | Ok fs => (FS.existsSync fs "/w/x", FS.existsSync fs "/w/x/.prism-attachments")
   | _ => (false, false)
   end,
   FS.mkdirSync sampleFs "/w/a.txt/y",
   FS.writeFileSync sampleFs "/w/nodir/f" "x")
  = ((true, true), Throw "EEXIST", Throw "ENOENT").
Proof. vm_compute. reflexivity. Qed.

Example saveAttachments_ex :
  let '(r, fs) := saveAttachments 10 twoSameName "/w/.prism-attachments" sampleFs in
  (match r with Return l => map saved_filepath l | _ => [] end,
   FS.readFileSync fs "/w/.prism-attachments/notes.txt",
   FS.readFileSync fs "/w/.prism-attachments/notes_1.txt")
  = ([ "/w/.prism-attachments/notes.txt"; "/w/.prism-attachments/notes_1.txt";
       "/w/.prism-attachments/.._up_.._x_.md"; "/w/.prism-attachments/.._1" ],
     Ok "first", Ok "second").
Proof. vm_compute. reflexivity. Qed.

(** A filename of 200 characters outside ASCII takes 400 bytes: the loop
    finds its path free, [writeFileSync] refuses it, and the attachment
    staged before it stays. *)
Example long_name_ex :
  let long := {| att_filename := Some (Str.repeat (ascii_of_nat 233) 196 +:+ ".txt");
                 att_contentType := "text/plain"; att_size := 1; att_content := "x" |} in
  let first := {| att_filename := Some "notes.txt"; att_contentType := "text/plain";
                  att_size := 5; att_content := "first" |} in
  (String.length (safeNameOf (Str.repeat (ascii_of_nat 233) 196 +:+ ".txt")),
   FS.byteLength (safeNameOf (Str.repeat (ascii_of_nat 233) 196 +:+ ".txt")),
   stageable 12 "/w/sub" long,
   fst (saveAttachments 12 [first; long] "/w/sub" sampleFs),
   FS.readFileSync (snd (saveAttachments 12 [first; long] "/w/sub" sampleFs))
                   "/w/sub/notes.txt")
  = (200, 396, false, Raise "ENAMETOOLONG", Ok "first").
Proof. vm_compute. reflexivity. Qed.

(** The end-to-end scenario of the spec: a text file is ingested once, and
    a second event for the same path creates nothing. *)
Example hello_world_ex :
  let w1 := exec (onAdd (sampleEnv q3Mail) allOptions 8 "/w/2024-03-05 kickoff.txt")
                (emptyWorld mailFs) in
  let w2 := exec (onAdd (sampleEnv q3Mail) allOptions 8 "/w/2024-03-05 kickoff.txt") w1 in
  db w1 = [ {| t_filename := "2024-03-05 kickoff.txt";
               t_filepath := "/w/2024-03-05 kickoff.txt";
               t_rawContent := "Hello world";
               t_durationMinutes := None;
               t_callDate := Some "2024-03-05";
               t_context := None |} ]
  /\ db w2 = db w1 /\ queued w2 = [0%nat] /\ newFiles w2 = newFiles w1.
Proof. vm_compute. repeat split; reflexivity. Qed.

(** The provenance scenario of the spec. *)
Example q3_renewal_ex :
  let w1 := exec (onAdd (sampleEnv q3Mail) allOptions 8 "/w/q3.eml") (emptyWorld mailFs) in
  map (fun t => (t_filepath t, t_context t)) (db w1)
  = [ ("/w/q3.eml", Some "Email: Q3 Renewal");
      ("/w/.prism-attachments/contract.pdf",
       Some ("Attachment: contract.pdf (from " +:+ String doubleQuote "Q3 Renewal"
             +:+ String doubleQuote ")")) ].
Proof. vm_compute. reflexivity. Qed.

(* ===================================================================== *)
(** ** Facts about strings *)
(* ===================================================================== *)

Lemma sapp_cons (c : ascii) (s t : string) : String c s +:+ t = String c (s +:+ t).
Proof. reflexivity. Qed.

Lemma sapp_nil (t : string) : "" +:+ t = t.
Proof. reflexivity. Qed.

Ltac sapp := rewrite ?sapp_cons, ?sapp_nil in *.

Lemma app_empty_r (s : string) : s +:+ "" = s.
Proof. induction s as [|c s IH]; sapp; [reflexivity | now rewrite IH]. Qed.

Lemma app_assoc_s (a b c : string) : (a +:+ b) +:+ c = a +:+ (b +:+ c).
Proof. induction a as [|x a IH]; sapp; [reflexivity | now rewrite IH]. Qed.

Lemma app_eq_empty (a b : string) : a +:+ b = "" -> a = "" /\ b = "".
Proof. destruct a; sapp; [auto | discriminate]. Qed.

Lemma length_app_s (a b : string) :
  String.length (a +:+ b) = (String.length a + String.length b)%nat.
Proof. induction a as [|x a IH]; sapp; simpl; [reflexivity | now rewrite IH]. Qed.

(** Cancellation of a common suffix. *)
Lemma app_inv_tail_s (a b c : string) : a +:+ c = b +:+ c -> a = b.
Proof.
  revert b. induction a as [|x a IH]; intros [|y b] H; sapp.
  - reflexivity.
  - exfalso. apply (f_equal String.length) in H. simpl in H.
    rewrite length_app_s in H. lia.
  - exfalso. apply (f_equal String.length) in H. simpl in H.
    rewrite length_app_s in H. lia.
  - injection H as -> H. f_equal. now apply IH.
Qed.

Lemma all_app (f : ascii -> bool) (a b : string) :
  Str.all f (a +:+ b) = Str.all f a && Str.all f b.
Proof.
  induction a as [|x a IH]; sapp; simpl; [reflexivity|].
  rewrite IH. now rewrite andb_assoc.
Qed.

Lemma all_take (f : ascii -> bool) (n : nat) (s : string) :
  Str.all f s = true -> Str.all f (Str.take n s) = true.
Proof.
  revert n. induction s as [|c s IH]; intros [|n] H; simpl in *; try reflexivity.
  apply andb_true_iff in H as [-> H]. simpl. now apply IH.
Qed.

Lemma length_take (n : nat) (s : string) : String.length (Str.take n s) <= n.
Proof.
  revert n. induction s as [|c s IH]; intros [|n]; simpl; try lia.
  specialize (IH n). lia.
Qed.

Lemma all_impl (f g : ascii -> bool) (s : string) :
  (forall c, f c = true -> g c = true) -> Str.all f s = true -> Str.all g s = true.
Proof.
  intros Hfg. induction s as [|c s IH]; simpl; [reflexivity|].
  intros H. apply andb_true_iff in H as [Hc Hs].
  rewrite (Hfg _ Hc). simpl. auto.
Qed.

Lemma lastChar_app (a b : string) :
  b <> "" -> Str.lastChar (a +:+ b) = Str.lastChar b.
Proof.
  intros Hb. induction a as [|x a IH]; sapp; simpl; [reflexivity|].
  destruct (a +:+ b) eqn:E.
  - apply app_eq_empty in E as [_ ->]. contradiction.
  - exact IH.
Qed.

Lemma lastChar_all (f : ascii -> bool) (s : string) (c : ascii) :
  Str.all f s = true -> Str.lastChar s = Some c -> f c = true.
Proof.
  induction s as [|x s IH]; simpl; [discriminate|].
  intros H. apply andb_true_iff in H as [Hx Hs].
  destruct s; [intros [= <-]; exact Hx | auto].
Qed.

(* ===================================================================== *)
(** ** Facts about the regular expressions of the sources *)
(* ===================================================================== *)

(** Replacing every character of a class by one character is a map over
    the characters. *)
Lemma replaceFrom_class (ci : bool) (f : ascii -> bool) (c0 : ascii) (b : bool) (s : string) :
  replaceFrom ci (Set_ f) (String c0 "") 0 b s
  = Str.map (fun c => if f c then c0 else c) s.
Proof.
  revert b. induction s as [|c s IH]; intros b; simpl; [reflexivity|].
  unfold matchHere. simpl. destruct (f c).
  - replace (S (String.length s) - String.length s)%nat with 1%nat by lia.
    sapp. now rewrite IH.
  - now rewrite IH.
Qed.

Lemma all_map_class (f : ascii -> bool) (c0 : ascii) (s : string) :
  f c0 = false ->
  Str.all (fun c => negb (f c)) (Str.map (fun c => if f c then c0 else c) s) = true.
Proof.
  intros H0. induction s as [|c s IH]; simpl; [reflexivity|].
  rewrite IH, andb_true_r. destruct (f c) eqn:E; [now rewrite H0 | now rewrite E].
Qed.

(** The sanitized name, character by character. *)
Lemma safeNameOf_map (filename : string) :
  safeNameOf filename
  = Str.take 200 (Str.map (fun c => if OneOf reservedChars c then "_"%char else c) filename).
Proof. unfold safeNameOf, replaceAll. now rewrite replaceFrom_class. Qed.

Lemma safeNameOf_clean (filename : string) :
  Str.all (fun c => negb (OneOf reservedChars c)) (safeNameOf filename) = true.
Proof.
  rewrite safeNameOf_map. apply all_take. now apply all_map_class.
Qed.

Lemma safeNameOf_length (filename : string) :
  String.length (safeNameOf filename) <= 200.
Proof. rewrite safeNameOf_map. apply length_take. Qed.

(* ===================================================================== *)
(** ** Facts about paths *)
(* ===================================================================== *)

Lemma isSep_true (c : ascii) : Path.isSep c = true <-> c = Path.sep.
Proof. unfold Path.isSep, Str.eqc. apply bool_decide_eq_true. Qed.

Lemma eqb_true (a b : string) : Str.eqb a b = true <-> a = b.
Proof. unfold Str.eqb. apply bool_decide_eq_true. Qed.

Lemma eqb_false (a b : string) : Str.eqb a b = false <-> a <> b.
Proof. unfold Str.eqb. apply bool_decide_eq_false. Qed.

Lemma eqb_refl (a : string) : Str.eqb a a = true.
Proof. now apply eqb_true. Qed.

Lemma sepFree_cons (c : ascii) (s : string) :
  sepFree (String c s) <-> Path.isSep c = false /\ sepFree s.
Proof.
  unfold sepFree. simpl. rewrite andb_true_iff, negb_true_iff. tauto.
Qed.

Lemma sepFree_app (a b : string) : sepFree (a +:+ b) <-> sepFree a /\ sepFree b.
Proof. unfold sepFree. rewrite all_app, andb_true_iff. tauto. Qed.

Lemma sepFree_take (n : nat) (s : string) : sepFree s -> sepFree (Str.take n s).
Proof. apply all_take. Qed.

Lemma split_not_nil (s : string) : Str.split Path.sep s <> [].
Proof.
  destruct s as [|c s]; simpl; [discriminate|].
  destruct (Str.eqc c Path.sep); [discriminate|].
  destruct (Str.split Path.sep s); discriminate.
Qed.

Lemma split_sepFree (s : string) : sepFree s -> Str.split Path.sep s = [s].
Proof.
  induction s as [|c s IH]; [reflexivity|].
  intros [Hc Hs]%sepFree_cons. simpl.
  unfold Path.isSep in Hc. rewrite Hc. now rewrite IH.
Qed.

Lemma split_app (a b : string) :
  Str.split Path.sep (a +:+ String Path.sep b)
  = Str.split Path.sep a ++ Str.split Path.sep b.
Proof.
  induction a as [|c a IH]; sapp; simpl.
  - reflexivity.
  - destruct (Str.eqc c Path.sep); rewrite IH; [reflexivity|].
    destruct (Str.split Path.sep a) eqn:E; [now apply split_not_nil in E | reflexivity].
Qed.

Lemma split_all_sepFree (s : string) : Forall sepFree (Str.split Path.sep s).
Proof.
  induction s as [|c s IH]; simpl; [repeat constructor|].
  destruct (Str.eqc c Path.sep) eqn:E.
  - constructor; [reflexivity | exact IH].
  - destruct (Str.split Path.sep s) as [|h t]; [repeat constructor; apply sepFree_cons; auto|].
    + split; [exact E | reflexivity].
    + inversion IH; subst. constructor; [|assumption].
      apply sepFree_cons. auto.
Qed.

Lemma join_cons2 (sp x y : string) (l : list string) :
  Str.join sp (x :: y :: l) = x +:+ sp +:+ Str.join sp (y :: l).
Proof. reflexivity. Qed.

Lemma split_join (l : list string) :
  l <> [] -> Forall sepFree l -> Str.split Path.sep (Str.join "/" l) = l.
Proof.
  induction l as [|x l IH]; [congruence|]. intros _ H. inversion H; subst.
  destruct l as [|y l]; [now apply split_sepFree|].
  rewrite join_cons2. sapp. rewrite split_app, IH by (congruence || assumption).
  now rewrite split_sepFree.
Qed.

Lemma join_snoc (sp : string) (l : list string) (x : string) :
  l <> [] -> Str.join sp (l ++ [x]) = Str.join sp l +:+ sp +:+ x.
Proof.
  induction l as [|y l IH]; [congruence|]. intros _.
  destruct l as [|z l]; [reflexivity|].
  change ((y :: z :: l) ++ [x]) with (y :: (z :: l) ++ [x]).
  simpl app at 1. rewrite !join_cons2.
  change (z :: l ++ [x]) with ((z :: l) ++ [x]).
  rewrite IH by congruence. now rewrite !app_assoc_s.
Qed.

Lemma step_empty (allow : bool) (stk : list string) : Path.step allow stk "" = stk.
Proof. reflexivity. Qed.

Lemma step_regular (allow : bool) (stk : list string) (n : string) :
  n <> "" -> n <> "." -> n <> ".." -> Path.step allow stk n = n :: stk.
Proof.
  intros H1 H2 H3. unfold Path.step.
  destruct n as [|c n]; [congruence|]. simpl.
  apply eqb_false in H2, H3. now rewrite H2, H3.
Qed.

Lemma step_clean (allow : bool) (stk : list string) (seg : string) :
  clean allow stk -> sepFree seg -> clean allow (Path.step allow stk seg).
Proof.
  intros Hc Hs. unfold Path.step.
  destruct (Str.isEmpty seg) eqn:E1; [exact Hc|].
  destruct (Str.eqb seg ".") eqn:E2; [exact Hc|]. simpl.
  assert (seg <> "") by (destruct seg; [discriminate | congruence]).
  apply eqb_false in E2.
  destruct (Str.eqb seg "..") eqn:E3.
  - apply eqb_true in E3. subst seg.
    destruct stk as [|h t].
    + destruct allow; simpl; [|exact I]. repeat split; auto; discriminate.
    + destruct (Str.eqb h "..") eqn:E4.
      * apply eqb_true in E4. subst h. destruct allow; [|exact Hc].
        simpl in Hc. destruct Hc as (Hh & Ht & Hd). destruct (Hd eq_refl) as [_ Hall].
        simpl. repeat split; auto; try discriminate.
      * simpl in Hc. tauto.
  - apply eqb_false in E3. simpl. repeat split; auto. congruence.
Qed.

Lemma fold_step_clean (allow : bool) (segs : list string) (stk : list string) :
  clean allow stk -> Forall sepFree segs ->
  clean allow (fold_left (Path.step allow) segs stk).
Proof.
  revert stk. induction segs as [|s segs IH]; intros stk Hc Hs; simpl; [exact Hc|].
  inversion Hs; subst. apply IH; [|assumption]. now apply step_clean.
Qed.

Lemma components_clean (p : string) :
  clean (negb (Path.isAbsolute p)) (Path.components p).
Proof.
  unfold Path.components. apply fold_step_clean; [exact I | apply split_all_sepFree].
Qed.

Lemma clean_Forall (allow : bool) (stk : list string) :
  clean allow stk -> Forall cleanSeg stk.
Proof.
  induction stk as [|s t IH]; simpl; [constructor|].
  intros (H1 & H2 & _). constructor; auto.
Qed.

(** Resolving the components of a resolved path gives them back. *)
Lemma fold_step_rev (allow : bool) (stk : list string) :
  clean allow stk -> fold_left (Path.step allow) (rev stk) [] = stk.
Proof.
  induction stk as [|s t IH]; [reflexivity|].
  intros (Hs & Ht & Hd). simpl rev. rewrite fold_left_app. simpl.
  rewrite IH by assumption. destruct Hs as (Hs1 & Hs2 & Hs3).
  destruct (decide (s = "..")) as [->|Hne].
  - destruct (Hd eq_refl) as [-> Hall]. unfold Path.step. simpl.
    destruct t as [|h t]; [reflexivity|].
    inversion Hall; subst. now rewrite eqb_refl.
  - now apply step_regular.
Qed.

Lemma join_not_empty (l : list string) :
  l <> [] -> Forall cleanSeg l -> Str.join "/" l <> "".
Proof.
  destruct l as [|x l]; [congruence|]. intros _ H. inversion H as [|? ? Hx Hl]; subst.
  destruct Hx as (_ & Hx & _). destruct l as [|y l]; [exact Hx|].
  rewrite join_cons2. intros [? _]%app_eq_empty. contradiction.
Qed.

Lemma isEmpty_true (s : string) : Str.isEmpty s = true <-> s = "".
Proof. destruct s; simpl; split; congruence. Qed.

Lemma isEmpty_false (s : string) : Str.isEmpty s = false <-> s <> "".
Proof. destruct s; simpl; split; congruence. Qed.

Lemma isAbsolute_app (a b : string) :
  a <> "" -> Path.isAbsolute (a +:+ b) = Path.isAbsolute a.
Proof. destruct a; [congruence | reflexivity]. Qed.

Lemma isAbsolute_sepFree (s : string) : sepFree s -> Path.isAbsolute s = false.
Proof. destruct s as [|c s]; [reflexivity|]. now intros [? _]%sepFree_cons. Qed.

Lemma isAbsolute_join (l : list string) :
  Forall cleanSeg l -> Path.isAbsolute (Str.join "/" l) = false.
Proof.
  destruct l as [|x l]; [reflexivity|]. intros H. inversion H as [|? ? Hx Hl]; subst.
  destruct Hx as (Hs & Hx & _). destruct l as [|y l]; [now apply isAbsolute_sepFree|].
  rewrite join_cons2, isAbsolute_app by assumption. now apply isAbsolute_sepFree.
Qed.

Lemma Forall_cleanSeg_sepFree (l : list string) : Forall cleanSeg l -> Forall sepFree l.
Proof. intros H. eapply Forall_impl; [exact H|]. now intros ? [? _]. Qed.

Lemma hasTrailingSep_sepFree (a n : string) :
  sepFree n -> n <> "" -> Path.hasTrailingSep (a +:+ n) = false.
Proof.
  intros Hs Hn. unfold Path.hasTrailingSep. rewrite lastChar_app by assumption.
  destruct (Str.lastChar n) as [c|] eqn:E; [|reflexivity].
  apply (lastChar_all _ _ _ Hs) in E. now apply negb_true_iff in E.
Qed.

Lemma fold_step_skip_empty (allow : bool) (l : list string) (stk : list string) :
  fold_left (Path.step allow) (l ++ [""]) stk = fold_left (Path.step allow) l stk.
Proof. now rewrite fold_left_app. Qed.

(** The shape of a normalized path that has at least one component. *)
Lemma normalize_shape (p c : string) (stk : list string) :
  Path.components p = c :: stk ->
  Path.normalize p
  = (if Path.isAbsolute p then "/" else "")
    +:+ Str.join "/" (rev (c :: stk))
    +:+ (if Path.hasTrailingSep p then "/" else "").
Proof.
  intros Hc. unfold Path.normalize.
  destruct (Str.isEmpty p) eqn:Ep.
  { apply isEmpty_true in Ep. subst p. discriminate. }
  rewrite Hc.
  assert (Hne : Str.join "/" (rev (c :: stk)) <> "").
  { apply join_not_empty.
    - simpl. destruct (rev stk); discriminate.
    - apply Forall_rev. rewrite <- Hc.
      apply (clean_Forall _ _ (components_clean p)). }
  apply isEmpty_false in Hne. rewrite Hne.
  destruct (Path.hasTrailingSep p), (Path.isAbsolute p); sapp;
    rewrite ?app_empty_r; reflexivity.
Qed.

Lemma split_shape (abs trailing : bool) (l : list string) :
  l <> [] -> Forall sepFree l ->
  Str.split Path.sep ((if abs then "/" else "") +:+ Str.join "/" l
                      +:+ (if trailing then "/" else ""))
  = (if abs then [""] else []) ++ l ++ (if trailing then [""] else []).
Proof.
  intros Hl Hs.
  assert (H : Str.split Path.sep (Str.join "/" l +:+ (if trailing then "/" else ""))
              = l ++ (if trailing then [""] else [])).
  { destruct trailing.
    - change "/" with (String Path.sep ""). rewrite split_app, split_join by assumption.
      reflexivity.
    - rewrite app_empty_r, app_nil_r. now apply split_join. }
  destruct abs; sapp; [|exact H].
  change (String "/" ?x) with (String Path.sep x).
  change (Str.split Path.sep (String Path.sep ?x)) with ("" :: Str.split Path.sep x).
  now rewrite H.
Qed.

(** [path.normalize] is idempotent on the resolved form. *)
Lemma components_normalize (p : string) :
  Path.components (Path.normalize p) = Path.components p
  /\ Path.isAbsolute (Path.normalize p) = Path.isAbsolute p.
Proof.
  destruct (Path.components p) as [|c stk] eqn:Hc.
  - unfold Path.normalize. rewrite Hc. simpl.
    destruct (Str.isEmpty p) eqn:Ep.
    { apply isEmpty_true in Ep. subst p. split; reflexivity. }
    destruct (Path.isAbsolute p); [split; reflexivity|].
    destruct (Path.hasTrailingSep p); split; reflexivity.
  - pose proof (components_clean p) as Hcl. rewrite Hc in Hcl.
    assert (Hfa : Forall cleanSeg (rev (c :: stk)))
      by (apply Forall_rev, (clean_Forall _ _ Hcl)).
    assert (Hnn : rev (c :: stk) <> []) by (simpl; destruct (rev stk); discriminate).
    rewrite (normalize_shape _ _ _ Hc).
    assert (Habs : Path.isAbsolute
                     ((if Path.isAbsolute p then "/" else "")
                      +:+ Str.join "/" (rev (c :: stk))
                      +:+ (if Path.hasTrailingSep p then "/" else ""))
                   = Path.isAbsolute p).
    { destruct (Path.isAbsolute p); sapp; [reflexivity|].
      rewrite isAbsolute_app by (now apply join_not_empty).
      now apply isAbsolute_join. }
    split; [|exact Habs].
    unfold Path.components at 1. rewrite Habs.
    rewrite split_shape by (auto using Forall_cleanSeg_sepFree).
    rewrite fold_left_app.
    assert (H0 : fold_left (Path.step (negb (Path.isAbsolute p)))
                   (if Path.isAbsolute p then [""] else []) [] = [])
      by (destruct (Path.isAbsolute p); reflexivity).
    rewrite H0.
    destruct (Path.hasTrailingSep p).
    + rewrite fold_step_skip_empty. now apply fold_step_rev.
    + rewrite app_nil_r. now apply fold_step_rev.
Qed.

Lemma hasTrailingSep_normalize (p c : string) (stk : list string) :
  Path.components p = c :: stk ->
  Path.hasTrailingSep (Path.normalize p) = Path.hasTrailingSep p.
Proof.
  intros Hc. rewrite (normalize_shape _ _ _ Hc).
  pose proof (components_clean p) as Hcl. rewrite Hc in Hcl.
  destruct Hcl as ((Hs & Hn & _) & _).
  destruct (Path.hasTrailingSep p).
  - unfold Path.hasTrailingSep. rewrite <- app_assoc_s.
    rewrite lastChar_app by discriminate. reflexivity.
  - rewrite app_empty_r. simpl rev.
    destruct (rev stk) as [|x l] eqn:E.
    + simpl. now apply hasTrailingSep_sepFree.
    + rewrite join_snoc by discriminate.
      rewrite <- !app_assoc_s. now apply hasTrailingSep_sepFree.
Qed.

Lemma filter_nonEmpty_clean (l : list string) :
  Forall cleanSeg l -> filter (fun s => Path.nonEmpty s = true) l = l.
Proof.
  induction 1 as [|x l Hx Hl IH]; [reflexivity|].
  destruct Hx as (_ & Hx & _). apply isEmpty_false in Hx.
  rewrite filter_cons_True by (unfold Path.nonEmpty; now rewrite Hx).
  now rewrite IH.
Qed.

(** The basename of a normalized path is its last component. *)
Lemma basename_normalize (p c : string) (stk : list string) :
  Path.components p = c :: stk -> Path.basename (Path.normalize p) = c.
Proof.
  intros Hc. rewrite (normalize_shape _ _ _ Hc).
  pose proof (components_clean p) as Hcl. rewrite Hc in Hcl.
  assert (Hfa : Forall cleanSeg (rev (c :: stk)))
    by (apply Forall_rev, (clean_Forall _ _ Hcl)).
  assert (Hnn : rev (c :: stk) <> []) by (simpl; destruct (rev stk); discriminate).
  unfold Path.basename.
  rewrite split_shape by (auto using Forall_cleanSeg_sepFree).
  rewrite !filter_app, (filter_nonEmpty_clean _ Hfa).
  assert (H1 : filter (fun s => Path.nonEmpty s = true)
                 (if Path.isAbsolute p then [""] else []) = [])
    by (destruct (Path.isAbsolute p); reflexivity).
  assert (H2 : filter (fun s => Path.nonEmpty s = true)
                 (if Path.hasTrailingSep p then [""] else []) = [])
    by (destruct (Path.hasTrailingSep p); reflexivity).
  rewrite H1, H2, app_nil_r. simpl. now rewrite last_snoc.
Qed.

(** What [path.join(dir, n)] resolves to, for a name without separator. *)
Lemma join_input (dir n : string) :
  sepFree n ->
  exists x, Path.join dir n = Path.normalize x
    /\ Path.isAbsolute x = Path.isAbsolute dir
    /\ Path.components x
       = Path.step (negb (Path.isAbsolute dir)) (Path.components dir) n
    /\ (n <> "" -> Path.hasTrailingSep x = false)
    /\ (n = "" -> dir <> "" -> x = dir).
Proof.
  intros Hn. unfold Path.join. rewrite !filter_cons, filter_nil.
  destruct dir as [|d dir]; destruct n as [|c n]; simpl.
  - exists ".". repeat split; congruence.
  - exists (String c n). split; [reflexivity|].
    rewrite isAbsolute_sepFree by assumption. split; [reflexivity|]. split.
    + unfold Path.components. rewrite isAbsolute_sepFree by assumption.
      now rewrite split_sepFree.
    + split; [|discriminate].
      intros _. apply (hasTrailingSep_sepFree "" _ Hn). discriminate.
  - exists (String d dir). repeat split; congruence.
  - exists (String d dir +:+ "/" +:+ String c n). split; [reflexivity|].
    split; [reflexivity|]. split.
    + unfold Path.components. rewrite isAbsolute_app by discriminate.
      change ("/" +:+ String c n) with (String Path.sep (String c n)).
      rewrite split_app, fold_left_app, split_sepFree by assumption. reflexivity.
    + split; [|discriminate].
      intros _. rewrite <- app_assoc_s. apply hasTrailingSep_sepFree; [assumption | discriminate].
Qed.

Lemma resolve_join (dir n : string) :
  sepFree n ->
  FS.resolve (Path.join dir n)
  = (Path.isAbsolute dir,
     Path.step (negb (Path.isAbsolute dir)) (Path.components dir) n).
Proof.
  intros Hn. destruct (join_input dir n Hn) as (x & -> & Ha & Hc & _ & _).
  unfold FS.resolve. destruct (components_normalize x) as [-> ->].
  now rewrite Ha, Hc.
Qed.

(** A proper name joined to a directory: the result names an entry of
    that directory, and its basename is the name. *)
Lemma join_regular (dir n : string) :
  regularName n ->
  FS.resolve (Path.join dir n) = (Path.isAbsolute dir, n :: Path.components dir)
  /\ Path.basename (Path.join dir n) = n
  /\ Path.hasTrailingSep (Path.join dir n) = false
  /\ Path.join dir n <> "".
Proof.
  intros (Hs & H1 & H2 & H3).
  rewrite resolve_join by assumption. rewrite step_regular by assumption.
  split; [reflexivity|].
  destruct (join_input dir n Hs) as (x & -> & Ha & Hc & Ht & _).
  rewrite step_regular in Hc by assumption.
  rewrite (basename_normalize _ _ _ Hc), (hasTrailingSep_normalize _ _ _ Hc).
  repeat split; auto.
  rewrite (normalize_shape _ _ _ Hc). intros E.
  apply app_eq_empty in E as [_ E]. apply app_eq_empty in E as [E _].
  revert E. apply join_not_empty; [simpl; destruct (rev (Path.components dir)); discriminate|].
  apply Forall_rev. rewrite <- Hc. apply (clean_Forall _ _ (components_clean x)).
Qed.

(* ===================================================================== *)
(** ** Facts about the file system *)
(* ===================================================================== *)

Lemma forallb_isDotDot (stk : list string) :
  forallb FS.isDotDot stk = true <-> allDotDot stk.
Proof.
  unfold allDotDot. rewrite forallb_forall, Forall_forall.
  split; intros H x Hx.
  - apply eqb_true, H. now apply list_elem_of_In.
  - apply eqb_true, H. now apply list_elem_of_In.
Qed.

Lemma nodeAt_dotdot (fs : FS.t) (abs : bool) (stk : list string) :
  allDotDot stk -> FS.nodeAt fs abs stk = Some FS.Dir.
Proof.
  intros H. unfold FS.nodeAt. apply forallb_isDotDot in H. now rewrite H.
Qed.

Lemma nodeAt_lookup (fs : FS.t) (abs : bool) (stk : list string) :
  ~ allDotDot stk -> FS.nodeAt fs abs stk = fs !! (abs, stk).
Proof.
  intros H. unfold FS.nodeAt.
  destruct (forallb FS.isDotDot stk) eqn:E; [|reflexivity].
  now apply forallb_isDotDot in E.
Qed.

Lemma nodeAt_None (fs : FS.t) (abs : bool) (stk : list string) :
  FS.nodeAt fs abs stk = None -> ~ allDotDot stk /\ fs !! (abs, stk) = None.
Proof.
  unfold FS.nodeAt. destruct (forallb FS.isDotDot stk) eqn:E; [discriminate|].
  intros H. split; [|exact H]. intros Hd. apply forallb_isDotDot in Hd. congruence.
Qed.

Lemma stat_dotdot (fs : FS.t) (abs : bool) (stk : list string) :
  allDotDot stk -> FS.stat fs abs stk = Some FS.Dir.
Proof.
  induction stk as [|s t IH]; [reflexivity|]. intros H. simpl.
  inversion H; subst. rewrite IH by assumption. now apply nodeAt_dotdot.
Qed.

Lemma stat_cons (fs : FS.t) (abs : bool) (s : string) (t : list string) (x : FS.node) :
  FS.stat fs abs (s :: t) = Some x ->
  FS.stat fs abs t = Some FS.Dir /\ FS.nodeAt fs abs (s :: t) = Some x.
Proof.
  simpl. destruct (FS.stat fs abs t) as [[c|]|]; try discriminate. auto.
Qed.

(** Going up from a path that exists leads to a directory. *)
Lemma stat_up (fs : FS.t) (abs allow : bool) (stk : list string) (x : FS.node) :
  clean allow stk -> FS.stat fs abs stk = Some x ->
  FS.stat fs abs (Path.step allow stk "..") = Some FS.Dir.
Proof.
  intros Hc Hs. unfold Path.step.
  change (Str.isEmpty ".." || Str.eqb ".." ".") with false.
  change (Str.eqb ".." "..") with true. cbv iota.
  destruct stk as [|h t].
  - destruct allow; [|reflexivity]. apply stat_dotdot. repeat constructor.
  - destruct (Str.eqb h "..") eqn:E.
    + apply eqb_true in E. subst h. simpl in Hc. destruct Hc as (_ & _ & Hd).
      destruct (Hd eq_refl) as [-> Hall].
      apply stat_dotdot. repeat constructor. exact Hall.
    + now apply stat_cons in Hs as [Hs _].
Qed.

(** Adding a node where there was none leaves every path that resolved
    as it was. *)
Lemma stat_insert_other (fs : FS.t) (abs : bool) (stk : list string) (nd : FS.node)
    (abs' : bool) (stk' : list string) (x : FS.node) :
  FS.nodeAt fs abs stk = None ->
  FS.stat fs abs' stk' = Some x ->
  FS.stat (<[(abs, stk) := nd]> fs) abs' stk' = Some x.
Proof.
  intros [Hnd Hnone]%nodeAt_None. revert x.
  induction stk' as [|s t IH]; intros x Hx; [exact Hx|].
  apply stat_cons in Hx as [Hp Hn]. simpl. rewrite (IH _ Hp).
  unfold FS.nodeAt in *. destruct (forallb FS.isDotDot (s :: t)); [exact Hn|].
  rewrite lookup_insert_ne; [exact Hn|]. intros E. congruence.
Qed.

Lemma stat_insert_self (fs : FS.t) (abs : bool) (s : string) (t : list string)
    (nd : FS.node) :
  FS.nodeAt fs abs (s :: t) = None ->
  FS.stat fs abs t = Some FS.Dir ->
  FS.stat (<[(abs, s :: t) := nd]> fs) abs (s :: t) = Some nd.
Proof.
  intros Hn Hp. simpl. rewrite (stat_insert_other _ _ _ _ _ _ _ Hn Hp).
  apply nodeAt_None in Hn as [Hd _]. rewrite nodeAt_lookup by assumption.
  apply lookup_insert_eq.
Qed.

(** Only an acceptable path resolves. *)
Lemma statPath_acceptable (fs : FS.t) (p : string) (x : FS.node) :
  FS.statPath fs p = Some x -> FS.acceptable p = true.
Proof.
  unfold FS.statPath. destruct (FS.acceptable p); [reflexivity | discriminate].
Qed.

Lemma existsSync_acceptable (fs : FS.t) (p : string) :
  FS.existsSync fs p = true -> FS.acceptable p = true.
Proof.
  unfold FS.existsSync. destruct (FS.statPath fs p) eqn:E; [|discriminate].
  intros _. eapply statPath_acceptable; eauto.
Qed.

Lemma readFileSync_Ok (fs : FS.t) (p c : string) :
  FS.readFileSync fs p = Ok c <-> FS.statPath fs p = Some (FS.File c).
Proof.
  unfold FS.readFileSync. destruct (FS.acceptable p) eqn:Ha; cbn [negb].
  - destruct (FS.statPath fs p) as [[c'|]|]; split; congruence.
  - split; [discriminate|]. intros H%statPath_acceptable. congruence.
Qed.

Lemma statPath_insert_other (fs : FS.t) (abs : bool) (stk : list string) (nd : FS.node)
    (q : string) (x : FS.node) :
  FS.nodeAt fs abs stk = None ->
  FS.statPath fs q = Some x ->
  FS.statPath (<[(abs, stk) := nd]> fs) q = Some x.
Proof.
  intros Hn. unfold FS.statPath.
  destruct (FS.acceptable q); cbn [negb]; [|discriminate].
  destruct (Str.isEmpty q); [discriminate|].
  destruct (FS.stat fs (Path.isAbsolute q) (Path.components q)) as [y|] eqn:E;
    [|discriminate].
  rewrite (stat_insert_other _ _ _ _ _ _ _ Hn E). auto.
Qed.

(** What a successful [writeFileSync] on a path that did not exist does. *)
Lemma writeFileSync_fresh (fs fs' : FS.t) (p content : string) :
  FS.existsSync fs p = false ->
  FS.writeFileSync fs p content = Ok fs' ->
  FS.nodeAt fs (Path.isAbsolute p) (Path.components p) = None
  /\ fs' = <[FS.resolve p := FS.File content]> fs
  /\ FS.statPath fs' p = Some (FS.File content).
Proof.
  unfold FS.existsSync, FS.writeFileSync, FS.statPath, FS.resolve.
  destruct (FS.acceptable p); cbn [negb]; [|discriminate].
  destruct (Str.isEmpty p) eqn:Ep; [discriminate|].
  destruct (Path.hasTrailingSep p) eqn:Et; [discriminate|]. simpl.
  destruct (Path.components p) as [|s t] eqn:Ec; [discriminate|].
  intros Hex Hw.
  destruct (FS.stat fs (Path.isAbsolute p) t) as [[c|]|] eqn:Ep'; try discriminate.
  assert (Hn : FS.nodeAt fs (Path.isAbsolute p) (s :: t) = None).
  { simpl in Hex. rewrite Ep' in Hex.
    destruct (FS.nodeAt fs (Path.isAbsolute p) (s :: t)) as [[c|]|]; congruence. }
  rewrite Hn in Hw. injection Hw as <-.
  split; [exact Hn|]. split; [reflexivity|].
  now rewrite (stat_insert_self _ _ _ _ _ Hn Ep').
Qed.

Lemma size_insert_le (fs : FS.t) (k : FS.key) (nd : FS.node) :
  size (<[k := nd]> fs) <= S (size fs).
Proof.
  destruct (fs !! k) eqn:E.
  - rewrite map_size_insert_Some by eauto. lia.
  - rewrite map_size_insert_None by assumption. lia.
Qed.

(** What a successful recursive [mkdirSync] does. *)
Lemma mkdirs_ok (fs fs1 : FS.t) (abs : bool) (stk : list string) :
  FS.mkdirs fs abs stk = Ok fs1 ->
  FS.stat fs1 abs stk = Some FS.Dir
  /\ (forall abs' stk' x, FS.stat fs abs' stk' = Some x -> FS.stat fs1 abs' stk' = Some x)
  /\ size fs1 <= size fs + List.length stk
  /\ (forall k, fs1 !! k <> fs !! k ->
        fs !! k = None /\ fs1 !! k = Some FS.Dir
        /\ exists pre, stk = pre ++ snd k /\ fst k = abs).
Proof.
  revert fs1. induction stk as [|s t IH]; intros fs1; simpl.
  - intros [= <-]. split; [reflexivity|]. split; [auto|]. split; [lia|].
    intros k Hk. congruence.
  - destruct (FS.mkdirs fs abs t) as [fs0|e] eqn:E; try discriminate.
    destruct (IH fs0 eq_refl) as (H1 & H2 & H3 & H4).
    destruct (FS.nodeAt fs0 abs (s :: t)) as [[c|]|] eqn:En; try discriminate.
    + intros [= <-]. rewrite H1. split; [exact En|]. split; [auto|].
      split; [lia|].
      intros k Hk. destruct (H4 k Hk) as (? & ? & pre & -> & ?).
      repeat split; auto. exists (s :: pre). auto.
    + intros [= <-]. split; [now apply stat_insert_self|].
      split; [intros; eapply stat_insert_other; eauto|].
      split; [pose proof (size_insert_le fs0 (abs, s :: t) FS.Dir); lia|].
      intros k Hk. destruct (decide (k = (abs, s :: t))) as [->|Hne].
      * rewrite lookup_insert_eq. apply nodeAt_None in En as [_ En].
        destruct (fs !! (abs, s :: t)) as [y|] eqn:Ef.
        -- assert (Hd : fs0 !! (abs, s :: t) <> fs !! (abs, s :: t)) by congruence.
           destruct (H4 _ Hd) as (? & ? & _). congruence.
        -- repeat split; auto. exists []. auto.
      * rewrite lookup_insert_ne in Hk |- * by congruence.
        destruct (H4 k Hk) as (? & ? & pre & -> & ?).
        repeat split; auto. exists (s :: pre). auto.
Qed.

Lemma existsSync_true (fs : FS.t) (p : string) :
  FS.existsSync fs p = true <-> exists x, FS.statPath fs p = Some x.
Proof.
  unfold FS.existsSync. destruct (FS.statPath fs p); split; eauto; try discriminate.
  intros [x Hx]. discriminate.
Qed.

Lemma existsSync_mono (fs fs' : FS.t) (p : string) :
  (forall q x, FS.statPath fs q = Some x -> FS.statPath fs' q = Some x) ->
  FS.existsSync fs p = true -> FS.existsSync fs' p = true.
Proof.
  intros H [x Hx]%existsSync_true. apply existsSync_true. eauto.
Qed.

Lemma mkdirSync_ok (fs fs1 : FS.t) (p : string) :
  FS.mkdirSync fs p = Ok fs1 ->
  FS.existsSync fs1 p = true
  /\ (forall q x, FS.statPath fs q = Some x -> FS.statPath fs1 q = Some x)
  /\ size fs1 <= size fs + List.length (Path.components p)
  /\ (forall k, fs1 !! k <> fs !! k ->
        fs !! k = None /\ fs1 !! k = Some FS.Dir
        /\ exists pre, Path.components p = pre ++ snd k /\ fst k = Path.isAbsolute p).
Proof.
  unfold FS.mkdirSync. destruct (FS.acceptable p) eqn:Hacc; cbn [negb]; [|discriminate].
  destruct (Str.isEmpty p) eqn:Ep; [discriminate|].
  intros (H1 & H2 & H3 & H4)%mkdirs_ok.
  split; [|split; [|split; [exact H3 | exact H4]]].
  - unfold FS.existsSync, FS.statPath. now rewrite Hacc, Ep, H1.
  - intros q x. unfold FS.statPath.
    destruct (FS.acceptable q); cbn [negb]; [|discriminate].
    destruct (Str.isEmpty q); [discriminate|].
    destruct (FS.stat fs (Path.isAbsolute q) (Path.components q)) as [y|] eqn:E;
      [|discriminate].
    now rewrite (H2 _ _ _ E).
Qed.

Lemma normalize_not_empty (p : string) : Path.normalize p <> "".
Proof.
  unfold Path.normalize. destruct (Str.isEmpty p); [discriminate|].
  destruct (Str.isEmpty (Str.join "/" (rev (Path.components p)))) eqn:E.
  - destruct (Path.isAbsolute p); [discriminate|].
    destruct (Path.hasTrailingSep p); discriminate.
  - apply isEmpty_false in E.
    destruct (Path.isAbsolute p); [discriminate|].
    destruct (Path.hasTrailingSep p); [|exact E].
    intros [? _]%app_eq_empty. contradiction.
Qed.

Lemma sepFree_cases (n : string) :
  sepFree n -> regularName n \/ n = "" \/ n = "." \/ n = "..".
Proof.
  intros Hs. destruct (decide (n = "")); [auto|].
  destruct (decide (n = ".")); [auto|].
  destruct (decide (n = "..")); [auto|].
  left. repeat split; assumption.
Qed.

(** Joining [""], [.] or [..] to a directory that exists names something
    that exists, the directory itself or its parent, when the joined path
    is one the file system accepts. *)
Lemma degenerate_exists (fs : FS.t) (dir n : string) :
  n = "" \/ n = "." \/ n = ".." ->
  FS.acceptable (Path.join dir n) = true ->
  FS.existsSync fs dir = true -> FS.existsSync fs (Path.join dir n) = true.
Proof.
  intros Hn Hacc Hex.
  assert (Hs : sepFree n) by (destruct Hn as [->|[->| ->]]; reflexivity).
  destruct (join_input dir n Hs) as (x & Hjoin & Ha & Hc & Ht & Hx).
  rewrite Hjoin in *.
  apply existsSync_true in Hex as [y Hy]. unfold FS.statPath in Hy.
  destruct (FS.acceptable dir); cbn [negb] in Hy; [|discriminate].
  destruct (Str.isEmpty dir) eqn:Ed; [discriminate|]. apply isEmpty_false in Ed.
  destruct (FS.stat fs (Path.isAbsolute dir) (Path.components dir)) as [z|] eqn:Ez;
    [|discriminate].
  apply existsSync_true. unfold FS.statPath. rewrite Hacc. cbn [negb].
  pose proof (normalize_not_empty x) as Hne. apply isEmpty_false in Hne. rewrite Hne.
  destruct (components_normalize x) as [-> ->]. rewrite Ha, Hc.
  destruct Hn as [->|[->| ->]].
  - rewrite step_empty, Ez. destruct z as [c|]; [|eauto].
    rewrite (Hx eq_refl Ed) in *.
    destruct (Path.components dir) as [|c0 stk] eqn:Ecd; [discriminate|].
    rewrite (hasTrailingSep_normalize _ _ _ Ecd).
    destruct (Path.hasTrailingSep dir); [discriminate | eauto].
  - change (Path.step (negb (Path.isAbsolute dir)) (Path.components dir) ".")
      with (Path.components dir) in *.
    rewrite Ez. destruct z as [c|]; [|eauto].
    destruct (Path.components dir) as [|c0 stk] eqn:Ecd; [discriminate|].
    rewrite (hasTrailingSep_normalize _ _ _ Hc), Ht by discriminate. eauto.
  - rewrite (stat_up _ _ _ _ _ (components_clean dir) Ez). eauto.
Qed.

(** ** The numbered names *)

Lemma last_filter_In {A} (P : A -> Prop) `{forall x, Decision (P x)} (l : list A) (x : A) :
  last (filter P l) = Some x -> x ∈ l.
Proof.
  intros [l' Hl]%last_Some.
  assert (Hx : x ∈ filter P l) by (rewrite Hl; apply elem_of_app; right; constructor).
  now apply list_elem_of_filter in Hx as [_ Hx].
Qed.

Lemma basename_sepFree (p : string) : sepFree (Path.basename p).
Proof.
  unfold Path.basename.
  destruct (last (filter _ (Str.split Path.sep p))) as [x|] eqn:E; [|reflexivity].
  apply last_filter_In in E. simpl.
  pose proof (split_all_sepFree p) as H. rewrite Forall_forall in H. auto.
Qed.

Lemma fromLastDot_suffix (s e : string) :
  Path.fromLastDot s = Some e -> exists pre, s = pre +:+ e.
Proof.
  revert e. induction s as [|c s IH]; intros e; simpl; [discriminate|].
  destruct (Path.fromLastDot s) as [e'|].
  - intros [= <-]. destruct (IH _ eq_refl) as [pre ->]. now exists (String c pre).
  - destruct (Str.eqc c "."); [|discriminate]. intros [= <-]. now exists "".
Qed.

Lemma extname_sepFree (p : string) : sepFree (Path.extname p).
Proof.
  unfold Path.extname. pose proof (basename_sepFree p) as H.
  destruct (Path.basename p) as [|c r]; [reflexivity|].
  destruct (Str.eqb (String c r) ".."); [reflexivity|].
  destruct (Path.fromLastDot r) as [e|] eqn:E; [|reflexivity]. simpl.
  apply fromLastDot_suffix in E as [pre ->].
  apply sepFree_cons in H as [_ H]. now apply sepFree_app in H as [_ H].
Qed.

Lemma basenameExt_sepFree (p suffix : string) : sepFree (Path.basenameExt p suffix).
Proof.
  unfold Path.basenameExt. pose proof (basename_sepFree p) as H.
  destruct (_ || _); [exact H|].
  destruct (Str.eqb suffix p); [reflexivity|].
  destruct (_ && _); [now apply sepFree_take | exact H].
Qed.

Lemma pretty_N_go_all (f : ascii -> bool) (x : N) (s : string) :
  (forall d, f (pretty_N_char d) = true) ->
  Str.all f s = true -> Str.all f (pretty_N_go x s) = true.
Proof.
  intros Hf. revert s. induction (N.lt_wf_0 x) as [x _ IH]. intros s Hs.
  destruct (decide (x = 0)%N) as [->|Hx]; [now rewrite pretty_N_go_0|].
  rewrite pretty_N_go_step by lia. apply IH.
  - apply N.div_lt; lia.
  - simpl. now rewrite Hf, Hs.
Qed.

Lemma pretty_nat_sepFree (k : nat) : sepFree (pretty k).
Proof.
  unfold sepFree, pretty, pretty_nat, pretty, pretty_N.
  destruct (decide (N.of_nat k = 0)%N); [reflexivity|].
  apply pretty_N_go_all; [|reflexivity].
  intros d. unfold pretty_N_char. repeat case_match; reflexivity.
Qed.

Lemma underscore_not_special (a b : string) :
  a +:+ "_" +:+ b <> "" /\ a +:+ "_" +:+ b <> "." /\ a +:+ "_" +:+ b <> "..".
Proof.
  destruct a as [|c1 [|c2 [|c3 a]]]; sapp; repeat split; intros H;
    try discriminate; injection H; intros; try discriminate.
Qed.

Lemma numbered_regular (safeName : string) (k : nat) : regularName (numbered safeName k).
Proof.
  unfold numbered. split.
  - apply sepFree_app. split; [apply basenameExt_sepFree|].
    apply sepFree_app. split; [reflexivity|].
    apply sepFree_app. split; [apply pretty_nat_sepFree | apply extname_sepFree].
  - apply underscore_not_special.
Qed.

Lemma numbered_inj (safeName : string) : Inj (=) (=) (numbered safeName).
Proof.
  intros j k H. unfold numbered in H.
  apply String.app_inj in H. apply String.app_inj in H.
  apply app_inv_tail_s in H. now apply pretty_nat_inj in H.
Qed.

(** ** The [while] loop of [saveAttachments] *)

Lemma preserves_refl (fs : FS.t) : preserves fs fs.
Proof. intros q x H. exact H. Qed.

Lemma preserves_trans (a b c : FS.t) : preserves a b -> preserves b c -> preserves a c.
Proof. intros H1 H2 q x H. auto. Qed.

Lemma whileExists_Some (fuel : nat) (fs : FS.t) (dir safeName p q : string) (c : nat) :
  whileExists fuel fs dir safeName p c = Some q ->
  FS.existsSync fs q = false
  /\ (q = p
      \/ (FS.existsSync fs p = true
          /\ exists k, c <= k /\ q = Path.join dir (numbered safeName k)
             /\ forall j, c <= j < k ->
                  FS.existsSync fs (Path.join dir (numbered safeName j)) = true)).
Proof.
  revert p c. induction fuel as [|fuel IH]; intros p c; simpl; [discriminate|].
  destruct (FS.existsSync fs p) eqn:E.
  - intros H. destruct (IH _ _ H) as [Hq Hcases]. split; [exact Hq|]. right.
    split; [reflexivity|].
    destruct Hcases as [->|(Hc & k & Hk & -> & Hall)].
    + exists c. split; [lia|]. split; [reflexivity|]. intros j Hj. lia.
    + exists k. split; [lia|]. split; [reflexivity|]. intros j Hj.
      destruct (decide (j = c)) as [->|Hne]; [exact Hc|]. apply Hall. lia.
  - intros [= <-]. auto.
Qed.

Lemma whileExists_found (fuel : nat) (fs : FS.t) (dir safeName p : string) (c : nat) :
  (FS.existsSync fs p = false /\ 1 <= fuel)
  \/ (exists k, c <= k /\ k + 2 <= c + fuel
        /\ FS.existsSync fs (Path.join dir (numbered safeName k)) = false) ->
  exists q, whileExists fuel fs dir safeName p c = Some q.
Proof.
  revert p c. induction fuel as [|fuel IH]; intros p c H; simpl.
  - destruct H as [[_ H]|(k & ? & ? & _)]; lia.
  - destruct (FS.existsSync fs p) eqn:E; [|eauto].
    destruct H as [[H _]|(k & Hk1 & Hk2 & Hk3)]; [discriminate|].
    apply IH. destruct (decide (k = c)) as [->|Hne].
    + left. split; [exact Hk3 | lia].
    + right. exists k. split; [lia|]. split; [lia | exact Hk3].
Qed.

Lemma exists_regular_lookup (fs : FS.t) (dir n : string) :
  regularName n -> FS.existsSync fs (Path.join dir n) = true ->
  is_Some (fs !! (Path.isAbsolute dir, n :: Path.components dir)).
Proof.
  intros Hn [x Hx]%existsSync_true.
  destruct (join_regular dir n Hn) as (Hr & _ & _ & _).
  unfold FS.statPath in Hx.
  destruct (FS.acceptable _); cbn [negb] in Hx; [|discriminate].
  destruct (Str.isEmpty _); [discriminate|].
  unfold FS.resolve in Hr. injection Hr as Ha Hc. rewrite Ha, Hc in Hx.
  destruct (FS.stat fs _ _) as [y|] eqn:E; [|discriminate].
  apply stat_cons in E as [_ E]. rewrite nodeAt_lookup in E; [eauto|].
  intros Hd. inversion Hd; subst. destruct Hn as (_ & _ & _ & Hn). contradiction.
Qed.

(** Among the first [size fs + 1] numbered names, one is free. *)
Lemma numbered_free (fs : FS.t) (dir safeName : string) :
  exists k, 1 <= k <= S (size fs)
    /\ FS.existsSync fs (Path.join dir (numbered safeName k)) = false.
Proof.
  set (ks := seq 1 (S (size fs))).
  destruct (decide (Exists (fun k => FS.existsSync fs (Path.join dir (numbered safeName k))
                                      = false) ks)) as [H|H].
  - apply Exists_exists in H as (k & Hin & Hk). exists k. split; [|exact Hk].
    apply elem_of_seq in Hin. lia.
  - exfalso. apply not_Exists_Forall in H; [|intros k; apply _].
    set (keyOf := fun k : nat =>
                    (Path.isAbsolute dir, numbered safeName k :: Path.components dir)).
    assert (Hsub : (list_to_set (keyOf <$> ks) : gset FS.key) ⊆ dom fs).
    { intros key Hkey. apply elem_of_list_to_set, list_elem_of_fmap in Hkey
        as (k & -> & Hk).
      rewrite Forall_forall in H. specialize (H k Hk). simpl in H.
      apply elem_of_dom, exists_regular_lookup; [apply numbered_regular|].
      destruct (FS.existsSync fs _); [reflexivity | contradiction]. }
    apply subseteq_size in Hsub.
    rewrite size_list_to_set, length_fmap, size_dom in Hsub.
    + unfold ks in Hsub. rewrite length_seq in Hsub. lia.
    + apply NoDup_fmap_2; [|apply NoDup_seq].
      intros j k Hjk. unfold keyOf in Hjk. injection Hjk as Hjk.
      now apply numbered_inj in Hjk.
Qed.

(** With enough fuel the loop finds a free path. *)
Lemma whileExists_terminates (fuel : nat) (fs : FS.t) (dir safeName p : string) :
  size fs + 2 <= fuel ->
  exists q, whileExists fuel fs dir safeName p 1 = Some q.
Proof.
  intros Hf. apply whileExists_found. right.
  destruct (numbered_free fs dir safeName) as (k & Hk & Hfree).
  exists k. split; [lia|]. split; [lia | exact Hfree].
Qed.

Lemma reserved_sep (c : ascii) :
  negb (OneOf reservedChars c) = true -> negb (Path.isSep c) = true.
Proof.
  destruct (Path.isSep c) eqn:E; [|reflexivity].
  apply isSep_true in E. subst c. intros H. vm_compute in H. discriminate.
Qed.

Lemma safeNameOf_sepFree (filename : string) : sepFree (safeNameOf filename).
Proof.
  unfold sepFree. eapply all_impl; [|apply safeNameOf_clean]. apply reserved_sep.
Qed.

(** One iteration of the loop of [saveAttachments]: where the attachment
    is written. *)
Lemma save_step (fuel : nat) (fs fs1 : FS.t) (dir safeName q content : string) :
  sepFree safeName ->
  FS.existsSync fs dir = true ->
  whileExists fuel fs dir safeName (Path.join dir safeName) 1 = Some q ->
  FS.writeFileSync fs q content = Ok fs1 ->
  exists k,
    q = candidate dir safeName k
    /\ regularName (entryName safeName k)
    /\ (forall j, j < k -> FS.existsSync fs (candidate dir safeName j) = true)
    /\ FS.existsSync fs q = false
    /\ fs !! (Path.isAbsolute dir, entryName safeName k :: Path.components dir) = None
    /\ fs1 = <[(Path.isAbsolute dir, entryName safeName k :: Path.components dir)
               := FS.File content]> fs
    /\ FS.statPath fs1 q = Some (FS.File content)
    /\ Path.basename q = entryName safeName k
    /\ preserves fs fs1.
Proof.
  intros Hs Hdir Hw Hwr.
  assert (Hacc : FS.acceptable q = true).
  { unfold FS.writeFileSync in Hwr. now destruct (FS.acceptable q). }
  destruct (whileExists_Some _ _ _ _ _ _ _ Hw) as [Hq Hcases].
  assert (Hk : exists k, q = candidate dir safeName k
                 /\ regularName (entryName safeName k)
                 /\ forall j, j < k -> FS.existsSync fs (candidate dir safeName j) = true).
  { destruct Hcases as [->|(H0 & k & Hk & -> & Hall)].
    - exists 0. split; [reflexivity|]. split; [|intros j Hj; lia].
      destruct (sepFree_cases _ Hs) as [Hr|Hd]; [exact Hr|].
      rewrite (degenerate_exists _ _ _ Hd Hacc Hdir) in Hq. discriminate.
    - exists k. destruct k as [|k]; [lia|]. split; [reflexivity|].
      split; [apply numbered_regular|]. intros j Hj.
      destruct j as [|j]; [exact H0|]. apply Hall. lia. }
  destruct Hk as (k & -> & Hr & Hall). exists k.
  destruct (writeFileSync_fresh _ _ _ _ Hq Hwr) as (Hn & -> & Hst).
  destruct (join_regular dir _ Hr) as (Hres & Hb & _ & _).
  unfold candidate in *. rewrite Hres in *.
  unfold FS.resolve in Hres. injection Hres as Ha Hc. rewrite Ha, Hc in Hn.
  split; [reflexivity|]. split; [exact Hr|]. split; [exact Hall|].
  split; [exact Hq|]. split; [now apply nodeAt_None in Hn|].
  split; [reflexivity|]. split; [exact Hst|]. split; [exact Hb|].
  intros p x Hp. eapply statPath_insert_other; eauto.
Qed.

(** ** The loop over the attachments *)

Lemma stagedAs_mono (dir : string) (fs fs' : FS.t) (att : Attachment) (s : SavedFile) :
  preserves fs fs' -> stagedAs dir fs att s -> stagedAs dir fs' att s.
Proof.
  intros Hp (filename & k & H1 & H2 & H3 & H4 & H5 & H6 & H7 & H8 & H9).
  exists filename, k. repeat (split; [assumption|]). split.
  - intros j Hj. eapply existsSync_mono; eauto.
  - repeat (split; [assumption|]).
    apply readFileSync_Ok. apply Hp. now apply readFileSync_Ok.
Qed.

Lemma existsSync_false_mono (fs fs' : FS.t) (p : string) :
  preserves fs fs' -> FS.existsSync fs' p = false -> FS.existsSync fs p = false.
Proof.
  intros Hp H. destruct (FS.existsSync fs p) eqn:E; [|reflexivity].
  rewrite (existsSync_mono _ _ _ Hp E) in H. discriminate.
Qed.

Lemma saveEach_spec (atts : list Attachment) :
  forall (fuel : nat) (dir : string) (fs : FS.t) (saved0 : list SavedFile)
         (r : outcome (list SavedFile)) (fs' : FS.t),
  FS.existsSync fs dir = true ->
  saveEach fuel atts dir fs saved0 = (r, fs') ->
  preserves fs fs'
  /\ size fs' <= size fs + List.length atts
  /\ (forall key, fs' !! key <> fs !! key -> fs !! key = None /\ entryOf dir fs' key)
  /\ (forall saved, r = Return saved ->
        exists new, saved = saved0 ++ new
          /\ Forall2 (stagedAs dir fs') atts new
          /\ NoDup (map saved_filepath new)
          /\ Forall (fun s => FS.existsSync fs (saved_filepath s) = false) new).
Proof.
  induction atts as [|att rest IH]; intros fuel dir fs saved0 r fs' Hdir; simpl.
  - intros [= <- <-]. split; [apply preserves_refl|]. split; [lia|].
    split; [congruence|]. intros saved [= <-]. exists [].
    rewrite app_nil_r. repeat split; constructor.
  - assert (Htriv : forall e : outcome (list SavedFile),
              (forall saved, e <> Return saved) ->
              (e, fs) = (r, fs') ->
              preserves fs fs'
              /\ size fs' <= size fs + S (List.length rest)
              /\ (forall key, fs' !! key <> fs !! key -> fs !! key = None /\ entryOf dir fs' key)
              /\ (forall saved, r = Return saved ->
                    exists new, saved = saved0 ++ new
                      /\ Forall2 (stagedAs dir fs') (att :: rest) new
                      /\ NoDup (map saved_filepath new)
                      /\ Forall (fun s => FS.existsSync fs (saved_filepath s) = false) new)).
    { intros e He [= <- <-]. split; [apply preserves_refl|]. split; [lia|].
      split; [congruence|]. intros saved Hs. now apply He in Hs. }
    destruct (att_filename att) as [filename|] eqn:Ef; [|now apply Htriv].
    destruct (whileExists fuel fs dir (safeNameOf filename)
                (Path.join dir (safeNameOf filename)) 1) as [q|] eqn:Ew;
      [|now apply Htriv].
    destruct (FS.writeFileSync fs q (att_content att)) as [fs1|e] eqn:Ewr;
      [|now apply Htriv].
    intros Hrec.
    destruct (save_step _ _ _ _ _ _ _ (safeNameOf_sepFree filename) Hdir Ew Ewr)
      as (k & Hq & Hreg & Hall & Hfree & Hnone & Hfs1 & Hst & Hbase & Hpres).
    assert (Hdir1 : FS.existsSync fs1 dir = true) by (eapply existsSync_mono; eauto).
    destruct (IH _ _ _ _ _ _ Hdir1 Hrec) as (Hp' & Hsz & Hch & Hsaved).
    set (key1 := (Path.isAbsolute dir,
                  entryName (safeNameOf filename) k :: Path.components dir)) in *.
    assert (Hk1 : fs1 !! key1 = Some (FS.File (att_content att)))
      by (rewrite Hfs1; apply lookup_insert_eq).
    split; [eapply preserves_trans; eauto|]. split.
    { pose proof (size_insert_le fs key1 (FS.File (att_content att))) as Hle.
      rewrite <- Hfs1 in Hle. lia. }
    split.
    { intros key Hkey. destruct (decide (key = key1)) as [->|Hne].
      - split; [exact Hnone|].
        destruct (decide (fs' !! key1 = fs1 !! key1)) as [Heq|Hd].
        + exists (entryName (safeNameOf filename) k), (att_content att).
          split; [exact Hreg|]. split; [reflexivity|]. now rewrite Heq.
        + destruct (Hch _ Hd) as [Hn _]. congruence.
      - assert (Hsame : fs1 !! key = fs !! key)
          by (rewrite Hfs1; now apply lookup_insert_ne).
        rewrite <- Hsame in Hkey |- *. now apply Hch. }
    intros saved Hr. destruct (Hsaved _ Hr) as (new & -> & Hf2 & Hnd & Hfr).
    exists ({| saved_filename := Path.basename q; saved_filepath := q;
               saved_contentType := att_contentType att;
               saved_size := att_size att |} :: new).
    split; [now rewrite <- app_assoc|]. split; [|split].
    + constructor; [|exact Hf2].
      apply (stagedAs_mono _ fs1 _ _ _ Hp').
      exists filename, k. simpl. split; [exact Ef|]. split; [exact Hq|].
      split; [exact Hbase|]. split; [exact Hreg|]. split.
      { intros j Hj. eapply existsSync_mono; eauto. }
      split.
      { rewrite Hq. unfold candidate. now destruct (join_regular dir _ Hreg) as [-> _]. }
      split; [reflexivity|]. split; [reflexivity|].
      now apply readFileSync_Ok.
    + simpl. constructor; [|exact Hnd].
      intros Hin. apply list_elem_of_fmap in Hin as (s & Hs & Hin).
      rewrite Forall_forall in Hfr. specialize (Hfr _ Hin). simpl in Hfr.
      rewrite <- Hs in Hfr.
      assert (FS.existsSync fs1 q = true) by (apply existsSync_true; eauto).
      congruence.
    + constructor; [exact Hfree|].
      apply Forall_forall. intros s Hs. rewrite Forall_forall in Hfr.
      eapply existsSync_false_mono; eauto.
Qed.

(** With enough fuel, the loop over the attachments does not run out. *)
Lemma saveEach_fuel (atts : list Attachment) :
  forall (fuel : nat) (dir : string) (fs : FS.t) (saved0 : list SavedFile),
  size fs + List.length atts + 2 <= fuel ->
  fst (saveEach fuel atts dir fs saved0) <> OutOfFuel.
Proof.
  induction atts as [|att rest IH]; intros fuel dir fs saved0 Hf; simpl; [discriminate|].
  destruct (att_filename att) as [filename|]; [|discriminate].
  destruct (whileExists_terminates fuel fs dir (safeNameOf filename)
              (Path.join dir (safeNameOf filename))) as [q ->]; [lia|].
  destruct (FS.writeFileSync fs q (att_content att)) as [fs1|e] eqn:E;
    [|discriminate].
  apply IH. simpl in Hf.
  assert (size fs1 <= S (size fs)); [|lia].
  unfold FS.writeFileSync in E. repeat case_match; try discriminate;
    injection E as <-; apply size_insert_le.
Qed.

(** ** [saveAttachments] as a whole *)

(** The directory is there once the guard of [saveAttachments] is passed. *)
Lemma ensure_dir (fs fs1 : FS.t) (dir : string) :
  (if negb (FS.existsSync fs dir) then FS.mkdirSync fs dir else Ok fs) = Ok fs1 ->
  FS.existsSync fs1 dir = true
  /\ preserves fs fs1
  /\ size fs1 <= size fs + List.length (Path.components dir)
  /\ (forall k, fs1 !! k <> fs !! k -> fs !! k = None /\ createdDir dir fs1 k).
Proof.
  destruct (FS.existsSync fs dir) eqn:E; simpl.
  - intros [= <-]. split; [exact E|]. split; [apply preserves_refl|].
    split; [lia|]. congruence.
  - intros (H1 & H2 & H3 & H4)%mkdirSync_ok. split; [exact H1|].
    split; [exact H2|]. split; [exact H3|].
    intros k Hk. destruct (H4 k Hk) as (? & ? & ?). split; [assumption|].
    split; assumption.
Qed.

Lemma saveAttachments_spec (fuel : nat) (atts : list Attachment) (dir : string)
    (fs : FS.t) (r : outcome (list SavedFile)) (fs' : FS.t) :
  saveAttachments fuel atts dir fs = (r, fs') ->
  preserves fs fs'
  /\ (forall key, fs' !! key <> fs !! key ->
        fs !! key = None /\ (createdDir dir fs' key \/ entryOf dir fs' key))
  /\ (forall saved, r = Return saved ->
        Forall2 (stagedAs dir fs') atts saved
        /\ NoDup (map saved_filepath saved)
        /\ Forall (fun s => FS.existsSync fs (saved_filepath s) = false) saved).
Proof.
  unfold saveAttachments.
  destruct (if negb (FS.existsSync fs dir) then FS.mkdirSync fs dir else Ok fs)
    as [fs1|e] eqn:E.
  - destruct (ensure_dir _ _ _ E) as (Hdir & Hp & _ & Hch). intros Hs.
    destruct (saveEach_spec _ _ _ _ _ _ _ Hdir Hs) as (Hp' & _ & Hch' & Hsaved).
    split; [eapply preserves_trans; eauto|]. split.
    + intros key Hkey.
      destruct (decide (fs' !! key = fs1 !! key)) as [Heq|Hd].
      * rewrite Heq in Hkey. destruct (Hch _ Hkey) as [Hn (Hc1 & Hc2)].
        split; [exact Hn|]. left. split; [now rewrite Heq | exact Hc2].
      * destruct (Hch' _ Hd) as [Hn He]. split; [|now right].
        destruct (decide (fs1 !! key = fs !! key)) as [Heq|Hd1]; [congruence|].
        now destruct (Hch _ Hd1) as [? _].
    + intros saved Hr. destruct (Hsaved _ Hr) as (new & Hnew & Hf2 & Hnd & Hfr).
      simpl in Hnew. subst new. split; [exact Hf2|]. split; [exact Hnd|].
      apply Forall_forall. intros s Hin. rewrite Forall_forall in Hfr.
      eapply existsSync_false_mono; eauto.
  - intros [= <- <-]. split; [apply preserves_refl|]. split; [congruence|]. discriminate.
Qed.

Lemma saveAttachments_fuel (fuel : nat) (atts : list Attachment) (dir : string) (fs : FS.t) :
  size fs + List.length (Path.components dir) + List.length atts + 2 <= fuel ->
  fst (saveAttachments fuel atts dir fs) <> OutOfFuel.
Proof.
  intros Hf. unfold saveAttachments.
  destruct (if negb (FS.existsSync fs dir) then FS.mkdirSync fs dir else Ok fs)
    as [fs1|e] eqn:E; [|discriminate].
  destruct (ensure_dir _ _ _ E) as (_ & _ & Hsz & _). apply saveEach_fuel. lia.
Qed.

(** The path the loop finds is among the first [fuel] candidates. *)
Lemma whileExists_bound (fuel : nat) (fs : FS.t) (dir safeName p q : string) (c : nat) :
  whileExists fuel fs dir safeName p c = Some q ->
  q = p \/ exists k, c <= k /\ k + 2 <= c + fuel
                    /\ q = Path.join dir (numbered safeName k).
Proof.
  revert p c. induction fuel as [|fuel IH]; intros p c; simpl; [discriminate|].
  destruct (FS.existsSync fs p).
  - intros H. right. destruct (IH _ _ H) as [->|(k & Hk1 & Hk2 & ->)].
    + exists c. split; [lia|]. split; [|reflexivity].
      destruct fuel; [discriminate H | lia].
    + exists k. split; [lia|]. split; [lia | reflexivity].
  - intros [= <-]. now left.
Qed.

Lemma whileExists_candidate (fuel : nat) (fs : FS.t) (dir safeName q : string) :
  whileExists fuel fs dir safeName (Path.join dir safeName) 1 = Some q ->
  exists k, k < fuel /\ q = candidate dir safeName k.
Proof.
  intros H. assert (0 < fuel) by (destruct fuel; [discriminate H | lia]).
  destruct (whileExists_bound _ _ _ _ _ _ _ H) as [->|(k & Hk1 & Hk2 & ->)].
  - exists 0. split; [lia | reflexivity].
  - exists k. split; [lia|]. destruct k; [lia | reflexivity].
Qed.

Lemma stageable_spec (fuel : nat) (dir : string) (att : Attachment) :
  stageable fuel dir att = true <->
  exists filename, att_filename att = Some filename
    /\ forall k, k < fuel ->
          FS.acceptable (candidate dir (safeNameOf filename) k) = true.
Proof.
  unfold stageable. destruct (att_filename att) as [filename|].
  - rewrite forallb_forall. split.
    + intros H. exists filename. split; [reflexivity|]. intros k Hk.
      apply H, in_seq. lia.
    + intros (f & [= <-] & H) k Hk%in_seq. apply H. lia.
  - split; [discriminate|]. intros (f & Hf & _). discriminate.
Qed.

(** When the staging directory is a directory and every attachment is
    [stageable], every write succeeds. *)
Lemma saveEach_ok (atts : list Attachment) :
  forall (fuel : nat) (dir : string) (fs : FS.t) (saved0 : list SavedFile),
  FS.statPath fs dir = Some FS.Dir ->
  Forall (fun att => stageable fuel dir att = true) atts ->
  fst (saveEach fuel atts dir fs saved0) <> OutOfFuel ->
  exists saved, fst (saveEach fuel atts dir fs saved0) = Return saved.
Proof.
  induction atts as [|att rest IH]; intros fuel dir fs saved0 Hdir Hnames; simpl; [eauto|].
  inversion Hnames as [|? ? Hn Hrest]; subst.
  apply stageable_spec in Hn as (filename & -> & Hok).
  destruct (whileExists fuel fs dir (safeNameOf filename)
              (Path.join dir (safeNameOf filename)) 1) as [q|] eqn:Ew;
    [|intros H; now contradiction H].
  assert (Hex : FS.existsSync fs dir = true) by (apply existsSync_true; eauto).
  destruct (whileExists_Some _ _ _ _ _ _ _ Ew) as [Hq _].
  destruct (whileExists_candidate _ _ _ _ _ Ew) as (k & Hk & ->).
  pose proof (Hok k Hk) as Hacc.
  assert (Hreg : regularName (entryName (safeNameOf filename) k)).
  { destruct k as [|k]; [|apply numbered_regular].
    destruct (sepFree_cases _ (safeNameOf_sepFree filename)) as [Hr|Hd]; [exact Hr|].
    unfold candidate, entryName in Hq, Hacc.
    rewrite (degenerate_exists _ _ _ Hd Hacc Hex) in Hq. discriminate. }
  unfold candidate in *. set (n := entryName (safeNameOf filename) k) in *.
  destruct (join_regular dir n Hreg) as (Hres & _ & Htr & Hne).
  unfold FS.resolve in Hres. injection Hres as Ha Hc.
  assert (Hdirstat : FS.stat fs (Path.isAbsolute dir) (Path.components dir) = Some FS.Dir).
  { unfold FS.statPath in Hdir.
    destruct (FS.acceptable dir); cbn [negb] in Hdir; [|discriminate].
    destruct (Str.isEmpty dir); [discriminate|].
    destruct (FS.stat fs _ _) as [[c|]|]; try discriminate; [|reflexivity].
    destruct (Path.hasTrailingSep dir); discriminate. }
  assert (Hnode : FS.nodeAt fs (Path.isAbsolute dir) (n :: Path.components dir) = None).
  { unfold FS.existsSync, FS.statPath in Hq. apply isEmpty_false in Hne.
    rewrite Hacc, Hne, Ha, Hc, Htr in Hq. simpl in Hq. rewrite Hdirstat in Hq.
    destruct (FS.nodeAt fs _ _) as [[c|]|]; congruence. }
  assert (Hw : FS.writeFileSync fs (Path.join dir n) (att_content att)
               = Ok (<[(Path.isAbsolute dir, n :: Path.components dir)
                       := FS.File (att_content att)]> fs)).
  { unfold FS.writeFileSync. apply isEmpty_false in Hne.
    rewrite Hacc, Hne, Htr, Ha, Hc. simpl. now rewrite Hdirstat, Hnode. }
  rewrite Hw. apply IH; [|exact Hrest].
  eapply statPath_insert_other; eauto.
Qed.

Lemma mkdirSync_isDir (fs fs1 : FS.t) (dir : string) :
  FS.mkdirSync fs dir = Ok fs1 -> FS.statPath fs1 dir = Some FS.Dir.
Proof.
  unfold FS.mkdirSync, FS.statPath.
  destruct (FS.acceptable dir); cbn [negb]; [|discriminate].
  destruct (Str.isEmpty dir); [discriminate|].
  intros (H & _)%mkdirs_ok. now rewrite H.
Qed.

(* ===================================================================== *)
(** ** Facts about the handler *)
(* ===================================================================== *)

Ltac munfold :=
  unfold exec, parseEmail, saveAttachmentsM, when, emailCallDate in *;
  unfold bind, ret, throw, tryCatch, consoleLog, readFs, existsM, createM,
    processTranscript, callOnNewFile, callOnError, createTranscript, setFs,
    newDateISO in *.

Ltac msimpl := cbn [fst snd fs db console queued newFiles errors liftResult] in *.

(** The call date of the record an email or attachment is about to get. *)
Lemma emailCallDate_eq (env : Env) (email : Email) (w : World) :
  emailCallDate env email w
  = (Return (emailDateAt env (List.length (db w)) email), w).
Proof.
  unfold emailCallDate, emailDateAt, newDateISO, ret. now destruct (email_date email).
Qed.

Lemma grows_trans (a b c : Store) : grows a b -> grows b c -> grows a c.
Proof.
  intros Hab Hbc. induction Hbc as [|s s' t H IH Ht]; [exact Hab|].
  apply grows_step; auto.
Qed.

Lemma grows_one (s : Store) (t : Transcript) :
  transcriptExists s (t_filepath t) = false -> grows s (s ++ [t]).
Proof. intros H. apply grows_step; [apply grows_refl | exact H]. Qed.

Lemma transcriptExists_spec (s : Store) (filepath : string) :
  transcriptExists s filepath = true <-> filepath ∈ map t_filepath s.
Proof.
  unfold transcriptExists. rewrite existsb_exists. split.
  - intros (r & Hin & Hr). apply eqb_true in Hr. subst.
    apply list_elem_of_fmap. exists r. split; [reflexivity | now apply list_elem_of_In].
  - intros (r & -> & Hin)%list_elem_of_fmap. exists r.
    split; [now apply list_elem_of_In | apply eqb_refl].
Qed.

Lemma transcriptExists_false (s : Store) (filepath : string) :
  transcriptExists s filepath = false <-> filepath ∉ map t_filepath s.
Proof.
  rewrite <- transcriptExists_spec. destruct (transcriptExists s filepath); split;
    congruence.
Qed.

Lemma transcriptExists_count (s : Store) (filepath : string) :
  transcriptExists s filepath = false <-> countPath filepath s = 0.
Proof.
  rewrite transcriptExists_false. unfold countPath.
  induction s as [|r s IH].
  - simpl. split; [reflexivity | intros _ H; inversion H].
  - rewrite filter_cons. cbn [List.map]. rewrite not_elem_of_cons.
    destruct (decide (t_filepath r = filepath)).
    + simpl. split; [intros [? _]; congruence | lia].
    + rewrite <- IH. split; [tauto | intros ?; split; [congruence | assumption]].
Qed.

Lemma countPath_app (filepath : string) (a b : Store) :
  countPath filepath (a ++ b) = countPath filepath a + countPath filepath b.
Proof. unfold countPath. now rewrite filter_app, length_app. Qed.

Lemma grows_NoDup (s s' : Store) :
  grows s s' -> NoDup (map t_filepath s) -> NoDup (map t_filepath s').
Proof.
  induction 1 as [|s s' t H IH Ht]; [auto|]. intros Hnd.
  rewrite map_app. simpl. apply NoDup_app. split; [auto|]. split.
  - intros x Hx Hin. apply list_elem_of_singleton in Hin. subst x.
    now apply transcriptExists_false in Ht.
  - apply NoDup_singleton.
Qed.

Lemma grows_count (filepath : string) (s s' : Store) :
  grows s s' -> countPath filepath s <= 1 -> countPath filepath s' <= 1.
Proof.
  induction 1 as [|s s' t H IH Ht]; [auto|]. intros Hc.
  rewrite countPath_app. specialize (IH Hc). unfold countPath at 2. simpl.
  rewrite filter_cons, filter_nil. destruct (decide (t_filepath t = filepath)) as [E|E]; simpl.
  - rewrite E in Ht. apply transcriptExists_count in Ht. lia.
  - lia.
Qed.

Lemma grows_exists (filepath : string) (s s' : Store) :
  grows s s' -> transcriptExists s filepath = true -> transcriptExists s' filepath = true.
Proof.
  induction 1 as [|s s' t H IH Ht]; [auto|]. intros Hc.
  unfold transcriptExists in *. rewrite existsb_app, IH by assumption. reflexivity.
Qed.

Lemma grows_prefix (s s' : Store) : grows s s' -> exists created, s' = s ++ created.
Proof.
  induction 1 as [|s s' t H [c ->] Ht]; [exists []; now rewrite app_nil_r|].
  exists (c ++ [t]). now rewrite app_assoc.
Qed.

Section HandlerFacts.

Variable env : Env.
Variable opts : Options.
Variable fuel : nat.

(** *** The existence check *)

Lemma onAdd_gate (filepath : string) (w : World) :
  transcriptExists (db w) filepath = true ->
  exists e, onAdd env opts fuel filepath w = (Return tt, logged w e)
    /\ (e = SkippingUnsupportedFile filepath \/ e = SkippingIgnoredFile filepath
        \/ e = AlreadyProcessed filepath).
Proof.
  intros H. unfold onAdd.
  destruct (negb _); [eauto|]. destruct (shouldIgnore _); [eauto 6|].
  munfold. rewrite H. eauto 6.
Qed.

(** *** The text branch *)

Lemma processText_effect (filepath : string) (w : World) :
  fs (exec (processText env opts filepath) w) = fs w
  /\ match parseTranscript env (fs w) filepath with
     | Ok parsed =>
         db (exec (processText env opts filepath) w)
         = db w ++ [textRecord env filepath parsed]
     | _ => db (exec (processText env opts filepath) w) = db w
     end.
Proof.
  unfold processText. munfold.
  destruct (parseTranscript env (fs w) filepath) as [parsed|e]; msimpl;
    destruct (processImmediately opts), (onNewFile opts), (onError opts); msimpl; auto.
Qed.

Lemma processPdfDocx_effect (ext filepath : string) (w : World) :
  fs (exec (processPdfDocx env opts ext filepath) w) = fs w
  /\ match extractFor env ext (fs w) filepath with
     | Ok extractedText =>
         if isBlank extractedText
         then db (exec (processPdfDocx env opts ext filepath) w) = db w
         else db (exec (processPdfDocx env opts ext filepath) w)
              = db w ++ [pdfDocxRecord env (List.length (db w)) filepath extractedText]
     | _ => db (exec (processPdfDocx env opts ext filepath) w) = db w
     end.
Proof.
  unfold processPdfDocx, extractFor, pdfDocxRecord. munfold.
  destruct (Str.eqb ext ".pdf"); msimpl.
  - destruct (extractPdfText env (fs w) filepath) as [text|e]; msimpl;
      [destruct (isBlank text)|]; msimpl;
      try destruct (parseFilenameMetadata env (Path.basename filepath))
        as [[[|c d]|] callType];
      cbn [truthy meta_date Str.isEmpty negb orElse default]; msimpl;
      destruct (processImmediately opts), (onNewFile opts), (onError opts); msimpl; auto.
  - destruct (extractDocxText env (fs w) filepath) as [text|e]; msimpl;
      [destruct (isBlank text)|]; msimpl;
      try destruct (parseFilenameMetadata env (Path.basename filepath))
        as [[[|c d]|] callType];
      cbn [truthy meta_date Str.isEmpty negb orElse default]; msimpl;
      destruct (processImmediately opts), (onNewFile opts), (onError opts); msimpl; auto.
Qed.

End HandlerFacts.

Section EmailFacts.

Variable env : Env.
Variable opts : Options.
Variable fuel : nat.

Ltac finish_att :=
  msimpl;
  try (split; [reflexivity | rewrite ?app_nil_r; reflexivity]);
  match goal with
  | |- context [isBlank ?text] =>
      destruct (isBlank text) eqn:Eb; msimpl;
      [split; [reflexivity | rewrite ?app_nil_r; reflexivity]|];
      match goal with
      | |- context [email_date ?email] => destruct (email_date email)
      end;
      msimpl; destruct (processImmediately opts), (onNewFile opts); msimpl;
      (split; reflexivity)
  end.

(** One pass of the loop over the staged files: what it does to the file
    system and to the store. *)
Lemma processAttachment_exact (email : Email) (att : SavedFile) (w : World) :
  fs (exec (processAttachment env opts email att) w) = fs w
  /\ db (exec (processAttachment env opts email att) w)
     = db w ++ match attachmentRecordOf env email (fs w) (db w) att with
               | Some r => [r]
               | None => []
               end.
Proof.
  unfold processAttachment, attachmentRecordOf, attachmentTextOf, attachmentRecord,
    emailDateAt.
  destruct (negb _); [munfold; msimpl; now rewrite app_nil_r|].
  munfold.
  destruct (transcriptExists (db w) (saved_filepath att)) eqn:Ee;
    [msimpl; now rewrite app_nil_r|].
  destruct (Str.eqb _ ".pdf"); [|destruct (Str.eqb _ ".docx")].
  - destruct (extractPdfText env (fs w) (saved_filepath att)) as [text|e];
      rewrite ?app_nil_r; finish_att.
  - destruct (extractDocxText env (fs w) (saved_filepath att)) as [text|e];
      rewrite ?app_nil_r; finish_att.
  - destruct (FS.readFileSync (fs w) (saved_filepath att)) as [text|e];
      rewrite ?app_nil_r; finish_att.
Qed.

Lemma attachmentRecordOf_Some (email : Email) (files : FS.t) (store : Store)
    (att : SavedFile) (r : Transcript) :
  attachmentRecordOf env email files store att = Some r ->
  Str.includes (Str.toLowerCase (Path.extname (saved_filename att)))
               ATTACHMENT_EXTENSIONS = true
  /\ transcriptExists store (saved_filepath att) = false
  /\ exists text,
       attachmentTextOf env att files = Ok text /\ isBlank text = false
       /\ r = attachmentRecord env (List.length store) email att text.
Proof.
  unfold attachmentRecordOf.
  destruct (Str.includes _ _); cbn [negb]; [|discriminate].
  destruct (transcriptExists store _); [discriminate|].
  destruct (attachmentTextOf env att files) as [text|e]; [|discriminate].
  destruct (isBlank text) eqn:Eb; [discriminate|].
  intros [= <-]. eauto 6.
Qed.

Lemma processAttachment_effect (email : Email) (att : SavedFile) (w : World) :
  fs (exec (processAttachment env opts email att) w) = fs w
  /\ (db (exec (processAttachment env opts email att) w) = db w
      \/ (transcriptExists (db w) (saved_filepath att) = false
          /\ exists text, isBlank text = false
             /\ db (exec (processAttachment env opts email att) w)
                = db w ++ [attachmentRecord env (List.length (db w)) email att text])).
Proof.
  destruct (processAttachment_exact email att w) as [Hfs Hdb].
  split; [exact Hfs|]. rewrite Hdb.
  destruct (attachmentRecordOf env email (fs w) (db w) att) as [r|] eqn:E.
  - apply attachmentRecordOf_Some in E as (_ & He & text & _ & Hb & ->).
    right. eauto.
  - left. apply app_nil_r.
Qed.

Lemma fromAttachment_cons (email : Email) (a : SavedFile) (l : list SavedFile)
    (created : list Transcript) :
  Forall (fromAttachment env email l) created ->
  Forall (fromAttachment env email (a :: l)) created.
Proof.
  intros H. eapply Forall_impl; [exact H|].
  intros t (att & text & id & Hin & Hb & Ht). exists att, text, id.
  split; [now right | auto].
Qed.

Lemma forEach_attachments (email : Email) (l : list SavedFile) :
  forall w : World,
  fs (exec (forEach l (processAttachment env opts email)) w) = fs w
  /\ grows (db w) (db (exec (forEach l (processAttachment env opts email)) w))
  /\ exists created,
       db (exec (forEach l (processAttachment env opts email)) w) = db w ++ created
       /\ Forall (fromAttachment env email l) created.
Proof.
  induction l as [|att rest IH]; intros w.
  - simpl. split; [reflexivity|]. split; [apply grows_refl|].
    exists []. split; [now rewrite app_nil_r | constructor].
  - destruct (processAttachment_effect email att w) as [Hfs Hdb].
    assert (Hstep : grows (db w) (db (exec (processAttachment env opts email att) w))
              /\ exists created,
                   db (exec (processAttachment env opts email att) w) = db w ++ created
                   /\ Forall (fromAttachment env email (att :: rest)) created).
    { destruct Hdb as [->|(Hex & text & Hb & ->)].
      - split; [apply grows_refl|]. exists []. split; [now rewrite app_nil_r | constructor].
      - split; [now apply grows_one|]. eexists. split; [reflexivity|].
        constructor; [|constructor]. exists att, text, (List.length (db w)).
        split; [constructor | auto]. }
    destruct Hstep as (Hg & created & Hc & Hall).
    simpl forEach. unfold exec, bind in *.
    destruct (processAttachment env opts email att w) as [[[]| |] w1]; simpl in *;
      try (split; [exact Hfs|]; split; [exact Hg|]; exists created; split; assumption).
    destruct (IH w1) as (Hfs' & Hg' & created' & Hc' & Hall').
    split; [congruence|]. split; [eapply grows_trans; eauto|].
    exists (created ++ created'). split.
    + rewrite Hc', Hc. now rewrite app_assoc.
    + apply Forall_app. split; [exact Hall | now apply fromAttachment_cons].
Qed.

Lemma processEmail_effect (filepath : string) (w : World) :
  transcriptExists (db w) filepath = false ->
  grows (db w) (db (exec (processEmail env opts fuel filepath) w))
  /\ (db (exec (processEmail env opts fuel filepath) w) = db w
      \/ exists raw parsed created savedFiles,
           FS.readFileSync (fs w) filepath = Ok raw
           /\ simpleParser env raw = Ok parsed
           /\ db (exec (processEmail env opts fuel filepath) w)
              = db w ++ emailRecord env (List.length (db w)) filepath (emailOf filepath parsed) :: created
           /\ Forall (fromAttachment env (emailOf filepath parsed) savedFiles) created).
Proof.
  intros Hex. unfold processEmail. munfold.
  destruct (FS.readFileSync (fs w) filepath) as [raw|e] eqn:Er; msimpl;
    try (destruct (onError opts); msimpl; (split; [apply grows_refl | now left])).
  destruct (simpleParser env raw) as [parsed|e] eqn:Ep; msimpl;
    try (destruct (onError opts); msimpl; (split; [apply grows_refl | now left])).
  destruct parsed as [text html from to cc subject date messageId inReplyTo atts].
  set (parsed := {| pm_text := text; pm_html := html; pm_from := from; pm_to := to;
                    pm_cc := cc; pm_subject := subject; pm_date := date;
                    pm_messageId := messageId; pm_inReplyTo := inReplyTo;
                    pm_attachments := atts |}) in *.
  set (email := emailOf filepath parsed).
  destruct (isBlank (email_fullContent email)); msimpl;
    [split; [apply grows_refl | now left]|].
  assert (Hdate : email_date email = date) by reflexivity.
  rewrite Hdate. clear Hdate.
  assert (Hone : grows (db w) (db w ++ [emailRecord env (List.length (db w)) filepath email]))
    by (now apply grows_one).
  assert (Hnone :
            grows (db w) (db w ++ [emailRecord env (List.length (db w)) filepath email])
            /\ (db w ++ [emailRecord env (List.length (db w)) filepath email] = db w
                \/ exists raw0 parsed0 created savedFiles,
                     Ok raw = Ok raw0 /\ simpleParser env raw0 = Ok parsed0
                     /\ db w ++ [emailRecord env (List.length (db w)) filepath email]
                        = db w ++ emailRecord env (List.length (db w)) filepath (emailOf filepath parsed0) :: created
                     /\ Forall (fromAttachment env (emailOf filepath parsed0) savedFiles) created)).
  { split; [exact Hone|]. right.
    exists raw, parsed, [], []. split; [reflexivity|]. split; [exact Ep|].
    split; [reflexivity | constructor]. }
  assert (Hsome : forall (w0 w1 : World) (l : list SavedFile),
            db w0 = db w ++ [emailRecord env (List.length (db w)) filepath email] ->
            w1 = exec (forEach l (processAttachment env opts email)) w0 ->
            grows (db w) (db w1)
            /\ (db w1 = db w
                \/ exists raw0 parsed0 created savedFiles,
                     Ok raw = Ok raw0 /\ simpleParser env raw0 = Ok parsed0
                     /\ db w1 = db w ++ emailRecord env (List.length (db w)) filepath (emailOf filepath parsed0) :: created
                     /\ Forall (fromAttachment env (emailOf filepath parsed0) savedFiles) created)).
  { intros w0 w1 l Hw0 ->.
    destruct (forEach_attachments email l w0) as (_ & Hg & created & Hc & Hall).
    rewrite Hw0 in Hg. split; [eapply grows_trans; eauto|]. right.
    exists raw, parsed, created, l. split; [reflexivity|]. split; [exact Ep|].
    split; [|exact Hall]. rewrite Hc, Hw0. now rewrite <- app_assoc. }
  destruct date as [d|]; msimpl;
  destruct (processImmediately opts), (onNewFile opts); msimpl;
    (destruct (email_hasAttachments email); msimpl; [|exact Hnone]);
    (destruct (saveAttachments fuel (email_attachments email) _ (fs w)) as [[l|e|] fs1];
     msimpl;
     [ match goal with
       | |- context [forEach l ?f ?w0] =>
           destruct (forEach l f w0) as [[[]|e1|] w1] eqn:Ef;
           pose proof (Hsome w0 w1 l eq_refl) as Hs;
           unfold exec in Hs; rewrite Ef in Hs; specialize (Hs eq_refl);
           msimpl; try (destruct (onError opts)); msimpl; exact Hs
       end
     | destruct (onError opts); msimpl; exact Hnone
     | exact Hnone ]).
Qed.

End EmailFacts.

Section WatcherFacts.

Variable env : Env.
Variable opts : Options.
Variable fuel : nat.

(** *** The handler as a whole *)

Lemma onAdd_cases (filepath : string) (w : World) :
  (exists e, onAdd env opts fuel filepath w = (Return tt, logged w e))
  \/ (Str.includes (extOf filepath) SUPPORTED_EXTENSIONS = true
      /\ shouldIgnore filepath = false
      /\ transcriptExists (db w) filepath = false
      /\ onAdd env opts fuel filepath w
         = branchOf env opts fuel filepath (logged w (NewTranscriptDetected filepath))).
Proof.
  unfold onAdd, branchOf, extOf.
  destruct (Str.includes _ SUPPORTED_EXTENSIONS); cbn [negb];
    [|left; eexists; reflexivity].
  destruct (shouldIgnore filepath); [left; eexists; reflexivity|].
  munfold. destruct (transcriptExists (db w) filepath); [left; eexists; reflexivity|].
  right. repeat split; reflexivity.
Qed.

(** The handler only adds records for filepaths that have none. *)
Lemma onAdd_grows (filepath : string) (w : World) :
  grows (db w) (db (exec (onAdd env opts fuel filepath) w)).
Proof.
  unfold exec.
  destruct (onAdd_cases filepath w) as [[e ->]|(_ & _ & Hex & ->)];
    [apply grows_refl|].
  set (w1 := logged w (NewTranscriptDetected filepath)).
  assert (Hex1 : transcriptExists (db w1) filepath = false) by exact Hex.
  change (db w) with (db w1). unfold branchOf.
  destruct (Str.eqb (extOf filepath) ".eml").
  - now apply processEmail_effect.
  - destruct (_ || _).
    + destruct (processPdfDocx_effect env opts (extOf filepath) filepath w1) as [_ H].
      unfold exec in H.
      destruct (extractFor env (extOf filepath) (fs w1) filepath) as [text|e];
        [destruct (isBlank text)|]; rewrite H; try apply grows_refl.
      now apply grows_one.
    + destruct (processText_effect env opts filepath w1) as [_ H]. unfold exec in H.
      destruct (parseTranscript env (fs w1) filepath) as [parsed|e];
        rewrite H; try apply grows_refl.
      now apply grows_one.
Qed.

(** What the handler creates for a file that is not an email. *)
Lemma onAdd_other (filepath : string) (w : World) :
  extOf filepath <> ".eml" ->
  db (exec (onAdd env opts fuel filepath) w) = db w
  \/ (exists text,
        db (exec (onAdd env opts fuel filepath) w)
        = db w ++ [pdfDocxRecord env (List.length (db w)) filepath text])
  \/ (exists parsed,
        db (exec (onAdd env opts fuel filepath) w)
        = db w ++ [textRecord env filepath parsed]).
Proof.
  intros Hext. unfold exec.
  destruct (onAdd_cases filepath w) as [[e ->]|(_ & _ & Hex & ->)]; [now left|].
  set (w1 := logged w (NewTranscriptDetected filepath)).
  change (db w) with (db w1). unfold branchOf.
  apply eqb_false in Hext. rewrite Hext.
  destruct (_ || _).
  - destruct (processPdfDocx_effect env opts (extOf filepath) filepath w1) as [_ H].
    unfold exec in H.
    destruct (extractFor env (extOf filepath) (fs w1) filepath) as [text|e];
      [destruct (isBlank text)|]; rewrite H; eauto.
  - destruct (processText_effect env opts filepath w1) as [_ H]. unfold exec in H.
    destruct (parseTranscript env (fs w1) filepath) as [parsed|e]; rewrite H; eauto.
Qed.

(** What the handler creates for an email. *)
Lemma onAdd_email (filepath : string) (w : World) :
  extOf filepath = ".eml" ->
  db (exec (onAdd env opts fuel filepath) w) = db w
  \/ exists raw parsed created savedFiles,
       FS.readFileSync (fs w) filepath = Ok raw
       /\ simpleParser env raw = Ok parsed
       /\ db (exec (onAdd env opts fuel filepath) w)
          = db w ++ emailRecord env (List.length (db w)) filepath (emailOf filepath parsed) :: created
       /\ Forall (fromAttachment env (emailOf filepath parsed) savedFiles) created.
Proof.
  intros Hext. unfold exec.
  destruct (onAdd_cases filepath w) as [[e ->]|(_ & _ & Hex & ->)]; [now left|].
  set (w1 := logged w (NewTranscriptDetected filepath)).
  unfold branchOf. rewrite Hext. change (Str.eqb ".eml" ".eml") with true. cbv iota.
  destruct (processEmail_effect env opts fuel filepath w1 Hex) as [_ H]. exact H.
Qed.

(** *** [importFolder] *)

Lemma importFile_effect (folderPath file : string) (w : World) :
  fs (exec (importFile env folderPath file) w) = fs w
  /\ (exists r, fst (importFile env folderPath file w) = Return r)
  /\ db (exec (importFile env folderPath file) w)
  = if wouldImport folderPath file
       && negb (transcriptExists (db w) (Path.join folderPath file))
    then match parseTranscript env (fs w) (Path.join folderPath file) with
         | Ok parsed => db w ++ [textRecord env (Path.join folderPath file) parsed]
         | Throw _ => db w
         end
    else db w.
Proof.
  unfold importFile, wouldImport.
  destruct (Str.includes _ SUPPORTED_EXTENSIONS); cbn [negb andb];
    [|munfold; msimpl; eauto].
  destruct (shouldIgnore _); cbn [negb andb]; [munfold; msimpl; eauto|].
  munfold. destruct (transcriptExists (db w) _); cbn [negb andb]; [msimpl; eauto|].
  destruct (parseTranscript env (fs w) _) as [parsed|e]; msimpl; eauto.
Qed.

Lemma settled_grows (folderPath : string) (files : FS.t) (s s' : Store) (file : string) :
  grows s s' -> settled env folderPath files s file -> settled env folderPath files s' file.
Proof.
  intros Hg [H|[H|H]]; [now left | right; left | now right; right].
  eapply grows_exists; eauto.
Qed.

Lemma importFiles_step (folderPath file : string) (rest : list string) (w : World) :
  exists r, importFile env folderPath file w
            = (Return r, exec (importFile env folderPath file) w)
    /\ exec (importFiles env folderPath (file :: rest)) w
       = exec (importFiles env folderPath rest)
              (exec (importFile env folderPath file) w).
Proof.
  destruct (importFile_effect folderPath file w) as (_ & [r Hr] & _).
  exists r. unfold exec in *. cbn [importFiles]. unfold bind at 1.
  destruct (importFile env folderPath file w) as [o w1]. cbn [fst snd] in *. subst o.
  split; [reflexivity|]. unfold bind, ret.
  destruct (importFiles env folderPath rest w1) as [[rs|e|] w2]; reflexivity.
Qed.

(** One scan: the store grows, and every entry is settled afterwards. *)
Lemma importFiles_effect (folderPath : string) (files : list string) :
  forall w : World,
  fs (exec (importFiles env folderPath files) w) = fs w
  /\ grows (db w) (db (exec (importFiles env folderPath files) w))
  /\ Forall (settled env folderPath (fs w) (db (exec (importFiles env folderPath files) w)))
        files.
Proof.
  induction files as [|file rest IH]; intros w.
  - split; [reflexivity|]. split; [apply grows_refl | constructor].
  - destruct (importFiles_step folderPath file rest w) as (r & _ & ->).
    destruct (importFile_effect folderPath file w) as (Hfs & _ & Hdb).
    set (w1 := exec (importFile env folderPath file) w) in *.
    destruct (IH w1) as (Hfs' & Hg' & Hall).
    assert (Hg : grows (db w) (db w1) /\ settled env folderPath (fs w) (db w1) file).
    { rewrite Hdb. unfold settled.
      destruct (wouldImport folderPath file); cbn [andb];
        [|split; [apply grows_refl | now left]].
      destruct (transcriptExists (db w) (Path.join folderPath file)) eqn:Ee; cbn [negb];
        [split; [apply grows_refl | now right; left]|].
      destruct (parseTranscript env (fs w) (Path.join folderPath file)) as [parsed|e];
        [|split; [apply grows_refl | right; right; eauto]].
      split; [now apply grows_one|]. right; left.
      unfold transcriptExists. rewrite existsb_app. cbn [existsb].
      cbn [t_filepath textRecord]. now rewrite eqb_refl, orb_true_r. }
    destruct Hg as [Hg Hs].
    split; [congruence|]. split; [eapply grows_trans; eauto|].
    constructor; [eapply settled_grows; eauto|]. now rewrite <- Hfs.
Qed.

(** A scan over settled entries creates nothing. *)
Lemma importFiles_settled (folderPath : string) (files : list string) :
  forall w : World,
  Forall (settled env folderPath (fs w) (db w)) files ->
  db (exec (importFiles env folderPath files) w) = db w.
Proof.
  induction files as [|file rest IH]; intros w Hall; [reflexivity|].
  inversion Hall as [|? ? Hs Hrest]; subst.
  destruct (importFiles_step folderPath file rest w) as (r & _ & ->).
  destruct (importFile_effect folderPath file w) as (Hfs & _ & Hdb).
  assert (Hsame : db (exec (importFile env folderPath file) w) = db w).
  { rewrite Hdb. destruct Hs as [->|[->|[e ->]]]; cbn [andb negb];
      rewrite ?andb_false_r; try reflexivity.
    now destruct (_ && _). }
  rewrite IH; [exact Hsame|]. now rewrite Hfs, Hsame.
Qed.

(** Two scans of a folder: the second creates nothing. *)
Lemma importFolder_twice (folderPath : string) (w : World) :
  let w1 := exec (importFolder env folderPath) w in
  fs w1 = fs w
  /\ grows (db w) (db w1)
  /\ db (exec (importFolder env folderPath) w1) = db w1.
Proof.
  unfold importFolder. munfold.
  destruct (FS.readdirSync (fs w) folderPath) as [files|e] eqn:Er; msimpl.
  - destruct (importFiles_effect folderPath files w) as (Hfs & Hg & Hall).
    unfold exec in *. rewrite Hfs, Er. msimpl.
    split; [reflexivity|]. split; [exact Hg|].
    apply (importFiles_settled folderPath files). now rewrite Hfs.
  - rewrite Er. msimpl. split; [reflexivity|]. split; [apply grows_refl | reflexivity].
Qed.

End WatcherFacts.

(* ===================================================================== *)
(** ** The properties of the specification *)
(* ===================================================================== *)

Lemma orElse_truthy (a : option string) (b : string) :
  truthy a = true -> Some (orElse a b) = a.
Proof. destruct a as [[|c s]|]; simpl; congruence. Qed.

Lemma orElseOpt_truthy (a b : option string) :
  truthy a = true -> orElseOpt a b = a.
Proof. unfold orElseOpt. now intros ->. Qed.

(** C3. For a file that is not an email, every record the handler creates
    carries the date the filename parser infers from the record's filename,
    whatever the content suggests, and likewise the call type as context. *)
Theorem C3_filename_metadata_wins (env : Env) (opts : Options) (fuel : nat)
    (filepath : string) (w : World) (created : list Transcript) :
  extOf filepath <> ".eml" ->
  db (exec (onAdd env opts fuel filepath) w) = db w ++ created ->
  Forall (fun t =>
            t_filepath t = filepath
            /\ (truthy (meta_date (parseFilenameMetadata env (t_filename t))) = true ->
                t_callDate t = meta_date (parseFilenameMetadata env (t_filename t)))
            /\ (truthy (meta_callType (parseFilenameMetadata env (t_filename t))) = true ->
                t_context t = meta_callType (parseFilenameMetadata env (t_filename t))))
         created.
Proof.
  intros Hext Hdb.
  destruct (onAdd_other env opts fuel filepath w Hext) as [H|[[text H]|[parsed H]]];
    rewrite H in Hdb.
  - rewrite <- (app_nil_r (db w)) in Hdb at 1. apply app_inv_head in Hdb. subst. constructor.
  - apply app_inv_head in Hdb. subst. constructor; [|constructor].
    cbn [pdfDocxRecord t_filepath t_filename t_callDate t_context].
    split; [reflexivity|]. split; apply orElse_truthy.
  - apply app_inv_head in Hdb. subst. constructor; [|constructor].
    cbn [textRecord t_filepath t_filename t_callDate t_context].
    split; [reflexivity|]. split; apply orElseOpt_truthy.
Qed.

Lemma existsb_impl {A} (f g : A -> bool) (l : list A) :
  (forall x, f x = true -> g x = true) -> existsb f l = true -> existsb g l = true.
Proof.
  intros Hfg. rewrite !existsb_exists. intros (x & Hin & Hx). eauto.
Qed.

Lemma basename_match_ignored (filepath : string) :
  existsb (fun pattern => Regex.test false pattern (Path.basename filepath))
          IGNORED_PATTERNS = true ->
  shouldIgnore filepath = true.
Proof.
  unfold shouldIgnore. apply existsb_impl. intros p ->. reflexivity.
Qed.

Lemma ignored_is_dropped (env : Env) (opts : Options) (fuel : nat)
    (filepath : string) (w : World) :
  shouldIgnore filepath = true ->
  (exists e, onAdd env opts fuel filepath w = (Return tt, logged w e)
     /\ (e = SkippingUnsupportedFile filepath \/ e = SkippingIgnoredFile filepath))
  /\ forall folderPath file, Path.join folderPath file = filepath ->
       importFile env folderPath file w = (Return [], w).
Proof.
  intros Hi. split.
  - unfold onAdd. destruct (negb _); [eauto|]. rewrite Hi. eauto.
  - intros folderPath file <-. unfold importFile.
    destruct (negb _); [reflexivity|]. now rewrite Hi.
Qed.

(** C6. A file whose basename matches one of the ignore patterns is ignored
    by the filter given to the watcher; if an event reaches the handler all
    the same, the handler writes one console line and nothing else, and
    [importFolder] skips the entry.  The six filenames of the specification
    match a pattern, so this holds for every path ending in one of them. *)
Theorem C6_ignored_files_are_dropped (env : Env) (opts : Options) (fuel : nat)
    (filepath : string) (w : World) :
  existsb (fun pattern => Regex.test false pattern (Path.basename filepath))
          IGNORED_PATTERNS = true
  \/ Path.basename filepath ∈ ignoredExamples ->
  shouldIgnore filepath = true
  /\ (exists e, onAdd env opts fuel filepath w = (Return tt, logged w e)
        /\ (e = SkippingUnsupportedFile filepath \/ e = SkippingIgnoredFile filepath))
  /\ (forall folderPath file, Path.join folderPath file = filepath ->
        importFile env folderPath file w = (Return [], w)).
Proof.
  intros H.
  assert (Hi : shouldIgnore filepath = true).
  { apply basename_match_ignored. destruct H as [H|H]; [exact H|].
    unfold ignoredExamples in H.
    repeat (apply elem_of_cons in H as [->|H]; [vm_compute; reflexivity|]).
    inversion H. }
  split; [exact Hi|]. now apply ignored_is_dropped.
Qed.

Lemma C6_witness :
  Path.basename "/w/sync/~$draft.docx" ∈ ignoredExamples
  /\ shouldIgnore "/w/sync/~$draft.docx" = true
  /\ exists e, onAdd (sampleEnv q3Mail) allOptions 8 "/w/sync/~$draft.docx"
                 (emptyWorld mailFs)
               = (Return tt, logged (emptyWorld mailFs) e).
Proof.
  assert (H : Path.basename "/w/sync/~$draft.docx" ∈ ignoredExamples)
    by (vm_compute; repeat constructor).
  split; [exact H|].
  destruct (C6_ignored_files_are_dropped (sampleEnv q3Mail) allOptions 8
              "/w/sync/~$draft.docx" (emptyWorld mailFs) (or_intror H))
    as (Hi & (e & He & _) & _).
  split; [exact Hi|]. exists e. exact He.
Defined.

(** C2, at the failing input.  A text file holding only spaces is blank, yet
    the text branch of the handler creates a record for it, with the blank
    text as raw content; for a PDF file with the same content the handler
    creates none. *)
Theorem C2_blank_text_file_is_recorded :
  isBlank "   " = true
  /\ FS.readFileSync mailFs "/w/blank.txt" = Ok "   "
  /\ db (exec (onAdd (sampleEnv q3Mail) allOptions 8 "/w/blank.txt") (emptyWorld mailFs))
     = [ {| t_filename := "blank.txt";
            t_filepath := "/w/blank.txt";
            t_rawContent := "   ";
            t_durationMinutes := None;
            t_callDate := None;
            t_context := None |} ]
  /\ db (exec (onAdd (sampleEnv q3Mail) allOptions 8 "/w/blank.pdf") (emptyWorld mailFs))
     = [].
Proof. vm_compute. repeat split; reflexivity. Qed.

(** The text branch has no test of the content: whatever the parser
    returns becomes a record. *)
Lemma text_branch_has_no_blank_test (env : Env) (opts : Options) (filepath : string)
    (w : World) (parsed : ParsedTranscript) :
  parseTranscript env (fs w) filepath = Ok parsed ->
  db (exec (processText env opts filepath) w) = db w ++ [textRecord env filepath parsed].
Proof.
  intros H. destruct (processText_effect env opts filepath w) as [_ Hdb].
  now rewrite H in Hdb.
Qed.

(** The PDF and DOCX branch does test it. *)
Lemma pdf_branch_drops_blank (env : Env) (opts : Options) (ext filepath : string)
    (w : World) (text : string) :
  extractFor env ext (fs w) filepath = Ok text -> isBlank text = true ->
  db (exec (processPdfDocx env opts ext filepath) w) = db w.
Proof.
  intros H Hb. destruct (processPdfDocx_effect env opts ext filepath w) as [_ Hdb].
  now rewrite H, Hb in Hdb.
Qed.

Lemma headerBlockOf_eq (from : string) (to cc : list string) (subject : string)
    (date : option string) :
  headerBlockOf from to cc subject date
  = "From: " +:+ from +:+ LF
    +:+ "To: " +:+ Str.join ", " to +:+ LF
    +:+ (if (0 <? List.length cc)%nat then "CC: " +:+ Str.join ", " cc +:+ LF else "")
    +:+ "Subject: " +:+ subject +:+ LF
    +:+ "Date: " +:+ match date with Some d => d | None => "Unknown" end +:+ LF
    +:+ "---".
Proof.
  unfold headerBlockOf, filterBoolean.
  destruct (0 <? List.length cc)%nat; cbn [omap list_omap truthy Str.isEmpty negb];
    sapp; cbn [Str.isEmpty negb Str.join]; sapp; rewrite ?app_assoc_s; reflexivity.
Qed.

Lemma keepAttachment_false (att : MailAttachment) :
  keepAttachment att = false <-> excludedAsStated att.
Proof.
  unfold keepAttachment, excludedAsStated, isInline.
  destruct (decide (ma_contentDisposition att = Some "inline")) as [Hd|Hd].
  - rewrite bool_decide_eq_true_2 by assumption. cbn [andb].
    destruct (Z.ltb_spec (ma_size att) 10240) as [Hlt|Hge].
    + split; [intros _; left; split; assumption | reflexivity].
    + destruct (truthy (ma_filename att)); cbn [negb]; split; try discriminate; auto.
      intros [[_ ?]|?]; [lia | discriminate].
  - rewrite bool_decide_eq_false_2 by assumption. cbn [andb].
    destruct (truthy (ma_filename att)); cbn [negb]; split; try discriminate; auto.
    intros [[? _]|?]; [contradiction | discriminate].
Qed.

(** C8. An attachment is dropped exactly when it is inline and smaller than
    10240 bytes, or has no filename; the retained attachments are the
    others, in order, each with its filename, declared content type, size
    and content. *)
Theorem C8_attachment_filter (filepath : string) (parsed : ParsedMail) :
  (forall att, keepAttachment att = false <-> excludedAsStated att)
  /\ email_attachments (emailOf filepath parsed)
     = map retain (filter (fun att => ~ excludedAsStated att)
                          (default [] (pm_attachments parsed)))
  /\ email_hasAttachments (emailOf filepath parsed)
     = negb (forallb (fun att => bool_decide (excludedAsStated att))
                     (default [] (pm_attachments parsed))).
Proof.
  split; [exact keepAttachment_false|].
  cbn [emailOf email_attachments email_hasAttachments]. unfold retainedAttachments.
  assert (Hf : filter (fun att => keepAttachment att = true)
                      (default [] (pm_attachments parsed))
               = filter (fun att => ~ excludedAsStated att)
                        (default [] (pm_attachments parsed))).
  { apply list_filter_iff. intros att. rewrite <- keepAttachment_false.
    destruct (keepAttachment att); split; congruence. }
  rewrite Hf. split; [reflexivity|].
  rewrite length_map. clear Hf.
  induction (default [] (pm_attachments parsed)) as [|att l IH]; [reflexivity|].
  rewrite filter_cons. cbn [forallb]. destruct (decide (~ excludedAsStated att)) as [Hn|Hy].
  - rewrite bool_decide_eq_false_2 by assumption. reflexivity.
  - rewrite bool_decide_eq_true_2 by (destruct (decide (excludedAsStated att)); tauto).
    exact IH.
Qed.

Lemma OneOf_spec (s : string) (c : ascii) :
  OneOf s c = true <-> c ∈ list_ascii_of_string s.
Proof.
  unfold OneOf. rewrite negb_true_iff.
  induction s as [|d s IH]; cbn [Str.all list_ascii_of_string].
  - split; [discriminate | intros H; inversion H].
  - rewrite elem_of_cons, <- IH. unfold Str.eqc at 1.
    destruct (decide (c = d)) as [->|Hne].
    + rewrite bool_decide_eq_true_2 by reflexivity. cbn [negb andb]. tauto.
    + rewrite bool_decide_eq_false_2 by assumption. cbn [negb andb].
      split; [auto | intros [?|?]; [contradiction | assumption]].
Qed.

(** Two attachments of one name in one email: both are staged, under
    different paths, and both become records. *)
Example twin_attachments_ex :
  let w1 := exec (onAdd (sampleEnv twinMail) allOptions 12 "/w/q3.eml") (emptyWorld mailFs) in
  map t_filepath (db w1)
  = ["/w/q3.eml"; "/w/.prism-attachments/notes.txt"; "/w/.prism-attachments/notes_1.txt"]
  /\ FS.readFileSync (fs w1) "/w/.prism-attachments/notes.txt" = Ok "first"
  /\ FS.readFileSync (fs w1) "/w/.prism-attachments/notes_1.txt" = Ok "second".
Proof. vm_compute. repeat split; reflexivity. Qed.

(** A file system that refuses the sanitized name of an attachment has not
    staged that attachment. *)
Lemma refused_name_not_staged (outputDir : string) (fs' : FS.t)
    (attachments : list Attachment) (saved : list SavedFile) (att : Attachment)
    (filename : string) :
  Forall2 (stagedAs outputDir fs') attachments saved ->
  att ∈ attachments -> att_filename att = Some filename ->
  FS.acceptable (candidate outputDir (safeNameOf filename) 0) = false -> False.
Proof.
  intros Hst Hin Hf Hacc.
  apply list_elem_of_lookup in Hin as [i Hi].
  destruct (Forall2_lookup_l _ _ _ _ _ Hst Hi) as (s & _ & Hs).
  destruct Hs as (filename' & k & Hf' & Hpath & _ & _ & Hbefore & _ & _ & _ & Hread).
  rewrite Hf in Hf'. injection Hf' as <-.
  destruct k as [|k].
  - apply readFileSync_Ok, statPath_acceptable in Hread. congruence.
  - assert (H0 : 0 < S k) by lia.
    apply Hbefore, existsSync_acceptable in H0. congruence.
Qed.

(** C4. Given enough iterations for its [while] loops, [saveAttachments]
    terminates; nothing that was in the file system is overwritten or
    removed; each attachment is written under the first name that is free
    among its sanitized name and the numbered names [base_1.ext],
    [base_2.ext], ..., to a path that did not exist before; the paths of the
    returned files are pairwise distinct, and each holds the content of its
    own attachment.  The call returns normally when the staging directory
    is a directory or can be made and every attachment is [stageable]: it
    has a filename, and the paths the loop can reach for it are paths the
    file system accepts.  It does not return when the file system refuses
    the sanitized name of some attachment, as it does for a name of 200
    characters outside ASCII, which takes 400 bytes. *)
Theorem C4_attachments_never_overwrite (fuel : nat) (attachments : list Attachment)
    (outputDir : string) (fs : FS.t) :
  size fs + List.length (Path.components outputDir) + List.length attachments + 2 <= fuel ->
  fst (saveAttachments fuel attachments outputDir fs) <> OutOfFuel
  /\ preserves fs (snd (saveAttachments fuel attachments outputDir fs))
  /\ (forall saved,
        fst (saveAttachments fuel attachments outputDir fs) = Return saved ->
        Forall2 (stagedAs outputDir (snd (saveAttachments fuel attachments outputDir fs)))
                attachments saved
        /\ NoDup (map saved_filepath saved)
        /\ Forall (fun s => FS.existsSync fs (saved_filepath s) = false) saved)
  /\ (Forall (fun att => stageable fuel outputDir att = true) attachments ->
      FS.statPath fs outputDir = Some FS.Dir
      \/ (FS.existsSync fs outputDir = false
          /\ exists fs1, FS.mkdirSync fs outputDir = Ok fs1) ->
      exists saved, fst (saveAttachments fuel attachments outputDir fs) = Return saved)
  /\ (forall att filename,
        att ∈ attachments -> att_filename att = Some filename ->
        FS.acceptable (candidate outputDir (safeNameOf filename) 0) = false ->
        forall saved, fst (saveAttachments fuel attachments outputDir fs) <> Return saved).
Proof.
  intros Hfuel.
  pose proof (saveAttachments_fuel fuel attachments outputDir fs Hfuel) as Hnf.
  destruct (saveAttachments fuel attachments outputDir fs) as [r fs'] eqn:E.
  destruct (saveAttachments_spec _ _ _ _ _ _ E) as (Hp & _ & Hs).
  cbn [fst snd] in *. split; [exact Hnf|]. split; [exact Hp|]. split; [exact Hs|].
  split; [|intros att filename Hin Hf Hacc saved Hr;
           destruct (Hs _ Hr) as (Hst & _);
           now apply (refused_name_not_staged _ _ _ _ _ _ Hst Hin Hf Hacc)].
  intros Hnames Hdir. unfold saveAttachments in E.
  assert (Hd : exists fs1,
             (if negb (FS.existsSync fs outputDir) then FS.mkdirSync fs outputDir
              else Ok fs) = Ok fs1
             /\ FS.statPath fs1 outputDir = Some FS.Dir).
  { destruct Hdir as [Hd|(Hd & fs1 & Hm)].
    - exists fs. unfold FS.existsSync. rewrite Hd. auto.
    - exists fs1. rewrite Hd. split; [exact Hm | now apply mkdirSync_isDir in Hm]. }
  destruct Hd as (fs1 & Hg & Hd). rewrite Hg in E.
  pose proof (saveEach_ok attachments fuel outputDir fs1 [] Hd Hnames) as Hok.
  rewrite E in Hok. exact (Hok Hnf).
Qed.

Lemma C4_witness :
  size sampleFs + List.length (Path.components "/w/sub")
    + List.length twoSameName + 2 <= 12
  /\ Forall (fun att => stageable 12 "/w/sub" att = true) twoSameName
  /\ FS.statPath sampleFs "/w/sub" = Some FS.Dir
  /\ fst (saveAttachments 12 twoSameName "/w/sub" sampleFs) <> OutOfFuel
  /\ preserves sampleFs (snd (saveAttachments 12 twoSameName "/w/sub" sampleFs))
  /\ exists saved, fst (saveAttachments 12 twoSameName "/w/sub" sampleFs) = Return saved.
Proof.
  assert (H : size sampleFs + List.length (Path.components "/w/sub")
              + List.length twoSameName + 2 <= 12) by (vm_compute; lia).
  assert (Hst : Forall (fun att => stageable 12 "/w/sub" att = true) twoSameName)
    by (repeat constructor; vm_compute; reflexivity).
  assert (Hdir : FS.statPath sampleFs "/w/sub" = Some FS.Dir)
    by (vm_compute; reflexivity).
  split; [exact H|]. split; [exact Hst|]. split; [exact Hdir|].
  destruct (C4_attachments_never_overwrite 12 twoSameName "/w/sub" sampleFs H)
    as (H1 & H2 & _ & H4 & _).
  split; [exact H1|]. split; [exact H2|].
  apply H4; [exact Hst|]. now left.
Defined.

(** C10. The sanitized name is the filename with every character of the
    class (slash, backslash, colon, star, question mark, double quote,
    angle brackets, bar) replaced by an underscore, cut to 200 characters.
    Whatever the filenames, every key of the file system that
    [saveAttachments] changes was free before and is afterwards either the
    staging directory or an ancestor made by [mkdirSync], or a file whose
    parent is the staging directory; and every returned file is
    [path.join(outputDir, entry)] for a proper entry name (no separator,
    not empty, neither [.] nor [..]) that is the sanitized name or one of
    its numbered variants. *)
Theorem C10_staging_stays_inside (fuel : nat) (attachments : list Attachment)
    (outputDir : string) (fs : FS.t) :
  (forall c, OneOf reservedChars c = true
             <-> c ∈ ["/"; backslash; ":"; "*"; "?"; doubleQuote; "<"; ">"; "|"]%char)
  /\ (forall filename,
        safeNameOf filename
        = Str.take 200 (Str.map (fun c => if OneOf reservedChars c then "_"%char else c)
                                filename)
        /\ Str.all (fun c => negb (OneOf reservedChars c)) (safeNameOf filename) = true
        /\ String.length (safeNameOf filename) <= 200)
  /\ (forall key,
        snd (saveAttachments fuel attachments outputDir fs) !! key <> fs !! key ->
        fs !! key = None
        /\ (createdDir outputDir (snd (saveAttachments fuel attachments outputDir fs)) key
            \/ entryOf outputDir (snd (saveAttachments fuel attachments outputDir fs)) key))
  /\ (forall saved,
        fst (saveAttachments fuel attachments outputDir fs) = Return saved ->
        Forall2 (fun att s =>
                   exists filename entry,
                     att_filename att = Some filename
                     /\ regularName entry
                     /\ (entry = safeNameOf filename
                         \/ exists k, entry = numbered (safeNameOf filename) (S k))
                     /\ saved_filepath s = Path.join outputDir entry
                     /\ saved_filename s = entry
                     /\ FS.resolve (saved_filepath s)
                        = (Path.isAbsolute outputDir, entry :: Path.components outputDir))
                attachments saved).
Proof.
  split; [intros c; apply OneOf_spec|].
  split.
  { intros filename. split; [apply safeNameOf_map|].
    split; [apply safeNameOf_clean | apply safeNameOf_length]. }
  destruct (saveAttachments fuel attachments outputDir fs) as [r fs'] eqn:E.
  destruct (saveAttachments_spec _ _ _ _ _ _ E) as (_ & Hch & Hs).
  cbn [fst snd]. split; [exact Hch|].
  intros saved Hr. destruct (Hs saved Hr) as (Hf2 & _ & _).
  eapply Forall2_impl; [exact Hf2|].
  intros att s (filename & k & H1 & H2 & H3 & H4 & _ & H6 & _).
  exists filename, (entryName (safeNameOf filename) k).
  split; [exact H1|]. split; [exact H4|]. split.
  { destruct k as [|k]; [now left | right; now exists k]. }
  split; [exact H2|]. split; [exact H3 | exact H6].
Qed.

Lemma C10_witness :
  fst (saveAttachments 12 twoSameName "/w/.prism-attachments" sampleFs)
  = Return [ {| saved_filename := "notes.txt";
                saved_filepath := "/w/.prism-attachments/notes.txt";
                saved_contentType := "text/plain"; saved_size := 5 |};
             {| saved_filename := "notes_1.txt";
                saved_filepath := "/w/.prism-attachments/notes_1.txt";
                saved_contentType := "text/plain"; saved_size := 6 |};
             {| saved_filename := ".._up_.._x_.md";
                saved_filepath := "/w/.prism-attachments/.._up_.._x_.md";
                saved_contentType := "text/markdown"; saved_size := 1 |};
             {| saved_filename := ".._1";
                saved_filepath := "/w/.prism-attachments/.._1";
                saved_contentType := "text/plain"; saved_size := 1 |} ]
  /\ Forall2 (fun att s =>
                exists filename entry,
                  att_filename att = Some filename
                  /\ regularName entry
                  /\ (entry = safeNameOf filename
                      \/ exists k, entry = numbered (safeNameOf filename) (S k))
                  /\ saved_filepath s = Path.join "/w/.prism-attachments" entry
                  /\ saved_filename s = entry
                  /\ FS.resolve (saved_filepath s)
                     = (Path.isAbsolute "/w/.prism-attachments",
                        entry :: Path.components "/w/.prism-attachments"))
             twoSameName
             (match fst (saveAttachments 12 twoSameName "/w/.prism-attachments" sampleFs)
              with Return l => l | _ => [] end).
Proof.
  assert (H : fst (saveAttachments 12 twoSameName "/w/.prism-attachments" sampleFs)
              = Return (match fst (saveAttachments 12 twoSameName "/w/.prism-attachments"
                                     sampleFs)
                        with Return l => l | _ => [] end))
    by (vm_compute; reflexivity).
  split; [vm_compute; reflexivity|].
  destruct (C10_staging_stays_inside 12 twoSameName "/w/.prism-attachments" sampleFs)
    as (_ & _ & _ & Hs).
  exact (Hs _ H).
Defined.

Lemma C3_witness :
  extOf "/w/2024-03-05 kickoff.txt" <> ".eml"
  /\ parseTranscript datedEnv mailFs "/w/2024-03-05 kickoff.txt"
     = Ok {| parsed_filename := "2024-03-05 kickoff.txt";
             parsed_rawContent := "Hello world";
             parsed_durationMinutes := None;
             parsed_callDate := Some "2020-01-01";
             parsed_context := Some "Discovery call" |}
  /\ db (exec (onAdd datedEnv allOptions 8 "/w/2024-03-05 kickoff.txt") (emptyWorld mailFs))
     = db (emptyWorld mailFs) ++ [kickoffRecord]
  /\ t_callDate kickoffRecord = Some "2024-03-05".
Proof.
  assert (H1 : extOf "/w/2024-03-05 kickoff.txt" <> ".eml") by (vm_compute; discriminate).
  assert (H2 : db (exec (onAdd datedEnv allOptions 8 "/w/2024-03-05 kickoff.txt")
                        (emptyWorld mailFs))
               = db (emptyWorld mailFs) ++ [kickoffRecord]) by (vm_compute; reflexivity).
  split; [exact H1|]. split; [vm_compute; reflexivity|]. split; [exact H2|].
  pose proof (C3_filename_metadata_wins datedEnv allOptions 8 "/w/2024-03-05 kickoff.txt"
                (emptyWorld mailFs) [kickoffRecord] H1 H2) as H.
  apply Forall_cons in H as [(_ & Hd & _) _].
  rewrite Hd; vm_compute; reflexivity.
Defined.

(* ===================================================================== *)
(** ** Further properties of the handler, the parser and the staging *)
(* ===================================================================== *)

(** *** Relations kept by every step of a computation *)

Section Respects.

Variable R : World -> World -> Prop.
Hypothesis R_refl : forall w, R w w.
Hypothesis R_trans : forall a b c, R a b -> R b c -> R a c.

Lemma respects_ret {A} (a : A) : respects R (ret a).
Proof. intros w. apply R_refl. Qed.

Lemma respects_bind {A B} (m : M A) (k : A -> M B) :
  respects R m -> (forall a, respects R (k a)) -> respects R (bind m k).
Proof.
  intros Hm Hk w. specialize (Hm w). unfold exec, bind in *.
  destruct (m w) as [[a|e|] w1]; cbn [snd] in *; [|assumption..].
  eapply R_trans; [exact Hm | apply Hk].
Qed.

Lemma respects_tryCatch {A} (m : M A) (h : string -> M A) :
  respects R m -> (forall e, respects R (h e)) -> respects R (tryCatch m h).
Proof.
  intros Hm Hh w. specialize (Hm w). unfold exec, tryCatch in *.
  destruct (m w) as [[a|e|] w1]; cbn [snd] in *; [assumption| |assumption].
  eapply R_trans; [exact Hm | apply Hh].
Qed.

Lemma respects_when (b : bool) (m : M unit) : respects R m -> respects R (when b m).
Proof. intros Hm. destruct b; [exact Hm | apply respects_ret]. Qed.

Lemma respects_forEach {A} (l : list A) (body : A -> M unit) :
  (forall x, respects R (body x)) -> respects R (forEach l body).
Proof.
  intros Hb. induction l as [|x l IH]; [apply respects_ret|].
  cbn [forEach]. apply respects_bind; [apply Hb | intros _; exact IH].
Qed.

Lemma respects_readFs {A} (f : FS.t -> result A) : respects R (readFs f).
Proof. intros w. apply R_refl. Qed.

Lemma respects_existsM (filepath : string) : respects R (existsM filepath).
Proof. intros w. apply R_refl. Qed.

Lemma respects_newDateISO (env : Env) : respects R (newDateISO env).
Proof. intros w. apply R_refl. Qed.

Lemma respects_emailCallDate (env : Env) (email : Email) :
  respects R (emailCallDate env email).
Proof.
  unfold emailCallDate. destruct (email_date email);
    [apply respects_ret | apply respects_newDateISO].
Qed.

End Respects.

Lemma respects_pure (R : World -> World -> Prop) (R_refl : forall w, R w w)
    {A} (r : outcome A) :
  respects R (fun w => (r, w)).
Proof. intros w. apply R_refl. Qed.

Ltac resp Hrefl Htrans prim :=
  repeat first
    [ progress cbv zeta
    | apply (respects_ret _ Hrefl)
    | apply (respects_readFs _ Hrefl)
    | apply (respects_existsM _ Hrefl)
    | apply (respects_newDateISO _ Hrefl)
    | apply (respects_emailCallDate _ Hrefl)
    | apply (respects_pure _ Hrefl)
    | apply (respects_bind _ Htrans); [|intros ?]
    | apply (respects_tryCatch _ Htrans); [|intros ?]
    | apply (respects_when _ Hrefl)
    | apply (respects_forEach _ Hrefl Htrans); intros ?
    | prim
    | match goal with |- respects _ (if ?b then _ else _) => destruct b end ].

Lemma extends_refl (w : World) : extends w w.
Proof.
  split; [exists []; now rewrite app_nil_r|].
  split; [exists []; now rewrite app_nil_r | apply preserves_refl].
Qed.

Lemma extends_trans (a b c : World) : extends a b -> extends b c -> extends a c.
Proof.
  intros ([c1 H1] & [l1 H2] & H3) ([c2 H4] & [l2 H5] & H6).
  split; [exists (c1 ++ c2); now rewrite H4, H1, app_assoc|].
  split; [exists (l1 ++ l2); now rewrite H5, H2, app_assoc|].
  eapply preserves_trans; eauto.
Qed.

Lemma extends_consoleLog (e : LogEntry) : respects extends (consoleLog e).
Proof.
  intros w. split; [exists []; now rewrite app_nil_r|].
  split; [exists [e]; reflexivity | apply preserves_refl].
Qed.

Lemma extends_createM (r : Transcript) : respects extends (createM r).
Proof.
  intros w. split; [exists [r]; reflexivity|].
  split; [exists []; now rewrite app_nil_r | apply preserves_refl].
Qed.

Lemma extends_same (w w' : World) :
  db w' = db w -> console w' = console w -> fs w' = fs w -> extends w w'.
Proof.
  intros H1 H2 H3. split; [exists []; now rewrite app_nil_r|].
  split; [exists []; now rewrite app_nil_r | rewrite H3; apply preserves_refl].
Qed.

Lemma extends_processTranscript (id : nat) : respects extends (processTranscript id).
Proof. intros w. now apply extends_same. Qed.

Lemma extends_callOnNewFile (id : nat) (filepath : string) :
  respects extends (callOnNewFile id filepath).
Proof. intros w. now apply extends_same. Qed.

Lemma extends_callOnError (message filepath : string) :
  respects extends (callOnError message filepath).
Proof. intros w. now apply extends_same. Qed.

Lemma extends_saveAttachmentsM (fuel : nat) (atts : list Attachment) (dir : string) :
  respects extends (saveAttachmentsM fuel atts dir).
Proof.
  intros w. unfold exec, saveAttachmentsM.
  destruct (saveAttachments fuel atts dir (fs w)) as [r fs'] eqn:E.
  destruct (saveAttachments_spec _ _ _ _ _ _ E) as (Hp & _).
  split; [exists []; now rewrite app_nil_r|].
  split; [exists []; now rewrite app_nil_r | exact Hp].
Qed.

Ltac extends_prim :=
  first [ apply extends_consoleLog | apply extends_createM
        | apply extends_processTranscript | apply extends_callOnNewFile
        | apply extends_callOnError | apply extends_saveAttachmentsM ].

Lemma extends_onAdd (env : Env) (opts : Options) (fuel : nat) (filepath : string) :
  respects extends (onAdd env opts fuel filepath).
Proof.
  unfold onAdd, processEmail, processPdfDocx, processText, processAttachment, parseEmail.
  resp extends_refl extends_trans extends_prim.
Qed.

(** X2. The handler only adds: the records of the store it found are kept
    in place and new ones come after them, the console only gets longer,
    every path that resolved in the file system still resolves to the same
    node, and for a file that is not an email the file system is left as it
    was. *)
Theorem handler_only_adds (env : Env) (opts : Options) (fuel : nat)
    (filepath : string) (w : World) :
  (exists created, db (exec (onAdd env opts fuel filepath) w) = db w ++ created)
  /\ (exists lines, console (exec (onAdd env opts fuel filepath) w) = console w ++ lines)
  /\ preserves (fs w) (fs (exec (onAdd env opts fuel filepath) w))
  /\ (extOf filepath <> ".eml" -> fs (exec (onAdd env opts fuel filepath) w) = fs w).
Proof.
  destruct (extends_onAdd env opts fuel filepath w) as (H1 & H2 & H3).
  split; [exact H1|]. split; [exact H2|]. split; [exact H3|].
  intros Hext. unfold exec.
  destruct (onAdd_cases env opts fuel filepath w) as [[e ->]|(_ & _ & _ & ->)];
    [reflexivity|].
  unfold branchOf. apply eqb_false in Hext. rewrite Hext.
  destruct (_ || _).
  - apply (processPdfDocx_effect env opts (extOf filepath) filepath
             (logged w (NewTranscriptDetected filepath))).
  - apply (processText_effect env opts filepath (logged w (NewTranscriptDetected filepath))).
Qed.

Lemma handler_only_adds_witness :
  extOf "/w/blank.pdf" <> ".eml"
  /\ fs (exec (onAdd (sampleEnv q3Mail) allOptions 8 "/w/blank.pdf") (emptyWorld mailFs))
     = fs (emptyWorld mailFs).
Proof.
  assert (H : extOf "/w/blank.pdf" <> ".eml") by (vm_compute; discriminate).
  split; [exact H|].
  destruct (handler_only_adds (sampleEnv q3Mail) allOptions 8 "/w/blank.pdf"
              (emptyWorld mailFs)) as (_ & _ & _ & Hfs).
  exact (Hfs H).
Defined.

(** *** Exceptions *)

Lemma neverRaises_ret {A} (a : A) : neverRaises (ret a).
Proof. intros w e. discriminate. Qed.

Lemma neverRaises_bind {A B} (m : M A) (k : A -> M B) :
  neverRaises m -> (forall a, neverRaises (k a)) -> neverRaises (bind m k).
Proof.
  intros Hm Hk w e. specialize (Hm w). unfold bind.
  destruct (m w) as [[a|e1|] w1]; cbn [fst] in *;
    [apply Hk | now destruct (Hm e1) | discriminate].
Qed.

Lemma neverRaises_tryCatch {A} (m : M A) (h : string -> M A) :
  (forall e, neverRaises (h e)) -> neverRaises (tryCatch m h).
Proof.
  intros Hh w e. unfold tryCatch.
  destruct (m w) as [[a|e1|] w1]; cbn [fst]; [discriminate | apply Hh | discriminate].
Qed.

Lemma neverRaises_when (b : bool) (m : M unit) : neverRaises m -> neverRaises (when b m).
Proof. intros Hm. destruct b; [exact Hm | apply neverRaises_ret]. Qed.

Lemma neverRaises_forEach {A} (l : list A) (body : A -> M unit) :
  (forall x, neverRaises (body x)) -> neverRaises (forEach l body).
Proof.
  intros Hb. induction l as [|x l IH]; [apply neverRaises_ret|].
  cbn [forEach]. apply neverRaises_bind; [apply Hb | intros _; exact IH].
Qed.

Lemma neverRaises_total {A} (m : M A) :
  (forall w, exists a w', m w = (Return a, w')) -> neverRaises m.
Proof. intros H w e. destruct (H w) as (a & w' & ->). discriminate. Qed.

Lemma neverOutOfFuel_total {A} (m : M A) :
  (forall w, exists a w', m w = (Return a, w')) -> neverOutOfFuel m.
Proof. intros H w. destruct (H w) as (a & w' & ->). discriminate. Qed.

Lemma neverOutOfFuel_ret {A} (a : A) : neverOutOfFuel (ret a).
Proof. intros w. discriminate. Qed.

Lemma neverOutOfFuel_bind {A B} (m : M A) (k : A -> M B) :
  neverOutOfFuel m -> (forall a, neverOutOfFuel (k a)) -> neverOutOfFuel (bind m k).
Proof.
  intros Hm Hk w. specialize (Hm w). unfold bind.
  destruct (m w) as [[a|e1|] w1]; cbn [fst] in *;
    [apply Hk | discriminate | intros _; now apply Hm].
Qed.

Lemma neverOutOfFuel_tryCatch {A} (m : M A) (h : string -> M A) :
  neverOutOfFuel m -> (forall e, neverOutOfFuel (h e)) -> neverOutOfFuel (tryCatch m h).
Proof.
  intros Hm Hh w. specialize (Hm w). unfold tryCatch.
  destruct (m w) as [[a|e1|] w1]; cbn [fst] in *; [discriminate | apply Hh | assumption].
Qed.

Lemma neverOutOfFuel_when (b : bool) (m : M unit) :
  neverOutOfFuel m -> neverOutOfFuel (when b m).
Proof. intros Hm. destruct b; [exact Hm | apply neverOutOfFuel_ret]. Qed.

Lemma neverOutOfFuel_forEach {A} (l : list A) (body : A -> M unit) :
  (forall x, neverOutOfFuel (body x)) -> neverOutOfFuel (forEach l body).
Proof.
  intros Hb. induction l as [|x l IH]; [apply neverOutOfFuel_ret|].
  cbn [forEach]. apply neverOutOfFuel_bind; [apply Hb | intros _; exact IH].
Qed.

Lemma neverOutOfFuel_readFs {A} (f : FS.t -> result A) : neverOutOfFuel (readFs f).
Proof. intros w. unfold readFs. cbn [fst]. now destruct (f (fs w)). Qed.

Lemma neverOutOfFuel_lift {A} (r : result A) :
  neverOutOfFuel (fun w : World => (liftResult r, w)).
Proof. intros w. cbn [fst]. now destruct r. Qed.

Ltac total_prim :=
  intros ?; unfold emailCallDate;
  try match goal with |- context [email_date ?email] => destruct (email_date email) end;
  eexists; eexists; reflexivity.

Ltac nofuel :=
  repeat first
    [ progress cbv zeta
    | apply neverOutOfFuel_ret
    | apply neverOutOfFuel_readFs
    | apply neverOutOfFuel_lift
    | apply neverOutOfFuel_bind; [|intros ?]
    | apply neverOutOfFuel_tryCatch; [|intros ?]
    | apply neverOutOfFuel_when
    | apply neverOutOfFuel_forEach; intros ?
    | (apply neverOutOfFuel_total; total_prim)
    | match goal with |- neverOutOfFuel (if ?b then _ else _) => destruct b end ].

Ltac noraise :=
  repeat first
    [ progress cbv zeta
    | apply neverRaises_ret
    | apply neverRaises_tryCatch; intros ?
    | apply neverRaises_bind; [|intros ?]
    | apply neverRaises_when
    | apply neverRaises_forEach; intros ?
    | (apply neverRaises_total; total_prim)
    | match goal with |- neverRaises (if ?b then _ else _) => destruct b end ].

Lemma neverRaises_onAdd (env : Env) (opts : Options) (fuel : nat) (filepath : string) :
  neverRaises (onAdd env opts fuel filepath).
Proof.
  unfold onAdd, processEmail, processPdfDocx, processText. noraise.
Qed.

Lemma neverRaises_processAttachment (env : Env) (opts : Options) (email : Email)
    (att : SavedFile) :
  neverRaises (processAttachment env opts email att).
Proof. unfold processAttachment. noraise. Qed.

Lemma neverOutOfFuel_processAttachment (env : Env) (opts : Options) (email : Email)
    (att : SavedFile) :
  neverOutOfFuel (processAttachment env opts email att).
Proof. unfold processAttachment. nofuel. Qed.

Lemma neverOutOfFuel_processText (env : Env) (opts : Options) (filepath : string) :
  neverOutOfFuel (processText env opts filepath).
Proof. unfold processText. nofuel. Qed.

Lemma neverOutOfFuel_processPdfDocx (env : Env) (opts : Options) (ext filepath : string) :
  neverOutOfFuel (processPdfDocx env opts ext filepath).
Proof. unfold processPdfDocx. nofuel. Qed.

Lemma bind_noFuel {A B} (m : M A) (k : A -> M B) (w : World) :
  fst (m w) <> OutOfFuel ->
  (forall a w1, m w = (Return a, w1) -> fst (k a w1) <> OutOfFuel) ->
  fst (bind m k w) <> OutOfFuel.
Proof.
  intros Hm Hk. unfold bind. destruct (m w) as [[a|e|] w1]; cbn [fst] in *;
    [now apply Hk | discriminate | intros _; now apply Hm].
Qed.

Lemma tryCatch_noFuel {A} (m : M A) (h : string -> M A) (w : World) :
  fst (m w) <> OutOfFuel -> (forall e, neverOutOfFuel (h e)) ->
  fst (tryCatch m h w) <> OutOfFuel.
Proof.
  intros Hm Hh. unfold tryCatch. destruct (m w) as [[a|e|] w1]; cbn [fst] in *;
    [discriminate | apply Hh | assumption].
Qed.

(** A step that leaves the file system as it is. *)
Lemma keepsFs_step {A} (m : M A) (w w1 : World) (r : outcome A) :
  respects (fun w w' => fs w' = fs w) m -> m w = (r, w1) -> fs w1 = fs w.
Proof. intros H E. specialize (H w). unfold exec in H. now rewrite E in H. Qed.

Lemma keepsFs_consoleLog (e : LogEntry) :
  respects (fun w w' => fs w' = fs w) (consoleLog e).
Proof. now intros w. Qed.

Lemma keepsFs_createM (r : Transcript) :
  respects (fun w w' => fs w' = fs w) (createM r).
Proof. now intros w. Qed.

Lemma keepsFs_processTranscript (id : nat) :
  respects (fun w w' => fs w' = fs w) (processTranscript id).
Proof. now intros w. Qed.

Lemma keepsFs_callOnNewFile (id : nat) (filepath : string) :
  respects (fun w w' => fs w' = fs w) (callOnNewFile id filepath).
Proof. now intros w. Qed.

Lemma keepsFs_callOnError (message filepath : string) :
  respects (fun w w' => fs w' = fs w) (callOnError message filepath).
Proof. now intros w. Qed.

Lemma keepsFs_refl (w : World) : (fun w w' : World => fs w' = fs w) w w.
Proof. reflexivity. Qed.

Lemma keepsFs_trans (a b c : World) :
  (fun w w' : World => fs w' = fs w) a b -> (fun w w' : World => fs w' = fs w) b c ->
  (fun w w' : World => fs w' = fs w) a c.
Proof. cbv beta. congruence. Qed.

Ltac keepsFs_prim :=
  first [ apply keepsFs_consoleLog | apply keepsFs_createM
        | apply keepsFs_processTranscript | apply keepsFs_callOnNewFile
        | apply keepsFs_callOnError ].

Ltac keepsFs := resp keepsFs_refl keepsFs_trans keepsFs_prim.

Lemma parseEmail_inv (env : Env) (filepath : string) (w w1 : World) (email : Email) :
  parseEmail env filepath w = (Return email, w1) ->
  w1 = w
  /\ exists raw parsed,
       FS.readFileSync (fs w) filepath = Ok raw
       /\ simpleParser env raw = Ok parsed
       /\ email = emailOf filepath parsed.
Proof.
  unfold parseEmail. munfold.
  destruct (FS.readFileSync (fs w) filepath) as [raw|e]; msimpl; [|discriminate].
  destruct (simpleParser env raw) as [parsed|e] eqn:Ep; msimpl; [|discriminate].
  intros [= <- <-]. split; [reflexivity|]. exists raw, parsed. auto.
Qed.

Lemma neverOutOfFuel_parseEmail (env : Env) (filepath : string) :
  neverOutOfFuel (parseEmail env filepath).
Proof. unfold parseEmail. nofuel. Qed.

Lemma processEmail_noFuel (env : Env) (opts : Options) (fuel : nat) (filepath : string)
    (w : World) :
  stagingBound env filepath w <= fuel ->
  fst (processEmail env opts fuel filepath w) <> OutOfFuel.
Proof.
  intros Hfuel. unfold processEmail.
  apply tryCatch_noFuel; [|intros e; nofuel].
  apply bind_noFuel; [apply neverOutOfFuel_parseEmail|].
  intros email w1 Hpe.
  apply parseEmail_inv in Hpe as (-> & raw & parsed & Hr & Hp & ->).
  unfold stagingBound in Hfuel. rewrite Hr, Hp in Hfuel.
  destruct (isBlank _); [now apply neverOutOfFuel_total; total_prim|].
  cbv zeta.
  apply bind_noFuel; [now apply neverOutOfFuel_total; total_prim|].
  intros callDate w0 H0. apply keepsFs_step in H0; [|keepsFs].
  apply bind_noFuel; [now apply neverOutOfFuel_total; total_prim|].
  intros id w2 H2. apply keepsFs_step in H2; [|keepsFs].
  apply bind_noFuel; [now apply neverOutOfFuel_total; total_prim|].
  intros [] w3 H3. apply keepsFs_step in H3; [|keepsFs].
  apply bind_noFuel; [now apply neverOutOfFuel_when, neverOutOfFuel_total; total_prim|].
  intros [] w4 H4. apply keepsFs_step in H4; [|keepsFs].
  apply bind_noFuel; [now apply neverOutOfFuel_when, neverOutOfFuel_total; total_prim|].
  intros [] w5 H5. apply keepsFs_step in H5; [|keepsFs].
  destruct (email_hasAttachments _); [|discriminate].
  apply bind_noFuel.
  - unfold saveAttachmentsM.
    pose proof (saveAttachments_fuel fuel (email_attachments (emailOf filepath parsed))
                  (attachDirOf filepath) (fs w5)) as Hf.
    unfold attachDirOf in *.
    destruct (saveAttachments fuel _ _ (fs w5)) as [r fs']. cbn [fst] in *.
    apply Hf. cbn [emailOf email_attachments].
    replace (fs w5) with (fs w) by congruence. exact Hfuel.
  - intros savedFiles w6 _. apply neverOutOfFuel_forEach. intros att.
    apply neverOutOfFuel_processAttachment.
Qed.

(** X1. One run of the [add] handler never ends with an exception: every
    failure of a parser, an extractor or the file system is caught (the store
    and the callbacks are taken not to throw).  For a file that is not an
    email the run always returns; for an email it returns as soon as the
    bound on the loops of [saveAttachments] is large enough for the file
    system and the attachments at hand. *)
Theorem handler_never_throws (env : Env) (opts : Options) (fuel : nat)
    (filepath : string) (w : World) :
  (forall e, fst (onAdd env opts fuel filepath w) <> Raise e)
  /\ (extOf filepath <> ".eml" -> fst (onAdd env opts fuel filepath w) = Return tt)
  /\ (stagingBound env filepath w <= fuel ->
      fst (onAdd env opts fuel filepath w) = Return tt).
Proof.
  assert (Hr : forall e, fst (onAdd env opts fuel filepath w) <> Raise e)
    by (intros e; apply neverRaises_onAdd).
  assert (Hdone : fst (onAdd env opts fuel filepath w) <> OutOfFuel ->
                  fst (onAdd env opts fuel filepath w) = Return tt).
  { intros Hf. destruct (fst (onAdd env opts fuel filepath w)) as [[]|e|];
      [reflexivity | now destruct (Hr e) | now destruct Hf]. }
  split; [exact Hr|]. split; intros H; apply Hdone.
  - destruct (onAdd_cases env opts fuel filepath w) as [[e ->]|(_ & _ & _ & ->)];
      [discriminate|].
    unfold branchOf. apply eqb_false in H. rewrite H.
    destruct (_ || _);
      [apply neverOutOfFuel_processPdfDocx | apply neverOutOfFuel_processText].
  - destruct (onAdd_cases env opts fuel filepath w) as [[e ->]|(_ & _ & _ & ->)];
      [discriminate|].
    unfold branchOf. destruct (Str.eqb (extOf filepath) ".eml").
    + apply processEmail_noFuel. exact H.
    + destruct (_ || _);
        [apply neverOutOfFuel_processPdfDocx | apply neverOutOfFuel_processText].
Qed.

Lemma handler_never_throws_witness :
  stagingBound (sampleEnv q3Mail) "/w/q3.eml" (emptyWorld mailFs) <= 12
  /\ fst (onAdd (sampleEnv q3Mail) allOptions 12 "/w/q3.eml" (emptyWorld mailFs))
     = Return tt.
Proof.
  assert (H : stagingBound (sampleEnv q3Mail) "/w/q3.eml" (emptyWorld mailFs) <= 12)
    by (vm_compute; lia).
  split; [exact H|].
  apply (handler_never_throws (sampleEnv q3Mail) allOptions 12 "/w/q3.eml"
           (emptyWorld mailFs)).
  exact H.
Defined.

(** *** Failures *)

Lemma onAdd_branch (env : Env) (opts : Options) (fuel : nat) (filepath : string)
    (w : World) :
  Str.includes (extOf filepath) SUPPORTED_EXTENSIONS = true ->
  shouldIgnore filepath = false ->
  transcriptExists (db w) filepath = false ->
  onAdd env opts fuel filepath w
  = branchOf env opts fuel filepath (logged w (NewTranscriptDetected filepath)).
Proof.
  intros Hs Hi He. unfold onAdd, branchOf, extOf in *. rewrite Hs, Hi. cbn [negb].
  unfold bind at 1. unfold existsM. rewrite He. reflexivity.
Qed.

(** X4. When the first step of the branch throws (reading or parsing the
    email, extracting the PDF or DOCX text, parsing the transcript), the
    handler returns normally, creates no record, queues and announces
    nothing, writes the line of that branch to the console and calls
    [onError] once with the message and the filepath when the callback is
    given. *)
Theorem failed_read_is_reported (env : Env) (opts : Options) (fuel : nat)
    (filepath message : string) (w : World) :
  Str.includes (extOf filepath) SUPPORTED_EXTENSIONS = true ->
  shouldIgnore filepath = false ->
  transcriptExists (db w) filepath = false ->
  readStep env filepath (fs w) = Throw message ->
  onAdd env opts fuel filepath w
  = (Return tt,
     {| fs := fs w; db := db w;
        console := console w ++ [NewTranscriptDetected filepath; failureLine filepath message];
        queued := queued w; newFiles := newFiles w;
        errors := errors w ++ (if onError opts then [(message, filepath)] else []) |}).
Proof.
  intros Hs Hi He Hr.
  rewrite (onAdd_branch env opts fuel filepath w Hs Hi He).
  unfold branchOf, readStep, failureLine, logged in *.
  destruct (Str.eqb (extOf filepath) ".eml").
  - unfold processEmail. munfold. msimpl.
    destruct (FS.readFileSync (fs w) filepath) as [raw|e]; msimpl.
    + destruct (simpleParser env raw) as [parsed|e]; [discriminate|].
      injection Hr as ->. msimpl. rewrite <- ?app_assoc.
      destruct (onError opts); msimpl; rewrite ?app_nil_r; reflexivity.
    + injection Hr as ->. rewrite <- ?app_assoc.
      destruct (onError opts); msimpl; rewrite ?app_nil_r; reflexivity.
  - destruct (_ || _).
    + unfold processPdfDocx, extractFor in *. munfold. msimpl.
      destruct (Str.eqb (extOf filepath) ".pdf"); msimpl.
      * destruct (extractPdfText env (fs w) filepath) as [text|e]; [discriminate|].
        injection Hr as ->. msimpl. rewrite <- ?app_assoc.
        destruct (onError opts); msimpl; rewrite ?app_nil_r; reflexivity.
      * destruct (extractDocxText env (fs w) filepath) as [text|e]; [discriminate|].
        injection Hr as ->. msimpl. rewrite <- ?app_assoc.
        destruct (onError opts); msimpl; rewrite ?app_nil_r; reflexivity.
    + unfold processText. munfold. msimpl.
      destruct (parseTranscript env (fs w) filepath) as [parsed|e]; [discriminate|].
      injection Hr as ->. msimpl. rewrite <- ?app_assoc.
      destruct (onError opts); msimpl; rewrite ?app_nil_r; reflexivity.
Qed.

Lemma failed_read_is_reported_witness :
  Str.includes (extOf "/w/missing.txt") SUPPORTED_EXTENSIONS = true
  /\ shouldIgnore "/w/missing.txt" = false
  /\ transcriptExists (db (emptyWorld mailFs)) "/w/missing.txt" = false
  /\ readStep (sampleEnv q3Mail) "/w/missing.txt" (fs (emptyWorld mailFs)) = Throw "ENOENT"
  /\ onAdd (sampleEnv q3Mail) allOptions 8 "/w/missing.txt" (emptyWorld mailFs)
     = (Return tt,
        {| fs := mailFs; db := [];
           console := [NewTranscriptDetected "/w/missing.txt";
                       ErrorProcessingFile "/w/missing.txt" "ENOENT"];
           queued := []; newFiles := [];
           errors := [("ENOENT", "/w/missing.txt")] |}).
Proof.
  assert (H1 : Str.includes (extOf "/w/missing.txt") SUPPORTED_EXTENSIONS = true)
    by (vm_compute; reflexivity).
  assert (H2 : shouldIgnore "/w/missing.txt" = false) by (vm_compute; reflexivity).
  assert (H3 : transcriptExists (db (emptyWorld mailFs)) "/w/missing.txt" = false)
    by reflexivity.
  assert (H4 : readStep (sampleEnv q3Mail) "/w/missing.txt" (fs (emptyWorld mailFs))
               = Throw "ENOENT") by (vm_compute; reflexivity).
  split; [exact H1|]. split; [exact H2|]. split; [exact H3|]. split; [exact H4|].
  exact (failed_read_is_reported (sampleEnv q3Mail) allOptions 8 "/w/missing.txt"
           "ENOENT" (emptyWorld mailFs) H1 H2 H3 H4).
Defined.

(** *** The loop over the staged attachments *)

Lemma keepsErrors_refl (w : World) : (fun w w' : World => errors w' = errors w) w w.
Proof. reflexivity. Qed.

Lemma keepsErrors_trans (a b c : World) :
  (fun w w' : World => errors w' = errors w) a b ->
  (fun w w' : World => errors w' = errors w) b c ->
  (fun w w' : World => errors w' = errors w) a c.
Proof. cbv beta. congruence. Qed.

Lemma keepsErrors_total {A} (m : M A) :
  (forall w, errors (exec m w) = errors w) ->
  respects (fun w w' => errors w' = errors w) m.
Proof. intros H w. apply H. Qed.

Ltac keepsErrors :=
  resp keepsErrors_refl keepsErrors_trans
       ltac:(apply keepsErrors_total; intros ?; reflexivity).

(** X7. The loop over the staged attachments always runs to its end: it
    never throws, never calls [onError] and never touches the file system,
    and an attachment whose text cannot be extracted only adds one line to
    the console. *)
Theorem attachment_failures_stay_local (env : Env) (opts : Options) (email : Email)
    (savedFiles : list SavedFile) (w : World) :
  fst (forEach savedFiles (processAttachment env opts email) w) = Return tt
  /\ errors (exec (forEach savedFiles (processAttachment env opts email)) w) = errors w
  /\ fs (exec (forEach savedFiles (processAttachment env opts email)) w) = fs w
  /\ forall att message w0,
       Str.includes (Str.toLowerCase (Path.extname (saved_filename att)))
                    ATTACHMENT_EXTENSIONS = true ->
       transcriptExists (db w0) (saved_filepath att) = false ->
       attachmentTextOf env att (fs w0) = Throw message ->
       processAttachment env opts email att w0
       = (Return tt, logged w0 (FailedToProcessAttachment (saved_filename att) message)).
Proof.
  split; [|split; [|split]].
  - pose proof (neverRaises_forEach savedFiles (processAttachment env opts email)
                  (neverRaises_processAttachment env opts email) w) as Hr.
    pose proof (neverOutOfFuel_forEach savedFiles (processAttachment env opts email)
                  (neverOutOfFuel_processAttachment env opts email) w) as Hf.
    destruct (fst _) as [[]|e|]; [reflexivity | now destruct (Hr e) | now destruct Hf].
  - revert w. change (respects (fun w w' => errors w' = errors w)
                        (forEach savedFiles (processAttachment env opts email))).
    unfold processAttachment. keepsErrors.
  - apply forEach_attachments.
  - intros att message w0 Hs He Ht. unfold processAttachment, attachmentTextOf in *.
    rewrite Hs. cbn [negb]. munfold. cbv beta. rewrite He. cbv zeta in Ht.
    destruct (Str.eqb _ ".pdf"); [|destruct (Str.eqb _ ".docx")];
      rewrite Ht; reflexivity.
Qed.

Lemma attachment_failures_stay_local_witness :
  let att := {| saved_filename := "lost.pdf"; saved_filepath := "/w/lost.pdf";
                saved_contentType := "application/pdf"; saved_size := 3 |} in
  Str.includes (Str.toLowerCase (Path.extname (saved_filename att)))
               ATTACHMENT_EXTENSIONS = true
  /\ transcriptExists (db (emptyWorld mailFs)) (saved_filepath att) = false
  /\ attachmentTextOf (sampleEnv q3Mail) att (fs (emptyWorld mailFs)) = Throw "ENOENT"
  /\ processAttachment (sampleEnv q3Mail) allOptions (emailOf "/w/q3.eml" q3Mail) att
       (emptyWorld mailFs)
     = (Return tt,
        logged (emptyWorld mailFs) (FailedToProcessAttachment "lost.pdf" "ENOENT")).
Proof.
  intros att.
  assert (H1 : Str.includes (Str.toLowerCase (Path.extname (saved_filename att)))
                            ATTACHMENT_EXTENSIONS = true) by (vm_compute; reflexivity).
  assert (H2 : transcriptExists (db (emptyWorld mailFs)) (saved_filepath att) = false)
    by reflexivity.
  assert (H3 : attachmentTextOf (sampleEnv q3Mail) att (fs (emptyWorld mailFs))
               = Throw "ENOENT") by (vm_compute; reflexivity).
  split; [exact H1|]. split; [exact H2|]. split; [exact H3|].
  destruct (attachment_failures_stay_local (sampleEnv q3Mail) allOptions
              (emailOf "/w/q3.eml" q3Mail) [] (emptyWorld mailFs)) as (_ & _ & _ & H).
  exact (H att "ENOENT" (emptyWorld mailFs) H1 H2 H3).
Defined.

(** *** Dispatch and notification *)

Lemma dispatched_same (opts : Options) (w w' : World) :
  db w' = db w -> queued w' = queued w -> newFiles w' = newFiles w ->
  dispatched opts w w'.
Proof.
  intros H1 H2 H3. exists []. rewrite H1, H2, H3. cbn.
  destruct (processImmediately opts), (onNewFile opts); now rewrite !app_nil_r.
Qed.

Lemma dispatched_refl (opts : Options) (w : World) : dispatched opts w w.
Proof. now apply dispatched_same. Qed.

Lemma newIds_app (s : Store) (a b : list Transcript) :
  newIds s (a ++ b) = newIds s a ++ newIds (s ++ a) b.
Proof. unfold newIds. rewrite !length_app. apply seq_app. Qed.

Lemma combine_app_eq {A B} (a a' : list A) (b b' : list B) :
  List.length a = List.length b ->
  combine (a ++ a') (b ++ b') = combine a b ++ combine a' b'.
Proof.
  revert b. induction a as [|x a IH]; intros [|y b] H; try discriminate; [reflexivity|].
  cbn. f_equal. apply IH. now injection H.
Qed.

Lemma dispatched_trans (opts : Options) (a b c : World) :
  dispatched opts a b -> dispatched opts b c -> dispatched opts a c.
Proof.
  intros (c1 & H1 & H2 & H3) (c2 & H4 & H5 & H6). exists (c1 ++ c2).
  rewrite H4, H5, H6, H1, H2, H3, newIds_app, map_app.
  split; [now rewrite app_assoc|].
  split.
  - destruct (processImmediately opts); now rewrite <- ?app_assoc, ?app_nil_r.
  - destruct (onNewFile opts); rewrite <- ?app_assoc, ?app_nil_r; [|reflexivity].
    f_equal. symmetry. apply combine_app_eq.
    unfold newIds. now rewrite length_seq, length_map.
Qed.

Lemma dispatched_total (opts : Options) {A} (m : M A) :
  (forall w, db (exec m w) = db w /\ queued (exec m w) = queued w
             /\ newFiles (exec m w) = newFiles w) ->
  respects (dispatched opts) m.
Proof. intros H w. destruct (H w) as (H1 & H2 & H3). now apply dispatched_same. Qed.

Lemma dispatched_saveAttachmentsM (opts : Options) (fuel : nat) (atts : list Attachment)
    (dir : string) :
  respects (dispatched opts) (saveAttachmentsM fuel atts dir).
Proof.
  apply dispatched_total. intros w. unfold exec, saveAttachmentsM.
  now destruct (saveAttachments fuel atts dir (fs w)).
Qed.

Ltac dispatched_prim :=
  first [ apply dispatched_saveAttachmentsM
        | apply dispatched_total; intros ?; repeat split; reflexivity ].

Lemma exec_tryCatch_bind {A B} (m : M A) (k : A -> M B) (h : string -> M B)
    (w w1 : World) (a : A) :
  m w = (Return a, w1) -> tryCatch (bind m k) h w = tryCatch (k a) h w1.
Proof. intros E. unfold tryCatch, bind. now rewrite E. Qed.

Lemma dispatched_one (opts : Options) (w w' : World) (r : Transcript) :
  db w' = db w ++ [r] ->
  queued w' = queued w ++ (if processImmediately opts then [List.length (db w)] else []) ->
  newFiles w'
  = newFiles w ++ (if onNewFile opts then [(List.length (db w), t_filepath r)] else []) ->
  dispatched opts w w'.
Proof. intros H1 H2 H3. exists [r]. now rewrite H1, H2, H3. Qed.

Ltac flags opts :=
  destruct opts as [onf oe pi]; destruct onf, pi;
  cbn [processImmediately onNewFile onError when] in *.

Ltac one_record :=
  eapply dispatched_one; cbn [db queued newFiles processImmediately onNewFile t_filepath];
  rewrite ?app_nil_r; reflexivity.

Lemma dispatched_processAttachment (env : Env) (opts : Options) (email : Email)
    (att : SavedFile) :
  respects (dispatched opts) (processAttachment env opts email att).
Proof.
  intros w. unfold processAttachment.
  destruct (negb _); [apply dispatched_total; intros ?; repeat split; reflexivity|].
  unfold exec, bind at 1, existsM. cbv beta iota.
  destruct (transcriptExists (db w) (saved_filepath att));
    [apply dispatched_total; intros ?; repeat split; reflexivity|].
  match goal with
  | |- context [tryCatch (bind ?m ?k) ?h w] =>
      destruct (m w) as [[text|e|] w1] eqn:Em;
      [ rewrite (exec_tryCatch_bind m k h w w1 text Em)
      | unfold tryCatch, bind; rewrite Em; cbn [snd]
      | unfold tryCatch, bind; rewrite Em; cbn [snd] ];
      assert (w1 = w) as ->
        by (destruct (Str.eqb _ ".pdf"); [|destruct (Str.eqb _ ".docx")];
            unfold readFs in Em; now injection Em)
  end.
  - destruct (isBlank text); [now apply dispatched_same|].
    erewrite exec_tryCatch_bind by apply emailCallDate_eq.
    flags opts; munfold; msimpl; one_record.
  - now apply dispatched_same.
  - apply dispatched_refl.
Qed.

Lemma dispatched_processText (env : Env) (opts : Options) (filepath : string) :
  respects (dispatched opts) (processText env opts filepath).
Proof.
  intros w. unfold processText. munfold.
  destruct (parseTranscript env (fs w) filepath) as [parsed|e]; msimpl.
  - flags opts; msimpl; one_record.
  - destruct (onError opts); now apply dispatched_same.
Qed.

Lemma dispatched_processPdfDocx (env : Env) (opts : Options) (ext filepath : string) :
  respects (dispatched opts) (processPdfDocx env opts ext filepath).
Proof.
  intros w. unfold processPdfDocx. munfold.
  destruct (Str.eqb ext ".pdf"); msimpl.
  - destruct (extractPdfText env (fs w) filepath) as [text|e]; msimpl.
    + destruct (isBlank text); msimpl; [now apply dispatched_same|].
      destruct (truthy _); flags opts; msimpl; one_record.
    + destruct (onError opts); now apply dispatched_same.
  - destruct (extractDocxText env (fs w) filepath) as [text|e]; msimpl.
    + destruct (isBlank text); msimpl; [now apply dispatched_same|].
      destruct (truthy _); flags opts; msimpl; one_record.
    + destruct (onError opts); now apply dispatched_same.
Qed.

Lemma dispatched_emailRest (env : Env) (opts : Options) (fuel : nat) (filepath : string)
    (email : Email) :
  respects (dispatched opts)
    (tryCatch
       (if email_hasAttachments email
        then bind (saveAttachmentsM fuel (email_attachments email)
                     (Path.join (Path.dirname filepath) ".prism-attachments"))
                  (fun savedFiles => forEach savedFiles (processAttachment env opts email))
        else ret tt)
       (fun message =>
          bind (consoleLog (EmailParsingFailed filepath message))
               (fun _ => when (onError opts) (callOnError message filepath)))).
Proof.
  resp (dispatched_refl opts) (dispatched_trans opts)
       ltac:(first [ apply dispatched_processAttachment | dispatched_prim ]).
Qed.

Lemma dispatched_processEmail (env : Env) (opts : Options) (fuel : nat)
    (filepath : string) :
  respects (dispatched opts) (processEmail env opts fuel filepath).
Proof.
  intros w. unfold processEmail, exec.
  destruct (parseEmail env filepath w) as [[email|e|] w1] eqn:Epe.
  - rewrite (exec_tryCatch_bind _ _ _ _ _ _ Epe).
    apply parseEmail_inv in Epe as (-> & _).
    destruct (isBlank _); [now apply dispatched_same|]. cbv zeta.
    erewrite exec_tryCatch_bind by apply emailCallDate_eq.
    erewrite exec_tryCatch_bind by reflexivity.
    erewrite exec_tryCatch_bind by reflexivity.
    pose proof (dispatched_emailRest env opts fuel filepath email) as Hrest.
    flags opts;
      (erewrite exec_tryCatch_bind by reflexivity);
      (erewrite exec_tryCatch_bind by reflexivity);
      (eapply dispatched_trans; [|apply Hrest]); one_record.
  - assert (w1 = w) as ->.
    { revert Epe. unfold parseEmail. munfold.
      destruct (FS.readFileSync (fs w) filepath) as [raw|e1]; msimpl;
        [destruct (simpleParser env raw); msimpl|]; congruence. }
    unfold tryCatch, bind. rewrite Epe. munfold. msimpl.
    destruct (onError opts); now apply dispatched_same.
  - exfalso. now apply (neverOutOfFuel_parseEmail env filepath w); rewrite Epe.
Qed.

(** X3. Whatever an [add] event leads to, the records it creates are the
    only ones handed on: with [processImmediately] each of their ids is
    passed to [processTranscript] once, in order of creation, and with an
    [onNewFile] callback each is announced once with its id and its own
    filepath; without them nothing is queued, respectively announced. *)
Theorem created_records_are_dispatched (env : Env) (opts : Options) (fuel : nat)
    (filepath : string) (w : World) :
  exists created,
    db (exec (onAdd env opts fuel filepath) w) = db w ++ created
    /\ queued (exec (onAdd env opts fuel filepath) w)
       = queued w ++ (if processImmediately opts then newIds (db w) created else [])
    /\ newFiles (exec (onAdd env opts fuel filepath) w)
       = newFiles w
         ++ (if onNewFile opts
             then combine (newIds (db w) created) (map t_filepath created)
             else []).
Proof.
  change (dispatched opts w (exec (onAdd env opts fuel filepath) w)). unfold exec.
  destruct (onAdd_cases env opts fuel filepath w) as [[e ->]|(_ & _ & _ & ->)];
    [now apply dispatched_same|].
  apply (dispatched_trans opts _ (logged w (NewTranscriptDetected filepath)));
    [now apply dispatched_same|].
  unfold branchOf. destruct (Str.eqb _ ".eml"); [apply dispatched_processEmail|].
  destruct (_ || _); [apply dispatched_processPdfDocx | apply dispatched_processText].
Qed.

(** *** Blank text *)

Lemma all_rev_app (f : ascii -> bool) (s acc : string) :
  Str.all f (String.rev_app s acc) = Str.all f s && Str.all f acc.
Proof.
  revert acc. induction s as [|c s IH]; intros acc; cbn [String.rev_app Str.all];
    [reflexivity|].
  rewrite IH. cbn [Str.all]. now destruct (f c), (Str.all f s), (Str.all f acc).
Qed.

Lemma all_rev (f : ascii -> bool) (s : string) : Str.all f (String.rev s) = Str.all f s.
Proof. unfold String.rev. rewrite all_rev_app. cbn [Str.all]. apply andb_true_r. Qed.

Lemma length_rev_app (s acc : string) :
  String.length (String.rev_app s acc) = String.length s + String.length acc.
Proof.
  revert acc. induction s as [|c s IH]; intros acc; cbn [String.rev_app String.length];
    [reflexivity|].
  rewrite IH. cbn [String.length]. lia.
Qed.

Lemma length_rev (s : string) : String.length (String.rev s) = String.length s.
Proof. unfold String.rev. rewrite length_rev_app. cbn [String.length]. lia. Qed.

Lemma length_zero (s : string) : String.length s = 0 <-> s = "".
Proof. destruct s; cbn; split; congruence. Qed.

Lemma trimStart_empty (s : string) :
  Str.trimStart s = "" <-> Str.all Str.isSpace s = true.
Proof.
  induction s as [|c s IH]; cbn [Str.trimStart Str.all]; [tauto|].
  destruct (Str.isSpace c); cbn [andb]; [exact IH | split; discriminate].
Qed.

Lemma trimEnd_empty (s : string) :
  Str.trimEnd s = "" <-> Str.all Str.isSpace s = true.
Proof.
  unfold Str.trimEnd. rewrite <- (all_rev _ s), <- trimStart_empty, <- !length_zero.
  now rewrite length_rev.
Qed.

Lemma trimStart_all (s : string) :
  Str.all Str.isSpace (Str.trimStart s) = Str.all Str.isSpace s.
Proof.
  induction s as [|c s IH]; cbn [Str.trimStart Str.all]; [reflexivity|].
  destruct (Str.isSpace c) eqn:E; cbn [andb Str.all]; [exact IH | now rewrite E].
Qed.

Lemma trim_empty (s : string) : Str.trim s = "" <-> Str.all Str.isSpace s = true.
Proof. unfold Str.trim. now rewrite trimEnd_empty, trimStart_all. Qed.

(** Blank text is text made of whitespace only. *)
Lemma isBlank_spec (s : string) : isBlank s = true <-> Str.all Str.isSpace s = true.
Proof.
  unfold isBlank. rewrite orb_true_iff, Nat.eqb_eq, length_zero, trim_empty, isEmpty_true.
  split; [intros [->|H]; [reflexivity | exact H] | auto].
Qed.

Lemma fullContent_not_blank (filepath : string) (parsed : ParsedMail) :
  isBlank (email_fullContent (emailOf filepath parsed)) = false.
Proof.
  destruct (isBlank _) eqn:E; [|reflexivity]. apply isBlank_spec in E.
  cbn [emailOf email_fullContent] in E. rewrite headerBlockOf_eq in E.
  rewrite !app_assoc_s in E. discriminate E.
Qed.

Lemma extends_trace (w w' : World) : extends w w' -> exists created, db w' = db w ++ created.
Proof. now intros (H & _). Qed.

(** X5. The full content of a parsed email always starts with the header
    block, so it is never blank and the test for empty email content never
    fires: an email that can be read and parsed always gets its body record,
    also when it has no text at all. *)
Theorem email_body_is_always_recorded (env : Env) (opts : Options) (fuel : nat)
    (filepath raw : string) (parsed : ParsedMail) (w : World) :
  extOf filepath = ".eml" ->
  shouldIgnore filepath = false ->
  transcriptExists (db w) filepath = false ->
  FS.readFileSync (fs w) filepath = Ok raw ->
  simpleParser env raw = Ok parsed ->
  isBlank (email_fullContent (emailOf filepath parsed)) = false
  /\ exists rest,
       db (exec (onAdd env opts fuel filepath) w)
       = db w ++ emailRecord env (List.length (db w)) filepath (emailOf filepath parsed) :: rest.
Proof.
  intros Hext Hi He Hr Hp.
  pose proof (fullContent_not_blank filepath parsed) as Hb. split; [exact Hb|].
  unfold exec. rewrite onAdd_branch; [|now rewrite Hext|exact Hi|exact He].
  unfold branchOf. rewrite Hext. change (Str.eqb ".eml" ".eml") with true. cbv iota.
  unfold processEmail.
  assert (Hpe : parseEmail env filepath (logged w (NewTranscriptDetected filepath))
                = (Return (emailOf filepath parsed),
                   logged w (NewTranscriptDetected filepath))).
  { unfold parseEmail, logged. munfold. msimpl. rewrite Hr. msimpl. rewrite Hp.
    reflexivity. }
  rewrite (exec_tryCatch_bind _ _ _ _ _ _ Hpe). rewrite Hb. cbv zeta.
  erewrite exec_tryCatch_bind by apply emailCallDate_eq.
  erewrite exec_tryCatch_bind by reflexivity.
  match goal with
  | |- context [tryCatch ?m ?h ?w1] =>
      assert (Hx : respects extends (tryCatch m h))
        by (unfold processAttachment; resp extends_refl extends_trans extends_prim);
      destruct (extends_trace _ _ (Hx w1)) as [rest Hrest]
  end.
  exists rest. unfold exec in Hrest. rewrite Hrest. cbn [db logged].
  now rewrite <- app_assoc.
Qed.

Lemma email_body_is_always_recorded_witness :
  extOf "/w/q3.eml" = ".eml"
  /\ shouldIgnore "/w/q3.eml" = false
  /\ transcriptExists (db (emptyWorld mailFs)) "/w/q3.eml" = false
  /\ FS.readFileSync (fs (emptyWorld mailFs)) "/w/q3.eml" = Ok "raw message"
  /\ email_bodyText (emailOf "/w/q3.eml" bareMail) = ""
  /\ exists rest,
       db (exec (onAdd (sampleEnv bareMail) allOptions 8 "/w/q3.eml") (emptyWorld mailFs))
       = db (emptyWorld mailFs)
         ++ emailRecord (sampleEnv bareMail) 0 "/w/q3.eml" (emailOf "/w/q3.eml" bareMail)
            :: rest.
Proof.
  assert (H1 : extOf "/w/q3.eml" = ".eml") by (vm_compute; reflexivity).
  assert (H2 : shouldIgnore "/w/q3.eml" = false) by (vm_compute; reflexivity).
  assert (H3 : transcriptExists (db (emptyWorld mailFs)) "/w/q3.eml" = false)
    by reflexivity.
  assert (H4 : FS.readFileSync (fs (emptyWorld mailFs)) "/w/q3.eml" = Ok "raw message")
    by (vm_compute; reflexivity).
  split; [exact H1|]. split; [exact H2|]. split; [exact H3|]. split; [exact H4|].
  split; [vm_compute; reflexivity|].
  exact (proj2 (email_body_is_always_recorded (sampleEnv bareMail) allOptions 8
                  "/w/q3.eml" "raw message" bareMail (emptyWorld mailFs)
                  H1 H2 H3 H4 eq_refl)).
Defined.

Lemma exec_tryCatch_bind_Raise {A B} (m : M A) (k : A -> M B) (h : string -> M B)
    (w w1 : World) (e : string) :
  m w = (Raise e, w1) -> tryCatch (bind m k) h w = h e w1.
Proof. intros E. unfold tryCatch, bind. now rewrite E. Qed.

(** X6. When [saveAttachments] throws (for instance because
    [.prism-attachments] is a regular file), the record of the email body
    has already been created, queued and announced and stays; no attachment
    is ingested, and the failure is reported as an email parsing failure, on
    the console and through [onError]. *)
Theorem staging_failure_keeps_the_body (env : Env) (opts : Options) (fuel : nat)
    (filepath raw e : string) (parsed : ParsedMail) (w : World) :
  extOf filepath = ".eml" ->
  shouldIgnore filepath = false ->
  transcriptExists (db w) filepath = false ->
  FS.readFileSync (fs w) filepath = Ok raw ->
  simpleParser env raw = Ok parsed ->
  retainedAttachments parsed <> [] ->
  fst (saveAttachments fuel (retainedAttachments parsed) (attachDirOf filepath) (fs w))
  = Raise e ->
  onAdd env opts fuel filepath w
  = (Return tt,
     {| fs := snd (saveAttachments fuel (retainedAttachments parsed)
                     (attachDirOf filepath) (fs w));
        db := db w ++ [emailRecord env (List.length (db w)) filepath (emailOf filepath parsed)];
        console :=
          console w
          ++ [ NewTranscriptDetected filepath;
               EmailIngested (List.length (db w))
                 (email_subject (emailOf filepath parsed))
                 (email_from (emailOf filepath parsed));
               EmailParsingFailed filepath e ];
        queued := queued w ++ (if processImmediately opts then [List.length (db w)] else []);
        newFiles :=
          newFiles w ++ (if onNewFile opts then [(List.length (db w), filepath)] else []);
        errors := errors w ++ (if onError opts then [(e, filepath)] else []) |}).
Proof.
  intros Hext Hi He Hr Hp Hne Hs.
  rewrite onAdd_branch; [|now rewrite Hext|exact Hi|exact He].
  unfold branchOf. rewrite Hext. change (Str.eqb ".eml" ".eml") with true. cbv iota.
  unfold processEmail.
  assert (Hpe : parseEmail env filepath (logged w (NewTranscriptDetected filepath))
                = (Return (emailOf filepath parsed),
                   logged w (NewTranscriptDetected filepath))).
  { unfold parseEmail, logged. munfold. msimpl. rewrite Hr. msimpl. rewrite Hp.
    reflexivity. }
  rewrite (exec_tryCatch_bind _ _ _ _ _ _ Hpe). rewrite fullContent_not_blank. cbv zeta.
  erewrite exec_tryCatch_bind by apply emailCallDate_eq.
  erewrite exec_tryCatch_bind by reflexivity.
  erewrite exec_tryCatch_bind by reflexivity.
  assert (Hh : email_hasAttachments (emailOf filepath parsed) = true).
  { cbn [emailOf email_hasAttachments]. destruct (retainedAttachments parsed);
      [contradiction | reflexivity]. }
  rewrite Hh. unfold attachDirOf in *.
  destruct (saveAttachments fuel (retainedAttachments parsed) _ (fs w)) as [r fs'] eqn:Es.
  cbn [fst snd] in *. subst r.
  destruct opts as [onf oe pi]; destruct onf, pi, oe;
    cbn [processImmediately onNewFile onError when];
    (erewrite exec_tryCatch_bind by reflexivity);
    (erewrite exec_tryCatch_bind by reflexivity);
    (erewrite exec_tryCatch_bind_Raise
       by (unfold saveAttachmentsM; cbn [fs logged createM createTranscript consoleLog
                                         processTranscript callOnNewFile ret];
           cbn [emailOf email_attachments]; rewrite Es; reflexivity));
    unfold logged, setFs; munfold; msimpl; rewrite <- ?app_assoc, ?app_nil_r;
    reflexivity.
Qed.

Lemma staging_failure_keeps_the_body_witness :
  extOf "/w/q3.eml" = ".eml"
  /\ retainedAttachments q3Mail <> []
  /\ fst (saveAttachments 12 (retainedAttachments q3Mail) (attachDirOf "/w/q3.eml")
            (fs (emptyWorld blockedFs)))
     = Raise "ENOTDIR"
  /\ fst (onAdd (sampleEnv q3Mail) allOptions 12 "/w/q3.eml" (emptyWorld blockedFs))
     = Return tt
  /\ db (exec (onAdd (sampleEnv q3Mail) allOptions 12 "/w/q3.eml") (emptyWorld blockedFs))
     = [emailRecord (sampleEnv q3Mail) 0 "/w/q3.eml" (emailOf "/w/q3.eml" q3Mail)]
  /\ errors (exec (onAdd (sampleEnv q3Mail) allOptions 12 "/w/q3.eml")
                  (emptyWorld blockedFs))
     = [("ENOTDIR", "/w/q3.eml")].
Proof.
  assert (H1 : extOf "/w/q3.eml" = ".eml") by (vm_compute; reflexivity).
  assert (H2 : shouldIgnore "/w/q3.eml" = false) by (vm_compute; reflexivity).
  assert (H4 : FS.readFileSync (fs (emptyWorld blockedFs)) "/w/q3.eml" = Ok "raw message")
    by (vm_compute; reflexivity).
  assert (H5 : retainedAttachments q3Mail <> []) by (vm_compute; discriminate).
  assert (H6 : fst (saveAttachments 12 (retainedAttachments q3Mail)
                      (attachDirOf "/w/q3.eml") (fs (emptyWorld blockedFs)))
               = Raise "ENOTDIR") by (vm_compute; reflexivity).
  split; [exact H1|]. split; [exact H5|]. split; [exact H6|].
  unfold exec.
  rewrite (staging_failure_keeps_the_body (sampleEnv q3Mail) allOptions 12 "/w/q3.eml"
             "raw message" "ENOTDIR" q3Mail (emptyWorld blockedFs)
             H1 H2 eq_refl H4 eq_refl H5 H6).
  repeat split.
Defined.

(** *** The records of an email, one by one *)

Lemma processAttachment_returns (env : Env) (opts : Options) (email : Email)
    (att : SavedFile) (w : World) :
  fst (processAttachment env opts email att w) = Return tt.
Proof.
  pose proof (neverRaises_processAttachment env opts email att w) as Hr.
  pose proof (neverOutOfFuel_processAttachment env opts email att w) as Hf.
  destruct (fst (processAttachment env opts email att w)) as [[]|e|];
    [reflexivity | now destruct (Hr e) | now destruct Hf].
Qed.

Lemma forEach_attachments_exact (env : Env) (opts : Options) (email : Email)
    (l : list SavedFile) :
  forall w : World,
  fst (forEach l (processAttachment env opts email) w) = Return tt
  /\ fs (exec (forEach l (processAttachment env opts email)) w) = fs w
  /\ db (exec (forEach l (processAttachment env opts email)) w)
     = db w ++ attachmentRecords env email (fs w) (db w) l.
Proof.
  induction l as [|att rest IH]; intros w.
  - cbn. now rewrite app_nil_r.
  - destruct (processAttachment_exact env opts email att w) as [Hfs Hdb].
    pose proof (processAttachment_returns env opts email att w) as Hret.
    cbn [forEach attachmentRecords]. unfold exec, bind in *.
    destruct (processAttachment env opts email att w) as [r w1]. cbn [fst snd] in *.
    subst r. destruct (IH w1) as (Hr & Hfs' & Hdb').
    split; [exact Hr|]. split; [congruence|].
    rewrite Hdb', Hfs, Hdb.
    destruct (attachmentRecordOf env email (fs w) (db w) att) as [r|].
    + now rewrite <- app_assoc.
    + now rewrite app_nil_r.
Qed.

(** What the handler does for the attachments once the record of the body
    is made. *)
Lemma emailRest_db (env : Env) (opts : Options) (fuel : nat) (filepath : string)
    (email : Email) (w : World) :
  db (exec
        (tryCatch
           (if email_hasAttachments email
            then bind (saveAttachmentsM fuel (email_attachments email)
                         (Path.join (Path.dirname filepath) ".prism-attachments"))
                      (fun savedFiles =>
                         forEach savedFiles (processAttachment env opts email))
            else ret tt)
           (fun message =>
              bind (consoleLog (EmailParsingFailed filepath message))
                   (fun _ => when (onError opts) (callOnError message filepath)))) w)
  = db w ++ stagedRecords env fuel filepath email (fs w) (db w).
Proof.
  unfold stagedRecords, attachDirOf, exec.
  destruct (email_hasAttachments email); [|cbn; now rewrite app_nil_r].
  unfold tryCatch, bind at 1, saveAttachmentsM.
  destruct (saveAttachments fuel (email_attachments email) _ (fs w)) as [[saved|e|] fs'].
  - destruct (forEach_attachments_exact env opts email saved (setFs fs' w))
      as (Hr & _ & Hdb).
    unfold exec in Hdb.
    destruct (forEach saved (processAttachment env opts email) (setFs fs' w)) as [r w2].
    cbn [fst snd] in *. subst r. exact Hdb.
  - munfold. destruct (onError opts); msimpl; now rewrite app_nil_r.
  - cbn. now rewrite app_nil_r.
Qed.

(** The records one event creates for an email that can be read and
    parsed. *)
Lemma onAdd_email_exact (env : Env) (opts : Options) (fuel : nat)
    (filepath raw : string) (parsed : ParsedMail) (w : World) :
  extOf filepath = ".eml" ->
  shouldIgnore filepath = false ->
  transcriptExists (db w) filepath = false ->
  FS.readFileSync (fs w) filepath = Ok raw ->
  simpleParser env raw = Ok parsed ->
  db (exec (onAdd env opts fuel filepath) w)
  = db w
    ++ emailRecord env (List.length (db w)) filepath (emailOf filepath parsed)
       :: stagedRecords env fuel filepath (emailOf filepath parsed) (fs w)
            (db w ++ [emailRecord env (List.length (db w)) filepath
                        (emailOf filepath parsed)]).
Proof.
  intros Hext Hi He Hr Hp.
  unfold exec. rewrite onAdd_branch; [|now rewrite Hext|exact Hi|exact He].
  unfold branchOf. rewrite Hext. change (Str.eqb ".eml" ".eml") with true. cbv iota.
  unfold processEmail.
  assert (Hpe : parseEmail env filepath (logged w (NewTranscriptDetected filepath))
                = (Return (emailOf filepath parsed),
                   logged w (NewTranscriptDetected filepath))).
  { unfold parseEmail, logged. munfold. msimpl. rewrite Hr. msimpl. rewrite Hp.
    reflexivity. }
  rewrite (exec_tryCatch_bind _ _ _ _ _ _ Hpe). rewrite fullContent_not_blank. cbv zeta.
  erewrite exec_tryCatch_bind by apply emailCallDate_eq.
  erewrite exec_tryCatch_bind by reflexivity.
  erewrite exec_tryCatch_bind by reflexivity.
  pose proof (emailRest_db env opts fuel filepath (emailOf filepath parsed)) as Hrest.
  unfold exec in Hrest.
  destruct opts as [onf oe pi]; destruct onf, pi;
    cbn [processImmediately onNewFile onError when] in *;
    (erewrite exec_tryCatch_bind by reflexivity);
    (erewrite exec_tryCatch_bind by reflexivity);
    rewrite Hrest; cbn [db fs logged]; now rewrite <- app_assoc.
Qed.

(** The records one event creates for an email, whatever happens. *)
Lemma onAdd_email_cases (env : Env) (opts : Options) (fuel : nat)
    (filepath : string) (w : World) :
  extOf filepath = ".eml" ->
  db (exec (onAdd env opts fuel filepath) w) = db w
  \/ exists raw parsed,
       shouldIgnore filepath = false
       /\ transcriptExists (db w) filepath = false
       /\ FS.readFileSync (fs w) filepath = Ok raw
       /\ simpleParser env raw = Ok parsed
       /\ db (exec (onAdd env opts fuel filepath) w)
          = db w
            ++ emailRecord env (List.length (db w)) filepath (emailOf filepath parsed)
               :: stagedRecords env fuel filepath (emailOf filepath parsed) (fs w)
                    (db w ++ [emailRecord env (List.length (db w)) filepath
                                (emailOf filepath parsed)]).
Proof.
  intros Hext.
  destruct (onAdd_cases env opts fuel filepath w) as [[e He]|(_ & Hi & Hex & _)].
  - left. unfold exec. now rewrite He.
  - destruct (onAdd_email env opts fuel filepath w Hext)
      as [H|(raw & parsed & _ & _ & Hr & Hp & _)]; [now left|].
    right. exists raw, parsed. repeat (split; [assumption|]).
    now apply (onAdd_email_exact env opts fuel filepath raw parsed w).
Qed.

(** *** [importFolder]: results and records *)

Lemma importedAs_refl (w : World) : importedAs w w [].
Proof.
  exists []. rewrite app_nil_r. unfold newIds. cbn. repeat split; constructor.
Qed.

Lemma importedAs_trans (a b c : World) (r1 r2 : list ImportResult) :
  importedAs a b r1 -> importedAs b c r2 -> importedAs a c (r1 ++ r2).
Proof.
  intros (c1 & H1 & H2 & H3 & H4 & H5 & H6 & H7 & H8)
         (c2 & G1 & G2 & G3 & G4 & G5 & G6 & G7 & G8).
  exists (c1 ++ c2). rewrite G1, H1, app_assoc. split; [reflexivity|].
  split; [now rewrite omap_app, H2, G2, H1, newIds_app|].
  split; [now rewrite filter_app, !map_app, H3, G3|].
  split; [now apply Forall_app|].
  repeat split; congruence.
Qed.

Lemma importFile_importedAs (env : Env) (folderPath file : string) (w : World) :
  exists results,
    importFile env folderPath file w
    = (Return results, exec (importFile env folderPath file) w)
    /\ importedAs w (exec (importFile env folderPath file) w) results.
Proof.
  unfold importFile, exec.
  destruct (negb _); [exists []; split; [reflexivity | apply importedAs_refl]|].
  destruct (shouldIgnore _); [exists []; split; [reflexivity | apply importedAs_refl]|].
  munfold. cbv beta.
  destruct (transcriptExists (db w) _);
    [exists []; split; [reflexivity | apply importedAs_refl]|].
  destruct (parseTranscript env (fs w) _) as [parsed|e]; msimpl.
  - eexists. split; [reflexivity|]. msimpl. eexists [_]. split; [reflexivity|].
    unfold newIds. cbn. repeat split. constructor; [discriminate | constructor].
  - eexists. split; [reflexivity|]. msimpl. exists []. rewrite app_nil_r.
    unfold newIds. cbn. repeat split. constructor; [eauto | constructor].
Qed.

Lemma importFiles_importedAs (env : Env) (folderPath : string) (files : list string) :
  forall w : World,
  exists results,
    importFiles env folderPath files w
    = (Return results, exec (importFiles env folderPath files) w)
    /\ importedAs w (exec (importFiles env folderPath files) w) results.
Proof.
  induction files as [|file rest IH]; intros w.
  - exists []. split; [reflexivity | apply importedAs_refl].
  - destruct (importFile_importedAs env folderPath file w) as (r1 & E1 & H1).
    set (w1 := exec (importFile env folderPath file) w) in *.
    destruct (IH w1) as (r2 & E2 & H2).
    set (w2 := exec (importFiles env folderPath rest) w1) in *.
    assert (E : importFiles env folderPath (file :: rest) w = (Return (r1 ++ r2), w2)).
    { cbn [importFiles]. unfold bind at 1. rewrite E1. unfold bind at 1. rewrite E2.
      reflexivity. }
    exists (r1 ++ r2). unfold exec at 1 2. rewrite E. cbn [snd].
    split; [reflexivity|]. eapply importedAs_trans; eauto.
Qed.

(** X9. [importFolder] on a folder that can be listed returns normally,
    and its results mirror what it did: the ids of the successful results
    are the ids of the records added, in order and with their filepaths, a
    failed result has no id and carries the message; nothing is handed to
    [processTranscript] or to a callback and the file system is not
    touched.  On a folder that cannot be listed it throws the error of
    [readdirSync] and changes nothing. *)
Theorem import_results_match_records (env : Env) (folderPath : string) (w : World) :
  match FS.readdirSync (fs w) folderPath with
  | Ok files =>
      exists results,
        fst (importFolder env folderPath w) = Return results
        /\ importedAs w (exec (importFolder env folderPath) w) results
  | Throw e => importFolder env folderPath w = (Raise e, w)
  end.
Proof.
  unfold importFolder, exec, bind, readFs.
  destruct (FS.readdirSync (fs w) folderPath) as [files|e]; cbn [liftResult];
    [|reflexivity].
  destruct (importFiles_importedAs env folderPath files w) as (results & E & H).
  exists results. unfold exec in *. rewrite E. cbn [fst snd] in *. auto.
Qed.

(** X10. [importFolder] reads every supported file through
    [parseTranscript], PDF, DOCX and email files included: what it does is
    the same whatever the extractors, the email parser and the clock are. *)
Theorem import_uses_only_the_transcript_parser (env env' : Env) (folderPath : string)
    (w : World) :
  parseTranscript env = parseTranscript env' ->
  parseFilenameMetadata env = parseFilenameMetadata env' ->
  importFolder env folderPath w = importFolder env' folderPath w.
Proof.
  intros Hp Hm.
  assert (Hfile : forall file w0,
            importFile env folderPath file w0 = importFile env' folderPath file w0).
  { intros file w0. unfold importFile. now rewrite Hp, Hm. }
  assert (Hfiles : forall files w0,
            importFiles env folderPath files w0 = importFiles env' folderPath files w0).
  { induction files as [|file rest IH]; intros w0; [reflexivity|].
    cbn [importFiles]. unfold bind at 1 3. rewrite Hfile.
    destruct (importFile env' folderPath file w0) as [[r|e|] w1]; [|reflexivity..].
    unfold bind. now rewrite IH. }
  unfold importFolder, bind.
  destruct (readFs _ w) as [[files|e|] w1]; [apply Hfiles | reflexivity..].
Qed.

Lemma import_uses_only_the_transcript_parser_witness :
  parseTranscript (sampleEnv q3Mail) = parseTranscript (sampleEnv twinMail)
  /\ importFolder (sampleEnv q3Mail) "/w" (emptyWorld mailFs)
     = importFolder (sampleEnv twinMail) "/w" (emptyWorld mailFs).
Proof.
  split; [reflexivity|].
  apply (import_uses_only_the_transcript_parser (sampleEnv q3Mail) (sampleEnv twinMail)
           "/w" (emptyWorld mailFs)); reflexivity.
Defined.

Lemma basename_of_sepFree (n : string) : sepFree n -> Path.basename n = n.
Proof.
  intros H. unfold Path.basename. rewrite (split_sepFree n H).
  destruct n as [|c n]; [reflexivity|].
  rewrite filter_cons_True by reflexivity. reflexivity.
Qed.

Lemma extname_basename (p : string) : Path.extname (Path.basename p) = Path.extname p.
Proof.
  unfold Path.extname at 1. now rewrite (basename_of_sepFree _ (basename_sepFree p)).
Qed.

Lemma extname_join (dir n : string) :
  regularName n -> Path.extname (Path.join dir n) = Path.extname n.
Proof.
  intros H. destruct (join_regular dir n H) as (_ & Hb & _).
  now rewrite <- extname_basename, Hb.
Qed.

(** X11. For a directory entry of the text family (not [.eml], [.pdf] or
    [.docx]), [importFolder] and the handler of the watcher leave the same
    store: both skip it for the same reasons, and both create the same
    record from what [parseTranscript] returns. *)
Theorem import_agrees_with_watcher_on_text (env : Env) (opts : Options) (fuel : nat)
    (folderPath file : string) (w : World) :
  regularName file ->
  extOf file <> ".eml" -> extOf file <> ".pdf" -> extOf file <> ".docx" ->
  db (exec (importFile env folderPath file) w)
  = db (exec (onAdd env opts fuel (Path.join folderPath file)) w).
Proof.
  intros Hn H1 H2 H3.
  assert (Hext : extOf (Path.join folderPath file) = extOf file)
    by (unfold extOf; now rewrite extname_join).
  destruct (importFile_effect env folderPath file w) as (_ & _ & ->).
  unfold wouldImport. fold (extOf file). rewrite <- Hext.
  set (filepath := Path.join folderPath file) in *.
  destruct (Str.includes (extOf filepath) SUPPORTED_EXTENSIONS) eqn:Es; cbn [andb].
  2:{ unfold exec, onAdd. fold (extOf filepath). now rewrite Es. }
  destruct (shouldIgnore filepath) eqn:Ei; cbn [andb negb].
  { unfold exec, onAdd. fold (extOf filepath). now rewrite Es, Ei. }
  destruct (transcriptExists (db w) filepath) eqn:Ee; cbn [negb].
  { destruct (onAdd_gate env opts fuel filepath w Ee) as (e & He & _).
    unfold exec. now rewrite He. }
  unfold exec. rewrite (onAdd_branch env opts fuel filepath w Es Ei Ee).
  unfold branchOf. rewrite Hext.
  apply eqb_false in H1, H2, H3. rewrite H1, H2, H3. cbn [orb].
  destruct (processText_effect env opts filepath (logged w (NewTranscriptDetected filepath)))
    as [_ Hdb].
  unfold exec in Hdb. cbn [fs logged] in Hdb.
  destruct (parseTranscript env (fs w) filepath) as [parsed|e]; now rewrite Hdb.
Qed.

Lemma import_agrees_with_watcher_on_text_witness :
  regularName "2024-03-05 kickoff.txt"
  /\ db (exec (importFile datedEnv "/w" "2024-03-05 kickoff.txt") (emptyWorld mailFs))
     = db (exec (onAdd datedEnv allOptions 8 (Path.join "/w" "2024-03-05 kickoff.txt"))
                (emptyWorld mailFs)).
Proof.
  assert (H : regularName "2024-03-05 kickoff.txt").
  { split; [reflexivity|]. repeat split; discriminate. }
  split; [exact H|].
  apply (import_agrees_with_watcher_on_text datedEnv allOptions 8 "/w"
           "2024-03-05 kickoff.txt" (emptyWorld mailFs) H);
    vm_compute; discriminate.
Defined.

(** *** The ignore filter on whole paths *)

Lemma testFrom_skip (ci : bool) (r : Regex.t) (s : string) :
  (forall b, exists x, matchHere ci r b s = Some x) ->
  forall a b, testFrom ci r b (a +:+ s) = true.
Proof.
  intros H a. induction a as [|c a IH]; intros b; sapp.
  - destruct (H b) as [x Hx]. destruct s; cbn [testFrom]; now rewrite Hx.
  - cbn [testFrom]. destruct (matchHere ci r b (String c (a +:+ s))); [reflexivity|].
    apply IH.
Qed.

Lemma dotfile_at_start (c : ascii) (rest : string) :
  Dot c = true ->
  matchHere false
    (Seq (Alt Bol (Set_ (fun c => Str.eqc c "/" || Str.eqc c backslash)))
         (Seq (Chr ".") (Set_ Dot)))
    true (String "." (String c rest)) = Some rest.
Proof. intros H. unfold matchHere. cbn. now rewrite H. Qed.

Lemma dotfile_after_sep (s c : ascii) (rest : string) (b : bool) :
  s = "/"%char \/ s = backslash ->
  Dot c = true ->
  matchHere false
    (Seq (Alt Bol (Set_ (fun c => Str.eqc c "/" || Str.eqc c backslash)))
         (Seq (Chr ".") (Set_ Dot)))
    b (String s (String "." (String c rest))) = Some rest.
Proof.
  intros Hs H. unfold matchHere.
  destruct Hs as [->| ->]; destruct b; cbn; now rewrite H.
Qed.

Lemma shouldIgnore_by_path (p : string) (r : Regex.t) :
  r ∈ IGNORED_PATTERNS -> Regex.test false r p = true -> shouldIgnore p = true.
Proof.
  intros Hin Ht. unfold shouldIgnore. apply existsb_exists. exists r.
  split; [now apply list_elem_of_In|]. rewrite Ht. apply orb_true_r.
Qed.

Lemma dot_component_ignored (pre : string) (s c : ascii) (rest : string) :
  s = "/"%char \/ s = backslash -> Dot c = true ->
  shouldIgnore (pre +:+ String s (String "." (String c rest))) = true.
Proof.
  intros Hs Hc. eapply shouldIgnore_by_path; [left|].
  unfold Regex.test. apply testFrom_skip. intros b. exists rest.
  now apply dotfile_after_sep.
Qed.

Lemma leading_dot_ignored (c : ascii) (rest : string) :
  Dot c = true -> shouldIgnore (String "." (String c rest)) = true.
Proof.
  intros Hc. eapply shouldIgnore_by_path; [left|].
  unfold Regex.test. cbn [testFrom]. now rewrite dotfile_at_start.
Qed.

Lemma star_always (ci : bool) (f : ascii -> bool) (s : string) (b : bool) :
  exists x, run ci (Star f) b s (fun _ rest => Some rest) = Some x.
Proof.
  revert b. induction s as [|c s IH]; intros b; cbn; [eauto|].
  destruct (f c); [|eauto]. destruct (IH false) as [x Hx]. cbn in Hx. rewrite Hx. eauto.
Qed.

Lemma sameChar_refl (c : ascii) : sameChar false c c = true.
Proof. unfold sameChar, Str.eqc. now apply bool_decide_eq_true_2. Qed.

Lemma run_literal_char (c : ascii) (r : Regex.t) (b : bool) (s : string)
    (k : bool -> string -> option string) :
  run false (Seq (Chr c) r) b (String c s) k = run false r false s k.
Proof. cbn [run]. now rewrite sameChar_refl. Qed.

Lemma suffix_matches (l : string) (b : bool) :
  matchHere false (Lit l Eol) b l = Some "".
Proof.
  unfold matchHere. revert b. induction l as [|c l IH]; intros b; [reflexivity|].
  cbn [Lit]. rewrite run_literal_char. apply IH.
Qed.

Lemma office_temp_matches (rest : string) (b : bool) :
  exists x, matchHere false (Lit "~$" (Star Dot)) b (String "~" (String "$" rest)) = Some x.
Proof.
  unfold matchHere. cbn [Lit]. rewrite !run_literal_char. apply star_always.
Qed.

(** The text of [path.join(path.join(dir, n), m)]. *)
Lemma join_join_shape (dir n m : string) :
  regularName n -> regularName m ->
  exists pre,
    Path.join (Path.join dir n) m = pre +:+ n +:+ "/" +:+ m
    /\ (pre = "" \/ exists pre', pre = pre' +:+ "/").
Proof.
  intros Hn Hm.
  destruct (join_regular dir n Hn) as (Hres & _).
  unfold FS.resolve in Hres. injection Hres as Habs Hcomp.
  destruct Hm as (Hm1 & Hm2 & Hm3 & Hm4).
  destruct (join_input (Path.join dir n) m Hm1) as (x & Hx & Hxa & Hxc & Hxt & _).
  rewrite Hcomp, step_regular in Hxc by assumption.
  rewrite Hx, (normalize_shape x m _ Hxc), (Hxt Hm2), app_empty_r.
  cbn [rev]. rewrite join_snoc by (now destruct (rev (Path.components dir))).
  destruct (rev (Path.components dir)) as [|c0 l] eqn:El.
  - cbn [app Str.join]. destruct (Path.isAbsolute x).
    + exists "/". split; [reflexivity | right; now exists ""].
    + exists "". split; [reflexivity | now left].
  - rewrite join_snoc by discriminate.
    exists ((if Path.isAbsolute x then "/" else "") +:+ Str.join "/" (c0 :: l) +:+ "/").
    split; [now rewrite !app_assoc_s|].
    right. exists ((if Path.isAbsolute x then "/" else "") +:+ Str.join "/" (c0 :: l)).
    now rewrite !app_assoc_s.
Qed.

Lemma staged_path_ignored (dir m : string) :
  regularName m ->
  shouldIgnore (Path.join (Path.join dir ".prism-attachments") m) = true.
Proof.
  intros Hm.
  assert (Hn : regularName ".prism-attachments").
  { split; [reflexivity|]. repeat split; discriminate. }
  destruct (join_join_shape dir ".prism-attachments" m Hn Hm) as (pre & -> & [->|[pre' ->]]).
  - sapp. now apply leading_dot_ignored.
  - rewrite app_assoc_s. sapp. apply dot_component_ignored; [now left | reflexivity].
Qed.

(** X13. Every file [saveAttachments] stages next to an email, in
    [.prism-attachments], has a path that [shouldIgnore] accepts: the filter
    given to the watcher hides the staged files from it. *)
Theorem staged_attachments_are_ignored (fuel : nat) (attachments : list Attachment)
    (filepath : string) (fs : FS.t) (saved : list SavedFile) :
  fst (saveAttachments fuel attachments (attachDirOf filepath) fs) = Return saved ->
  Forall (fun s => shouldIgnore (saved_filepath s) = true) saved.
Proof.
  intros Hr.
  destruct (saveAttachments fuel attachments (attachDirOf filepath) fs) as [r fs'] eqn:E.
  cbn [fst] in Hr. subst r.
  destruct (saveAttachments_spec _ _ _ _ _ _ E) as (_ & _ & Hs).
  destruct (Hs saved eq_refl) as (Hf2 & _).
  clear -Hf2. induction Hf2 as [|att s atts saved Hst _ IH]; constructor; [|exact IH].
  destruct Hst as (filename & k & _ & Hp & _ & Hreg & _).
  rewrite Hp. unfold candidate, attachDirOf. now apply staged_path_ignored.
Qed.

Lemma staged_attachments_are_ignored_witness :
  exists saved,
    fst (saveAttachments 12 twoSameName (attachDirOf "/w/q3.eml") sampleFs) = Return saved
    /\ List.length saved = 4
    /\ Forall (fun s => shouldIgnore (saved_filepath s) = true) saved.
Proof.
  eexists. split; [vm_compute; reflexivity|]. split; [reflexivity|].
  apply (staged_attachments_are_ignored 12 twoSameName "/w/q3.eml" sampleFs).
  vm_compute. reflexivity.
Defined.

(** *** The sanitized name *)

Lemma map_class_id (f : ascii -> bool) (c0 : ascii) (s : string) :
  Str.all (fun c => negb (f c)) s = true ->
  Str.map (fun c => if f c then c0 else c) s = s.
Proof.
  induction s as [|c s IH]; cbn [Str.all Str.map]; [reflexivity|].
  intros [Hc Hs]%andb_true_iff. apply negb_true_iff in Hc. rewrite Hc. now rewrite IH.
Qed.

Lemma take_all (n : nat) (s : string) : String.length s <= n -> Str.take n s = s.
Proof.
  revert n. induction s as [|c s IH]; intros [|n] H; cbn in *; try reflexivity; [lia|].
  rewrite IH by lia. reflexivity.
Qed.

Lemma length_map_s (f : ascii -> ascii) (s : string) :
  String.length (Str.map f s) = String.length s.
Proof. induction s as [|c s IH]; cbn; congruence. Qed.

Lemma length_take_min (n : nat) (s : string) :
  String.length (Str.take n s) = Nat.min n (String.length s).
Proof.
  revert n. induction s as [|c s IH]; intros [|n]; cbn; try reflexivity.
  now rewrite IH.
Qed.

(** X14. Sanitizing leaves a filename of at most 200 characters without
    reserved characters as it is; sanitizing twice is sanitizing once; and
    the sanitized name has the length of the filename, cut at 200. *)
Theorem clean_names_are_kept (filename : string) :
  (Str.all (fun c => negb (OneOf reservedChars c)) filename = true ->
   String.length filename <= 200 ->
   safeNameOf filename = filename)
  /\ safeNameOf (safeNameOf filename) = safeNameOf filename
  /\ String.length (safeNameOf filename) = Nat.min 200 (String.length filename).
Proof.
  assert (Hid : forall f, Str.all (fun c => negb (OneOf reservedChars c)) f = true ->
                          String.length f <= 200 -> safeNameOf f = f).
  { intros f Hc Hl. rewrite safeNameOf_map, map_class_id by exact Hc.
    now apply take_all. }
  split; [apply Hid|]. split.
  - apply Hid; [apply safeNameOf_clean | apply safeNameOf_length].
  - now rewrite safeNameOf_map, length_take_min, length_map_s.
Qed.

Lemma clean_names_are_kept_witness :
  Str.all (fun c => negb (OneOf reservedChars c)) "Q3 report (final).pdf" = true
  /\ String.length "Q3 report (final).pdf" <= 200
  /\ safeNameOf "Q3 report (final).pdf" = "Q3 report (final).pdf".
Proof.
  assert (H1 : Str.all (fun c => negb (OneOf reservedChars c)) "Q3 report (final).pdf"
               = true) by (vm_compute; reflexivity).
  assert (H2 : String.length "Q3 report (final).pdf" <= 200) by (vm_compute; lia).
  split; [exact H1|]. split; [exact H2|].
  exact (proj1 (clean_names_are_kept "Q3 report (final).pdf") H1 H2).
Defined.

(** *** The extension of a numbered name *)

Lemma dotFree_app (a b : string) : dotFree (a +:+ b) <-> dotFree a /\ dotFree b.
Proof. unfold dotFree. now rewrite all_app, andb_true_iff. Qed.

Lemma fromLastDot_None (s : string) : Path.fromLastDot s = None <-> dotFree s.
Proof.
  unfold dotFree. induction s as [|c s IH]; cbn [Path.fromLastDot Str.all]; [tauto|].
  destruct (Path.fromLastDot s) as [e|].
  - split; [discriminate|]. intros [_ H]%andb_true_iff. apply IH in H. discriminate.
  - destruct (Str.eqc c "."); cbn [negb andb]; [split; discriminate|].
    split; [intros _; now apply IH | reflexivity].
Qed.

Lemma fromLastDot_Some (s e : string) :
  Path.fromLastDot s = Some e -> exists e', e = String "." e' /\ dotFree e'.
Proof.
  revert e. induction s as [|c s IH]; intros e; cbn [Path.fromLastDot]; [discriminate|].
  destruct (Path.fromLastDot s) as [e0|] eqn:E.
  - intros [= <-]. now apply IH.
  - destruct (Str.eqc c ".") eqn:Ec; [|discriminate]. intros [= <-].
    apply bool_decide_eq_true_1 in Ec. subst c. exists s.
    split; [reflexivity | now apply fromLastDot_None].
Qed.

Lemma fromLastDot_app (pre e' : string) :
  dotFree e' -> Path.fromLastDot (pre +:+ String "." e') = Some (String "." e').
Proof.
  intros H. induction pre as [|c pre IH]; sapp; cbn [Path.fromLastDot].
  - apply fromLastDot_None in H. now rewrite H.
  - now rewrite IH.
Qed.

Lemma pretty_nat_all (f : ascii -> bool) (k : nat) :
  (forall d, f (pretty_N_char d) = true) -> Str.all f (pretty k) = true.
Proof.
  intros Hf. unfold pretty, pretty_nat, pretty, pretty_N.
  destruct (decide (N.of_nat k = 0)%N).
  { pose proof (Hf 0%N) as H0. cbn in *. now rewrite H0. }
  apply pretty_N_go_all; [exact Hf | reflexivity].
Qed.

Lemma pretty_nat_dotFree (k : nat) : dotFree (pretty k).
Proof.
  apply pretty_nat_all. intros d. unfold pretty_N_char. repeat case_match; reflexivity.
Qed.

Lemma extname_regular (c : ascii) (r : string) :
  sepFree (String c r) -> String c r <> ".." ->
  Path.extname (String c r) = default "" (Path.fromLastDot r).
Proof.
  intros Hs Hne. unfold Path.extname. rewrite (basename_of_sepFree _ Hs).
  apply eqb_false in Hne. now rewrite Hne.
Qed.

Lemma numbered_extname (safeName : string) (k : nat) :
  sepFree safeName -> safeName <> ".." ->
  Path.extname (numbered safeName k) = Path.extname safeName.
Proof.
  intros Hs Hne.
  destruct (numbered_regular safeName k) as (Hns & Hn0 & _ & Hn2).
  unfold numbered in *.
  set (ext := Path.extname safeName) in *.
  assert (Hcases : (exists e', ext = String "." e' /\ dotFree e')
                   \/ (ext = "" /\ (safeName = ""
                                    \/ exists c r, safeName = String c r /\ dotFree r))).
  { subst ext. destruct safeName as [|c r]; [right; split; [reflexivity | now left]|].
    rewrite (extname_regular c r Hs Hne).
    destruct (Path.fromLastDot r) as [e|] eqn:E; cbn [default].
    - left. now apply fromLastDot_Some in E.
    - right. split; [reflexivity|]. right. exists c, r.
      split; [reflexivity | now apply fromLastDot_None]. }
  destruct Hcases as [(e' & He & Hd)|(He & Hsafe)].
  - rewrite He in *. set (base := Path.basenameExt safeName (String "." e')) in *.
    assert (Hx : exists c0 x, base +:+ "_" +:+ pretty k = String c0 x).
    { destruct base as [|c0 b]; sapp; eauto. }
    destruct Hx as (c0 & x & Hx).
    replace (base +:+ "_" +:+ pretty k +:+ String "." e')
      with ((base +:+ "_" +:+ pretty k) +:+ String "." e') in *
      by (now rewrite !app_assoc_s).
    rewrite Hx in *. sapp.
    rewrite (extname_regular _ _ Hns Hn2). now rewrite fromLastDot_app.
  - rewrite He in *. unfold Path.basenameExt in *. cbn [Str.isEmpty orb] in *.
    rewrite (basename_of_sepFree _ Hs) in *. rewrite app_empty_r in *.
    destruct Hsafe as [->|(c & r & -> & Hr)]; sapp.
    + rewrite (extname_regular _ _ Hns Hn2).
      pose proof (pretty_nat_dotFree k) as Hk. apply fromLastDot_None in Hk.
      now rewrite Hk.
    + rewrite (extname_regular _ _ Hns Hn2).
      assert (Hd : dotFree (r +:+ String "_" (pretty k))).
      { apply dotFree_app. split; [exact Hr|].
        apply (dotFree_app "_" (pretty k)). split; [reflexivity | apply pretty_nat_dotFree]. }
      apply fromLastDot_None in Hd. now rewrite Hd.
Qed.

(** X15. The numbered name tried after a collision has the extension of the
    sanitized name (for every sanitized name but [..]), so the test of the
    handler against the supported attachment extensions gives the same
    answer for the numbered name as for the sanitized one. *)
Theorem numbering_keeps_the_attachment_type (filename : string) (k : nat) :
  (safeNameOf filename <> ".." ->
   Path.extname (numbered (safeNameOf filename) k) = Path.extname (safeNameOf filename))
  /\ Str.includes (Str.toLowerCase (Path.extname (numbered (safeNameOf filename) k)))
                  ATTACHMENT_EXTENSIONS
     = Str.includes (Str.toLowerCase (Path.extname (safeNameOf filename)))
                    ATTACHMENT_EXTENSIONS.
Proof.
  pose proof (safeNameOf_sepFree filename) as Hs.
  split; [now apply numbered_extname|].
  destruct (decide (safeNameOf filename = "..")) as [E|E];
    [|now rewrite numbered_extname].
  rewrite E.
  destruct (numbered_regular ".." k) as (Hns & _ & _ & Hn2).
  assert (En : numbered ".." k = String "." (String "." (String "_" (pretty k)))).
  { unfold numbered. change (Path.extname "..") with "".
    change (Path.basenameExt ".." "") with "..". rewrite app_empty_r. now sapp. }
  rewrite En in *. rewrite (extname_regular _ _ Hns Hn2).
  pose proof (fromLastDot_app "" (String "_" (pretty k))) as Hd. sapp. rewrite Hd.
  2:{ apply (dotFree_app "_" (pretty k)). split; [reflexivity | apply pretty_nat_dotFree]. }
  cbn [default Str.toLowerCase].
  change (Str.lowerChar "."%char) with "."%char.
  change (Str.lowerChar "_"%char) with "_"%char.
  change (Path.extname "..") with "". cbn [Str.toLowerCase].
  unfold Str.includes. rewrite !bool_decide_eq_false_2; [reflexivity| |].
  - unfold ATTACHMENT_EXTENSIONS. intros H.
    repeat (apply elem_of_cons in H as [H|H]; [discriminate H|]). inversion H.
  - unfold ATTACHMENT_EXTENSIONS. intros H.
    repeat (apply elem_of_cons in H as [H|H]; [discriminate H|]). inversion H.
Qed.

Lemma numbering_keeps_the_attachment_type_witness :
  safeNameOf "notes.TXT" <> ".."
  /\ Path.extname (numbered (safeNameOf "notes.TXT") 3) = Path.extname (safeNameOf "notes.TXT")
  /\ numbered (safeNameOf "notes.TXT") 3 = "notes_3.TXT".
Proof.
  assert (H : safeNameOf "notes.TXT" <> "..") by (vm_compute; discriminate).
  split; [exact H|].
  split; [exact (proj1 (numbering_keeps_the_attachment_type "notes.TXT" 3) H)|].
  vm_compute. reflexivity.
Defined.

(** *** An attachment without a filename *)

Lemma saveEach_app (pre rest : list Attachment) :
  forall (fuel : nat) (dir : string) (fs fs1 : FS.t) (saved0 saved1 : list SavedFile),
  saveEach fuel pre dir fs saved0 = (Return saved1, fs1) ->
  saveEach fuel (pre ++ rest) dir fs saved0 = saveEach fuel rest dir fs1 saved1.
Proof.
  induction pre as [|a pre IH]; intros fuel dir fs fs1 saved0 saved1 H.
  - cbn in H. injection H as <- <-. reflexivity.
  - cbn [app saveEach] in *.
    destruct (att_filename a) as [filename|]; [|discriminate].
    cbv zeta in *.
    destruct (whileExists fuel fs dir _ _ 1) as [finalPath|]; [|discriminate].
    destruct (FS.writeFileSync fs finalPath (att_content a)) as [fs2|e]; [|discriminate].
    now apply IH.
Qed.

Lemma ensure_dir_isDir (fs : FS.t) (outputDir : string) :
  FS.statPath fs outputDir = Some FS.Dir
  \/ (FS.existsSync fs outputDir = false
      /\ exists fs1, FS.mkdirSync fs outputDir = Ok fs1) ->
  exists fs1,
    (if negb (FS.existsSync fs outputDir) then FS.mkdirSync fs outputDir else Ok fs)
    = Ok fs1
    /\ FS.statPath fs1 outputDir = Some FS.Dir.
Proof.
  intros [Hd|(Hd & fs1 & Hm)].
  - exists fs. unfold FS.existsSync. rewrite Hd. auto.
  - exists fs1. rewrite Hd. split; [exact Hm | now apply mkdirSync_isDir in Hm].
Qed.

Lemma saveAttachments_returns (fuel : nat) (atts : list Attachment) (outputDir : string)
    (fs : FS.t) :
  Forall (fun a => stageable fuel outputDir a = true) atts ->
  FS.statPath fs outputDir = Some FS.Dir
  \/ (FS.existsSync fs outputDir = false
      /\ exists fs1, FS.mkdirSync fs outputDir = Ok fs1) ->
  size fs + List.length (Path.components outputDir) + List.length atts + 2 <= fuel ->
  exists saved,
    fst (saveAttachments fuel atts outputDir fs) = Return saved
    /\ List.length saved = List.length atts.
Proof.
  intros Hnames Hdir Hfuel.
  pose proof (saveAttachments_fuel fuel atts outputDir fs Hfuel) as Hnf.
  destruct (saveAttachments fuel atts outputDir fs) as [r fs'] eqn:E.
  destruct (saveAttachments_spec _ _ _ _ _ _ E) as (_ & _ & Hspec).
  unfold saveAttachments in E.
  destruct (ensure_dir_isDir fs outputDir Hdir) as (fs1 & Hg & Hd). rewrite Hg in E.
  destruct (saveEach_ok atts fuel outputDir fs1 [] Hd Hnames) as [saved Hs];
    [now rewrite E|].
  rewrite E in Hs. cbn [fst] in *. exists saved. split; [exact Hs|].
  destruct (Hspec saved Hs) as (Hf2 & _). symmetry. now apply Forall2_length in Hf2.
Qed.

(** X16. [saveAttachments] throws a TypeError at the first attachment
    without a filename: the attachments before it have been written and
    stay, the later ones are not staged.  The attachments before it are
    written when each of them is [stageable] and the staging directory is
    a directory or can be made. *)
Theorem missing_filename_stops_staging (fuel : nat) (pre post : list Attachment)
    (att : Attachment) (outputDir : string) (fs : FS.t) :
  att_filename att = None ->
  (forall saved,
     fst (saveAttachments fuel pre outputDir fs) = Return saved ->
     saveAttachments fuel (pre ++ att :: post) outputDir fs
     = (Raise "TypeError", snd (saveAttachments fuel pre outputDir fs)))
  /\ (Forall (fun a => stageable fuel outputDir a = true) pre ->
      FS.statPath fs outputDir = Some FS.Dir
      \/ (FS.existsSync fs outputDir = false
          /\ exists fs1, FS.mkdirSync fs outputDir = Ok fs1) ->
      size fs + List.length (Path.components outputDir) + List.length pre + 2 <= fuel ->
      exists saved, fst (saveAttachments fuel pre outputDir fs) = Return saved).
Proof.
  intros Hnone. split.
  - intros saved. unfold saveAttachments.
    destruct (if negb (FS.existsSync fs outputDir) then FS.mkdirSync fs outputDir
              else Ok fs) as [fs1|e]; [|discriminate].
    destruct (saveEach fuel pre outputDir fs1 []) as [r fs2] eqn:E. cbn [fst snd].
    intros ->. rewrite (saveEach_app pre (att :: post) _ _ _ _ _ _ E).
    cbn [saveEach]. now rewrite Hnone.
  - intros Hnames Hdir Hfuel.
    destruct (saveAttachments_returns fuel pre outputDir fs Hnames Hdir Hfuel)
      as (saved & Hs & _).
    eauto.
Qed.

Lemma missing_filename_stops_staging_witness :
  let nameless := {| att_filename := None; att_contentType := "text/plain";
                     att_size := 1; att_content := "x" |} in
  FS.statPath sampleFs "/w" = Some FS.Dir
  /\ Forall (fun a => stageable 12 "/w" a = true) twoSameName
  /\ exists saved,
       fst (saveAttachments 12 twoSameName "/w" sampleFs) = Return saved
       /\ fst (saveAttachments 12 (twoSameName ++ nameless :: twoSameName) "/w" sampleFs)
          = Raise "TypeError".
Proof.
  intros nameless.
  assert (H1 : Forall (fun a => stageable 12 "/w" a = true) twoSameName)
    by (repeat constructor; vm_compute; reflexivity).
  assert (H3 : FS.statPath sampleFs "/w" = Some FS.Dir) by (vm_compute; reflexivity).
  assert (H4 : size sampleFs + List.length (Path.components "/w")
               + List.length twoSameName + 2 <= 12) by (vm_compute; lia).
  split; [exact H3|]. split; [exact H1|].
  destruct (missing_filename_stops_staging 12 twoSameName twoSameName nameless "/w"
              sampleFs eq_refl) as (Hraise & Hpre).
  destruct (Hpre H1 (or_introl H3) H4) as (saved & Hs).
  exists saved. split; [exact Hs|]. now rewrite (Hraise saved Hs).
Defined.

(** *** What [parseEmail] hands on *)

Lemma retained_have_names (parsed : ParsedMail) :
  Forall (fun a => exists n, att_filename a = Some n /\ n <> "")
         (retainedAttachments parsed).
Proof.
  unfold retainedAttachments. apply Forall_fmap, Forall_forall.
  intros att [Hk _]%list_elem_of_filter.
  unfold keepAttachment in Hk. destruct (_ && _); [discriminate|].
  destruct att as [[[|c n]|] ct cd sz content]; cbn in *; try discriminate.
  eexists. split; [reflexivity | discriminate].
Qed.

(** X17. Every attachment [parseEmail] retains has a filename that is not
    empty.  So staging the attachments of a parsed email into a directory
    that exists or can be made returns, with one saved file for each
    attachment, when the paths the loop can reach for these filenames are
    paths the file system accepts; and it does not return when the file
    system refuses the sanitized name of one of them. *)
Theorem parsed_attachments_can_be_staged (fuel : nat) (filepath outputDir : string)
    (parsed : ParsedMail) (fs : FS.t) :
  Forall (fun a => exists n, att_filename a = Some n /\ n <> "")
         (email_attachments (emailOf filepath parsed))
  /\ ((forall a n k, a ∈ email_attachments (emailOf filepath parsed) ->
                     att_filename a = Some n -> k < fuel ->
                     FS.acceptable (candidate outputDir (safeNameOf n) k) = true) ->
      FS.statPath fs outputDir = Some FS.Dir
      \/ (FS.existsSync fs outputDir = false
          /\ exists fs1, FS.mkdirSync fs outputDir = Ok fs1) ->
      size fs + List.length (Path.components outputDir)
      + List.length (email_attachments (emailOf filepath parsed)) + 2 <= fuel ->
      exists saved,
        fst (saveAttachments fuel (email_attachments (emailOf filepath parsed))
               outputDir fs) = Return saved
        /\ List.length saved = List.length (email_attachments (emailOf filepath parsed)))
  /\ (forall a n, a ∈ email_attachments (emailOf filepath parsed) ->
                  att_filename a = Some n ->
                  FS.acceptable (candidate outputDir (safeNameOf n) 0) = false ->
      forall saved,
        fst (saveAttachments fuel (email_attachments (emailOf filepath parsed))
               outputDir fs) <> Return saved).
Proof.
  cbn [emailOf email_attachments].
  pose proof (retained_have_names parsed) as Hn. split; [exact Hn|]. split.
  - intros Hacc Hdir Hfuel. apply saveAttachments_returns; [|exact Hdir|exact Hfuel].
    apply Forall_forall. intros a Ha. rewrite Forall_forall in Hn.
    destruct (Hn a Ha) as (n & Hf & _). apply stageable_spec.
    exists n. split; [exact Hf|]. intros k Hk. now apply (Hacc a n k).
  - intros a n Ha Hf Hacc saved Hr.
    destruct (saveAttachments fuel (retainedAttachments parsed) outputDir fs)
      as [r fs'] eqn:E.
    destruct (saveAttachments_spec _ _ _ _ _ _ E) as (_ & _ & Hs).
    destruct (Hs _ Hr) as (Hst & _).
    now apply (refused_name_not_staged _ _ _ _ _ _ Hst Ha Hf Hacc).
Qed.

Lemma parsed_attachments_can_be_staged_witness :
  FS.statPath mailFs "/w" = Some FS.Dir
  /\ exists saved,
       fst (saveAttachments 12 (email_attachments (emailOf "/w/q3.eml" q3Mail))
              "/w" mailFs) = Return saved
       /\ List.length saved = List.length (email_attachments (emailOf "/w/q3.eml" q3Mail)).
Proof.
  assert (H1 : FS.statPath mailFs "/w" = Some FS.Dir) by (vm_compute; reflexivity).
  split; [exact H1|].
  apply (parsed_attachments_can_be_staged 12 "/w/q3.eml" "/w" q3Mail mailFs).
  - intros a n k Ha Hf Hk.
    apply list_elem_of_singleton in Ha. subst a. injection Hf as <-.
    do 12 (destruct k as [|k]; [vm_compute; reflexivity|]). lia.
  - left. exact H1.
  - vm_compute. lia.
Defined.

(** *** The address lists *)

Lemma rev_app_acc (s acc : string) : String.rev_app s acc = String.rev s +:+ acc.
Proof.
  unfold String.rev. revert acc. induction s as [|c s IH]; intros acc;
    cbn [String.rev_app]; [reflexivity|].
  rewrite IH, (IH (String c "")), app_assoc_s. now sapp.
Qed.

Lemma rev_rev_app (s acc acc' : string) :
  String.rev_app (String.rev_app s acc) acc' = String.rev_app acc (s +:+ acc').
Proof.
  revert acc. induction s as [|c s IH]; intros acc; cbn [String.rev_app]; sapp;
    [reflexivity|].
  now rewrite IH.
Qed.

Lemma rev_involutive_s (s : string) : String.rev (String.rev s) = s.
Proof. unfold String.rev. rewrite rev_rev_app. cbn. apply app_empty_r. Qed.

Lemma rev_app_cat (a b acc : string) :
  String.rev_app (a +:+ b) acc = String.rev_app b (String.rev_app a acc).
Proof.
  revert acc. induction a as [|c a IH]; intros acc; sapp; cbn [String.rev_app];
    [reflexivity | apply IH].
Qed.

Lemma rev_cat (a b : string) : String.rev (a +:+ b) = String.rev b +:+ String.rev a.
Proof. unfold String.rev at 1. rewrite rev_app_cat. apply rev_app_acc. Qed.

Lemma trimStart_headOk (s : string) : headOk (Str.trimStart s).
Proof.
  induction s as [|c s IH]; cbn [Str.trimStart]; [exact I|].
  destruct (Str.isSpace c) eqn:E; [exact IH | exact E].
Qed.

Lemma trimStart_id (s : string) : headOk s -> Str.trimStart s = s.
Proof. destruct s as [|c s]; cbn; [reflexivity | now intros ->]. Qed.

Lemma trimStart_split (s : string) :
  exists sp, s = sp +:+ Str.trimStart s.
Proof.
  induction s as [|c s [sp IH]]; cbn [Str.trimStart]; [now exists ""|].
  destruct (Str.isSpace c); [|now exists ""].
  exists (String c sp). sapp. now rewrite <- IH.
Qed.

Lemma trimEnd_split (s : string) : exists sp, s = Str.trimEnd s +:+ sp.
Proof.
  unfold Str.trimEnd. destruct (trimStart_split (String.rev s)) as [sp H].
  exists (String.rev sp). rewrite <- rev_cat, <- H. symmetry. apply rev_involutive_s.
Qed.

Lemma headOk_prefix (a b : string) : headOk (a +:+ b) -> headOk a.
Proof. destruct a; sapp; [constructor | auto]. Qed.

Lemma trimEnd_idem (s : string) : Str.trimEnd (Str.trimEnd s) = Str.trimEnd s.
Proof.
  unfold Str.trimEnd. rewrite rev_involutive_s.
  now rewrite (trimStart_id _ (trimStart_headOk _)).
Qed.

Lemma trim_idem (s : string) : Str.trim (Str.trim s) = Str.trim s.
Proof.
  unfold Str.trim. rewrite (trimStart_id (Str.trimEnd (Str.trimStart s))).
  - apply trimEnd_idem.
  - destruct (trimEnd_split (Str.trimStart s)) as [sp H].
    apply (headOk_prefix _ sp). rewrite <- H. apply trimStart_headOk.
Qed.

Lemma all_trimStart (f : ascii -> bool) (s : string) :
  Str.all f s = true -> Str.all f (Str.trimStart s) = true.
Proof.
  induction s as [|c s IH]; cbn [Str.trimStart Str.all]; [reflexivity|].
  intros [Hc Hs]%andb_true_iff. destruct (Str.isSpace c); [auto|].
  cbn [Str.all]. now rewrite Hc, Hs.
Qed.

Lemma all_trim (f : ascii -> bool) (s : string) :
  Str.all f s = true -> Str.all f (Str.trim s) = true.
Proof.
  intros H. unfold Str.trim, Str.trimEnd. rewrite all_rev. apply all_trimStart.
  rewrite all_rev. now apply all_trimStart.
Qed.

Lemma split_free (sep : ascii) (s : string) :
  Forall (fun x => Str.all (fun c => negb (Str.eqc c sep)) x = true) (Str.split sep s).
Proof.
  induction s as [|c s IH]; cbn [Str.split]; [repeat constructor|].
  destruct (Str.eqc c sep) eqn:E; [constructor; [reflexivity | exact IH]|].
  destruct (Str.split sep s) as [|h t]; [repeat constructor; cbn; now rewrite E|].
  inversion IH; subst. constructor; [cbn; now rewrite E | assumption].
Qed.

Lemma addressList_spec (x : option string) :
  Forall (fun a => a <> "" /\ Str.trim a = a
                   /\ Str.all (fun c => negb (Str.eqc c ",")) a = true)
         (addressList x).
Proof.
  unfold addressList. apply Forall_forall.
  intros a [Hne Hin]%list_elem_of_filter.
  apply list_elem_of_fmap in Hin as (b & -> & Hb).
  split; [intros E; rewrite E in Hne; discriminate|].
  split; [apply trim_idem|].
  apply all_trim. pose proof (split_free "," (orElse x "")) as H.
  rewrite Forall_forall in H. now apply H.
Qed.

(** X18. The entries of the [to] and [cc] lists are not empty, carry no
    whitespace at either end and contain no comma; a header that is absent
    or empty gives the empty list. *)
Theorem recipients_are_trimmed_and_non_empty (filepath : string) (parsed : ParsedMail) :
  Forall (fun a => a <> "" /\ Str.trim a = a
                   /\ Str.all (fun c => negb (Str.eqc c ",")) a = true)
         (email_to (emailOf filepath parsed) ++ email_cc (emailOf filepath parsed))
  /\ (truthy (pm_to parsed) = false -> email_to (emailOf filepath parsed) = [])
  /\ (truthy (pm_cc parsed) = false -> email_cc (emailOf filepath parsed) = []).
Proof.
  cbn [emailOf email_to email_cc]. split; [|split].
  - apply Forall_app. split; apply addressList_spec.
  - destruct (pm_to parsed) as [[|c s]|]; cbn; try discriminate; reflexivity.
  - destruct (pm_cc parsed) as [[|c s]|]; cbn; try discriminate; reflexivity.
Qed.

Lemma recipients_are_trimmed_and_non_empty_witness :
  truthy (pm_cc sampleMail) = false
  /\ email_cc (emailOf "/w/m.eml" sampleMail) = []
  /\ email_to (emailOf "/w/m.eml" sampleMail) = ["bob@x.org"; "cy@x.org"].
Proof.
  split; [reflexivity|].
  split; [apply (recipients_are_trimmed_and_non_empty "/w/m.eml" sampleMail); reflexivity|].
  vm_compute. reflexivity.
Defined.

(** *** The date of the records of an email *)

Lemma transcriptExists_app (s1 s2 : Store) (filepath : string) :
  transcriptExists (s1 ++ s2) filepath
  = transcriptExists s1 filepath || transcriptExists s2 filepath.
Proof. unfold transcriptExists. apply existsb_app. Qed.

(** The record at position [i] among those the loop over the staged files
    adds to [store]: which staged file it is made from, and with what. *)
Lemma attachmentRecords_lookup (env : Env) (email : Email) (files : FS.t)
    (l : list SavedFile) :
  forall (store : Store) (i : nat) (t : Transcript),
  attachmentRecords env email files store l !! i = Some t ->
  exists att text,
    att ∈ l
    /\ Str.includes (Str.toLowerCase (Path.extname (saved_filename att)))
                    ATTACHMENT_EXTENSIONS = true
    /\ transcriptExists store (saved_filepath att) = false
    /\ attachmentTextOf env att files = Ok text
    /\ isBlank text = false
    /\ t = attachmentRecord env (List.length store + i) email att text.
Proof.
  induction l as [|att rest IH]; intros store i t; cbn [attachmentRecords];
    [intros H; inversion H|].
  destruct (attachmentRecordOf env email files store att) as [r|] eqn:E.
  - destruct i as [|i]; cbn [lookup list_lookup].
    + intros [= <-].
      apply attachmentRecordOf_Some in E as (Hs & He & text & Ht & Hb & ->).
      exists att, text. rewrite Nat.add_0_r. repeat split; auto. constructor.
    + intros H. destruct (IH _ _ _ H) as (a & text & Hin & Hs & He & Ht & Hb & ->).
      exists a, text. rewrite transcriptExists_app in He.
      apply orb_false_iff in He as [He _].
      rewrite length_app in *. cbn [List.length] in *.
      replace (List.length store + S i) with (List.length store + 1 + i) by lia.
      repeat split; auto. now constructor.
  - intros H. destruct (IH _ _ _ H) as (a & text & Hin & Hrest).
    exists a, text. split; [now constructor | exact Hrest].
Qed.

(** X8. A record created for an email, for its body or for one of its
    attachments, has no duration, and the date of the email as call date.
    When the email has no date, the call date of each record is the time at
    which that record is made: the records of one email then carry the
    readings of the clock for their own ids, which can differ. *)
Theorem email_records_carry_the_email_date (env : Env) (opts : Options) (fuel : nat)
    (filepath : string) (w : World) (created : list Transcript) :
  extOf filepath = ".eml" ->
  db (exec (onAdd env opts fuel filepath) w) = db w ++ created ->
  created = []
  \/ exists raw parsed,
       FS.readFileSync (fs w) filepath = Ok raw
       /\ simpleParser env raw = Ok parsed
       /\ forall i t, created !! i = Some t ->
            t_durationMinutes t = None
            /\ t_callDate t
               = Some (default (nowISO env (List.length (db w) + i)) (pm_date parsed)).
Proof.
  intros Hext Hdb.
  destruct (onAdd_email_cases env opts fuel filepath w Hext)
    as [H|(raw & parsed & _ & _ & Hr & Hp & H)]; rewrite H in Hdb.
  - left. rewrite <- (app_nil_r (db w)) in Hdb at 1. now apply app_inv_head in Hdb.
  - right. apply app_inv_head in Hdb. subst created. exists raw, parsed.
    split; [exact Hr|]. split; [exact Hp|].
    assert (Hd : forall id, emailDateAt env id (emailOf filepath parsed)
                            = default (nowISO env id) (pm_date parsed)).
    { intros id. unfold emailDateAt. cbn [emailOf email_date].
      now destruct (pm_date parsed). }
    intros [|i] t; cbn [lookup list_lookup].
    + intros [= <-]. cbn [emailRecord t_callDate t_durationMinutes].
      now rewrite Hd, Nat.add_0_r.
    + unfold stagedRecords. destruct (email_hasAttachments _); [|discriminate].
      destruct (saveAttachments fuel _ _ (fs w)) as [[saved|e|] fs'];
        [|discriminate..].
      intros Ht. apply attachmentRecords_lookup in Ht as (att & text & _ & _ & _ & _ & _ & ->).
      cbn [attachmentRecord t_callDate t_durationMinutes].
      rewrite Hd, length_app. cbn [List.length].
      replace (List.length (db w) + 1 + i) with (List.length (db w) + S i) by lia.
      auto.
Qed.

Lemma email_records_carry_the_email_date_witness :
  extOf "/w/q3.eml" = ".eml"
  /\ pm_date twinMail = None
  /\ exists t,
       db (exec (onAdd (sampleEnv twinMail) allOptions 12 "/w/q3.eml") (emptyWorld mailFs))
         !! 2 = Some t
       /\ t_durationMinutes t = None
       /\ t_callDate t = Some (sampleClock 2).
Proof.
  assert (H1 : extOf "/w/q3.eml" = ".eml") by (vm_compute; reflexivity).
  split; [exact H1|]. split; [reflexivity|].
  destruct (email_records_carry_the_email_date (sampleEnv twinMail) allOptions 12
              "/w/q3.eml" (emptyWorld mailFs)
              (db (exec (onAdd (sampleEnv twinMail) allOptions 12 "/w/q3.eml")
                        (emptyWorld mailFs)))
              H1 eq_refl) as [H|(raw & parsed & _ & Hp & Hall)].
  - exfalso. vm_compute in H. discriminate H.
  - assert (parsed = twinMail) by (cbn [sampleEnv simpleParser] in Hp; congruence).
    subst parsed.
    destruct (db (exec (onAdd (sampleEnv twinMail) allOptions 12 "/w/q3.eml")
                       (emptyWorld mailFs)) !! 2) as [t|] eqn:E.
    + exists t. split; [reflexivity|]. exact (Hall 2 t E).
    + exfalso. vm_compute in E. discriminate E.
Defined.

(** *** What stays on disk *)

Lemma keepsFs_processAttachment (env : Env) (opts : Options) (email : Email)
    (att : SavedFile) :
  respects (fun w w' => fs w' = fs w) (processAttachment env opts email att).
Proof. intros w. apply processAttachment_effect. Qed.

(** X27. For an email that can be read and parsed, the file system the
    handler leaves is the one [saveAttachments] leaves (the one it found,
    when the email has no attachment to stage): nothing is written besides
    the staged files and nothing is cleaned up.  When the staging returns,
    every retained attachment, of a supported type or not, is in the final
    file system under its staged name with its own content. *)
Theorem staged_files_are_never_removed (env : Env) (opts : Options) (fuel : nat)
    (filepath raw : string) (parsed : ParsedMail) (w : World) :
  extOf filepath = ".eml" ->
  shouldIgnore filepath = false ->
  transcriptExists (db w) filepath = false ->
  FS.readFileSync (fs w) filepath = Ok raw ->
  simpleParser env raw = Ok parsed ->
  fs (exec (onAdd env opts fuel filepath) w)
  = (if email_hasAttachments (emailOf filepath parsed)
     then snd (saveAttachments fuel (email_attachments (emailOf filepath parsed))
                 (attachDirOf filepath) (fs w))
     else fs w)
  /\ forall saved,
       email_hasAttachments (emailOf filepath parsed) = true ->
       fst (saveAttachments fuel (email_attachments (emailOf filepath parsed))
              (attachDirOf filepath) (fs w)) = Return saved ->
       Forall2 (stagedAs (attachDirOf filepath) (fs (exec (onAdd env opts fuel filepath) w)))
               (email_attachments (emailOf filepath parsed)) saved.
Proof.
  intros Hext Hi He Hr Hp.
  assert (Hfs : fs (exec (onAdd env opts fuel filepath) w)
                = (if email_hasAttachments (emailOf filepath parsed)
                   then snd (saveAttachments fuel
                               (email_attachments (emailOf filepath parsed))
                               (attachDirOf filepath) (fs w))
                   else fs w)).
  { unfold exec. rewrite onAdd_branch; [|now rewrite Hext|exact Hi|exact He].
    unfold branchOf. rewrite Hext. change (Str.eqb ".eml" ".eml") with true. cbv iota.
    unfold processEmail.
    assert (Hpe : parseEmail env filepath (logged w (NewTranscriptDetected filepath))
                  = (Return (emailOf filepath parsed),
                     logged w (NewTranscriptDetected filepath))).
    { unfold parseEmail, logged. munfold. msimpl. rewrite Hr. msimpl. rewrite Hp.
      reflexivity. }
    rewrite (exec_tryCatch_bind _ _ _ _ _ _ Hpe). rewrite fullContent_not_blank. cbv zeta.
    erewrite exec_tryCatch_bind by apply emailCallDate_eq.
    erewrite exec_tryCatch_bind by reflexivity.
    erewrite exec_tryCatch_bind by reflexivity.
    set (email := emailOf filepath parsed).
    assert (Hstep : forall w0 : World,
              fs w0 = fs w ->
              fs (snd (tryCatch
                         (if email_hasAttachments email
                          then bind (saveAttachmentsM fuel (email_attachments email)
                                       (Path.join (Path.dirname filepath)
                                                  ".prism-attachments"))
                                    (fun savedFiles =>
                                       forEach savedFiles (processAttachment env opts email))
                          else ret tt)
                         (fun message =>
                            bind (consoleLog (EmailParsingFailed filepath message))
                                 (fun _ => when (onError opts)
                                             (callOnError message filepath))) w0))
              = (if email_hasAttachments email
                 then snd (saveAttachments fuel (email_attachments email)
                             (attachDirOf filepath) (fs w))
                 else fs w)).
    { intros w0 H0. destruct (email_hasAttachments email); [|exact H0].
      unfold tryCatch, bind at 1, saveAttachmentsM, attachDirOf. rewrite H0.
      destruct (saveAttachments fuel (email_attachments email) _ (fs w)) as [[l|e|] fs1];
        cbn [snd].
      - pose proof (respects_forEach _ keepsFs_refl keepsFs_trans l
                      (processAttachment env opts email)
                      (keepsFs_processAttachment env opts email)
                      (setFs fs1 w0)) as Hl.
        unfold exec in Hl. cbv beta in Hl.
        destruct (forEach l _ (setFs fs1 w0)) as [[[]|e|] w1]; cbn [snd] in *;
          try exact Hl.
        assert (Hh : respects (fun w w' => fs w' = fs w)
                       (bind (consoleLog (EmailParsingFailed filepath e))
                             (fun _ => when (onError opts) (callOnError e filepath))))
          by keepsFs.
        specialize (Hh w1). unfold exec in Hh. cbv beta in Hh. now rewrite Hh.
      - assert (Hh : respects (fun w w' => fs w' = fs w)
                       (bind (consoleLog (EmailParsingFailed filepath e))
                             (fun _ => when (onError opts) (callOnError e filepath))))
          by keepsFs.
        specialize (Hh (setFs fs1 w0)). unfold exec in Hh. cbv beta in Hh.
        now rewrite Hh.
      - reflexivity. }
    destruct (processImmediately opts), (onNewFile opts); cbn [when];
      (erewrite exec_tryCatch_bind by reflexivity);
      (erewrite exec_tryCatch_bind by reflexivity);
      apply Hstep; reflexivity. }
  split; [exact Hfs|].
  intros saved Hh Hs. rewrite Hfs, Hh.
  destruct (saveAttachments fuel (email_attachments (emailOf filepath parsed))
              (attachDirOf filepath) (fs w)) as [r fs'] eqn:E.
  cbn [fst snd] in *. subst r.
  destruct (saveAttachments_spec _ _ _ _ _ _ E) as (_ & _ & Hspec).
  now destruct (Hspec saved eq_refl).
Qed.

Lemma staged_files_are_never_removed_witness :
  extOf "/w/q3.eml" = ".eml"
  /\ FS.readFileSync (fs (emptyWorld mailFs)) "/w/q3.eml" = Ok "raw message"
  /\ FS.readFileSync
       (fs (exec (onAdd (sampleEnv q3Mail) allOptions 12 "/w/q3.eml") (emptyWorld mailFs)))
       "/w/.prism-attachments/contract.pdf"
     = Ok "Contract terms".
Proof.
  assert (H1 : extOf "/w/q3.eml" = ".eml") by (vm_compute; reflexivity).
  assert (H2 : shouldIgnore "/w/q3.eml" = false) by (vm_compute; reflexivity).
  assert (H4 : FS.readFileSync (fs (emptyWorld mailFs)) "/w/q3.eml" = Ok "raw message")
    by (vm_compute; reflexivity).
  split; [exact H1|]. split; [exact H4|].
  destruct (staged_files_are_never_removed (sampleEnv q3Mail) allOptions 12 "/w/q3.eml"
              "raw message" q3Mail (emptyWorld mailFs) H1 H2 eq_refl H4 eq_refl)
    as [Hfs _].
  rewrite Hfs. vm_compute. reflexivity.
Defined.

Lemma testFrom_inv (ci : bool) (r : Regex.t) (s : string) (b : bool) :
  testFrom ci r b s = true ->
  (exists x, matchHere ci r b s = Some x)
  \/ exists a s' x, a <> "" /\ s = a +:+ s' /\ matchHere ci r false s' = Some x.
Proof.
  revert b. induction s as [|c s IH]; intros b; cbn [testFrom].
  - destruct (matchHere ci r b "") as [x|]; [eauto | discriminate].
  - destruct (matchHere ci r b (String c s)) as [x|]; [eauto|].
    intros [(x & Hx)|(a & s' & x & Ha & -> & Hx)]%IH; right.
    + exists (String c ""), s, x. split; [discriminate|]. split; [reflexivity | exact Hx].
    + exists (String c a), s', x. split; [discriminate|]. split; [now sapp | exact Hx].
Qed.

Lemma eqc_true (a b : ascii) : Str.eqc a b = true -> a = b.
Proof. apply bool_decide_eq_true_1. Qed.

Lemma dotfile_inv (b : bool) (s x : string) :
  matchHere false
    (Seq (Alt Bol (Set_ (fun c => Str.eqc c "/" || Str.eqc c backslash)))
         (Seq (Chr ".") (Set_ Dot)))
    b s = Some x ->
  (b = true /\ exists c rest, Dot c = true /\ s = String "." (String c rest))
  \/ exists sp c rest,
       (sp = "/"%char \/ sp = backslash) /\ Dot c = true
       /\ s = String sp (String "." (String c rest)).
Proof.
  unfold matchHere. cbn [run]. unfold sameChar.
  destruct b, s as [|a [|a0 [|a1 rest]]];
    repeat match goal with
           | |- context [if ?c then _ else _] => destruct c eqn:?
           end;
    intros; try discriminate;
    repeat match goal with
           | H : Str.eqc _ _ = true |- _ => apply eqc_true in H; subst
           | H : _ || _ = true |- _ => apply orb_true_iff in H as [H|H]
           end;
    solve [ left; split; [reflexivity|]; eauto
          | right; do 3 eexists; split; [|split; [|reflexivity]]; eauto ].
Qed.

Lemma suffix_inv (l s x : string) (b : bool) :
  matchHere false (Lit l Eol) b s = Some x -> s = l.
Proof.
  unfold matchHere. revert s b. induction l as [|c l IH]; intros s b; cbn [Lit run].
  - destruct s; [reflexivity | discriminate].
  - destruct s as [|a rest]; [discriminate|]. unfold sameChar.
    destruct (Str.eqc a c) eqn:E; [|discriminate]. apply eqc_true in E. subst a.
    intros H. f_equal. now apply (IH rest false).
Qed.

Lemma office_temp_inv (s x : string) (b : bool) :
  matchHere false (Lit "~$" (Star Dot)) b s = Some x ->
  exists rest, s = String "~" (String "$" rest).
Proof.
  unfold matchHere. cbn [Lit]. destruct s as [|a [|a0 rest]]; cbn [run]; unfold sameChar;
    try discriminate.
  - destruct (Str.eqc a "~"); discriminate.
  - destruct (Str.eqc a "~") eqn:E1; [|discriminate].
    destruct (Str.eqc a0 "$") eqn:E2; [|discriminate].
    apply eqc_true in E1, E2. subst. eauto.
Qed.

Lemma shape_test (x : string) :
  ignoredShape x <-> exists r, r ∈ IGNORED_PATTERNS /\ Regex.test false r x = true.
Proof.
  split.
  - intros [(c & rest & Hc & ->)|[(pre & s & c & rest & Hs & Hc & ->)
           |[(pre & suffix & Hin & ->)|(pre & rest & ->)]]].
    + eexists. split; [left|]. unfold Regex.test. cbn [testFrom].
      now rewrite dotfile_at_start.
    + eexists. split; [left|]. unfold Regex.test. apply testFrom_skip.
      intros b. exists rest. now apply dotfile_after_sep.
    + exists (Lit suffix Eol). split.
      * unfold IGNORED_PATTERNS.
        repeat (apply elem_of_cons in Hin as [->|Hin]; [repeat constructor|]). inversion Hin.
      * unfold Regex.test. apply testFrom_skip. intros b. exists "".
        apply suffix_matches.
    + exists (Lit "~$" (Star Dot)). split; [unfold IGNORED_PATTERNS; repeat constructor|].
      unfold Regex.test. apply testFrom_skip. intros b. apply office_temp_matches.
  - intros (r & Hin & Ht). unfold Regex.test in Ht.
    apply testFrom_inv in Ht. unfold IGNORED_PATTERNS in Hin.
    apply elem_of_cons in Hin as [->|Hin].
    { destruct Ht as [(y & Hy)|(a & s' & y & Ha & -> & Hy)];
        apply dotfile_inv in Hy as [(Hb & c & rest & Hc & ->)|(sp & c & rest & Hs & Hc & ->)].
      - left. eauto.
      - right; left. exists "", sp, c, rest. auto.
      - discriminate Hb.
      - right; left. exists a, sp, c, rest. auto. }
    assert (Hsuffix : forall l,
              l ∈ [".tmp"; ".gsheet"; ".gdoc"; ".crdownload"; ".part"] ->
              r = Lit l Eol -> ignoredShape x).
    { intros l Hl ->. right; right; left.
      destruct Ht as [(y & Hy)|(a & s' & y & Ha & -> & Hy)]; apply suffix_inv in Hy; subst.
      - exists "", l. auto.
      - exists a, l. auto. }
    apply elem_of_cons in Hin as [->|Hin]; [eapply Hsuffix; [|reflexivity]; repeat constructor|].
    apply elem_of_cons in Hin as [->|Hin]; [eapply Hsuffix; [|reflexivity]; repeat constructor|].
    apply elem_of_cons in Hin as [->|Hin]; [eapply Hsuffix; [|reflexivity]; repeat constructor|].
    apply elem_of_cons in Hin as [->|Hin].
    { right; right; right.
      destruct Ht as [(y & Hy)|(a & s' & y & Ha & -> & Hy)];
        apply office_temp_inv in Hy as [rest ->].
      - exists "", rest. reflexivity.
      - exists a, rest. reflexivity. }
    apply elem_of_cons in Hin as [->|Hin]; [eapply Hsuffix; [|reflexivity]; repeat constructor|].
    apply elem_of_cons in Hin as [->|Hin]; [eapply Hsuffix; [|reflexivity]; repeat constructor|].
    inversion Hin.
Qed.

(** X12. [shouldIgnore] holds of a path exactly when the path or its basename
    has one of the shapes of the patterns: a dot, followed by a character
    that is not a line terminator, at the start or right after a slash or
    backslash; one of the endings [.tmp], [.gsheet], [.gdoc], [.crdownload],
    [.part]; or [~$] anywhere. *)
Theorem ignored_by_shape (filepath : string) :
  shouldIgnore filepath = true
  <-> ignoredShape filepath \/ ignoredShape (Path.basename filepath).
Proof.
  rewrite !shape_test. unfold shouldIgnore. rewrite existsb_exists. split.
  - intros (r & Hin & [H|H]%orb_true_iff); apply list_elem_of_In in Hin; eauto.
  - intros [(r & Hin & H)|(r & Hin & H)]; exists r; rewrite H, ?orb_true_r;
      (split; [now apply list_elem_of_In | reflexivity]).
Qed.

Lemma ignored_by_shape_witness :
  ignoredShape "/w/.prism-attachments/notes.txt"
  /\ shouldIgnore "/w/.prism-attachments/notes.txt" = true
  /\ ~ ignoredShape "/w/notes.txt".
Proof.
  assert (H : ignoredShape "/w/.prism-attachments/notes.txt").
  { right; left. exists "/w", "/"%char, "p"%char, "rism-attachments/notes.txt".
    split; [now left|]. split; reflexivity. }
  split; [exact H|].
  split; [apply (ignored_by_shape "/w/.prism-attachments/notes.txt"); now left|].
  intros Hn.
  assert (Hi : shouldIgnore "/w/notes.txt" = true)
    by (apply (ignored_by_shape "/w/notes.txt"); now left).
  revert Hi. vm_compute. discriminate.
Defined.

(* ===================================================================== *)
(** ** The extractors *)
(* ===================================================================== *)

Ltac not_in :=
  let H := fresh in
  intros H; repeat (apply elem_of_cons in H as [H|H]; [discriminate H|]); inversion H.


Lemma all_join (f : ascii -> bool) (sep : string) (l : list string) :
  Str.all f sep = true ->
  (Str.all f (Str.join sep l) = true <-> Forall (fun x => Str.all f x = true) l).
Proof.
  intros Hsep. induction l as [|x [|y l] IH].
  - cbn. split; [constructor | reflexivity].
  - cbn [Str.join]. split; [repeat constructor; assumption | now inversion 1].
  - rewrite join_cons2, !all_app, Hsep, !andb_true_iff, IH.
    split; [intros (H1 & _ & H2); now constructor|].
    inversion 1; subst. auto.
Qed.

(** X19. [extractPdfText] throws the error of [readFileSync] without making
    a parser when the file cannot be read; otherwise [destroy] is called on
    the parser exactly once, as the last call, however [load] and [getText]
    end.  It returns a text exactly when both succeed, the text being the
    texts of the pages joined by line feeds, and that text is blank exactly
    when every page is whitespace only. *)
Theorem pdf_text_is_the_pages_joined (lib : Extractors.PdfLibrary) (files : FS.t)
    (filePath : string) :
  match FS.readFileSync files filePath with
  | Throw e => Extractors.extractPdfText lib files filePath = (Throw e, [])
  | Ok buffer =>
      (exists calls,
         snd (Extractors.extractPdfText lib files filePath)
         = calls ++ [Extractors.CallDestroy]
         /\ Extractors.CallDestroy ∉ calls)
      /\ (forall text,
            fst (Extractors.extractPdfText lib files filePath) = Ok text <->
            exists pages,
              Extractors.load lib buffer = Ok tt
              /\ Extractors.getText lib buffer = Ok pages
              /\ text = Str.join LF pages)
      /\ (forall text,
            fst (Extractors.extractPdfText lib files filePath) = Ok text ->
            (isBlank text = true <->
             exists pages, Extractors.getText lib buffer = Ok pages
                           /\ Forall whitespaceOnly pages))
  end.
Proof.
  unfold Extractors.extractPdfText.
  destruct (FS.readFileSync files filePath) as [buffer|e]; [|reflexivity].
  destruct (Extractors.load lib buffer) as [[]|e1] eqn:El.
  - destruct (Extractors.getText lib buffer) as [pages|e2] eqn:Eg; cbn [fst snd].
    + split; [eexists; split; [reflexivity | not_in]|].
      split.
      * intros text. split; [intros [= <-]; eauto|].
        intros (pages' & _ & [= <-] & ->). reflexivity.
      * intros text [= <-]. rewrite isBlank_spec, (all_join _ LF pages) by reflexivity.
        split; [eauto|]. now intros (pages' & [= <-] & H).
    + split; [eexists; split; [reflexivity | not_in]|].
      split; [intros text; split; [discriminate|]; now intros (? & _ & ? & _)|].
      discriminate.
  - cbn [fst snd]. split; [eexists; split; [reflexivity | not_in]|].
    split; [intros text; split; [discriminate|]; now intros (? & ? & _)|].
    discriminate.
Qed.

Lemma pdf_text_is_the_pages_joined_witness :
  FS.readFileSync mailFs "/w/blank.pdf" = Ok "   "
  /\ fst (Extractors.extractPdfText twoPages mailFs "/w/blank.pdf")
     = Ok ("   " +:+ LF +:+ "")
  /\ isBlank ("   " +:+ LF +:+ "") = true.
Proof.
  assert (H1 : FS.readFileSync mailFs "/w/blank.pdf" = Ok "   ")
    by (vm_compute; reflexivity).
  assert (H2 : fst (Extractors.extractPdfText twoPages mailFs "/w/blank.pdf")
               = Ok ("   " +:+ LF +:+ "")) by (vm_compute; reflexivity).
  split; [exact H1|]. split; [exact H2|].
  pose proof (pdf_text_is_the_pages_joined twoPages mailFs "/w/blank.pdf") as H.
  rewrite H1 in H. destruct H as (_ & _ & H).
  apply (H _ H2). exists ["   "; ""]. split; [reflexivity|].
  repeat constructor.
Defined.

Lemma isBlank_false_spec (s : string) : isBlank s = false <-> ~ whitespaceOnly s.
Proof.
  unfold whitespaceOnly. rewrite <- isBlank_spec. destruct (isBlank s); split;
    congruence.
Qed.

(** X20. With the PDF extractor of [extractors.js], the handler creates no
    record for a PDF file whose pages are all whitespace only (or that has
    no page), and writes the line for empty content; otherwise it creates
    the record whose raw content is the texts of the pages joined by line
    feeds. *)
Theorem pdf_of_blank_pages_is_skipped (lib : Extractors.PdfLibrary)
    (extractRawText : FS.t -> string -> result string) (env : Env) (opts : Options)
    (fuel : nat) (filepath buffer : string) (pages : list string) (w : World) :
  extOf filepath = ".pdf" ->
  shouldIgnore filepath = false ->
  transcriptExists (db w) filepath = false ->
  FS.readFileSync (fs w) filepath = Ok buffer ->
  Extractors.load lib buffer = Ok tt ->
  Extractors.getText lib buffer = Ok pages ->
  (Forall whitespaceOnly pages ->
   onAdd (withExtractors lib extractRawText env) opts fuel filepath w
   = (Return tt,
      logged (logged w (NewTranscriptDetected filepath)) (EmptyContent filepath)))
  /\ (~ Forall whitespaceOnly pages ->
      db (exec (onAdd (withExtractors lib extractRawText env) opts fuel filepath) w)
      = db w ++ [pdfDocxRecord (withExtractors lib extractRawText env)
                   (List.length (db w)) filepath (Str.join LF pages)]).
Proof.
  intros Hext Hi He Hr Hl Hg.
  set (env' := withExtractors lib extractRawText env).
  assert (Hx : extractFor env' (extOf filepath) (fs w) filepath = Ok (Str.join LF pages)).
  { rewrite Hext. unfold extractFor. change (Str.eqb ".pdf" ".pdf") with true. cbv iota.
    cbn [env' withExtractors extractPdfText]. unfold Extractors.extractPdfText.
    now rewrite Hr, Hl, Hg. }
  assert (Hb : onAdd env' opts fuel filepath w
               = processPdfDocx env' opts (extOf filepath) filepath
                   (logged w (NewTranscriptDetected filepath))).
  { rewrite onAdd_branch; [|now rewrite Hext|exact Hi|exact He].
    unfold branchOf. now rewrite Hext. }
  split.
  - intros Hall. rewrite Hb. unfold processPdfDocx. rewrite Hext.
    change (Str.eqb ".pdf" ".pdf") with true. cbv iota.
    unfold extractFor in Hx. rewrite Hext in Hx.
    change (Str.eqb ".pdf" ".pdf") with true in Hx. cbv iota in Hx.
    assert (Hblank : isBlank (Str.join LF pages) = true).
    { apply isBlank_spec. now apply all_join. }
    unfold tryCatch, bind at 1, readFs. cbn [fs logged]. rewrite Hx. cbn [liftResult].
    now rewrite Hblank.
  - intros Hn. unfold exec. rewrite Hb.
    destruct (processPdfDocx_effect env' opts (extOf filepath) filepath
                (logged w (NewTranscriptDetected filepath))) as [_ Hdb].
    cbn [fs logged] in Hdb. rewrite Hx in Hdb.
    assert (Hblank : isBlank (Str.join LF pages) = false).
    { apply isBlank_false_spec. unfold whitespaceOnly.
      now rewrite (all_join _ LF pages) by reflexivity. }
    rewrite Hblank in Hdb. exact Hdb.
Qed.

Lemma pdf_of_blank_pages_is_skipped_witness :
  extOf "/w/blank.pdf" = ".pdf"
  /\ FS.readFileSync (fs (emptyWorld mailFs)) "/w/blank.pdf" = Ok "   "
  /\ Forall whitespaceOnly ["   "; ""]
  /\ onAdd (withExtractors twoPages FS.readFileSync (sampleEnv q3Mail)) allOptions 8
            "/w/blank.pdf" (emptyWorld mailFs)
     = (Return tt,
        logged (logged (emptyWorld mailFs) (NewTranscriptDetected "/w/blank.pdf"))
               (EmptyContent "/w/blank.pdf")).
Proof.
  assert (H1 : extOf "/w/blank.pdf" = ".pdf") by (vm_compute; reflexivity).
  assert (H2 : shouldIgnore "/w/blank.pdf" = false) by (vm_compute; reflexivity).
  assert (H4 : FS.readFileSync (fs (emptyWorld mailFs)) "/w/blank.pdf" = Ok "   ")
    by (vm_compute; reflexivity).
  assert (H5 : Forall whitespaceOnly ["   "; ""]) by (repeat constructor).
  split; [exact H1|]. split; [exact H4|]. split; [exact H5|].
  exact (proj1 (pdf_of_blank_pages_is_skipped twoPages FS.readFileSync
                  (sampleEnv q3Mail) allOptions 8 "/w/blank.pdf" "   " ["   "; ""]
                  (emptyWorld mailFs) H1 H2 eq_refl H4 eq_refl eq_refl) H5).
Defined.

(* ===================================================================== *)
(** ** The life cycle of the watchers and the server *)
(* ===================================================================== *)

(** *** [startWatcher] *)

Lemma ensureFolder_ok (files files1 : FS.t) (folder : string) :
  ensureFolder files folder = Ok files1 ->
  FS.existsSync files1 folder = true /\ preserves files files1.
Proof.
  intros H. unfold ensureFolder in H.
  destruct (ensure_dir files files1 folder H) as (H1 & H2 & _). auto.
Qed.

Lemma ensureFolder_existing (files : FS.t) (folder : string) :
  FS.existsSync files folder = true -> ensureFolder files folder = Ok files.
Proof. intros H. unfold ensureFolder. now rewrite H. Qed.

(** X21. When [startWatcher] returns, the watch folder exists, nothing that
    was in the file system has changed, the new watcher is the current one
    and watches that folder with the given options, and [close] has been
    called on no watcher.  When it throws, the folder was missing and could
    not be made, and nothing has changed. *)
Theorem startWatcher_makes_the_folder (watchFolder : string) (options : StartOptions)
    (rt : Runtime) :
  match startWatcher watchFolder options rt with
  | (Ok w, rt') =>
      FS.existsSync (rt_fs rt') watchFolder = true
      /\ preserves (rt_fs rt) (rt_fs rt')
      /\ getWatcher rt' = Some w
      /\ rt_watches rt'
         = rt_watches rt ++ [{| watch_folder := watchFolder;
                                watch_options := optionsOf options |}]
      /\ rt_watches rt' !! w = Some {| watch_folder := watchFolder;
                                       watch_options := optionsOf options |}
      /\ rt_closed rt' = rt_closed rt
  | (Throw e, rt') =>
      rt' = rt
      /\ FS.existsSync (rt_fs rt) watchFolder = false
      /\ FS.mkdirSync (rt_fs rt) watchFolder = Throw e
  end.
Proof.
  unfold startWatcher.
  destruct (ensureFolder (rt_fs rt) watchFolder) as [files|e] eqn:E.
  - apply ensureFolder_ok in E as [H1 H2]. cbn [rt_fs rt_watches rt_closed getWatcher
                                                 currentWatcher].
    repeat split; try assumption.
    rewrite lookup_app_r by reflexivity. now rewrite Nat.sub_diag.
  - unfold ensureFolder in E.
    destruct (FS.existsSync (rt_fs rt) watchFolder); cbn [negb] in E; [discriminate|].
    auto.
Qed.

(** *** [restartWatcher] *)

Lemma restartWatcher_cases (newFolder : string) (options : StartOptions) (rt : Runtime) :
  let closed := rt_closed rt ++ match currentWatcher rt with
                                | Some w => [w]
                                | None => []
                                end in
  (exists files,
     restartWatcher newFolder options rt
     = (Ok (List.length (rt_watches rt)),
        {| rt_fs := files;
           rt_console := rt_console (snd (restartWatcher newFolder options rt));
           rt_watches := rt_watches rt
                         ++ [{| watch_folder := newFolder;
                                watch_options := optionsOf options |}];
           rt_closed := closed;
           currentWatcher := Some (List.length (rt_watches rt)) |})
     /\ ensureFolder (rt_fs rt) newFolder = Ok files)
  \/ (exists e,
        restartWatcher newFolder options rt
        = (Throw e,
           {| rt_fs := rt_fs rt;
              rt_console := rt_console rt ++ [RestartingWatcher newFolder];
              rt_watches := rt_watches rt;
              rt_closed := closed;
              currentWatcher := currentWatcher rt |})
        /\ ensureFolder (rt_fs rt) newFolder = Throw e).
Proof.
  unfold restartWatcher, startWatcher, closeWatcher. cbv zeta. cbn [currentWatcher].
  destruct (currentWatcher rt) as [w|]; cbn [rt_fs rt_console rt_watches rt_closed
                                             currentWatcher];
    destruct (ensureFolder (rt_fs rt) newFolder) as [files|e];
    cbn [snd rt_console]; rewrite ?app_nil_r; eauto.
Qed.

Lemma restartWatcher_wellKept (newFolder : string) (options : StartOptions) (rt : Runtime) :
  wellKept rt -> wellKept (snd (restartWatcher newFolder options rt)).
Proof.
  intros (Hc & Hcl & Hop).
  assert (Hclosed : forall w,
            w ∈ rt_closed rt ++ match currentWatcher rt with
                                | Some w => [w]
                                | None => []
                                end ->
            w < List.length (rt_watches rt)).
  { intros w [H|H]%elem_of_app; [now apply Hcl|].
    destruct (currentWatcher rt) as [w0|] eqn:E; [|inversion H].
    apply list_elem_of_singleton in H. subst. now apply Hc. }
  assert (Hnone : forall w,
            w < List.length (rt_watches rt) ->
            w ∉ rt_closed rt ++ match currentWatcher rt with
                                | Some w => [w]
                                | None => []
                                end -> False).
  { intros w Hlt Hn. rewrite not_elem_of_app in Hn. destruct Hn as [Hn1 Hn2].
    rewrite (Hop w (conj Hlt Hn1)) in Hn2. apply Hn2. constructor. }
  destruct (restartWatcher_cases newFolder options rt) as [(files & -> & _)|(e & -> & _)];
    cbn [snd]; unfold wellKept, isOpen;
    cbn [rt_watches rt_closed currentWatcher]; rewrite ?length_app; cbn [List.length].
  - split; [intros w [= <-]; lia|].
    split; [intros w Hw; apply Hclosed in Hw; lia|].
    intros w [Hlt Hn]. f_equal.
    destruct (decide (w < List.length (rt_watches rt))) as [Hlt'|]; [|lia].
    destruct (Hnone w Hlt' Hn).
  - split; [exact Hc|]. split; [exact Hclosed|].
    intros w [Hlt Hn]. destruct (Hnone w Hlt Hn).
Qed.

Lemma freshRuntime_wellKept (files : FS.t) : wellKept (freshRuntime files).
Proof.
  split; [discriminate|]. split; [intros w H; inversion H|].
  intros w [H _]. cbn in H. lia.
Qed.

Lemma restartAll_wellKept (calls : list (string * StartOptions)) :
  forall rt, wellKept rt -> wellKept (restartAll calls rt).
Proof.
  induction calls as [|[folder options] calls IH]; intros rt H; [exact H|].
  cbn [restartAll fold_left fst snd]. apply IH. now apply restartWatcher_wellKept.
Qed.

(** X22. When the watcher is only ever started through [restartWatcher], at
    most one watcher is open (made, and [close] not called on it), and it is
    the one [getWatcher] returns.  A call that returns makes its watcher the
    current and only open one, on the new folder, after calling [close] on
    the watcher that was current. *)
Theorem restart_keeps_one_watcher (calls : list (string * StartOptions)) (files : FS.t)
    (newFolder : string) (options : StartOptions) :
  let rt := restartAll calls (freshRuntime files) in
  (forall w, isOpen rt w -> getWatcher rt = Some w)
  /\ forall w rt',
       restartWatcher newFolder options rt = (Ok w, rt') ->
       getWatcher rt' = Some w
       /\ isOpen rt' w
       /\ rt_watches rt' !! w = Some {| watch_folder := newFolder;
                                        watch_options := optionsOf options |}
       /\ (forall old, getWatcher rt = Some old -> old ∈ rt_closed rt' /\ ~ isOpen rt' old)
       /\ forall other, isOpen rt' other -> other = w.
Proof.
  intros rt.
  pose proof (restartAll_wellKept calls _ (freshRuntime_wellKept files)) as Hk.
  fold rt in Hk. split; [apply Hk|].
  intros w rt' Hr.
  pose proof (restartWatcher_wellKept newFolder options rt Hk) as Hk'.
  rewrite Hr in Hk'. cbn [snd] in Hk'.
  destruct Hk as (Hc & Hcl & Hop).
  destruct (restartWatcher_cases newFolder options rt) as [(fs1 & E & _)|(e & E & _)];
    rewrite E in Hr; [|discriminate].
  injection Hr as <- <-. unfold getWatcher, isOpen.
  cbn [rt_watches rt_closed currentWatcher] in *. rewrite length_app. cbn [List.length].
  split; [reflexivity|]. split.
  { split; [lia|]. intros [H|H]%elem_of_app.
    - apply Hcl in H. lia.
    - destruct (currentWatcher rt) as [w0|] eqn:E0; [|inversion H].
      apply list_elem_of_singleton in H. specialize (Hc w0 eq_refl). lia. }
  split; [rewrite lookup_app_r by reflexivity; now rewrite Nat.sub_diag|].
  split.
  { intros old ->. assert (Hin : old ∈ rt_closed rt ++ [old])
      by (apply elem_of_app; right; constructor).
    split; [exact Hin | intros [_ Hn]; now apply Hn]. }
  intros other Ho. destruct Hk' as (_ & _ & Hop'). specialize (Hop' other).
  unfold isOpen in Hop'. cbn [rt_watches rt_closed currentWatcher] in Hop'.
  rewrite length_app in Hop'. cbn [List.length] in Hop'. specialize (Hop' Ho).
  now injection Hop'.
Qed.

Lemma restart_keeps_one_watcher_witness :
  exists w rt',
    restartWatcher "/w/sub" serverOptions
      (restartAll [("/w", serverOptions)] (freshRuntime sampleFs)) = (Ok w, rt')
    /\ getWatcher rt' = Some w
    /\ forall other, isOpen rt' other -> other = w.
Proof.
  destruct (restartWatcher "/w/sub" serverOptions
              (restartAll [("/w", serverOptions)] (freshRuntime sampleFs)))
    as [[w|e] rt'] eqn:E.
  - exists w, rt'. split; [reflexivity|].
    destruct (restart_keeps_one_watcher [("/w", serverOptions)] sampleFs "/w/sub"
                serverOptions) as [_ H].
    destruct (H w rt' E) as (H1 & _ & _ & _ & H5). split; [exact H1 | exact H5].
  - exfalso.
    assert (H : fst (restartWatcher "/w/sub" serverOptions
                       (restartAll [("/w", serverOptions)] (freshRuntime sampleFs)))
                = Ok 1) by (vm_compute; reflexivity).
    rewrite E in H. discriminate H.
Defined.

(** *** The routes that change a folder *)

Lemma startWatcher_existing (folder : string) (options : StartOptions) (rt : Runtime) :
  FS.existsSync (rt_fs rt) folder = true ->
  startWatcher folder options rt
  = (Ok (List.length (rt_watches rt)),
     {| rt_fs := rt_fs rt;
        rt_console := rt_console rt ++ [WatchingForTranscripts folder];
        rt_watches := rt_watches rt ++ [{| watch_folder := folder;
                                           watch_options := optionsOf options |}];
        rt_closed := rt_closed rt;
        currentWatcher := Some (List.length (rt_watches rt)) |}).
Proof.
  intros H. unfold startWatcher. rewrite (ensureFolder_existing _ _ H), H. reflexivity.
Qed.

(** X23. The two routes that change a folder answer 400 and change nothing
    when the folder is missing from the request or does not exist; when it
    exists they answer with success (never 500); and in no case do they
    change the file system. *)
Theorem config_routes_validate_and_never_fail (body : option string) (s : Server) :
  (truthy body = false ->
   putWatchFolder body s = (BadRequest "watchFolder is required", s)
   /\ putEmailFolder body s = (BadRequest "emailFolder is required", s))
  /\ (truthy body = true -> FS.existsSync (rt_fs (runtime s)) (default "" body) = false ->
      putWatchFolder body s = (BadRequest "Folder does not exist", s)
      /\ putEmailFolder body s = (BadRequest "Folder does not exist", s))
  /\ (truthy body = true -> FS.existsSync (rt_fs (runtime s)) (default "" body) = true ->
      fst (putWatchFolder body s) = WatchFolderSet (default "" body)
      /\ fst (putEmailFolder body s) = EmailFolderSet (default "" body))
  /\ rt_fs (runtime (snd (putWatchFolder body s))) = rt_fs (runtime s)
  /\ rt_fs (runtime (snd (putEmailFolder body s))) = rt_fs (runtime s).
Proof.
  unfold putWatchFolder, putEmailFolder, restartWatcher. cbv zeta.
  destruct (truthy body); cbn [negb].
  2:{ repeat split; try discriminate; reflexivity. }
  destruct (FS.existsSync (rt_fs (runtime s)) (default "" body)) eqn:E; cbn [negb].
  2:{ repeat split; try discriminate; reflexivity. }
  split; [discriminate|]. split; [discriminate|].
  destruct (emailWatcher s) as [ew|], (currentWatcher (runtime s)) as [cw|] eqn:Ec;
    cbn [currentWatcher];
    rewrite ?Ec, !startWatcher_existing by exact E;
    cbn [fst snd runtime withRuntime rt_fs closeWatcher]; auto.
Qed.

Lemma config_routes_validate_and_never_fail_witness :
  let s := {| runtime := freshRuntime sampleFs; WATCH_FOLDER := "/w"; EMAIL_FOLDER := "";
              env_EMAIL_FOLDER := None; watcher := 0; emailWatcher := None |} in
  truthy (Some "/nowhere") = true
  /\ FS.existsSync (rt_fs (runtime s)) (default "" (Some "/nowhere")) = false
  /\ putWatchFolder (Some "/nowhere") s = (BadRequest "Folder does not exist", s).
Proof.
  intros s.
  assert (H : FS.existsSync (rt_fs (runtime s)) (default "" (Some "/nowhere")) = false)
    by (vm_compute; reflexivity).
  split; [reflexivity|]. split; [exact H|].
  apply (config_routes_validate_and_never_fail (Some "/nowhere") s);
    [reflexivity | exact H].
Defined.

Lemma boot_with_email (envWatch envEmail : option string) (files : FS.t) (s : Server)
    (e : nat) :
  boot envWatch envEmail (freshRuntime files) = Ok s ->
  emailWatcher s = Some e ->
  e = 1 /\ watcher s = 0
  /\ WATCH_FOLDER s = orElse envWatch "./transcripts"
  /\ EMAIL_FOLDER s = orElse envEmail ""
  /\ rt_watches (runtime s)
     = [ {| watch_folder := WATCH_FOLDER s; watch_options := optionsOf serverOptions |};
         {| watch_folder := EMAIL_FOLDER s; watch_options := optionsOf serverOptions |} ]
  /\ rt_closed (runtime s) = []
  /\ currentWatcher (runtime s) = Some 1.
Proof.
  unfold boot. cbv zeta.
  destruct (ensureFolder _ _) as [files1|e1] eqn:E1; [|discriminate].
  apply ensureFolder_ok in E1 as [E1 _].
  rewrite startWatcher_existing by exact E1.
  destruct (_ && _); [|intros [= <-]; discriminate].
  cbn [rt_fs withFiles].
  destruct (ensureFolder files1 _) as [files2|e2] eqn:E2; [|discriminate].
  apply ensureFolder_ok in E2 as [E2 _].
  rewrite startWatcher_existing by exact E2.
  intros [= <-]. cbn. intros [= <-]. repeat split; reflexivity.
Qed.

(** X24. After the server has started with an email folder, the current
    watcher of [watcher.js] is the email watcher, the one started last.  A
    request that changes the watch folder therefore calls [close] on the
    email watcher: the watcher of the old watch folder stays open, a third
    watcher is opened on the new folder, and the [emailWatcher] variable of
    the server keeps naming the watcher that was closed. *)
Theorem watch_folder_change_closes_the_email_watcher (envWatch envEmail : option string)
    (files : FS.t) (s : Server) (e : nat) (newFolder : string) :
  boot envWatch envEmail (freshRuntime files) = Ok s ->
  emailWatcher s = Some e ->
  newFolder <> "" ->
  FS.existsSync (rt_fs (runtime s)) newFolder = true ->
  fst (putWatchFolder (Some newFolder) s) = WatchFolderSet newFolder
  /\ rt_closed (runtime (snd (putWatchFolder (Some newFolder) s))) = [e]
  /\ emailWatcher (snd (putWatchFolder (Some newFolder) s)) = Some e
  /\ watch_folder <$> rt_watches (runtime (snd (putWatchFolder (Some newFolder) s))) !! e
     = Some (EMAIL_FOLDER s)
  /\ isOpen (runtime (snd (putWatchFolder (Some newFolder) s))) (watcher s)
  /\ watch_folder
       <$> rt_watches (runtime (snd (putWatchFolder (Some newFolder) s))) !! watcher s
     = Some (WATCH_FOLDER s)
  /\ exists w,
       getWatcher (runtime (snd (putWatchFolder (Some newFolder) s))) = Some w
       /\ isOpen (runtime (snd (putWatchFolder (Some newFolder) s))) w
       /\ watch_folder
            <$> rt_watches (runtime (snd (putWatchFolder (Some newFolder) s))) !! w
          = Some newFolder.
Proof.
  intros Hboot He Hne Hex.
  destruct (boot_with_email _ _ _ _ _ Hboot He) as (-> & Hw & _ & _ & Hws & Hcl & Hcur).
  unfold putWatchFolder, restartWatcher. cbv zeta.
  assert (Ht : truthy (Some newFolder) = true)
    by (destruct newFolder; [contradiction | reflexivity]).
  rewrite Ht. change (default "" (Some newFolder)) with newFolder.
  cbn [negb]. rewrite Hex. cbn [negb currentWatcher]. rewrite Hcur.
  rewrite startWatcher_existing by exact Hex.
  cbn [fst snd runtime withRuntime rt_closed rt_watches closeWatcher emailWatcher
       getWatcher currentWatcher].
  rewrite Hws, Hcl, Hw. unfold isOpen. cbn.
  split; [reflexivity|]. split; [reflexivity|]. split; [exact He|].
  split; [reflexivity|].
  split; [split; [lia | now intros ?%list_elem_of_singleton]|].
  split; [reflexivity|].
  exists 2. split; [reflexivity|].
  split; [split; [lia | now intros ?%list_elem_of_singleton] | reflexivity].
Qed.

Lemma boot_existing (envWatch envEmail : option string) (files : FS.t) :
  FS.existsSync files (orElse envWatch "./transcripts") = true ->
  FS.existsSync files (orElse envEmail "") = true ->
  negb (Str.isEmpty (orElse envEmail ""))
  && negb (Str.eqb (Str.trim (orElse envEmail "")) "") = true ->
  exists s,
    boot envWatch envEmail (freshRuntime files) = Ok s
    /\ emailWatcher s = Some 1
    /\ rt_fs (runtime s) = files.
Proof.
  intros H1 H2 H3. unfold boot. cbv zeta. cbn [rt_fs freshRuntime].
  rewrite (ensureFolder_existing _ _ H1), startWatcher_existing by exact H1.
  rewrite H3. cbn [rt_fs withFiles freshRuntime].
  rewrite (ensureFolder_existing _ _ H2), startWatcher_existing by exact H2.
  eexists. split; [reflexivity|]. split; reflexivity.
Qed.

Lemma watch_folder_change_closes_the_email_watcher_witness :
  exists s,
    boot (Some "/w") (Some "/w/sub") (freshRuntime sampleFs) = Ok s
    /\ emailWatcher s = Some 1
    /\ FS.existsSync (rt_fs (runtime s)) "/w/sub" = true
    /\ rt_closed (runtime (snd (putWatchFolder (Some "/w/sub") s))) = [1]
    /\ isOpen (runtime (snd (putWatchFolder (Some "/w/sub") s))) (watcher s).
Proof.
  assert (G1 : FS.existsSync sampleFs (orElse (Some "/w") "./transcripts") = true)
    by (vm_compute; reflexivity).
  assert (G2 : FS.existsSync sampleFs (orElse (Some "/w/sub") "") = true)
    by (vm_compute; reflexivity).
  assert (G3 : negb (Str.isEmpty (orElse (Some "/w/sub") ""))
               && negb (Str.eqb (Str.trim (orElse (Some "/w/sub") "")) "") = true)
    by (vm_compute; reflexivity).
  destruct (boot_existing (Some "/w") (Some "/w/sub") sampleFs G1 G2 G3)
    as (s & Hb & He & Hf).
  assert (Hex : FS.existsSync (rt_fs (runtime s)) "/w/sub" = true)
    by (rewrite Hf; vm_compute; reflexivity).
  exists s. split; [exact Hb|]. split; [exact He|]. split; [exact Hex|].
  destruct (watch_folder_change_closes_the_email_watcher (Some "/w") (Some "/w/sub")
              sampleFs s 1 "/w/sub" Hb He) as (_ & H2 & _ & _ & H5 & _);
    [discriminate | exact Hex |].
  split; [exact H2 | exact H5].
Defined.

Lemma serve_keeps_WATCH_FOLDER (s : Server) (r : ConfigRequest) :
  WATCH_FOLDER (serve s r) = WATCH_FOLDER s.
Proof.
  destruct r as [body|body]; cbn [serve]; unfold putWatchFolder, putEmailFolder;
    cbv zeta; destruct (negb (truthy body)); try reflexivity;
    destruct (negb (FS.existsSync _ _)); try reflexivity.
  - now destruct (restartWatcher _ _ _) as [[w|e] rt].
  - now destruct (startWatcher _ _ _) as [[w|e] rt].
Qed.

(** X25. The route that reads the watch folder always answers with the
    folder the server started with, whatever requests have changed since:
    after a change of the watch folder that succeeded, the current watcher
    watches the new folder and the route still reports the old one.  The
    route that reads the email folder does report the new email folder. *)
Theorem watch_folder_route_reports_the_boot_folder (requests : list ConfigRequest)
    (s : Server) (newFolder : string) :
  getWatchFolder (fold_left serve requests s) = getWatchFolder s
  /\ (forall s',
        putWatchFolder (Some newFolder) s = (WatchFolderSet newFolder, s') ->
        getWatchFolder s' = WatchFolderIs (WATCH_FOLDER s)
        /\ exists w,
             getWatcher (runtime s') = Some w
             /\ watch_folder <$> rt_watches (runtime s') !! w = Some newFolder)
  /\ (forall s',
        putEmailFolder (Some newFolder) s = (EmailFolderSet newFolder, s') ->
        getEmailFolder s' = EmailFolderIs newFolder).
Proof.
  split; [|split].
  - unfold getWatchFolder. f_equal. revert s.
    induction requests as [|r requests IH]; intros s; [reflexivity|].
    cbn [fold_left]. now rewrite IH, serve_keeps_WATCH_FOLDER.
  - intros s'. unfold putWatchFolder, restartWatcher. cbv zeta.
    destruct (negb (truthy (Some newFolder))); [discriminate|].
    change (default "" (Some newFolder)) with newFolder.
    destruct (FS.existsSync (rt_fs (runtime s)) newFolder) eqn:E; cbn [negb];
      [|discriminate].
    rewrite startWatcher_existing
      by (destruct (currentWatcher _); exact E).
    intros [= <-]. split; [reflexivity|]. eexists. split; [reflexivity|].
    cbn [runtime withRuntime rt_watches].
    rewrite lookup_app_r by (destruct (currentWatcher _); reflexivity).
    destruct (currentWatcher _); cbn [rt_watches closeWatcher];
      now rewrite Nat.sub_diag.
  - intros s'. unfold putEmailFolder. cbv zeta.
    destruct (truthy (Some newFolder)) eqn:Et; cbn [negb]; [|discriminate].
    change (default "" (Some newFolder)) with newFolder.
    destruct (FS.existsSync (rt_fs (runtime s)) newFolder) eqn:E; cbn [negb];
      [|discriminate].
    rewrite startWatcher_existing by (destruct (emailWatcher s); exact E).
    intros [= <-]. unfold getEmailFolder. cbn [env_EMAIL_FOLDER orElse].
    destruct newFolder; [discriminate | reflexivity].
Qed.

Lemma watch_folder_route_reports_the_boot_folder_witness :
  let s := {| runtime := freshRuntime sampleFs; WATCH_FOLDER := "/w"; EMAIL_FOLDER := "";
              env_EMAIL_FOLDER := None; watcher := 0; emailWatcher := None |} in
  fst (putWatchFolder (Some "/w/sub") s) = WatchFolderSet "/w/sub"
  /\ getWatchFolder (snd (putWatchFolder (Some "/w/sub") s)) = WatchFolderIs "/w".
Proof.
  intros s.
  assert (H : fst (putWatchFolder (Some "/w/sub") s) = WatchFolderSet "/w/sub")
    by (vm_compute; reflexivity).
  split; [exact H|].
  destruct (watch_folder_route_reports_the_boot_folder [] s "/w/sub") as (_ & H2 & _).
  apply H2. rewrite <- H. now destruct (putWatchFolder (Some "/w/sub") s).
Defined.

(** *** The watchers the server starts *)

Lemma keepsQueue_refl (w : World) :
  (fun w w' : World => queued w' = queued w /\ errors w' = errors w) w w.
Proof. split; reflexivity. Qed.

Lemma keepsQueue_trans (a b c : World) :
  (fun w w' : World => queued w' = queued w /\ errors w' = errors w) a b ->
  (fun w w' : World => queued w' = queued w /\ errors w' = errors w) b c ->
  (fun w w' : World => queued w' = queued w /\ errors w' = errors w) a c.
Proof. cbv beta. intros [] []. split; congruence. Qed.

Lemma keepsQueue_total {A} (m : M A) :
  (forall w, queued (exec m w) = queued w /\ errors (exec m w) = errors w) ->
  respects (fun w w' => queued w' = queued w /\ errors w' = errors w) m.
Proof. intros H w. apply H. Qed.

Lemma keepsQueue_saveAttachmentsM (fuel : nat) (atts : list Attachment) (dir : string) :
  respects (fun w w' => queued w' = queued w /\ errors w' = errors w)
           (saveAttachmentsM fuel atts dir).
Proof.
  intros w. unfold exec, saveAttachmentsM.
  now destruct (saveAttachments fuel atts dir (fs w)).
Qed.

Lemma quiet_onAdd (env : Env) (opts : Options) (fuel : nat) (filepath : string) :
  processImmediately opts = false -> onError opts = false ->
  respects (fun w w' => queued w' = queued w /\ errors w' = errors w)
           (onAdd env opts fuel filepath).
Proof.
  intros Hp He.
  unfold onAdd, processEmail, processPdfDocx, processText, processAttachment, parseEmail.
  rewrite Hp, He. cbn [when].
  resp keepsQueue_refl keepsQueue_trans
       ltac:(first [ apply keepsQueue_saveAttachmentsM
                   | apply keepsQueue_total; intros ?; split; reflexivity ]).
Qed.

Lemma startWatcher_options (folder : string) (rt : Runtime) :
  Forall (fun watch => watch_options watch = optionsOf serverOptions) (rt_watches rt) ->
  Forall (fun watch => watch_options watch = optionsOf serverOptions)
         (rt_watches (snd (startWatcher folder serverOptions rt))).
Proof.
  intros H. unfold startWatcher. destruct (ensureFolder _ _); cbn [snd rt_watches];
    [|exact H].
  apply Forall_app. split; [exact H | repeat constructor].
Qed.

Lemma serve_options (s : Server) (r : ConfigRequest) :
  Forall (fun watch => watch_options watch = optionsOf serverOptions)
         (rt_watches (runtime s)) ->
  Forall (fun watch => watch_options watch = optionsOf serverOptions)
         (rt_watches (runtime (serve s r))).
Proof.
  intros H. destruct r as [body|body]; cbn [serve];
    unfold putWatchFolder, putEmailFolder, restartWatcher; cbv zeta;
    destruct (negb (truthy body)); try exact H;
    destruct (negb (FS.existsSync _ _)); try exact H.
  - match goal with
    | |- context [startWatcher ?f ?o ?rt] =>
        pose proof (startWatcher_options f rt) as Hs;
        destruct (startWatcher f o rt) as [[w|e] rt'] eqn:E
    end; cbn [snd runtime withRuntime] in *; apply Hs;
      now destruct (currentWatcher _).
  - match goal with
    | |- context [startWatcher ?f ?o ?rt] =>
        pose proof (startWatcher_options f rt) as Hs;
        destruct (startWatcher f o rt) as [[w|e] rt'] eqn:E
    end; cbn [snd runtime withRuntime] in *; apply Hs;
      now destruct (emailWatcher s).
Qed.

Lemma boot_options (envWatch envEmail : option string) (files : FS.t) (s : Server) :
  boot envWatch envEmail (freshRuntime files) = Ok s ->
  Forall (fun watch => watch_options watch = optionsOf serverOptions)
         (rt_watches (runtime s)).
Proof.
  unfold boot. cbv zeta.
  destruct (ensureFolder _ _) as [files1|e1]; [|discriminate].
  match goal with
  | |- context [startWatcher ?f ?o ?rt] =>
      pose proof (startWatcher_options f rt (Forall_nil_2 _)) as Hs;
      destruct (startWatcher f o rt) as [[w|e] rt1] eqn:E
  end; [|discriminate]. cbn [snd] in Hs.
  destruct (_ && _); [|now intros [= <-]].
  destruct (ensureFolder _ _) as [files2|e2]; [|discriminate].
  match goal with
  | |- context [startWatcher ?f ?o ?rt] =>
      pose proof (startWatcher_options f rt Hs) as Hs2;
      destruct (startWatcher f o rt) as [[w2|e] rt2] eqn:E2
  end; [|discriminate]. cbn [snd] in Hs2.
  now intros [= <-].
Qed.

(** X26. Every watcher the server makes, at start or on a request, has
    [processImmediately] false and no [onError] callback: whatever event its
    handler receives, nothing is handed to [processTranscript] and no error
    callback is called. *)
Theorem server_watchers_only_record (envWatch envEmail : option string) (files : FS.t)
    (s : Server) (requests : list ConfigRequest) (watch : Watch)
    (env : Env) (fuel : nat) (filepath : string) (w : World) :
  boot envWatch envEmail (freshRuntime files) = Ok s ->
  watch ∈ rt_watches (runtime (fold_left serve requests s)) ->
  queued (exec (onAdd env (watch_options watch) fuel filepath) w) = queued w
  /\ errors (exec (onAdd env (watch_options watch) fuel filepath) w) = errors w.
Proof.
  intros Hboot Hin.
  assert (Hall : Forall (fun watch => watch_options watch = optionsOf serverOptions)
                        (rt_watches (runtime (fold_left serve requests s)))).
  { apply boot_options in Hboot. clear Hin. revert s Hboot.
    induction requests as [|r requests IH]; intros s H; [exact H|].
    cbn [fold_left]. apply IH. now apply serve_options. }
  rewrite Forall_forall in Hall. rewrite (Hall watch Hin).
  now apply quiet_onAdd.
Qed.

Lemma server_watchers_only_record_witness :
  exists s,
    boot (Some "/w") (Some "/w/sub") (freshRuntime sampleFs) = Ok s
    /\ Forall (fun watch =>
                 queued (exec (onAdd (sampleEnv q3Mail) (watch_options watch) 12 "/w/q3.eml")
                              (emptyWorld mailFs)) = [])
              (rt_watches (runtime (fold_left serve [PutWatchFolder (Some "/w/sub")] s))).
Proof.
  assert (G1 : FS.existsSync sampleFs (orElse (Some "/w") "./transcripts") = true)
    by (vm_compute; reflexivity).
  assert (G2 : FS.existsSync sampleFs (orElse (Some "/w/sub") "") = true)
    by (vm_compute; reflexivity).
  assert (G3 : negb (Str.isEmpty (orElse (Some "/w/sub") ""))
               && negb (Str.eqb (Str.trim (orElse (Some "/w/sub") "")) "") = true)
    by (vm_compute; reflexivity).
  destruct (boot_existing (Some "/w") (Some "/w/sub") sampleFs G1 G2 G3) as (s & Hb & _).
  exists s. split; [exact Hb|]. apply Forall_forall. intros watch Hin.
  exact (proj1 (server_watchers_only_record (Some "/w") (Some "/w/sub") sampleFs s
                  [PutWatchFolder (Some "/w/sub")] watch (sampleEnv q3Mail) 12 "/w/q3.eml"
                  (emptyWorld mailFs) Hb Hin)).
Defined.

(* ===================================================================== *)
(** ** The properties of the specification on idempotence and provenance *)
(* ===================================================================== *)

(** *** One record for one filepath *)

Lemma transcriptExists_last (s : Store) (t : Transcript) (rest : list Transcript) :
  transcriptExists (s ++ t :: rest) (t_filepath t) = true.
Proof.
  rewrite transcriptExists_app. unfold transcriptExists at 2. cbn [existsb].
  now rewrite eqb_refl, orb_true_r.
Qed.

(** An event for a file that can be recorded, and has no record yet, gives
    it one. *)
Lemma onAdd_records_path (env : Env) (opts : Options) (fuel : nat) (filepath : string)
    (w : World) :
  Str.includes (extOf filepath) SUPPORTED_EXTENSIONS = true ->
  shouldIgnore filepath = false ->
  transcriptExists (db w) filepath = false ->
  recordable env filepath (fs w) = true ->
  transcriptExists (db (exec (onAdd env opts fuel filepath) w)) filepath = true.
Proof.
  intros Hs Hi He Hrec. unfold recordable in Hrec.
  destruct (Str.eqb (extOf filepath) ".eml") eqn:Eeml.
  - apply eqb_true in Eeml.
    destruct (FS.readFileSync (fs w) filepath) as [raw|e] eqn:Er; [|discriminate].
    destruct (simpleParser env raw) as [parsed|e] eqn:Ep; [|discriminate].
    rewrite (onAdd_email_exact env opts fuel filepath raw parsed w Eeml Hi He Er Ep).
    apply (transcriptExists_last (db w) (emailRecord env _ filepath _)).
  - unfold exec. rewrite onAdd_branch by assumption. unfold branchOf. rewrite Eeml.
    set (w1 := logged w (NewTranscriptDetected filepath)).
    change (fs w) with (fs w1) in Hrec.
    destruct (_ || _).
    + destruct (processPdfDocx_effect env opts (extOf filepath) filepath w1) as [_ H].
      unfold exec in H.
      destruct (extractFor env (extOf filepath) (fs w1) filepath) as [text|e];
        [|discriminate].
      destruct (isBlank text); [discriminate|]. rewrite H.
      apply (transcriptExists_last (db w1) (pdfDocxRecord env _ filepath text) []).
    + destruct (processText_effect env opts filepath w1) as [_ H]. unfold exec in H.
      destruct (parseTranscript env (fs w1) filepath) as [parsed|e]; [|discriminate].
      rewrite H. apply (transcriptExists_last (db w1) (textRecord env filepath parsed) []).
Qed.

Lemma count_one (filepath : string) (s s' : Store) :
  grows s s' -> countPath filepath s = 0 -> transcriptExists s' filepath = true ->
  countPath filepath s' = 1.
Proof.
  intros Hg H0 He.
  assert (countPath filepath s' <= 1) by (eapply grows_count; [exact Hg | lia]).
  destruct (countPath filepath s') as [|n] eqn:E; [|lia].
  apply transcriptExists_count in E. congruence.
Qed.

(** C1. When a record exists for the filepath, the handler only writes a
    console line and [importFolder] does nothing for the entry.  Two events
    for one path leave at most one record for it, and the handler keeps
    filepaths unique in the store.  When the file can be recorded (it has a
    supported extension, is not ignored, and the first step of its branch
    succeeds) and has no record yet, the first event creates exactly one
    record for it, and the second event finds that record and only writes
    the line that the file is already processed: after both events there is
    exactly one record.  A second scan of a folder creates nothing, and an
    entry that a scan can import has exactly one record after one scan and
    after two. *)
Theorem C1_existing_record_is_skipped (env : Env) (opts : Options) (fuel : nat)
    (filepath : string) (w : World) :
  (transcriptExists (db w) filepath = true ->
     (exists e, onAdd env opts fuel filepath w = (Return tt, logged w e))
     /\ forall folderPath file, Path.join folderPath file = filepath ->
          importFile env folderPath file w = (Return [], w))
  /\ (countPath filepath (db w) = 0 ->
      countPath filepath
        (db (exec (onAdd env opts fuel filepath) (exec (onAdd env opts fuel filepath) w)))
      <= 1
      /\ (countPath filepath (db (exec (onAdd env opts fuel filepath) w)) = 1 ->
          exists e, exec (onAdd env opts fuel filepath)
                         (exec (onAdd env opts fuel filepath) w)
                    = logged (exec (onAdd env opts fuel filepath) w) e))
  /\ (NoDup (map t_filepath (db w)) ->
      NoDup (map t_filepath (db (exec (onAdd env opts fuel filepath) w))))
  /\ (forall folderPath,
        db (exec (importFolder env folderPath) (exec (importFolder env folderPath) w))
        = db (exec (importFolder env folderPath) w)
        /\ (NoDup (map t_filepath (db w)) ->
            NoDup (map t_filepath (db (exec (importFolder env folderPath) w)))))
  /\ (Str.includes (extOf filepath) SUPPORTED_EXTENSIONS = true ->
      shouldIgnore filepath = false ->
      recordable env filepath (fs w) = true ->
      countPath filepath (db w) = 0 ->
      countPath filepath (db (exec (onAdd env opts fuel filepath) w)) = 1
      /\ onAdd env opts fuel filepath (exec (onAdd env opts fuel filepath) w)
         = (Return tt,
            logged (exec (onAdd env opts fuel filepath) w) (AlreadyProcessed filepath))
      /\ countPath filepath
           (db (exec (onAdd env opts fuel filepath)
                     (exec (onAdd env opts fuel filepath) w))) = 1)
  /\ (forall folderPath files file parsed,
        FS.readdirSync (fs w) folderPath = Ok files ->
        file ∈ files ->
        Path.join folderPath file = filepath ->
        wouldImport folderPath file = true ->
        parseTranscript env (fs w) filepath = Ok parsed ->
        countPath filepath (db w) = 0 ->
        countPath filepath (db (exec (importFolder env folderPath) w)) = 1
        /\ countPath filepath
             (db (exec (importFolder env folderPath)
                       (exec (importFolder env folderPath) w))) = 1).
Proof.
  split; [|split; [|split; [|split; [|split]]]].
  - intros Hex. split.
    + destruct (onAdd_gate env opts fuel filepath w Hex) as (e & He & _). eauto.
    + intros folderPath file <-. unfold importFile.
      destruct (negb _); [reflexivity|]. destruct (shouldIgnore _); [reflexivity|].
      munfold. now rewrite Hex.
  - intros H0.
    pose proof (onAdd_grows env opts fuel filepath w) as Hg1.
    pose proof (onAdd_grows env opts fuel filepath
                  (exec (onAdd env opts fuel filepath) w)) as Hg2.
    split.
    + eapply grows_count; [exact Hg2|]. eapply grows_count; [exact Hg1 | lia].
    + intros H1.
      assert (Hex : transcriptExists (db (exec (onAdd env opts fuel filepath) w)) filepath
                    = true).
      { destruct (transcriptExists _ filepath) eqn:E; [reflexivity|].
        apply transcriptExists_count in E. lia. }
      destruct (onAdd_gate env opts fuel filepath _ Hex) as (e & He & _).
      exists e. unfold exec at 1. now rewrite He.
  - apply grows_NoDup, onAdd_grows.
  - intros folderPath.
    destruct (importFolder_twice env folderPath w) as (_ & Hg & Hsame).
    split; [exact Hsame | now apply grows_NoDup].
  - intros Hs Hi Hrec H0.
    assert (He : transcriptExists (db w) filepath = false)
      by (now apply transcriptExists_count).
    pose proof (onAdd_records_path env opts fuel filepath w Hs Hi He Hrec) as Hex.
    pose proof (count_one filepath _ _ (onAdd_grows env opts fuel filepath w) H0 Hex)
      as H1.
    assert (H2 : onAdd env opts fuel filepath (exec (onAdd env opts fuel filepath) w)
                 = (Return tt,
                    logged (exec (onAdd env opts fuel filepath) w)
                           (AlreadyProcessed filepath))).
    { unfold onAdd at 1. fold (extOf filepath). rewrite Hs, Hi. cbn [negb].
      unfold bind at 1, existsM. now rewrite Hex. }
    split; [exact H1|]. split; [exact H2|].
    unfold exec at 1. rewrite H2. exact H1.
  - intros folderPath files file parsed Hdir Hin <- Hwi Hp H0.
    destruct (importFolder_twice env folderPath w) as (_ & Hg & Hsame).
    cbv zeta in *. rewrite Hsame.
    assert (H1 : countPath (Path.join folderPath file)
                   (db (exec (importFolder env folderPath) w)) = 1); [|auto].
    apply (count_one _ _ _ Hg H0).
    assert (Hdb : db (exec (importFolder env folderPath) w)
                  = db (exec (importFiles env folderPath files) w)).
    { unfold importFolder, exec, bind at 1, readFs. now rewrite Hdir. }
    rewrite Hdb.
    destruct (importFiles_effect env folderPath files w) as (_ & _ & Hall).
    rewrite Forall_forall in Hall. destruct (Hall file Hin) as [H|[H|[e H]]];
      [congruence | exact H | congruence].
Qed.

Lemma C1_witness :
  Str.includes (extOf "/w/2024-03-05 kickoff.txt") SUPPORTED_EXTENSIONS = true
  /\ shouldIgnore "/w/2024-03-05 kickoff.txt" = false
  /\ recordable datedEnv "/w/2024-03-05 kickoff.txt" (fs (emptyWorld mailFs)) = true
  /\ countPath "/w/2024-03-05 kickoff.txt" (db (emptyWorld mailFs)) = 0
  /\ countPath "/w/2024-03-05 kickoff.txt"
       (db (exec (onAdd datedEnv allOptions 8 "/w/2024-03-05 kickoff.txt")
                 (emptyWorld mailFs))) = 1
  /\ countPath "/w/2024-03-05 kickoff.txt"
       (db (exec (onAdd datedEnv allOptions 8 "/w/2024-03-05 kickoff.txt")
                 (exec (onAdd datedEnv allOptions 8 "/w/2024-03-05 kickoff.txt")
                       (emptyWorld mailFs)))) = 1
  /\ FS.readdirSync (fs (emptyWorld mailFs)) "/w"
     = Ok ["blank.txt"; "2024-03-05 kickoff.txt"; "q3.eml"; "blank.pdf"]
  /\ wouldImport "/w" "2024-03-05 kickoff.txt" = true
  /\ countPath "/w/2024-03-05 kickoff.txt"
       (db (exec (importFolder datedEnv "/w")
                 (exec (importFolder datedEnv "/w") (emptyWorld mailFs)))) = 1.
Proof.
  assert (H1 : Str.includes (extOf "/w/2024-03-05 kickoff.txt") SUPPORTED_EXTENSIONS
               = true) by (vm_compute; reflexivity).
  assert (H2 : shouldIgnore "/w/2024-03-05 kickoff.txt" = false)
    by (vm_compute; reflexivity).
  assert (H3 : recordable datedEnv "/w/2024-03-05 kickoff.txt" (fs (emptyWorld mailFs))
               = true) by (vm_compute; reflexivity).
  assert (H4 : countPath "/w/2024-03-05 kickoff.txt" (db (emptyWorld mailFs)) = 0)
    by reflexivity.
  split; [exact H1|]. split; [exact H2|]. split; [exact H3|]. split; [exact H4|].
  assert (H5 : FS.readdirSync (fs (emptyWorld mailFs)) "/w"
               = Ok ["blank.txt"; "2024-03-05 kickoff.txt"; "q3.eml"; "blank.pdf"])
    by (vm_compute; reflexivity).
  assert (H6 : wouldImport "/w" "2024-03-05 kickoff.txt" = true)
    by (vm_compute; reflexivity).
  destruct (C1_existing_record_is_skipped datedEnv allOptions 8
              "/w/2024-03-05 kickoff.txt" (emptyWorld mailFs))
    as (_ & _ & _ & _ & Hone & Hscan).
  destruct (Hone H1 H2 H3 H4) as (Ha & _ & Hb).
  split; [exact Ha|]. split; [exact Hb|]. split; [exact H5|]. split; [exact H6|].
  refine (proj2 (Hscan "/w" _ "2024-03-05 kickoff.txt"
                   {| parsed_filename := "2024-03-05 kickoff.txt";
                      parsed_rawContent := "Hello world";
                      parsed_durationMinutes := None;
                      parsed_callDate := Some "2020-01-01";
                      parsed_context := Some "Discovery call" |}
                   H5 _ _ H6 _ H4)).
  - right. left.
  - vm_compute. reflexivity.
  - vm_compute. reflexivity.
Defined.

(** *** The records of the attachments *)

Lemma attachmentHeader_eq (email : Email) (att : SavedFile) :
  attachmentHeader email att
  = headerAsStated (email_subject email) (email_from email)
      (match email_date email with Some d => d | None => "Unknown" end)
      (saved_filename att) (saved_contentType att).
Proof.
  unfold attachmentHeader, headerAsStated. cbn [Str.join].
  rewrite !app_assoc_s, ?app_empty_r. reflexivity.
Qed.

(** Every staged file that passes the tests of the loop gets its record. *)
Lemma attachmentRecords_complete (env : Env) (email : Email) (files : FS.t)
    (l : list SavedFile) :
  forall (store : Store) (att : SavedFile) (text : string),
  NoDup (map saved_filepath l) ->
  att ∈ l ->
  Str.includes (Str.toLowerCase (Path.extname (saved_filename att)))
               ATTACHMENT_EXTENSIONS = true ->
  transcriptExists store (saved_filepath att) = false ->
  attachmentTextOf env att files = Ok text ->
  isBlank text = false ->
  exists id, attachmentRecord env id email att text
             ∈ attachmentRecords env email files store l.
Proof.
  induction l as [|a rest IH]; intros store att text Hnd Hin Hs He Ht Hb;
    [inversion Hin|].
  cbn [map] in Hnd. apply NoDup_cons in Hnd as [Hfresh Hnd].
  cbn [attachmentRecords].
  apply elem_of_cons in Hin as [->|Hin].
  - unfold attachmentRecordOf. rewrite Hs, He, Ht, Hb. cbn [negb].
    eexists. constructor.
  - destruct (attachmentRecordOf env email files store a) as [r|] eqn:E.
    + apply attachmentRecordOf_Some in E as (_ & _ & text' & _ & _ & ->).
      destruct (IH (store ++ [attachmentRecord env (List.length store) email a text'])
                  att text Hnd Hin Hs) as [id Hid]; [|exact Ht|exact Hb|].
      * rewrite transcriptExists_app, He. unfold transcriptExists. cbn [existsb t_filepath attachmentRecord].
        rewrite orb_false_r. apply eqb_false. intros Heq. apply Hfresh.
        rewrite Heq. apply list_elem_of_fmap. now exists att.
      * exists id. now constructor.
    + now apply IH.
Qed.

(** C5. For an email, the first record the handler creates is the one of
    the body.  Every further record is the record of one file that
    [saveAttachments] returned for one retained attachment of this email:
    it has the name [N] and the path the attachment was staged under, its
    context is [Attachment: N (from "S")] for the subject [S] of the email,
    and its raw content is the header giving the email's subject, sender
    and date and [N] with the declared content type, followed by the text
    extracted from the staged file.  Conversely every returned file with an
    extension of the attachment list, no record yet, and a text that can be
    extracted and is not blank, has its record among them. *)
Theorem C5_attachment_provenance (env : Env) (opts : Options) (fuel : nat)
    (filepath : string) (w : World) (created : list Transcript) :
  extOf filepath = ".eml" ->
  db (exec (onAdd env opts fuel filepath) w) = db w ++ created ->
  created = []
  \/ exists raw parsed rest,
       FS.readFileSync (fs w) filepath = Ok raw
       /\ simpleParser env raw = Ok parsed
       /\ created
          = emailRecord env (List.length (db w)) filepath (emailOf filepath parsed) :: rest
       /\ (forall t, t ∈ rest ->
           exists savedFiles saved att text,
             fst (saveAttachments fuel (email_attachments (emailOf filepath parsed))
                    (attachDirOf filepath) (fs w)) = Return savedFiles
             /\ saved ∈ savedFiles
             /\ att ∈ email_attachments (emailOf filepath parsed)
             /\ stagedAs (attachDirOf filepath)
                   (snd (saveAttachments fuel (email_attachments (emailOf filepath parsed))
                           (attachDirOf filepath) (fs w)))
                   att saved
             /\ attachmentTextOf env saved
                   (snd (saveAttachments fuel (email_attachments (emailOf filepath parsed))
                           (attachDirOf filepath) (fs w)))
                = Ok text
             /\ isBlank text = false
             /\ t_filename t = saved_filename saved
             /\ t_filepath t = saved_filepath saved
             /\ t_context t
                = Some (contextAsStated (saved_filename saved)
                          (email_subject (emailOf filepath parsed)))
             /\ t_rawContent t
                = headerAsStated (email_subject (emailOf filepath parsed))
                    (email_from (emailOf filepath parsed))
                    (match email_date (emailOf filepath parsed) with
                     | Some d => d
                     | None => "Unknown"
                     end)
                    (saved_filename saved) (att_contentType att)
                  +:+ text)
       /\ (forall savedFiles saved text,
             fst (saveAttachments fuel (email_attachments (emailOf filepath parsed))
                    (attachDirOf filepath) (fs w)) = Return savedFiles ->
             saved ∈ savedFiles ->
             Str.includes (Str.toLowerCase (Path.extname (saved_filename saved)))
                          ATTACHMENT_EXTENSIONS = true ->
             transcriptExists (db w) (saved_filepath saved) = false ->
             attachmentTextOf env saved
               (snd (saveAttachments fuel (email_attachments (emailOf filepath parsed))
                       (attachDirOf filepath) (fs w)))
             = Ok text ->
             isBlank text = false ->
             exists t, t ∈ rest
               /\ t_filename t = saved_filename saved
               /\ t_filepath t = saved_filepath saved
               /\ t_context t
                  = Some (contextAsStated (saved_filename saved)
                            (email_subject (emailOf filepath parsed)))).
Proof.
  intros Hext Hdb.
  destruct (onAdd_email_cases env opts fuel filepath w Hext)
    as [H|(raw & parsed & _ & Hex & Hr & Hp & H)]; rewrite H in Hdb.
  - left. rewrite <- (app_nil_r (db w)) in Hdb at 1. now apply app_inv_head in Hdb.
  - right. apply app_inv_head in Hdb. subst created.
    set (email := emailOf filepath parsed) in *.
    set (body := emailRecord env (List.length (db w)) filepath email) in *.
    exists raw, parsed, (stagedRecords env fuel filepath email (fs w) (db w ++ [body])).
    split; [exact Hr|]. split; [exact Hp|]. split; [reflexivity|].
    change (emailOf filepath parsed) with email. unfold stagedRecords.
    destruct (saveAttachments fuel (email_attachments email) (attachDirOf filepath) (fs w))
      as [r fs'] eqn:E.
    destruct (saveAttachments_spec _ _ _ _ _ _ E) as (_ & _ & Hspec).
    cbn [fst snd]. split.
    + intros t Hin. destruct (email_hasAttachments email); [|inversion Hin].
      destruct r as [savedFiles|e|]; [|inversion Hin..].
      destruct (Hspec _ eq_refl) as (Hst & _).
      apply list_elem_of_lookup in Hin as [i Hi].
      apply attachmentRecords_lookup in Hi
        as (saved & text & Hsaved & _ & _ & Ht & Hb & ->).
      pose proof Hsaved as Hsaved'.
      apply list_elem_of_lookup in Hsaved' as [j Hj].
      destruct (Forall2_lookup_r _ _ _ _ _ Hst Hj) as (att & Hatt & Hstaged).
      exists savedFiles, saved, att, text.
      split; [reflexivity|]. split; [exact Hsaved|].
      split; [eapply list_elem_of_lookup_2; eauto|]. split; [exact Hstaged|].
      split; [exact Ht|]. split; [exact Hb|].
      cbn [attachmentRecord t_filename t_filepath t_context t_rawContent].
      split; [reflexivity|]. split; [reflexivity|]. split; [reflexivity|].
      rewrite attachmentHeader_eq.
      destruct Hstaged as (fn & k & _ & _ & _ & _ & _ & _ & Hct & _).
      now rewrite Hct.
    + intros savedFiles saved text -> Hsaved Hs He Ht Hb.
      destruct (Hspec _ eq_refl) as (Hst & Hnd & Hfresh).
      assert (Hh : email_hasAttachments email = true).
      { cbn [email email_hasAttachments emailOf].
        apply Forall2_length in Hst. fold (email_attachments email) in *.
        destruct savedFiles; [inversion Hsaved|].
        cbn [email emailOf email_attachments] in Hst.
        destruct (retainedAttachments parsed); [discriminate | reflexivity]. }
      rewrite Hh.
      destruct (attachmentRecords_complete env email fs' savedFiles (db w ++ [body])
                  saved text Hnd Hsaved Hs) as [id Hid]; [|exact Ht|exact Hb|].
      * rewrite transcriptExists_app, He. unfold transcriptExists.
        cbn [existsb body emailRecord t_filepath]. rewrite orb_false_r.
        apply eqb_false. intros Heq.
        rewrite Forall_forall in Hfresh. specialize (Hfresh _ Hsaved).
        rewrite <- Heq in Hfresh.
        apply readFileSync_Ok in Hr.
        unfold FS.existsSync in Hfresh. now rewrite Hr in Hfresh.
      * eexists. split; [exact Hid|].
        cbn [attachmentRecord t_filename t_filepath t_context]. auto.
Qed.

Lemma C5_witness :
  let saved := {| saved_filename := "contract.pdf";
                  saved_filepath := "/w/.prism-attachments/contract.pdf";
                  saved_contentType := "application/pdf";
                  saved_size := 20 |} in
  extOf "/w/q3.eml" = ".eml"
  /\ fst (saveAttachments 12 (email_attachments (emailOf "/w/q3.eml" q3Mail))
            (attachDirOf "/w/q3.eml") (fs (emptyWorld mailFs)))
     = Return [saved]
  /\ exists body t,
       db (exec (onAdd (sampleEnv q3Mail) allOptions 12 "/w/q3.eml") (emptyWorld mailFs))
       = [body; t]
       /\ t_filename t = "contract.pdf"
       /\ t_filepath t = "/w/.prism-attachments/contract.pdf"
       /\ t_context t = Some (contextAsStated "contract.pdf" "Q3 Renewal")
       /\ t_rawContent t
          = headerAsStated "Q3 Renewal" "Ann <ann@x.org>" "2024-05-01T10:00:00.000Z"
              "contract.pdf" "application/pdf"
            +:+ "Contract terms".
Proof.
  intros saved.
  assert (H1 : extOf "/w/q3.eml" = ".eml") by (vm_compute; reflexivity).
  assert (H2 : fst (saveAttachments 12 (email_attachments (emailOf "/w/q3.eml" q3Mail))
                      (attachDirOf "/w/q3.eml") (fs (emptyWorld mailFs)))
               = Return [saved]) by (vm_compute; reflexivity).
  split; [exact H1|]. split; [exact H2|].
  destruct (C5_attachment_provenance (sampleEnv q3Mail) allOptions 12 "/w/q3.eml"
              (emptyWorld mailFs)
              (db (exec (onAdd (sampleEnv q3Mail) allOptions 12 "/w/q3.eml")
                        (emptyWorld mailFs)))
              H1 eq_refl) as [H|(raw & parsed & rest & _ & Hp & Hc & Hsound & Hcomplete)].
  - exfalso. vm_compute in H. discriminate H.
  - assert (parsed = q3Mail) by (cbn [sampleEnv simpleParser] in Hp; congruence).
    subst parsed.
    destruct (Hcomplete [saved] saved "Contract terms" H2) as (t & Hin & _);
      [constructor | vm_compute; reflexivity | reflexivity | vm_compute; reflexivity
      | vm_compute; reflexivity |].
    assert (Hlen : List.length rest = 1).
    { assert (Hl : List.length
                     (db (exec (onAdd (sampleEnv q3Mail) allOptions 12 "/w/q3.eml")
                               (emptyWorld mailFs))) = 2) by (vm_compute; reflexivity).
      rewrite Hc in Hl. cbn [List.length] in Hl. lia. }
    destruct rest as [|t' [|]]; try discriminate Hlen.
    apply list_elem_of_singleton in Hin. subst t'.
    exists (emailRecord (sampleEnv q3Mail) 0 "/w/q3.eml" (emailOf "/w/q3.eml" q3Mail)), t.
    split; [exact Hc|].
    assert (Hin : t ∈ [t]) by constructor.
    destruct (Hsound t Hin) as (savedFiles & s & att & text & Hs & Hsin & _ & Hst & Ht & _
                                & Hn & Hpath & Hctx & Hraw).
    rewrite H2 in Hs. injection Hs as <-.
    apply list_elem_of_singleton in Hsin. subst s.
    rewrite Hn, Hpath, Hctx, Hraw.
    split; [reflexivity|]. split; [reflexivity|]. split; [reflexivity|].
    destruct Hst as (fn & k & _ & _ & _ & _ & _ & _ & Hct & _). rewrite <- Hct.
    assert (Htext : attachmentTextOf (sampleEnv q3Mail) saved
                      (snd (saveAttachments 12
                              (email_attachments (emailOf "/w/q3.eml" q3Mail))
                              (attachDirOf "/w/q3.eml") (fs (emptyWorld mailFs))))
                    = Ok "Contract terms") by (vm_compute; reflexivity).
    rewrite Htext in Ht. injection Ht as <-. reflexivity.
Defined.

(* ===================================================================== *)
(** ** The property of the specification on the body of an email *)
(* ===================================================================== *)

(** *** Runs of whitespace *)

Lemma star_spaces (ci b : bool) (s : string) :
  run ci (Star Str.isSpace) b s (fun _ rest => Some rest) = Some (Str.trimStart s).
Proof.
  cbn [run]. revert b. induction s as [|a rest IH]; intros b; [reflexivity|].
  cbn [Str.trimStart]. destruct (Str.isSpace a); [|reflexivity]. now rewrite IH.
Qed.

Lemma matchHere_spaces (ci b : bool) (a : ascii) (rest : string) :
  matchHere ci (Plus Str.isSpace) b (String a rest)
  = if Str.isSpace a then Some (Str.trimStart rest) else None.
Proof.
  unfold matchHere, Plus. cbn [run]. destruct (Str.isSpace a); [|reflexivity].
  apply (star_spaces ci false rest).
Qed.

Lemma length_trimStart (s : string) : String.length (Str.trimStart s) <= String.length s.
Proof.
  induction s as [|c s IH]; cbn [Str.trimStart String.length]; [lia|].
  destruct (Str.isSpace c); cbn [String.length]; lia.
Qed.

(** Dropping the characters of a run of whitespace one by one. *)
Lemma replaceFrom_skip (ci : bool) (r : Regex.t) (rep : string) (s : string) :
  replaceFrom ci r rep (String.length s - String.length (Str.trimStart s)) false s
  = replaceFrom ci r rep 0 false (Str.trimStart s).
Proof.
  induction s as [|c s IH]; [reflexivity|].
  cbn [Str.trimStart]. destruct (Str.isSpace c).
  - pose proof (length_trimStart s).
    replace (String.length (String c s) - String.length (Str.trimStart s))
      with (S (String.length s - String.length (Str.trimStart s)))
      by (cbn [String.length]; lia).
    cbn [replaceFrom]. exact IH.
  - now rewrite Nat.sub_diag.
Qed.

Lemma collapse_space (ci b : bool) (a : ascii) (rest : string) :
  Str.isSpace a = true ->
  replaceFrom ci (Plus Str.isSpace) " " 0 b (String a rest)
  = String " " (replaceFrom ci (Plus Str.isSpace) " " 0 false (Str.trimStart rest)).
Proof.
  intros Ha. cbn [replaceFrom]. rewrite matchHere_spaces, Ha.
  pose proof (length_trimStart rest).
  replace (String.length (String a rest) - String.length (Str.trimStart rest))
    with (S (String.length rest - String.length (Str.trimStart rest)))
    by (cbn [String.length]; lia).
  now rewrite replaceFrom_skip.
Qed.

Lemma collapse_other (ci b : bool) (a : ascii) (rest : string) :
  Str.isSpace a = false ->
  replaceFrom ci (Plus Str.isSpace) " " 0 b (String a rest)
  = String a (replaceFrom ci (Plus Str.isSpace) " " 0 false rest).
Proof. intros Ha. cbn [replaceFrom]. now rewrite matchHere_spaces, Ha. Qed.

(** After [replace(/\s+/g, ' ')] whitespace only occurs as single spaces. *)
Lemma collapse_singleSpaced (ci : bool) (n : nat) :
  forall (s : string) (b : bool),
  String.length s <= n ->
  singleSpaced (replaceFrom ci (Plus Str.isSpace) " " 0 b s) = true
  /\ (headOk s -> headOk (replaceFrom ci (Plus Str.isSpace) " " 0 b s)).
Proof.
  induction n as [|n IH]; intros s b Hn.
  - destruct s; [|cbn in Hn; lia]. now cbn.
  - destruct s as [|a rest]; [now cbn|]. cbn [String.length] in Hn.
    destruct (Str.isSpace a) eqn:Ha.
    + rewrite collapse_space by assumption.
      pose proof (length_trimStart rest).
      destruct (IH (Str.trimStart rest) false) as [H1 H2]; [lia|].
      specialize (H2 (trimStart_headOk rest)).
      split; [|cbn [headOk]; congruence].
      cbn [singleSpaced]. rewrite H1.
      change (Str.isSpace " ") with true. cbv iota.
      change (Str.eqc " " " ") with true.
      destruct (replaceFrom ci (Plus Str.isSpace) " " 0 false (Str.trimStart rest));
        [reflexivity|].
      cbn [headOk] in H2. now rewrite H2.
    + rewrite collapse_other by assumption.
      destruct (IH rest false) as [H1 _]; [lia|].
      split; [|intros _; exact Ha]. cbn [singleSpaced]. now rewrite Ha, H1.
Qed.

Lemma singleSpaced_suffix (a b : string) :
  singleSpaced (a +:+ b) = true -> singleSpaced b = true.
Proof.
  induction a as [|c a IH]; sapp; [auto|]. cbn [singleSpaced].
  intros [_ H]%andb_true_iff. auto.
Qed.

Lemma singleSpaced_prefix (a b : string) :
  singleSpaced (a +:+ b) = true -> singleSpaced a = true.
Proof.
  induction a as [|c a IH]; sapp; [reflexivity|]. cbn [singleSpaced].
  intros [H1 H2]%andb_true_iff. rewrite (IH H2), andb_true_r.
  destruct (Str.isSpace c); [|reflexivity].
  apply andb_true_iff in H1 as [-> H1]. destruct a; [reflexivity | exact H1].
Qed.

Lemma singleSpaced_trim (s : string) :
  singleSpaced s = true -> singleSpaced (Str.trim s) = true.
Proof.
  intros H. unfold Str.trim.
  destruct (trimStart_split s) as [sp Hs].
  destruct (trimEnd_split (Str.trimStart s)) as [sp' Hs'].
  apply (singleSpaced_prefix _ sp'). rewrite <- Hs'.
  apply (singleSpaced_suffix sp). now rewrite <- Hs.
Qed.

(** Text that is single-spaced already is left as it is. *)
Lemma collapse_id (ci : bool) (s : string) :
  singleSpaced s = true ->
  forall b, replaceFrom ci (Plus Str.isSpace) " " 0 b s = s.
Proof.
  induction s as [|a rest IH]; intros Hs b; [reflexivity|].
  cbn [singleSpaced] in Hs. apply andb_true_iff in Hs as [Ha Hrest].
  destruct (Str.isSpace a) eqn:Esp.
  - apply andb_true_iff in Ha as [Ha Hnext]. apply eqc_true in Ha. subst a.
    rewrite collapse_space by assumption.
    rewrite trimStart_id by (destruct rest; [exact I | now apply negb_true_iff]).
    now rewrite IH.
  - rewrite collapse_other by assumption. now rewrite IH.
Qed.

(** An expression that starts with a literal character matches nowhere in
    a text without that character. *)
Lemma replaceFrom_absent (ci : bool) (c : ascii) (r : Regex.t) (rep s : string) :
  Str.all (fun a => negb (sameChar ci a c)) s = true ->
  forall b, replaceFrom ci (Seq (Chr c) r) rep 0 b s = s.
Proof.
  induction s as [|a rest IH]; intros Hs b; [reflexivity|].
  cbn [Str.all] in Hs. apply andb_true_iff in Hs as [Ha Hrest].
  cbn [replaceFrom]. unfold matchHere. cbn [run].
  apply negb_true_iff in Ha. rewrite Ha. now rewrite IH.
Qed.

Lemma lowerChar_markup (a c : ascii) :
  c = "<"%char \/ c = "&"%char ->
  Str.eqc a c = false -> Str.eqc (Str.lowerChar a) (Str.lowerChar c) = false.
Proof.
  intros Hc Ha. apply bool_decide_eq_false_2. apply bool_decide_eq_false_1 in Ha.
  intros Heq. apply Ha. clear Ha.
  destruct Hc as [-> | ->];
    destruct a as [[] [] [] [] [] [] [] []]; vm_compute in Heq;
    first [reflexivity | discriminate Heq].
Qed.

Lemma markupFree_absent (ci : bool) (c : ascii) (s : string) :
  c = "<"%char \/ c = "&"%char ->
  markupFree s = true -> Str.all (fun a => negb (sameChar ci a c)) s = true.
Proof.
  intros Hc. apply all_impl. intros a [H1 H2]%andb_true_iff.
  apply negb_true_iff in H1, H2. apply negb_true_iff.
  assert (Ha : Str.eqc a c = false) by (destruct Hc as [-> | ->]; assumption).
  unfold sameChar. destruct ci; [now apply lowerChar_markup | exact Ha].
Qed.

(** The chain of [replace] calls leaves text without markup as it is, up
    to its whitespace. *)
Lemma stripHtml_markupFree (html : string) :
  markupFree html = true ->
  stripHtml html = Str.trim (replaceAll false (Plus Str.isSpace) " " html).
Proof.
  intros H. unfold stripHtml. cbv zeta. unfold replaceAll. cbn [Lit].
  repeat match goal with
         | |- context [replaceFrom ?ci (Seq (Chr ?c) ?r) ?rep 0 true html] =>
             rewrite (replaceFrom_absent ci c r rep html)
               by (apply markupFree_absent;
                   [first [left; reflexivity | right; reflexivity] | exact H])
         end.
  reflexivity.
Qed.

(** What comes out of the chain of [replace] calls is trimmed, and its
    words are separated by single spaces. *)
Lemma stripHtml_normal (html : string) :
  Str.trim (stripHtml html) = stripHtml html /\ singleSpaced (stripHtml html) = true.
Proof.
  unfold stripHtml. cbv zeta. split; [apply trim_idem|].
  apply singleSpaced_trim. unfold replaceAll at 1.
  eapply collapse_singleSpaced. reflexivity.
Qed.

Lemma trim_headOk (s : string) : headOk (Str.trim s).
Proof.
  unfold Str.trim. destruct (trimEnd_split (Str.trimStart s)) as [sp H].
  apply (headOk_prefix _ sp). rewrite <- H. apply trimStart_headOk.
Qed.

Lemma bodyText_trimmed (parsed : ParsedMail) :
  Str.trim (bodyTextOf parsed) = bodyTextOf parsed.
Proof.
  unfold bodyTextOf. destruct (truthy (pm_text parsed)); [apply trim_idem|].
  destruct (truthy (pm_html parsed)); [apply stripHtml_normal | reflexivity].
Qed.

(** C7, as stated, fails.  Whatever plain text mailparser derives for a
    message whose only part is the HTML [<p> Hello </p>], the body text is
    trimmed, and the HTML part with its tags stripped is not. *)
Lemma C7_html_clause_fails : ~ exists render, htmlBodyAsStated render.
Proof.
  intros [render H].
  specialize (H "/w/m.eml" (htmlOnlyMail (render "<p> Hello </p>")) "<p> Hello </p>").
  assert (Hb : Str.trim (htmlTextAsStated "<p> Hello </p>")
               <> htmlTextAsStated "<p> Hello </p>") by (vm_compute; discriminate).
  apply Hb. rewrite <- H; [|split; reflexivity|discriminate].
  apply bodyText_trimmed.
Qed.

(** C7, amended.  The body text is the trimmed [text] that [simpleParser]
    reports when that is not empty; for a message that has an HTML part and
    no plain-text part this is the plain text mailparser derives from the
    HTML part, not the HTML part put through the chain of [replace] calls.
    Only when [text] is absent or empty and [html] is not, the body text is
    [html] put through [stripHtml]: style and script blocks removed, every
    tag replaced by a space, the six entities replaced, every run of
    whitespace collapsed into one space, and the result trimmed, so that
    whitespace only occurs in it as single spaces between other characters;
    an [html] without [<] and [&] that is single-spaced and trimmed already
    is the body text as it is.  In every case the body text is trimmed.  The full content is the header
    block of From, To, CC (when there is one), Subject and Date, closed by
    a line of three dashes, followed by the body text. *)
Theorem C7_body_and_full_content (filepath : string) (parsed : ParsedMail) :
  (truthy (pm_text parsed) = true ->
   email_bodyText (emailOf filepath parsed) = Str.trim (default "" (pm_text parsed)))
  /\ (forall render html,
        reportsHtmlOnly render html parsed ->
        (render html <> "" ->
         email_bodyText (emailOf filepath parsed) = Str.trim (render html))
        /\ (render html = "" -> html <> "" ->
            email_bodyText (emailOf filepath parsed) = stripHtml html))
  /\ (truthy (pm_text parsed) = false -> truthy (pm_html parsed) = true ->
      email_bodyText (emailOf filepath parsed) = stripHtml (default "" (pm_html parsed))
      /\ singleSpaced (email_bodyText (emailOf filepath parsed)) = true
      /\ (markupFree (default "" (pm_html parsed)) = true ->
          singleSpaced (default "" (pm_html parsed)) = true ->
          Str.trim (default "" (pm_html parsed)) = default "" (pm_html parsed) ->
          email_bodyText (emailOf filepath parsed) = default "" (pm_html parsed)))
  /\ Str.trim (email_bodyText (emailOf filepath parsed))
     = email_bodyText (emailOf filepath parsed)
  /\ email_fullContent (emailOf filepath parsed)
     = ("From: " +:+ email_from (emailOf filepath parsed) +:+ LF
        +:+ "To: " +:+ Str.join ", " (email_to (emailOf filepath parsed)) +:+ LF
        +:+ (if (0 <? List.length (email_cc (emailOf filepath parsed)))%nat
             then "CC: " +:+ Str.join ", " (email_cc (emailOf filepath parsed)) +:+ LF
             else "")
        +:+ "Subject: " +:+ email_subject (emailOf filepath parsed) +:+ LF
        +:+ "Date: " +:+ match email_date (emailOf filepath parsed) with
                         | Some d => d
                         | None => "Unknown"
                         end +:+ LF
        +:+ "---")
       +:+ email_bodyText (emailOf filepath parsed).
Proof.
  cbn [emailOf email_bodyText email_fullContent email_from email_to email_cc
       email_subject email_date].
  split; [|split; [|split; [|split]]].
  - intros H. unfold bodyTextOf. now rewrite H.
  - intros render html [Hh Ht]. unfold bodyTextOf. rewrite Ht, Hh.
    cbn [truthy default]. split.
    + intros Hne. destruct (render html); [contradiction | reflexivity].
    + intros -> Hne. cbn [Str.isEmpty negb].
      destruct html; [contradiction | reflexivity].
  - intros H1 H2. unfold bodyTextOf. rewrite H1, H2.
    split; [reflexivity|]. split; [apply stripHtml_normal|].
    intros Hm Hs Ht. rewrite stripHtml_markupFree by assumption.
    unfold replaceAll. now rewrite collapse_id.
  - apply bodyText_trimmed.
  - now rewrite headerBlockOf_eq.
Qed.

Lemma C7_witness :
  reportsHtmlOnly (fun _ => "Hello") "<p> Hello </p>" (htmlOnlyMail "Hello")
  /\ email_bodyText (emailOf "/w/m.eml" (htmlOnlyMail "Hello")) = "Hello"
  /\ reportsHtmlOnly (fun _ => "") "<p> Hello </p>" (htmlOnlyMail "")
  /\ email_bodyText (emailOf "/w/m.eml" (htmlOnlyMail "")) = stripHtml "<p> Hello </p>".
Proof.
  assert (H1 : reportsHtmlOnly (fun _ => "Hello") "<p> Hello </p>" (htmlOnlyMail "Hello"))
    by (split; reflexivity).
  assert (H2 : reportsHtmlOnly (fun _ => "") "<p> Hello </p>" (htmlOnlyMail ""))
    by (split; reflexivity).
  split; [exact H1|]. split; [|split; [exact H2|]].
  - destruct (C7_body_and_full_content "/w/m.eml" (htmlOnlyMail "Hello"))
      as (_ & Hhtml & _).
    destruct (Hhtml _ _ H1) as [Ha _]. rewrite Ha; [reflexivity | discriminate].
  - destruct (C7_body_and_full_content "/w/m.eml" (htmlOnlyMail ""))
      as (_ & Hhtml & _).
    destruct (Hhtml _ _ H2) as [_ Hb]. apply Hb; [reflexivity | discriminate].
Defined.
